(* ===== verification/_CoqProject ===== *)
-Q . S2P
Prelude.v
GoStrings.v
Prog.v
Errors.v
Api.v
Metadata.v
Capacity.v
Sha256.v
Names.v
Retry.v
SnapshotId.v
Identity.v
Ownership.v
Comment.v
Capabilities.v
Common.v
Nfs.v
Smb.v
Block.v
Iscsi.v
Nvmeof.v
Clone.v
Controller.v
Publish.v
Snapshots.v
Backend.v
Lifecycle.v
Deletion.v
Creation.v
CreationFiles.v
CreationBlocks.v
CreationTheorems.v
Expansion.v
Listing.v
SnapshotTheorems.v
IdentityTheorems.v
AdoptionTheorems.v
NodeHost.v
MountInfo.v
MountTheorems.v
NodeLocks.v
NodeRecovery.v
NodeSysfs.v
NodeFiles.v
NodeDevice.v
NodeNvme.v
NodeIscsi.v
NodeHealth.v
NodeService.v
Metrics.v
Server.v
ServerTheorems.v
Dashboard.v
DashboardTheorems.v
NodeQuiet.v
NodeSessions.v
NodeEvidence.v
NodeRpc.v
RecoveryTheorems.v
StagingTheorems.v
SecretsTheorems.v
UnstagingTheorems.v
PublishingTheorems.v
StatsTheorems.v
MountWorld.v
MountTracking.v
NodeCalm.v
NodeLifecycle.v
NodeRefinement.v
NodeOrchestration.v
SingleWriter.v
Answers.v
VolumeContexts.v
Provisioning.v
Statuses.v
NodeStatuses.v
RpcErrors.v
Platform.v
Entry.v
EntryTheorems.v
