(* ===== verification/Prelude.v ===== *)
(** * The nasty-csi driver, verified

    nasty-csi is a Container Storage Interface driver written in Go: an
    orchestrator (Kubernetes) calls it over gRPC to create, delete, expand,
    list, publish and snapshot volumes, and it does so by talking to a storage
    server through the client library [nastyapi], and, on every node, to stage,
    publish and repair them, which it does with the kernel and the tools of the
    host.  This development models the controller and the node service of the
    driver, package src/pkg/driver, with the retry loop of src/pkg/retry and the
    mount table of src/pkg/mount, together with the metrics, the dashboard and
    the life of the process, and proves what the handlers may do and what
    their answers mean, for every behaviour of the storage server and the host.

    ** How the model reads

    A handler is a program ([Prog.prog]): a tree of the interactions it may
    perform with the world, in the order of the code, each followed by what the
    code does with any answer.  The interactions ([Api.cop]) are the methods of
    the backend client the driver calls, the Kubernetes lookup, the clock, the
    random source, the context, the metrics and the identity mutex.  [exec p tr
    o] says that the program [p] can perform the trace [tr] of interactions and
    answers and end with [o]: a Go result, or a panic where the code
    dereferences nil.  The node has an alphabet of its own ([NodeHost.nop]): the
    calls of packages os and filepath, commands with their arguments, the clock,
    pauses, polls of the context, locks, metrics.  Nothing is assumed of an answer beyond its type unless a
    theorem says so.  Go values keep their width: [int64] and [uint64] are
    integers with the wrap-around written out, float64 backoffs are IEEE
    doubles, maps are finite maps that may be nil, strings are byte strings,
    errors carry their text, their wrapped sentinels and their gRPC code.

    Safety is proved with a weakest precondition over histories ([Prog.wp]): a
    [policy] says which interaction is allowed after which history, and
    [wp_sound_allow] and [wp_sound_post] turn a proof about a handler into a
    theorem about all its executions.

    ** The files

    - Prelude, GoStrings, Prog, Errors, Api: the base.  GoStrings has the parts
      of packages strings, strconv and sort the driver uses; Errors the error
      values and their classification (controller.go, controller_snapshot.go);
      Api the CSI messages, the records and operations of the client, and the
      class [NastyAPI] of its constants.
    - Metadata, Capacity, Capabilities: volume IDs, properties, volume context
      and lookups; rounding, limits, expansion plans and the capacity of
      clones; validation of capability lists (controller.go).
    - Sha256, Names: SHA-256, and the backend names of template.go.
    - Retry: retry.go, with the floating-point backoff.
    - SnapshotId, Comment: the textual codecs of snapshot IDs, page tokens and
      share comments.
    - Identity, Ownership: volume_identity.go (decisions, durable writes under
      the mutex, rollback, clones), delete_ownership.go, share_cleanup.go.
    - Common, Nfs, Smb, Block, Iscsi, Nvmeof: the four protocols
      (controller_nfs.go, controller_smb.go, controller_iscsi.go,
      controller_nvmeof.go): create, adopt, delete, expand, inspect.
    - Clone, Controller: creation from snapshots and volumes
      (controller_snapshot_clone.go), and the CSI calls of controller.go.
    - Publish: the controller's own state, the published volumes and the node
      registry (node_registry.go), as state transformers; the mutexes make each
      call one step, so interleavings are sequences of steps.
    - Snapshots: controller_snapshot.go and controller_snapshot_list.go.
    - Backend, Lifecycle: a small storage server that answers as documented and
      executions of the controller against it.  No theorem depends on it; it
      gives the examples and the witnesses of the theorems.
    - NodeHost, MountInfo: the host of a node, and src/pkg/mount.
    - NodeLocks: the per-volume locks of node_lifecycle.go, as a step relation
      of any number of callers.
    - NodeRecovery: the pass of the health monitor (node_recovery.go).
    - NodeSysfs, NodeFiles, NodeDevice, NodeNvme, NodeIscsi, NodeHealth,
      NodeService: node_nvmeof_sysfs.go; the shares (node_nfs.go, node_smb.go);
      devices and the single-writer check (node_device.go, node_publish.go,
      node_nvmeof_device.go); node_nvmeof.go and node_nvmeof_discovery.go;
      node_iscsi.go; node_health.go; the calls of node.go.
    - Metrics, Server, Dashboard: the declared metrics and the updates of
      src/pkg/metrics; the identity service, the creation of the services, the
      interceptor, the start and stop of the servers (driver.go, identity.go,
      dashboard/server.go) and package cmdexec; the dashboard.
    - Platform: the stand-ins of the macOS build (mount_darwin.go,
      node_darwin.go, node_nfs_darwin.go, node_smb_darwin.go).
    - Entry: cmd/nasty-csi-driver/main.go: the flags, main, the goroutine that
      handles the signals, and the two as a step relation; the seeding of the
      capacity metrics (driver.go).
    - NodeQuiet, NodeSessions, NodeEvidence, NodeRpc: the programs that only look
      at the node, what the answers of the shared steps establish, and the
      discipline of the volume lock; the interface between the node's
      components and its theorems is the class [NodeQuiet.QuietPolicy].
    - MountTheorems, RecoveryTheorems, StagingTheorems, SecretsTheorems,
      UnstagingTheorems, PublishingTheorems, StatsTheorems: the specifications
      and theorems of the node.  ServerTheorems, EntryTheorems,
      DashboardTheorems: those of the process and the dashboard.
    - MountWorld, MountTracking, NodeCalm, NodeLifecycle, NodeRefinement,
      NodeOrchestration: the composition of the node's calls.  MountWorld states
      what mount(8), umount(8) and the kernel document about the mount table, as
      a relation between the tables before and after an operation;
      MountTracking is the policy that follows one path through the history of
      a call; NodeCalm and NodeLifecycle prove what each call makes of its path;
      NodeRefinement has the specification, a map of mounts, and the refinement
      of one call; NodeOrchestration that of any sequence of calls and passes,
      and an executable host; SingleWriter adds what the table of the host shows
      to the single-writer check.
    - Answers, Statuses, NodeStatuses, RpcErrors: the values a program can
      answer, the rule-based automation for them, and the type of the errors
      of all RPCs.
    - VolumeContexts, Provisioning: the server in the context of a created
      volume, and the composition of CreateVolume and NodeStageVolume over it.
    - Deletion, Creation, CreationFiles, CreationBlocks, CreationTheorems,
      Expansion, Listing, SnapshotTheorems, IdentityTheorems,
      AdoptionTheorems: the specifications and theorems of the handlers.

    ** What is proved

    - CreateVolume (CreationTheorems): a share, target or subsystem is created
      only for storage that the server showed and that durably carries the
      identity of the request; a rollback deletes only a subvolume this request
      created and that was just read without a complete identity, under the
      mutex; the mutex is taken and released properly, held during every
      property write, and free at the end; success means a shown, owned and
      exposed volume whose capacity fits the request and whose context leads to
      the exposed share, target or subsystem.
    - From creation to staging (Provisioning): staging with the context of a
      created volume reaches only what the server exposes for its storage.
    - DeleteVolume (Deletion): only what is proved to be the driver's is
      destroyed, its presentation first; an uncertain deletion is never
      repeated and at most 13 are sent; success means gone, retained or absent.
    - Adoption and identity (AdoptionTheorems, IdentityTheorems): nothing is
      adopted that is not marked; which existing subvolumes a request may take
      and with which identity; UUIDs are version 4; claims are unambiguous.
    - Expansion (Expansion, Capacity): the size covers the request, is within
      its limit, never shrinks, and is recorded after it was accepted.
    - Snapshots (SnapshotTheorems, SnapshotId): one read-only snapshot of the
      named volume when the name is free; its ID deletes exactly it; the codecs
      round trip.
    - Listing (Listing): following the page tokens enumerates everything once.
    - Publishing (Publish): refinement of a finite map of attachments, and the
      confusion that colons in names cause.
    - Staging (StagingTheorems, SecretsTheorems): only the device that the
      kernel or iscsiadm reported for the volume is mounted, with the right size
      and file system, checked, and mounted nowhere else; nothing is formatted;
      a session is torn down only if the staging path is free or the call made
      the connection; credentials stay in a private file that is removed.
    - Unstaging and publishing (UnstagingTheorems, PublishingTheorems): only the
      staging path is unmounted and removed and only the session behind it ends;
      the target gets the staged volume, read-only as asked, and a single
      writer is published once.
    - Recovery (RecoveryTheorems): only what was seen broken, and not
      recovering, is reset, logged out, remounted or unmounted; the wait for a
      controller and the pass end.
    - The life of volumes on a node (NodeOrchestration): any sequence of staging,
      publishing, unpublishing and unstaging calls and of passes of the health
      monitor, with any outcomes and with other mounts elsewhere, refines a map
      from the paths of the volumes to what is mounted there: every path
      carries one mount at most, no call replaces a mount or touches another
      path, a publication shows what is staged, and a failed call does all or
      nothing.  The unstaging of a block volume goes on where its unmount
      failed, as its comment says, and then answers success:
      [NodeLifecycle.lazy_failed] is that branch of the specification.  A volume
      with a single writer is shown at one target at most at all times, and a
      publication that succeeds is the only one (SingleWriter).
    - Errors of the RPCs (RpcErrors): no call of the three services lets an
      error out that is not a gRPC status, or one whose code is OK or Unknown.
    - Locks (NodeLocks): mutual exclusion, exact counts, and no caller forgotten.
    - The mount table (MountTheorems): the three parsers answer what the table
      of the kernel says, escapes included.
    - The process (ServerTheorems, EntryTheorems): the order of start and stop,
      the interleaving in which a stop is lost, and that main returns only when
      a signal was handled to its end; the metrics (Metrics): no update is one
      the registry refuses; the dashboard (DashboardTheorems)
      answers every request, and binds the volumes of the driver.
    - Statistics (StatsTheorems): bounds and exactness of the 64-bit counts.
    - Names (Names), capacities (Capacity), capabilities (Capabilities),
      comments (Comment), contexts (Metadata), errors (Errors): functional
      correctness of the pure parts.

    ** Assumptions

    The client's constants are parameters ([NastyAPI]); [Identity.NastyAPILaws]
    says that its property keys are distinct and its ownership mark is not
    empty, [Creation.answer_named] that a subvolume is answered under the name it
    was asked for, [Expansion.answer_typed] that sizes are [uint64] values,
    [SnapshotTheorems.answer_present] that a nil error comes with a value.
    text/template ([Names.TextTemplate]) and timestamppb
    ([SnapshotId.Timestamppb]) are parameters.  Every theorem with a hypothesis
    has a witness: a concrete execution where the hypotheses hold.

    Of the host the theorems assume [NodeHost.sane_host]: the error of a polled
    context is Canceled or DeadlineExceeded, the clock does not run back, and a
    pause takes at least its time.  The mount table equivalence is about the
    format that the kernel writes ([MountTheorems.well_formed]).  The composition
    of the node's calls assumes a host as in [MountWorld.world]: a read of the
    table is the table, a mount that succeeds adds one mount at its target and a
    bind mount shows the top of its source, an unmount that succeeds removes the top,
    one that fails changes nothing or did its work, nobody else changes the paths
    of the volumes, and temporary files have no comma in their names; further
    that no path of a volume lies below another, that the flags of a capability do
    not ask for a remount, and that calls and passes do not overlap.  SingleWriter
    assumes in addition that the table of /proc/1 shows the mounts of the volume,
    with clean paths, that no symbolic link leads to the staging path, and that
    what is published is staged, as a mount: for a raw block volume the staging path
    is a link, and [PublishingTheorems] has the check alone.  The type of
    the errors assumes only that a context ends as package context documents
    ([NodeStatuses.context_answers]).

    Recursion is structural: loops run over lists, the retry loop over its number
    of attempts (12 in [DeletionConfig]), and the attempts of the node over
    theirs.  The loops that only the clock ends have fuel, and running out
    of it is a panic, which the theorems exclude: [NodeRecovery.poll_fuel] is
    16 rounds, more than fit in the limit of 30 seconds with pauses of two
    (NodeRecovery, NodeNvme, NodeIscsi).

    ** What is not modelled, and the plan

    Logging and the parameters of contexts (a derived context is the caller's; its
    errors are those of the polls) are not modelled.  Nor are the names that the
    dashboard re-exports (dashboard/aliases.go) and the libraries: the client
    and its dashboard, gRPC, Kubernetes, Prometheus, the parsing of flags.
    Next: the single-writer rule for raw block volumes over the mount table; the
    other calls that hand a context over (publishing, expansion); passes of the health monitor that overlap calls; deeper results about the
    codecs and the expansion on the node. *)

From Stdlib Require Export ZArith NArith Lia Ascii String.
From stdpp Require Export base list strings gmap.

#[export] Set Default Proof Using "Type".

(** ** Scopes and notations *)

Declare Scope csi_scope.
Delimit Scope csi_scope with csi.
#[global] Open Scope string_scope.
#[global] Open Scope list_scope.
#[global] Open Scope Z_scope.

(** ** Hint databases of the development

    [csi] holds the facts about the string and map operations that close the
    side conditions of most proofs; [csi_rw] the equations they rewrite with. *)

Create HintDb csi discriminated.
Create Rewrite HintDb csi_rw.

(** ** Outcomes of fallible Go functions

    A Go function returning [(T, error)] whose callers test [err != nil] and
    drop the value on an error returns [res T]. *)

Section Res.
Context {E : Type}.

Inductive res_of (A : Type) : Type :=
| Ok (a : A)
| Err (e : E).
#[global] Arguments Ok {_} _.
#[global] Arguments Err {_} _.

Definition res_map {A B : Type} (f : A -> B) (r : res_of A) : res_of B :=
  match r with Ok a => Ok (f a) | Err e => Err e end.

Definition is_ok {A : Type} (r : res_of A) : bool :=
  match r with Ok _ => true | Err _ => false end.

Lemma is_ok_true {A : Type} (r : res_of A) : is_ok r = true -> exists a, r = Ok a.
Proof. destruct r as [a|e]; simpl; intros; [by exists a|discriminate]. Qed.
End Res.
Arguments res_of : clear implicits.

(** [x <-? r ;; k] is Go's [x, err := r; if err != nil { return err }; k]. *)
Notation "x <-? r ;; k" :=
  (match r with Ok x => k | Err e_ => Err e_ end)
    (at level 100, r at next level, right associativity) : csi_scope.
Open Scope csi_scope.

(** ** Tactics *)

(** Case analysis on the scrutinee of a [match] in the goal or hypotheses. *)
Ltac case_goal :=
  match goal with
  | |- context [match ?x with _ => _ end] => destruct x eqn:?
  end.

Ltac case_hyp H :=
  match type of H with
  | context [match ?x with _ => _ end] => destruct x eqn:?
  end.

(** Turns boolean tests of the model into the propositions they decide. *)
Ltac bool_to_prop :=
  repeat match goal with
  | H : (_ && _)%bool = true |- _ => apply andb_true_iff in H; destruct H
  | H : (_ || _)%bool = false |- _ => apply orb_false_iff in H; destruct H
  | H : negb _ = true |- _ => apply negb_true_iff in H
  | H : negb _ = false |- _ => apply negb_false_iff in H
  | H : String.eqb _ _ = true |- _ => apply String.eqb_eq in H
  | H : String.eqb _ _ = false |- _ => apply String.eqb_neq in H
  | H : (_ <? _) = true |- _ => apply Z.ltb_lt in H
  | H : (_ <? _) = false |- _ => apply Z.ltb_ge in H
  | H : (_ <=? _) = true |- _ => apply Z.leb_le in H
  | H : (_ <=? _) = false |- _ => apply Z.leb_gt in H
  | H : (_ =? _) = true |- _ => apply Z.eqb_eq in H
  | H : (_ =? _) = false |- _ => apply Z.eqb_neq in H
  | H : bool_decide _ = true |- _ => apply bool_decide_eq_true in H
  | H : bool_decide _ = false |- _ => apply bool_decide_eq_false in H
  end.

(** Inverts equations between constructors of outcomes. *)
Ltac inv_res :=
  repeat match goal with
  | H : Ok _ = Err _ |- _ => discriminate H
  | H : Err _ = Ok _ |- _ => discriminate H
  | H : Ok _ = Ok _ |- _ => injection H as H; subst
  | H : Err _ = Err _ |- _ => injection H as H; subst
  | H : Some _ = Some _ |- _ => injection H as H; subst
  | H : Some _ = None |- _ => discriminate H
  | H : None = Some _ |- _ => discriminate H
  end.

(** ** Machine integers

    Go's [int] is 64 bits wide on every platform the driver is built for
    (Dockerfile: linux/amd64 and linux/arm64). *)

Definition int64_max : Z := 2 ^ 63 - 1.
Definition int64_min : Z := - 2 ^ 63.
Definition uint64_max : Z := 2 ^ 64 - 1.

Definition is_int64 (z : Z) : Prop := int64_min <= z <= int64_max.
Definition is_uint64 (z : Z) : Prop := 0 <= z <= uint64_max.

(** Conversions and arithmetic wrap around as in Go. *)
Definition to_int64 (z : Z) : Z := (z + 2 ^ 63) mod 2 ^ 64 - 2 ^ 63.
Definition to_uint64 (z : Z) : Z := z mod 2 ^ 64.
Definition add64 (a b : Z) : Z := to_int64 (a + b).
Definition sub64 (a b : Z) : Z := to_int64 (a - b).
Definition mul64 (a b : Z) : Z := to_int64 (a * b).
(** Go's [/] truncates toward zero. *)
Definition div64 (a b : Z) : Z := to_int64 (Z.quot a b).

Lemma to_int64_id z : is_int64 z -> to_int64 z = z.
Proof. unfold is_int64, to_int64, int64_min, int64_max. intros. rewrite Z.mod_small; lia. Qed.

Lemma to_uint64_id z : is_uint64 z -> to_uint64 z = z.
Proof. unfold is_uint64, to_uint64, uint64_max. intros. rewrite Z.mod_small; lia. Qed.

(** Wrapping an intermediate result changes nothing: [+] and [-] are ring
    operations modulo [2^64]. *)
Lemma to_int64_sub_l x y : to_int64 (to_int64 x - y) = to_int64 (x - y).
Proof.
  unfold to_int64. f_equal.
  replace ((x + 2 ^ 63) mod 2 ^ 64 - 2 ^ 63 - y + 2 ^ 63) with ((x + 2 ^ 63) mod 2 ^ 64 - y) by lia.
  replace (x - y + 2 ^ 63) with (x + 2 ^ 63 - y) by lia.
  apply Zminus_mod_idemp_l.
Qed.

Lemma to_int64_range z : is_int64 (to_int64 z).
Proof.
  unfold is_int64, to_int64, int64_min, int64_max.
  pose proof (Z.mod_pos_bound (z + 2 ^ 63) (2 ^ 64) ltac:(lia)). lia.
Qed.

Lemma to_uint64_range z : is_uint64 (to_uint64 z).
Proof.
  unfold is_uint64, to_uint64, uint64_max.
  pose proof (Z.mod_pos_bound z (2 ^ 64) ltac:(lia)). lia.
Qed.

#[export] Hint Resolve to_int64_range to_uint64_range : csi.

(** ** Lists *)

Lemma find_some_elem {A : Type} (f : A -> bool) (l : list A) x :
  List.find f l = Some x -> x ∈ l /\ f x = true.
Proof. intros H%List.find_some. by rewrite list_elem_of_In. Qed.

Lemma find_none_forall {A : Type} (f : A -> bool) (l : list A) :
  List.find f l = None -> forall x, x ∈ l -> f x = false.
Proof. intros H x Hx. rewrite list_elem_of_In in Hx. eapply List.find_none; eauto. Qed.
