(* ===== verification/GoStrings.v ===== *)
(** * The Go standard library's string functions used by the driver

    A Go [string] is a sequence of bytes, here Rocq's [string] of 8-bit
    characters.  Each function below is the package [strings] or [strconv]
    function of the same name, restricted to what the driver calls it with
    (named in the comments).  A result of -1 is [None]. *)

From Stdlib Require Import DecimalString DecimalN DecimalFacts.
From S2P Require Import Prelude.

(** ** Slices [s[n:]] and [s[:n]] *)

Fixpoint str_drop (n : nat) (s : string) : string :=
  match n, s with
  | O, _ => s
  | S n', String _ s' => str_drop n' s'
  | S _, EmptyString => EmptyString
  end.

Fixpoint str_take (n : nat) (s : string) : string :=
  match n, s with
  | O, _ => EmptyString
  | S n', String c s' => String c (str_take n' s')
  | S _, EmptyString => EmptyString
  end.

Definition str_len (s : string) : nat := String.length s.

(** [strings.HasPrefix] *)
Definition HasPrefix (s p : string) : bool := String.prefix p s.

(** [strings.Index]: the offset of the first occurrence of [sub]. *)
Fixpoint Index (s sub : string) : option nat :=
  if String.prefix sub s then Some 0%nat
  else match s with
       | EmptyString => None
       | String _ s' => option_map S (Index s' sub)
       end.

(** [strings.LastIndex] *)
Fixpoint LastIndex (s sub : string) : option nat :=
  match s with
  | EmptyString => if String.prefix sub s then Some 0%nat else None
  | String _ s' =>
      match LastIndex s' sub with
      | Some i => Some (S i)
      | None => if String.prefix sub s then Some 0%nat else None
      end
  end.

(** [strings.Contains] *)
Definition Contains (s sub : string) : bool :=
  match Index s sub with Some _ => true | None => false end.

(** [strings.HasSuffix] *)
Definition HasSuffix (s suf : string) : bool :=
  (str_len suf <=? str_len s)%nat && String.eqb (str_drop (str_len s - str_len suf) s) suf.

Fixpoint str_mem (c : ascii) (cutset : string) : bool :=
  match cutset with
  | EmptyString => false
  | String d cs => Ascii.eqb c d || str_mem c cs
  end.

(** [strings.TrimLeft], [strings.TrimRight], [strings.Trim] with an ASCII cutset *)
Fixpoint TrimLeft (s cutset : string) : string :=
  match s with
  | EmptyString => EmptyString
  | String c s' => if str_mem c cutset then TrimLeft s' cutset else s
  end.

Fixpoint TrimRight (s cutset : string) : string :=
  match s with
  | EmptyString => EmptyString
  | String c s' =>
      match TrimRight s' cutset with
      | EmptyString => if str_mem c cutset then EmptyString else String c EmptyString
      | t => String c t
      end
  end.

Definition Trim (s cutset : string) : string := TrimRight (TrimLeft s cutset) cutset.

Definition chr (n : nat) : ascii := ascii_of_nat n.

(** The ASCII white space of [unicode.IsSpace]. *)
Definition ascii_spaces : string :=
  String (chr 9) (String (chr 10) (String (chr 11) (String (chr 12) (String (chr 13) (String (chr 32) EmptyString))))).

(** The other white space in UTF-8: U+0085 and U+00A0 in two bytes; U+1680,
    U+2000 to U+200A, U+2028, U+2029, U+202F, U+205F and U+3000 in three. *)
Definition space2 (c d : ascii) : bool :=
  (nat_of_ascii c =? 194)%nat && ((nat_of_ascii d =? 133)%nat || (nat_of_ascii d =? 160)%nat).

Definition space3 (c d e : ascii) : bool :=
  let '(c, d, e) := (nat_of_ascii c, nat_of_ascii d, nat_of_ascii e) in
  ((c =? 225) && (d =? 154) && (e =? 128) ||
   (c =? 226) && ((d =? 128) && ((128 <=? e) && (e <=? 138) || (e =? 168) || (e =? 169) || (e =? 175)) || (d =? 129) && (e =? 159)) ||
   (c =? 227) && (d =? 128) && (e =? 128))%nat.

(** The bytes of the white space at the head of a text, 0 if it has none there.
    The first byte of such a sequence occurs inside no other, so looking at any
    position finds what decoding the runes finds. *)
Definition space_width (s : string) : nat :=
  match s with
  | EmptyString => 0
  | String c rest =>
      if str_mem c ascii_spaces then 1
      else match rest with
           | EmptyString => 0
           | String d rest =>
               if space2 c d then 2
               else match rest with
                    | EmptyString => 0
                    | String e _ => if space3 c d e then 3 else 0
                    end
           end
  end%nat.

(** The text without its first runes of white space: [n] more bytes belong to
    the one that was found. *)
Fixpoint skip_spaces (s : string) (n : nat) : string :=
  match s with
  | EmptyString => EmptyString
  | String c s' =>
      match n with
      | S n => skip_spaces s' n
      | O => match space_width s with O => s | S n => skip_spaces s' n end
      end
  end.

(** Up to the first position from which there is white space only. *)
Fixpoint drop_last_spaces (s : string) : string :=
  match s with
  | EmptyString => EmptyString
  | String c s' => if String.eqb (skip_spaces s 0) "" then EmptyString else String c (drop_last_spaces s')
  end.

(** [strings.TrimSpace] *)
Definition TrimSpace (s : string) : string := drop_last_spaces (skip_spaces s 0).

(** The words up to the next white space; [cur] is the one that is being read,
    and [n] bytes of white space are still to be skipped. *)
Fixpoint fields_from (s cur : string) (n : nat) : list string :=
  let word := if String.eqb cur "" then [] else [cur] in
  match s with
  | EmptyString => word
  | String c s' =>
      match n with
      | S n => fields_from s' cur n
      | O => match space_width s with
             | O => fields_from s' (cur +:+ String c "") 0
             | S n => word ++ fields_from s' "" n
             end
      end
  end.

(** [strings.Fields] *)
Definition Fields (s : string) : list string := fields_from s "" 0.

Example space_examples :
  let nbsp := String (chr 194) (String (chr 160) "") in
  let ideographic := String (chr 227) (String (chr 128) (String (chr 128) "")) in
  TrimSpace (" " +:+ nbsp +:+ "a" +:+ ideographic +:+ "b" +:+ ideographic +:+ String (chr 10) nbsp) = "a" +:+ ideographic +:+ "b" /\
  Fields (nbsp +:+ "a" +:+ ideographic +:+ " b" +:+ String (chr 194) "" +:+ String (chr 9) "c") = ["a"; "b" +:+ String (chr 194) ""; "c"].
Proof. vm_compute. split; reflexivity. Qed.

(** ** Text without white space *)

Fixpoint spaceless (s : string) : bool :=
  match s with
  | EmptyString => true
  | String _ s' => (space_width s =? 0)%nat && spaceless s'
  end.

(** A text that starts with no continuation byte. *)
Definition ascii_start (s : string) : bool :=
  match s with EmptyString => true | String c _ => (nat_of_ascii c <? 128)%nat end.

Lemma space2_second c d : (nat_of_ascii d <? 128)%nat = true -> space2 c d = false.
Proof. intros H%Nat.ltb_lt. unfold space2. destruct (Nat.eqb_spec (nat_of_ascii d) 133), (Nat.eqb_spec (nat_of_ascii d) 160); try lia; apply andb_false_r. Qed.

Lemma space3_second c d e : (nat_of_ascii d <? 128)%nat = true -> space3 c d e = false.
Proof.
  intros H%Nat.ltb_lt. unfold space3.
  destruct (Nat.eqb_spec (nat_of_ascii d) 154), (Nat.eqb_spec (nat_of_ascii d) 128), (Nat.eqb_spec (nat_of_ascii d) 129); try lia;
    by rewrite !andb_false_r.
Qed.

Lemma space3_third c d e : (nat_of_ascii e <? 128)%nat = true -> space3 c d e = false.
Proof.
  intros H%Nat.ltb_lt. unfold space3.
  destruct (Nat.eqb_spec (nat_of_ascii e) 128), (Nat.eqb_spec (nat_of_ascii e) 168), (Nat.eqb_spec (nat_of_ascii e) 169),
    (Nat.eqb_spec (nat_of_ascii e) 175), (Nat.eqb_spec (nat_of_ascii e) 159), (Nat.leb_spec 128 (nat_of_ascii e)); try lia;
    by rewrite ?orb_false_r, ?andb_false_r.
Qed.

(** [strings.Split] with a one-byte separator *)
Fixpoint Split (s : string) (sep : ascii) : list string :=
  match s with
  | EmptyString => [EmptyString]
  | String c s' =>
      if Ascii.eqb c sep then EmptyString :: Split s' sep
      else match Split s' sep with
           | [] => [String c EmptyString]
           | w :: ws => String c w :: ws
           end
  end.

(** [strings.SplitN] with a one-byte separator and [n = 2] *)
Definition SplitN2 (s : string) (sep : ascii) : string * option string :=
  match Index s (String sep EmptyString) with
  | None => (s, None)
  | Some i => (str_take i s, Some (str_drop (S i) s))
  end.

(** [strings.Join] *)
Fixpoint Join (l : list string) (sep : string) : string :=
  match l with
  | [] => EmptyString
  | [w] => w
  | w :: ws => w +:+ sep +:+ Join ws sep
  end.

Definition in_range (lo hi c : nat) : bool := (lo <=? c)%nat && (c <=? hi)%nat.

Definition lower_ascii (c : ascii) : ascii :=
  let n := nat_of_ascii c in if in_range 65 90 n then chr (n + 32) else c.

(** [strings.ToLower] on ASCII letters.  The driver only searches the result
    for ASCII text; the two non-ASCII characters whose lower case is an ASCII
    letter (U+0130 and U+212A) are left as they are. *)
Fixpoint ToLower (s : string) : string :=
  match s with
  | EmptyString => EmptyString
  | String c s' => String (lower_ascii c) (ToLower s')
  end.

(** [strings.EqualFold] against a string whose letters fold within ASCII *)
Definition EqualFold (s t : string) : bool := String.eqb (ToLower s) (ToLower t).

(** ** Lexicographic byte order ([<] on strings, [sort.Strings]) *)

Fixpoint str_ltb (s t : string) : bool :=
  match s, t with
  | _, EmptyString => false
  | EmptyString, String _ _ => true
  | String c s', String d t' =>
      if (nat_of_ascii c <? nat_of_ascii d)%nat then true
      else if Ascii.eqb c d then str_ltb s' t' else false
  end.

Section Sorting.
Context {A : Type} (key : A -> string).

(** A stable insertion sort by [key]: what [sort.Strings] and [sort.Slice]
    return is determined up to the order of equal keys. *)
Fixpoint insert_by (x : A) (l : list A) : list A :=
  match l with
  | [] => [x]
  | y :: l' => if str_ltb (key y) (key x) then y :: insert_by x l' else x :: l
  end.

Fixpoint sort_by (l : list A) : list A :=
  match l with
  | [] => []
  | x :: l' => insert_by x (sort_by l')
  end.

Lemma insert_by_perm x l : insert_by x l ≡ₚ x :: l.
Proof.
  induction l as [|y l IH]; simpl; [done|].
  destruct (str_ltb (key y) (key x)); [|done].
  rewrite IH. apply Permutation_swap.
Qed.

Lemma sort_by_perm l : sort_by l ≡ₚ l.
Proof. induction l as [|x l IH]; simpl; [done|]. by rewrite insert_by_perm, IH. Qed.

Lemma sort_by_length l : length (sort_by l) = length l.
Proof. apply Permutation_length, sort_by_perm. Qed.
End Sorting.

(** ** [strconv] *)

(** [strconv.FormatUint(n, 10)] *)
Definition FormatN (n : N) : string := NilZero.string_of_uint (N.to_uint n).

(** [strconv.FormatInt(z, 10)], [strconv.Itoa] and the verb [%d] *)
Definition FormatInt (z : Z) : string :=
  if z <? 0 then "-" +:+ FormatN (Z.to_N (- z)) else FormatN (Z.to_N z).

(** Decimal digits only, at least one. *)
Definition parse_digits (s : string) : option N :=
  match NilZero.uint_of_string s with
  | Some d => Some (N.of_uint d)
  | None => None
  end.

(** [strconv.ParseUint(s, 10, bits)] *)
Definition ParseUint (s : string) (bits : Z) : option Z :=
  match parse_digits s with
  | Some n => if Z.of_N n <? 2 ^ bits then Some (Z.of_N n) else None
  | None => None
  end.

Definition parse_bounded (neg : bool) (t : string) : option Z :=
  match parse_digits t with
  | Some n =>
      let z := if neg then - Z.of_N n else Z.of_N n in
      if (int64_min <=? z) && (z <=? int64_max) then Some z else None
  | None => None
  end.

(** [strconv.ParseInt(s, 10, 64)] and [strconv.Atoi] *)
Definition ParseInt (s : string) : option Z :=
  match s with
  | EmptyString => None
  | String c t =>
      if Ascii.eqb c "-" then parse_bounded true t
      else if Ascii.eqb c "+" then parse_bounded false t
      else parse_bounded false s
  end.

(** The verb [%q]: [strconv.Quote] of a string of printable characters;
    control characters become escapes, bytes above 127 stand for themselves. *)
Definition quote_char : ascii := chr 34.
Definition hex_digit (n : nat) : ascii := if (n <? 10)%nat then chr (48 + n) else chr (87 + n).

Definition quote_byte (c : ascii) : string :=
  let n := nat_of_ascii c in
  let esc (d : ascii) := String "\"%char (String d EmptyString) in
  if Ascii.eqb c quote_char then esc quote_char
  else if Ascii.eqb c "\"%char then esc "\"%char
  else if (n =? 7)%nat then esc "a"%char else if (n =? 8)%nat then esc "b"%char
  else if (n =? 9)%nat then esc "t"%char else if (n =? 10)%nat then esc "n"%char
  else if (n =? 11)%nat then esc "v"%char else if (n =? 12)%nat then esc "f"%char
  else if (n =? 13)%nat then esc "r"%char
  else if (n <? 32)%nat || (n =? 127)%nat
       then "\x" +:+ String (hex_digit (n / 16)) (String (hex_digit (n mod 16)) EmptyString)
       else String c EmptyString.

Fixpoint quote_body (s : string) : string :=
  match s with
  | EmptyString => EmptyString
  | String c s' => quote_byte c +:+ quote_body s'
  end.

Definition Quote (s : string) : string :=
  String quote_char (quote_body s +:+ String quote_char EmptyString).

(** ** Facts *)

Lemma str_nil_app t : "" +:+ t = t.
Proof. done. Qed.

Lemma str_cons_app c s t : String c s +:+ t = String c (s +:+ t).
Proof. done. Qed.

#[export] Hint Rewrite str_nil_app str_cons_app : csi_rw.
Ltac str_norm := autorewrite with csi_rw; simpl.

Lemma str_app_nil_r s : s +:+ "" = s.
Proof. induction s; str_norm; congruence. Qed.

Lemma str_app_assoc s t u : (s +:+ t) +:+ u = s +:+ (t +:+ u).
Proof. induction s; str_norm; congruence. Qed.

Lemma str_app_inj_l s t u : s +:+ t = s +:+ u -> t = u.
Proof. induction s; str_norm; intros H; [done|]. injection H. auto. Qed.

Lemma str_app_length s t : str_len (s +:+ t) = (str_len s + str_len t)%nat.
Proof. unfold str_len. induction s; str_norm; congruence. Qed.

Lemma Split_append a b sep : Split (a +:+ String sep b) sep = Split a sep ++ Split b sep.
Proof.
  induction a as [|d a IH]; [rewrite str_nil_app; cbn [Split]; by rewrite Ascii.eqb_refl|].
  rewrite str_cons_app. cbn [Split]. rewrite IH. destruct (Ascii.eqb d sep); [done|].
  assert (exists w ws, Split a sep = w :: ws) as (w & ws & ->); [|done].
  destruct a as [|c a]; cbn [Split]; [eauto|]. destruct (Ascii.eqb c sep); [eauto|]. destruct (Split a sep); eauto.
Qed.

Lemma str_take_app s t : str_take (str_len s) (s +:+ t) = s.
Proof. unfold str_len. induction s; str_norm; [by destruct t|congruence]. Qed.

Lemma str_drop_app s t : str_drop (str_len s) (s +:+ t) = t.
Proof. unfold str_len. induction s; str_norm; congruence. Qed.

Lemma str_take_drop n s : str_take n s +:+ str_drop n s = s.
Proof. revert s. induction n; intros [|c s]; simpl; str_norm; auto. by rewrite IHn. Qed.

Lemma str_take_length n s : (str_len (str_take n s) <= n)%nat.
Proof.
  revert s. unfold str_len. induction n; intros [|c s]; simpl; try lia.
  pose proof (IHn s). lia.
Qed.

Lemma str_take_length_eq n s : (n <= str_len s)%nat -> str_len (str_take n s) = n.
Proof.
  revert s. unfold str_len. induction n; intros [|c s]; simpl; intros H; try lia.
  rewrite IHn; lia.
Qed.

Lemma prefix_single c s : String.prefix (String c "") s = match s with String d _ => bool_decide (c = d) | _ => false end.
Proof. destruct s as [|d s]; simpl; [done|]. destruct (ascii_dec c d); case_bool_decide; destruct s; done. Qed.

(** The character [c] does not occur in [s]. *)
Definition str_free (c : ascii) (s : string) : bool := negb (str_mem c s).

Lemma str_mem_app c s t : str_mem c (s +:+ t) = str_mem c s || str_mem c t.
Proof. induction s; str_norm; [done|]. by rewrite IHs, orb_assoc. Qed.

Lemma Index_first c s t :
  str_mem c s = false -> Index (s +:+ String c t) (String c "") = Some (str_len s).
Proof.
  induction s as [|d s IH]; intros H.
  - simpl. destruct (ascii_dec c c); [|done]. by destruct t.
  - simpl in H. apply orb_false_iff in H as [H1 H2].
    change (String d s +:+ String c t) with (String d (s +:+ String c t)).
    unfold Index; fold Index. rewrite prefix_single.
    rewrite bool_decide_eq_false_2 by (intros ->; by rewrite Ascii.eqb_refl in H1).
    by rewrite IH.
Qed.

Lemma Index_absent c s : str_mem c s = false <-> Index s (String c "") = None.
Proof.
  induction s as [|d s IH]; [done|].
  unfold Index; fold Index. rewrite prefix_single. simpl.
  case_bool_decide as E.
  - subst. rewrite Ascii.eqb_refl. done.
  - destruct (Ascii.eqb_spec c d) as [->|_]; [done|]. simpl. rewrite IH.
    destruct (Index s _); simpl; intuition discriminate.
Qed.

Lemma Contains_mem c s : Contains s (String c "") = str_mem c s.
Proof.
  unfold Contains. destruct (Index s (String c "")) eqn:E.
  - destruct (str_mem c s) eqn:F; [done|]. apply Index_absent in F. congruence.
  - apply Index_absent in E. done.
Qed.

Lemma Index_split c s i :
  Index s (String c "") = Some i ->
  s = str_take i s +:+ String c (str_drop (S i) s) /\ str_mem c (str_take i s) = false.
Proof.
  revert i. induction s as [|d s IH]; intros i; [done|].
  unfold Index; fold Index. rewrite prefix_single. case_bool_decide as E.
  - intros [= <-]. subst. done.
  - destruct (Index s _) as [j|] eqn:F; [|done]. simpl. intros [= <-].
    destruct (IH j eq_refl) as [H1 H2]. split.
    + exact (f_equal (String d) H1).
    + cbn [str_take str_mem]. apply orb_false_iff. split; [by apply Ascii.eqb_neq|done].
Qed.

Lemma Index_lt c s i : Index s (String c "") = Some i -> (i < str_len s)%nat.
Proof.
  unfold str_len. revert i. induction s as [|d s IH]; intros i; [done|].
  unfold Index; fold Index. rewrite prefix_single. case_bool_decide.
  - intros [= <-]. simpl. lia.
  - destruct (Index s _) as [j|]; simpl; [|done]. intros [= <-].
    pose proof (IH j eq_refl). lia.
Qed.

(** The length of the part before the separator and of the part after it. *)
Lemma Index_lengths c s i :
  Index s (String c "") = Some i ->
  str_len (str_take i s) = i /\ str_len s = (i + S (str_len (str_drop (S i) s)))%nat.
Proof.
  intros H. pose proof (Index_lt _ _ _ H) as Hlt.
  assert (str_len (str_take i s) = i) as Ht by (apply str_take_length_eq; lia).
  split; [done|]. apply Index_split in H as [H _].
  rewrite H at 1. by rewrite str_app_length, Ht.
Qed.

Lemma LastIndex_last c s t :
  str_mem c t = false -> LastIndex (s +:+ String c t) (String c "") = Some (str_len s).
Proof.
  assert (Habs : forall t, str_mem c t = false -> LastIndex t (String c "") = None).
  { clear t. induction t as [|d t IH]; intros H; [done|].
    simpl in H. apply orb_false_iff in H as [H1 H2].
    unfold LastIndex; fold LastIndex. rewrite IH by done. rewrite prefix_single.
    rewrite bool_decide_eq_false_2; [done|]. intros ->. by rewrite Ascii.eqb_refl in H1. }
  intros H. induction s as [|d s IH].
  - change ("" +:+ String c t) with (String c t).
    unfold LastIndex; fold LastIndex. rewrite Habs by done. rewrite prefix_single.
    by rewrite bool_decide_eq_true_2.
  - change (String d s +:+ String c t) with (String d (s +:+ String c t)).
    unfold LastIndex; fold LastIndex. by rewrite IH.
Qed.

Lemma LastIndex_split c s i :
  LastIndex s (String c "") = Some i ->
  s = str_take i s +:+ String c (str_drop (S i) s) /\ str_mem c (str_drop (S i) s) = false.
Proof.
  revert i. induction s as [|d s IH]; intros i; [done|].
  unfold LastIndex; fold LastIndex. destruct (LastIndex s _) as [j|] eqn:F.
  - intros [= <-]. destruct (IH j eq_refl) as [H1 H2]. split; [|done].
    exact (f_equal (String d) H1).
  - rewrite prefix_single. case_bool_decide as E; [|done]. intros [= <-]. subst.
    split; [done|]. simpl. clear IH.
    induction s as [|e s IHs]; [done|]. revert F.
    unfold LastIndex; fold LastIndex. destruct (LastIndex s _) eqn:G; [done|].
    rewrite prefix_single. case_bool_decide as E'; [done|]. intros _. simpl.
    apply orb_false_iff. split; [by apply Ascii.eqb_neq|]. by apply IHs.
Qed.

Lemma HasSuffix_app s t : HasSuffix (s +:+ t) t = true.
Proof.
  unfold HasSuffix. rewrite str_app_length. apply andb_true_iff. split.
  - apply Nat.leb_le. lia.
  - rewrite Nat.add_sub, str_drop_app. apply String.eqb_refl.
Qed.

Lemma HasPrefix_app s t : HasPrefix (s +:+ t) s = true.
Proof.
  unfold HasPrefix. induction s as [|c s IH]; [by destruct t|]. simpl.
  destruct (ascii_dec c c); [done|congruence].
Qed.

Lemma HasPrefix_split s p : HasPrefix s p = true <-> exists t, s = p +:+ t.
Proof.
  unfold HasPrefix. revert s. induction p as [|c p IH]; intros s.
  - split; [|by destruct s]. intros _. by exists s.
  - destruct s as [|d s]; [split; [done|by intros [? [=]]]|]. simpl.
    setoid_rewrite str_cons_app.
    destruct (ascii_dec c d) as [->|N].
    + rewrite IH. split; intros [t Ht]; exists t; congruence.
    + split; [done|]. intros [t Ht]. congruence.
Qed.

(** Trimming. *)
Lemma TrimLeft_head s cut :
  match TrimLeft s cut with EmptyString => True | String c _ => str_mem c cut = false end.
Proof. induction s as [|c s IH]; simpl; [done|]. destruct (str_mem c cut) eqn:E; done. Qed.

Lemma TrimRight_nil s cut : TrimRight s cut = "" -> forall c, str_mem c s = true -> str_mem c cut = true.
Proof.
  induction s as [|d s IH]; simpl; [done|]. destruct (TrimRight s cut) eqn:E; [|done].
  destruct (str_mem d cut) eqn:F; [|done]. intros _ c. rewrite orb_true_iff.
  intros [->%Ascii.eqb_eq|H]; [done|]. by apply IH.
Qed.

Lemma TrimRight_prefix s cut : exists t, s = TrimRight s cut +:+ t.
Proof.
  induction s as [|c s [t IH]]; simpl; [by exists ""|].
  destruct (TrimRight s cut) as [|d u] eqn:E.
  - destruct (str_mem c cut); [by exists (String c s)|]. exists t. rewrite str_cons_app. by rewrite <- IH.
  - exists t. rewrite IH at 1. done.
Qed.

Lemma TrimRight_length s cut : (str_len (TrimRight s cut) <= str_len s)%nat.
Proof. destruct (TrimRight_prefix s cut) as [t Ht]. rewrite Ht at 2. rewrite str_app_length. lia. Qed.

(** Numbers. *)
Lemma parse_format_N n : parse_digits (FormatN n) = Some n.
Proof.
  unfold parse_digits, FormatN.
  assert (N.to_uint n <> Decimal.Nil) as Hn.
  { intros E. assert (N.of_uint (N.to_uint n) = n) as H by apply Unsigned.of_to.
    rewrite E in H. simpl in H. subst. discriminate E. }
  rewrite NilZero.usu by done. by rewrite Unsigned.of_to.
Qed.

Lemma ParseUint_FormatInt z bits : 0 <= z < 2 ^ bits -> ParseUint (FormatInt z) bits = Some z.
Proof.
  intros [H1 H2]. unfold FormatInt, ParseUint.
  destruct (Z.ltb_spec z 0); [lia|]. rewrite parse_format_N, Z2N.id by lia.
  by rewrite (proj2 (Z.ltb_lt _ _) H2).
Qed.

Lemma ParseUint_range s bits z : ParseUint s bits = Some z -> 0 <= z < 2 ^ bits.
Proof.
  unfold ParseUint. destruct (parse_digits s); [|done].
  destruct (Z.ltb_spec (Z.of_N n) (2 ^ bits)); [|done]. intros [= <-]. lia.
Qed.

Lemma FormatN_head n : exists c s, FormatN n = String c s /\ c <> "-"%char /\ c <> "+"%char.
Proof.
  unfold FormatN, NilZero.string_of_uint. destruct (N.to_uint n); simpl; by eexists _, _.
Qed.

Lemma parse_bounded_FormatN neg n :
  is_int64 (if neg : bool then - Z.of_N n else Z.of_N n) ->
  parse_bounded neg (FormatN n) = Some (if neg then - Z.of_N n else Z.of_N n).
Proof.
  intros [H1 H2]. unfold parse_bounded. rewrite parse_format_N. simpl.
  by rewrite (proj2 (Z.leb_le _ _) H1), (proj2 (Z.leb_le _ _) H2).
Qed.

Lemma ParseInt_FormatInt z : is_int64 z -> ParseInt (FormatInt z) = Some z.
Proof.
  intros Hz. unfold FormatInt. destruct (Z.ltb_spec z 0).
  - rewrite str_cons_app, str_nil_app. simpl.
    rewrite parse_bounded_FormatN; rewrite Z2N.id by lia; [f_equal; lia|].
    by rewrite Z.opp_involutive.
  - destruct (FormatN_head (Z.to_N z)) as (c & s & E & Hm & Hp). rewrite E. simpl.
    rewrite (proj2 (Ascii.eqb_neq _ _) Hm), (proj2 (Ascii.eqb_neq _ _) Hp), <- E.
    rewrite parse_bounded_FormatN; rewrite Z2N.id by lia; done.
Qed.

Lemma ParseInt_range s z : ParseInt s = Some z -> is_int64 z.
Proof.
  unfold ParseInt, parse_bounded, is_int64. intros H.
  repeat case_hyp H; simplify_eq; bool_to_prop; lia.
Qed.
