(* ===== verification/Prog.v ===== *)
(** * Effectful programs

    The driver's handlers talk to the world through a fixed set of operations:
    the backend client, the clock, the random source, the Kubernetes client,
    the metrics registry and a mutex.  A handler is modelled as a [prog], a tree
    of operations and continuations over a [signature]: an interaction may
    answer anything of its type, so a theorem about all executions of a program
    holds whatever the backend does.

    - [exec p tr o]: the program [p] can perform the interactions [tr] and end
      with the outcome [o]; Go's nil dereference is the outcome [Panicked].
    - [run h p w]: the execution against a concrete handler [h] with state [w].
    - [wp]: a weakest precondition over the history of interactions, used to
      prove what a program may do and when. *)

From S2P Require Import Prelude.

Record signature : Type := { op : Type; ans : op -> Type }.

Section Prog.
Context {Sg : signature}.

Inductive prog (A : Type) : Type :=
| Ret (a : A)
| Panic
| Vis (o : op Sg) (k : ans Sg o -> prog A).
Arguments Ret {_} _.
Arguments Panic {_}.
Arguments Vis {_} _ _.

Fixpoint bind {A B : Type} (p : prog A) (f : A -> prog B) : prog B :=
  match p with
  | Ret a => f a
  | Panic => Panic
  | Vis o k => Vis o (fun r => bind (k r) f)
  end.

Definition call (o : op Sg) : prog (ans Sg o) := Vis o Ret.

(** A performed interaction and the sequence of them. *)
Definition event : Type := { o : op Sg & ans Sg o }.
Definition ev (o : op Sg) (r : ans Sg o) : event := existT o r.

Inductive outcome (A : Type) : Type :=
| Done (a : A)
| Panicked.
Arguments Done {_} _.
Arguments Panicked {_}.

Inductive exec {A : Type} : prog A -> list event -> outcome A -> Prop :=
| exec_ret a : exec (Ret a) [] (Done a)
| exec_panic : exec Panic [] Panicked
| exec_vis o k r tr out : exec (k r) tr out -> exec (Vis o k) (ev o r :: tr) out.

(** Execution against a handler with state. *)
Section Run.
Context {W : Type} (h : forall o : op Sg, W -> ans Sg o * W).

Fixpoint run {A : Type} (p : prog A) (w : W) : outcome A * W * list event :=
  match p with
  | Ret a => (Done a, w, [])
  | Panic => (Panicked, w, [])
  | Vis o k =>
      let '(r, w1) := h o w in
      let '(out, w2, tr) := run (k r) w1 in
      (out, w2, ev o r :: tr)
  end.

Lemma run_exec {A : Type} (p : prog A) w :
  exec p (run p w).2 (run p w).1.1.
Proof.
  revert w. induction p as [a| |o k IH]; intros w; simpl; try constructor.
  destruct (h o w) as [r w1]. specialize (IH r w1).
  destruct (run (k r) w1) as [[out w2] tr]. by constructor.
Qed.
End Run.

(** Inversion, by the shape of the program. *)
Lemma exec_inv {A : Type} (p : prog A) tr out :
  exec p tr out ->
  match p with
  | Ret a => tr = [] /\ out = Done a
  | Panic => tr = [] /\ out = Panicked
  | Vis o k => exists r tr', tr = ev o r :: tr' /\ exec (k r) tr' out
  end.
Proof. intros []; eauto. Qed.

Lemma exec_bind {A B : Type} (p : prog A) (f : A -> prog B) tr out :
  exec (bind p f) tr out ->
  (exists a tr1 tr2, exec p tr1 (Done a) /\ exec (f a) tr2 out /\ tr = tr1 ++ tr2) \/
  (exec p tr Panicked /\ out = Panicked).
Proof.
  revert tr. induction p as [a| |o k IH]; intros tr H; simpl in H.
  - left. exists a, [], tr. repeat split; [constructor|done].
  - apply exec_inv in H as [-> ->]. right. split; constructor.
  - apply exec_inv in H as (r & t & -> & He).
    apply IH in He as [(a & t1 & t2 & H1 & H2 & ->)|[H1 ->]].
    + left. exists a, (ev o r :: t1), t2. repeat split; [by constructor|done].
    + right. split; [by constructor|done].
Qed.

Lemma exec_bind_intro {A B : Type} (p : prog A) (f : A -> prog B) a tr1 tr2 out :
  exec p tr1 (Done a) -> exec (f a) tr2 out -> exec (bind p f) (tr1 ++ tr2) out.
Proof.
  revert tr1. induction p as [b| |o k IH]; intros tr1 H1 H2.
  - apply exec_inv in H1 as [-> [= ->]]. done.
  - apply exec_inv in H1 as [_ [=]].
  - apply exec_inv in H1 as (r & t & -> & He). simpl. constructor. by apply IH.
Qed.

(** ** Weakest preconditions over histories

    [allow hist o]: the program may perform [o] after [hist];
    [env hist o r]: what is assumed of the answer [r];
    [crash]: whether a panic is tolerated. *)
Record policy : Type := {
  allow : list event -> op Sg -> Prop;
  env : list event -> forall o : op Sg, ans Sg o -> Prop;
  crash : Prop
}.

Fixpoint wp {A : Type} (P : policy) (hist : list event) (p : prog A)
    (post : A -> list event -> Prop) : Prop :=
  match p with
  | Ret a => post a hist
  | Panic => crash P
  | Vis o k =>
      allow P hist o /\
      forall r, env P hist o r -> wp P (hist ++ [ev o r]) (k r) post
  end.

(** The answers of a trace satisfy the assumption of the policy. *)
Fixpoint env_trace (P : policy) (hist tr : list event) : Prop :=
  match tr with
  | [] => True
  | existT o r :: tr' => env P hist o r /\ env_trace P (hist ++ [ev o r]) tr'
  end.

Lemma wp_mono {A : Type} P hist (p : prog A) (Q R : A -> list event -> Prop) :
  (forall a h, Q a h -> R a h) -> wp P hist p Q -> wp P hist p R.
Proof.
  intros HQR. revert hist. induction p as [a| |o k IH]; intros hist; simpl; auto.
  intros [Ha Hk]. split; [done|]. intros r Hr. apply IH, Hk, Hr.
Qed.

Lemma wp_bind {A B : Type} P hist (p : prog A) (f : A -> prog B) post :
  wp P hist p (fun a h => wp P h (f a) post) -> wp P hist (bind p f) post.
Proof.
  revert hist. induction p as [a| |o k IH]; intros hist; simpl; auto.
  intros [Ha Hk]. split; [done|]. intros r Hr. apply IH, Hk, Hr.
Qed.

(** The history only grows. *)
Lemma wp_grows {A : Type} P hist (p : prog A) (Q : A -> list event -> Prop) :
  wp P hist p Q -> wp P hist p (fun a h => Q a h /\ exists t, h = hist ++ t).
Proof.
  revert hist. induction p as [a| |o k IH]; intros hist; simpl; auto.
  - intros H. split; [done|]. exists []. by rewrite app_nil_r.
  - intros [Ha Hk]. split; [done|]. intros r Hr. specialize (IH r _ (Hk r Hr)).
    eapply wp_mono; [|exact IH]. intros a h [HQ [t ->]]. split; [done|].
    exists (ev o r :: t). by rewrite <- app_assoc.
Qed.

(** A specification proved for a callee, used where it is called. *)
Lemma wp_call_spec {A B : Type} P hist (p : prog A) (f : A -> prog B) Q post :
  wp P hist p Q ->
  (forall a t, Q a (hist ++ t) -> wp P (hist ++ t) (f a) post) ->
  wp P hist (bind p f) post.
Proof.
  intros H Hf. apply wp_bind. eapply wp_mono; [|apply wp_grows, H].
  intros a h [HQ [t ->]]. by apply Hf.
Qed.

Lemma wp_and {A : Type} P hist (p : prog A) (Q R : A -> list event -> Prop) :
  wp P hist p Q -> wp P hist p R -> wp P hist p (fun a h => Q a h /\ R a h).
Proof.
  revert hist. induction p as [a| |o k IH]; intros hist; simpl; auto.
  intros [Ha Hk] [_ Hk']. split; [done|]. intros r Hr. apply IH; auto.
Qed.

Lemma app_assoc_reverse_cons (hist : list event) e t : hist ++ e :: t = (hist ++ [e]) ++ t.
Proof. by rewrite <- app_assoc. Qed.

(** Soundness: an execution whose answers satisfy the assumption performs
    only allowed operations and ends as the postcondition says. *)
Lemma wp_sound_post {A : Type} P hist (p : prog A) post tr out :
  wp P hist p post -> exec p tr out -> env_trace P hist tr ->
  match out with Done a => post a (hist ++ tr) | Panicked => crash P end.
Proof.
  intros Hwp He. revert hist Hwp. induction He as [a| |o k r tr out He IH]; intros hist; simpl.
  - intros H _. by rewrite app_nil_r.
  - done.
  - intros [_ Hk] [Hr Ht]. specialize (IH _ (Hk r Hr) Ht).
    by rewrite <- app_assoc in IH.
Qed.

Lemma wp_sound_allow {A : Type} P hist (p : prog A) post tr out :
  wp P hist p post -> exec p tr out -> env_trace P hist tr ->
  forall t1 o r t2, tr = t1 ++ ev o r :: t2 -> allow P (hist ++ t1) o.
Proof.
  intros Hwp He. revert hist Hwp. induction He as [a| |o k r tr out He IH]; intros hist; simpl.
  - intros _ _ [] ? ? ? ?; discriminate.
  - intros _ _ [] ? ? ? ?; discriminate.
  - intros [Ha Hk] [Hr Ht] [|e t1] o' r' t2 E.
    + rewrite app_nil_r. simpl in E. injection E as E1.
      by destruct E1.
    + injection E as E1 E. subst e.
      rewrite app_assoc_reverse_cons. by eapply IH; [apply Hk|..].
Qed.

(** The policy that assumes nothing of the answers. *)
Definition any_env : list event -> forall o : op Sg, ans Sg o -> Prop := fun _ _ _ => True.

Lemma env_trace_any P hist tr :
  env P = any_env -> env_trace P hist tr.
Proof.
  intros E. revert hist. induction tr as [|[o r] tr IH]; intros hist; simpl; [done|].
  split; [by rewrite E|apply IH].
Qed.

(** ** Loops *)

(** [for _, x := range l { body }] where the body may return from the function. *)
Fixpoint for_range {A R : Type} (l : list A) (body : A -> prog (option R)) : prog (option R) :=
  match l with
  | [] => Ret None
  | x :: l' => bind (body x) (fun o => match o with Some r => Ret (Some r) | None => for_range l' body end)
  end.

Lemma wp_for_range {A R : Type} P (I : list A -> list event -> Prop) (l : list A)
    (body : A -> prog (option R)) hist (post : option R -> list event -> Prop) :
  I [] hist ->
  (forall done_ x rest h, l = done_ ++ x :: rest -> I done_ h ->
     wp P h (body x) (fun o h' => match o with Some r => post (Some r) h' | None => I (done_ ++ [x]) h' end)) ->
  (forall h, I l h -> post None h) ->
  wp P hist (for_range l body) post.
Proof.
  intros H0 Hstep Hend.
  assert (forall todo done_ h, l = done_ ++ todo -> I done_ h -> wp P h (for_range todo body) post) as Hgo.
  { induction todo as [|x todo IH]; intros done_ h E HI; simpl.
    - apply Hend. by rewrite E, app_nil_r.
    - apply wp_bind. eapply wp_mono; [|by eapply Hstep].
      intros [r|] h'; simpl; [done|]. intros HI'. eapply IH; [|exact HI'].
      by rewrite <- app_assoc. }
  by apply (Hgo l []).
Qed.
End Prog.

Arguments prog : clear implicits.
Arguments Ret {_ _} _.
Arguments Panic {_ _}.
Arguments Vis {_ _} _ _.
Arguments outcome : clear implicits.
Arguments Done {_} _.
Arguments Panicked {_}.
Arguments event : clear implicits.
Arguments policy : clear implicits.

(** ** Notations: [x <- p ;; k] sequences programs; [x <-! p ;; k] also returns
    early with the error of [p], as [if err != nil { return nil, err }]. *)

Notation "x <- p ;; k" := (bind p (fun x => k))
  (at level 100, p at next level, right associativity) : csi_scope.
Notation "'let!' pat := p 'in' k" := (bind p (fun x_ => match x_ with pat => k end))
  (at level 10, pat pattern, p at level 100, k at level 200) : csi_scope.
Notation "p ;;; k" := (bind p (fun _ => k))
  (at level 100, k at level 200, right associativity) : csi_scope.
Notation "x <-! p ;; k" :=
  (bind p (fun r_ => match r_ with Ok x => k | Err e_ => Ret (Err e_) end))
  (at level 100, p at next level, right associativity) : csi_scope.

(** A pointer that the code dereferences: [nil] panics. *)
Definition deref {Sg : signature} {A : Type} (p : option A) : prog Sg A :=
  match p with Some a => Ret a | None => Panic end.

(** ** Proof automation: [wp_step] performs one symbolic step. *)

Lemma wp_ret {Sg : signature} {A} (P : policy Sg) h (a : A) post :
  post a h -> wp P h (Ret a) post.
Proof. done. Qed.

Lemma wp_deref {Sg : signature} {A B} (P : policy Sg) h (o : option A) (f : A -> prog Sg B) post :
  (o = None -> crash P) -> (forall a, o = Some a -> wp P h (f a) post) ->
  wp P h (bind (deref o) f) post.
Proof. destruct o; simpl; auto. Qed.

Lemma wp_call {Sg : signature} {B} (P : policy Sg) h (o : op Sg) (f : ans Sg o -> prog Sg B) post :
  allow P h o -> (forall r, env P h o r -> wp P (h ++ [ev o r]) (f r) post) ->
  wp P h (bind (call o) f) post.
Proof. by split. Qed.

Lemma wp_vis_call {Sg : signature} (P : policy Sg) h (o : op Sg) post :
  allow P h o -> (forall r, env P h o r -> post r (h ++ [ev o r])) -> wp P h (call o) post.
Proof. by split. Qed.

Lemma wp_deref_ret {Sg : signature} {A} (P : policy Sg) h (o : option A) post :
  (o = None -> crash P) -> (forall a, o = Some a -> post a h) -> wp P h (deref o) post.
Proof. destruct o; simpl; auto. Qed.

(** ** From one policy to another *)

Lemma wp_trace {Sg : signature} {A : Type} (P : policy Sg) h (p : prog Sg A) Q :
  wp P h p Q ->
  wp P h p (fun a h' => Q a h' /\ exists t, h' = h ++ t /\ Forall (fun e => exists h1, allow P h1 (projT1 e)) t).
Proof.
  revert h. induction p as [a| |o k IH]; intros h; [| done |].
  - intros H. apply wp_ret. split; [exact H|]. exists []. rewrite app_nil_r. by split.
  - intros [Ha Hk]. split; [done|]. intros r Hr. eapply wp_mono; [|exact (IH r _ (Hk r Hr))].
    intros a h' (HQ & t & -> & Ht). split; [done|]. exists (ev o r :: t). rewrite <- app_assoc. split; [done|].
    constructor; [by exists h|done].
Qed.

Lemma wp_weaken {Sg : signature} {A : Type} (P P' : policy Sg) h (p : prog Sg A) Q :
  (forall h o, allow P h o -> allow P' h o) -> (forall h o r, env P' h o r -> env P h o r) -> (crash P -> crash P') ->
  wp P h p Q -> wp P' h p Q.
Proof.
  intros Ha He Hc. revert h. induction p as [a| |o k IH]; intros h; [done|by apply Hc|].
  intros [H Hk]. split; [by apply Ha|]. intros r Hr. apply IH, Hk, He, Hr.
Qed.

(** Performed interactions stay in the history. *)
Lemma elem_of_hist_app {Sg : signature} (e : event Sg) h t : e ∈ h -> e ∈ h ++ t.
Proof. intros. apply elem_of_app. by left. Qed.

Lemma elem_of_hist_last {Sg : signature} (e : event Sg) h : e ∈ h ++ [e].
Proof. apply elem_of_app. right. by left. Qed.

#[export] Hint Resolve elem_of_hist_app elem_of_hist_last : csi.

(** One symbolic step: sequencing, results, dereferences and case analysis.
    Interactions are left to [wp_vis_call], whose first goal is the permission. *)
Ltac wp_step :=
  lazymatch goal with
  | |- wp _ _ (bind _ _) _ => apply wp_bind
  | |- wp _ _ (Ret _) _ => apply wp_ret
  | |- wp _ _ (deref _) _ => apply wp_deref_ret; [try done|intros ? ?]
  | |- wp _ _ (match ?x with _ => _ end) _ => destruct x eqn:?
  | |- wp _ _ (let _ := _ in _) _ => cbv zeta
  end; cbv beta iota zeta.

#[global] Arguments wp : simpl never.
#[global] Arguments bind : simpl never.
