(* ===== verification/Errors.v ===== *)
(** * Go errors as the driver builds and inspects them

    An [error] is its text, the sentinel errors found in its chain by
    [errors.Is]/[errors.As], and the gRPC code [status.Code] gives it.  Errors
    of the backend client are arbitrary values of this type. *)

From S2P Require Import Prelude GoStrings.

(** google.golang.org/grpc/codes *)
Inductive code : Set :=
| OK | Canceled | Unknown | InvalidArgument | DeadlineExceeded | NotFound | AlreadyExists
| PermissionDenied | ResourceExhausted | FailedPrecondition | Aborted | OutOfRange
| Unimplemented | Internal | Unavailable | DataLoss | Unauthenticated.

#[export] Instance code_eq_dec : EqDecision code.
Proof. solve_decision. Defined.

Definition code_string (c : code) : string :=
  match c with
  | OK => "OK" | Canceled => "Canceled" | Unknown => "Unknown"
  | InvalidArgument => "InvalidArgument" | DeadlineExceeded => "DeadlineExceeded"
  | NotFound => "NotFound" | AlreadyExists => "AlreadyExists"
  | PermissionDenied => "PermissionDenied" | ResourceExhausted => "ResourceExhausted"
  | FailedPrecondition => "FailedPrecondition" | Aborted => "Aborted" | OutOfRange => "OutOfRange"
  | Unimplemented => "Unimplemented" | Internal => "Internal" | Unavailable => "Unavailable"
  | DataLoss => "DataLoss" | Unauthenticated => "Unauthenticated"
  end.

(** The sentinel errors the driver compares against, its own and those of the
    packages it imports ([NetTimeout]: a [net.Error] whose [Timeout()] is true). *)
Inductive sentinel : Set :=
| ErrVolumeNotFound | ErrInvalidVolumeID | errUnsupportedExpandProtocol | errExpansionCapacityTooLarge
| ErrVolumeNameEmpty | ErrVolumeNameInvalid
| ErrProtocolRequired | ErrSourceVolumeRequired | ErrSnapshotNameRequired
| ErrInvalidSnapshotIDFormat | ErrInvalidProtocol
| ErrMaxRetriesExceeded
| nastyapi_ErrDatasetNotFound | nastyapi_ErrUncertainOutcome
| NetTimeout | ECONNREFUSED | ECONNRESET | EPIPE | ENETUNREACH | EHOSTUNREACH | ETIMEDOUT
| io_EOF | io_ErrUnexpectedEOF | net_ErrClosed | http_ErrServerClosed
| context_Canceled | context_DeadlineExceeded
| strconv_ErrSyntax
| errISCSIStateUnknown | errControllerRecoveryTimeout
(* package os; [ExitError c]: an [*exec.ExitError] whose [ExitCode()] is [c] *)
| os_ErrNotExist | os_ErrExist | bufio_ErrTooLong | ExitError (exitCode : Z)
(* package mount and the node service *)
| errMalformedMountInfo | errSourceMountUnsupported | errMountTimeout | errReadTimeout | errSMBUsernameRequired | errFsckFailed
| ErrISCSIAdmNotFound | ErrISCSIDeviceNotFound | ErrISCSIDeviceTimeout | ErrISCSILoginFailed | ErrISCSIDiscoveryFailed
| ErrNVMeCLINotFound | ErrNVMeDeviceNotFound | ErrNVMeDeviceUnhealthy | ErrNVMeDeviceTimeout | ErrNVMeSubsystemTimeout
| ErrDeviceInitializationTimeout | ErrNVMeControllerNotFound | ErrDeviceSizeMismatch | ErrNVMeEmptyNQN
| ErrNVMeNotNVMeDevice | ErrNVMeNonNVMeStagingDevice | errNVMeAmbiguousNamespace.

#[export] Instance sentinel_eq_dec : EqDecision sentinel.
Proof. solve_decision. Defined.

Record error : Type := mk_error {
  err_text : string;
  err_chain : list sentinel;
  err_code : code
}.

Abbreviation res := (res_of error).

(** The text of a sentinel the driver declares with [errors.New]. *)
Definition sentinel_text (s : sentinel) : string :=
  match s with
  | ErrVolumeNotFound => "volume not found"
  | ErrInvalidVolumeID => "invalid subvolume ID"
  | errUnsupportedExpandProtocol => "unsupported expansion protocol"
  | errExpansionCapacityTooLarge => "expansion capacity is too large"
  | ErrVolumeNameEmpty => "volume name cannot be empty"
  | ErrVolumeNameInvalid => "invalid volume name: must start with alphanumeric and contain only alphanumeric, hyphen, underscore, colon, or period"
  | ErrProtocolRequired => "protocol is required for snapshot ID encoding"
  | ErrSourceVolumeRequired => "source volume is required for snapshot ID encoding"
  | ErrSnapshotNameRequired => "snapshot name is required for snapshot ID encoding"
  | ErrInvalidSnapshotIDFormat => "invalid compact snapshot ID format"
  | ErrInvalidProtocol => "invalid protocol in snapshot ID"
  | ErrMaxRetriesExceeded => "max retries exceeded"
  | strconv_ErrSyntax => "invalid syntax"
  | errISCSIStateUnknown => "could not determine iSCSI session state"
  | errControllerRecoveryTimeout => "NVMe controller did not reach live state within timeout"
  | errMalformedMountInfo => "malformed mount information"
  | errSourceMountUnsupported => "source mount checks require Linux host mount information"
  | errMountTimeout => "timeout checking mount status"
  | errReadTimeout => "timeout reading directory"
  | errSMBUsernameRequired => "SMB secret must contain a 'username' key"
  | errFsckFailed => "filesystem check failed"
  | ErrISCSIAdmNotFound => "iscsiadm command not found - please install open-iscsi"
  | ErrISCSIDeviceNotFound => "iSCSI device not found"
  | ErrISCSIDeviceTimeout => "timeout waiting for iSCSI device to appear"
  | ErrISCSILoginFailed => "failed to login to iSCSI target"
  | ErrISCSIDiscoveryFailed => "iSCSI discovery failed - iscsid may not be running or accessible"
  | ErrNVMeCLINotFound => "nvme command not found - please install nvme-cli"
  | ErrNVMeDeviceNotFound => "NVMe device not found"
  | ErrNVMeDeviceUnhealthy => "NVMe device exists but is unhealthy (zero size)"
  | ErrNVMeDeviceTimeout => "timeout waiting for NVMe device to appear"
  | ErrNVMeSubsystemTimeout => "timeout waiting for NVMe subsystem to become live"
  | ErrDeviceInitializationTimeout => "device failed to initialize - size remained zero or unreadable"
  | ErrNVMeControllerNotFound => "could not extract NVMe controller path from device path"
  | ErrDeviceSizeMismatch => "device size does not match expected capacity"
  | ErrNVMeEmptyNQN => "empty NQN in sysfs"
  | ErrNVMeNotNVMeDevice => "not an NVMe device"
  | ErrNVMeNonNVMeStagingDevice => "staging path resolved to non-NVMe device"
  | errNVMeAmbiguousNamespace => "ambiguous NVMe namespace identity"
  | bufio_ErrTooLong => "bufio.Scanner: token too long"
  | io_EOF => "EOF"
  | io_ErrUnexpectedEOF => "unexpected EOF"
  | context_Canceled => "context canceled"
  | context_DeadlineExceeded => "context deadline exceeded"
  | _ => ""
  end.

(** The sentinel error value itself. *)
Definition err_new (s : sentinel) : error := mk_error (sentinel_text s) [s] Unknown.

(** [fmt.Errorf] with the wrapped errors of its [%w] verbs; [status.Code] finds
    the first status error of the tree. *)
Definition first_code (es : list error) : code :=
  match List.find (fun e => negb (bool_decide (err_code e = Unknown))) es with
  | Some e => err_code e
  | None => Unknown
  end.

Definition Errorf (msg : string) (wrapped : list error) : error :=
  mk_error msg (concat (map err_chain wrapped)) (first_code wrapped).

(** [status.Error] and [status.Errorf]: the text of a status error shows its code. *)
Definition Status (c : code) (msg : string) : error :=
  mk_error ("rpc error: code = " +:+ code_string c +:+ " desc = " +:+ msg) [] c.

(** [errors.Is] *)
Definition errors_Is (e : error) (s : sentinel) : bool := bool_decide (s ∈ err_chain e).

(** [status.FromContextError(err).Err()] *)
Definition FromContextError (e : error) : error :=
  Status (if errors_Is e context_DeadlineExceeded then DeadlineExceeded
          else if errors_Is e context_Canceled then Canceled else Unknown) (err_text e).

(** [errors.As(err, &exitErr)] and [exitErr.ExitCode()]. *)
Definition exit_code (e : error) : option Z :=
  match List.find (fun s => match s with ExitError _ => true | _ => false end) (err_chain e) with
  | Some (ExitError c) => Some c
  | _ => None
  end.

(** [os.IsNotExist] and [os.IsExist] of an error that package os answered. *)
Definition IsNotExist (e : error) : bool := errors_Is e os_ErrNotExist.
Definition IsExist (e : error) : bool := errors_Is e os_ErrExist.

Lemma errors_Is_new s t : errors_Is (err_new s) t = bool_decide (s = t).
Proof.
  unfold errors_Is, err_new. simpl. apply bool_decide_ext. rewrite list_elem_of_singleton. split; congruence.
Qed.

(** ** driver/controller_snapshot.go *)

Definition containsAny (s : string) (substrs : list string) : bool :=
  existsb (Contains s) substrs.

Definition not_found_substrings : list string := ["not found"; "does not exist"; "ENOENT"; "404"].

(** A nil error is not a not-found error. *)
Definition isNotFoundError (err : option error) : bool :=
  match err with
  | None => false
  | Some e => containsAny (err_text e) not_found_substrings
  end.

(** [err != nil && !isNotFoundError(err)]: the error that stops the caller. *)
Definition query_failed (err : option error) : option error :=
  match err with
  | None => None
  | Some e => if isNotFoundError err then None else Some e
  end.

(** The text of an error that may be nil, as [%v] prints it. *)
Definition opt_err_text (e : option error) : string :=
  match e with Some e => err_text e | None => "<nil>" end.

(** ** driver/controller.go *)

Definition capacityErrorSubstrings : list string :=
  ["insufficient space"; "out of space"; "not enough space"; "no space left"; "ENOSPC"; "quota exceeded"].

Definition isCapacityError (err : option error) : bool :=
  match err with
  | None => false
  | Some e =>
      let errStr := ToLower (err_text e) in
      existsb (Contains errStr) capacityErrorSubstrings
  end.

Definition createVolumeError (msg : string) (err : error) : error :=
  if errors_Is err nastyapi_ErrUncertainOutcome then
    Status Unavailable (msg +:+ ": outcome uncertain; reconcile server state before retrying: " +:+ err_text err)
  else if isCapacityError (Some err) then
    Status ResourceExhausted (msg +:+ ": " +:+ err_text err)
  else
    let errText := ToLower (err_text err) in
    if Contains errText "already exists" || Contains errText "existing subvolume is incompatible" then
      Status AlreadyExists (msg +:+ ": " +:+ err_text err)
    else
      Status Internal (msg +:+ ": " +:+ err_text err).

(** The codes a creation failure can carry, and which error gets which. *)
Lemma createVolumeError_code msg err :
  err_code (createVolumeError msg err) =
    if errors_Is err nastyapi_ErrUncertainOutcome then Unavailable
    else if isCapacityError (Some err) then ResourceExhausted
    else if Contains (ToLower (err_text err)) "already exists" ||
            Contains (ToLower (err_text err)) "existing subvolume is incompatible" then AlreadyExists
    else Internal.
Proof. unfold createVolumeError. repeat case_goal; done. Qed.

(** ** Lower-cased texts *)

Lemma Index_mem s c sub i : Index s (String c sub) = Some i -> str_mem c s = true.
Proof.
  revert i. induction s as [|d s IH]; intros i H; [done|]. cbn [str_mem]. cbn [Index] in H.
  destruct (HasPrefix (String d s) (String c sub)) eqn:E.
  - apply HasPrefix_split in E as [t E]. injection E as -> _. by rewrite Ascii.eqb_refl.
  - change (String.prefix (String c sub) (String d s)) with (HasPrefix (String d s) (String c sub)) in H. rewrite E in H.
    destruct (Index s (String c sub)) as [j|]; [|done]. rewrite (IH j eq_refl). apply orb_true_r.
Qed.

Lemma ToLower_no_E s : str_mem "E" (ToLower s) = false.
Proof.
  induction s as [|c s IH]; [done|]. cbn [ToLower str_mem]. rewrite IH, orb_false_r.
  destruct c as [[] [] [] [] [] [] [] []]; reflexivity.
Qed.

(** The ENOSPC entry never matches.  [isCapacityError] lower-cases the
    error text before it looks for its patterns, so an upper-case pattern has
    no effect: an error is classified by the five other patterns alone, and a
    plain ENOSPC is answered as Internal, not ResourceExhausted. *)
Theorem ENOSPC_unclassified e msg :
  isCapacityError (Some e) =
    containsAny (ToLower (err_text e))
      ["insufficient space"; "out of space"; "not enough space"; "no space left"; "quota exceeded"] /\
  err_code (createVolumeError msg (mk_error "write failed: ENOSPC" [] Unknown)) = Internal.
Proof.
  split; [|reflexivity]. unfold isCapacityError, containsAny, capacityErrorSubstrings. cbn [existsb].
  assert (Contains (ToLower (err_text e)) "ENOSPC" = false) as ->; [|done].
  unfold Contains. destruct (Index _ _) as [i|] eqn:E; [|done]. apply Index_mem in E. by rewrite ToLower_no_E in E.
Qed.

#[global] Arguments Contains : simpl never.
#[global] Arguments Status : simpl never.
#[global] Arguments Errorf : simpl never.
