(* ===== verification/Api.v ===== *)
(** * The interfaces of the controller: CSI messages, backend client, effects

    The backend client (package [nastyapi], outside this repository) appears as
    the fields of its records the driver reads, as the operations [cop] with
    arbitrary answers, and as the class [NastyAPI] of its constants and pure
    functions, a parameter of every definition that uses them. *)

From S2P Require Import Prelude GoStrings Prog Errors.

(** ** Go maps

    A [map[string]string] may be nil ([None]); reading a missing key of either
    gives the zero value. *)

Abbreviation smap := (gmap string string).
Abbreviation gomap := (option (gmap string string)).

Definition map_lookup (m : gomap) (k : string) : option string :=
  match m with Some m => m !! k | None => None end.

(** [m[k]] *)
Definition map_get (m : gomap) (k : string) : string := default "" (map_lookup m k).

Notation "m .[ k ]" := (map_get m k) (at level 1, left associativity, format "m .[ k ]") : csi_scope.

(** ** Records of the backend client *)

Record Subvolume : Type := mkSubvolume {
  sv_Filesystem : string;
  sv_Name : string;
  sv_SubvolumeType : string;
  sv_Path : string;
  sv_QuotaBytes : option Z;
  sv_VolsizeBytes : option Z;
  sv_Properties : gomap;
  sv_Snapshots : list string;
  sv_BlockDevice : option string;
  sv_BlockFilesystem : option string;
  sv_BlockFilesystemUUID : option string;
  sv_Created : bool
}.

(** The assignment [subvol.Properties = p]. *)
Definition set_Properties (p : gomap) (sv : Subvolume) : Subvolume :=
  mkSubvolume (sv_Filesystem sv) (sv_Name sv) (sv_SubvolumeType sv) (sv_Path sv)
    (sv_QuotaBytes sv) (sv_VolsizeBytes sv) p (sv_Snapshots sv) (sv_BlockDevice sv)
    (sv_BlockFilesystem sv) (sv_BlockFilesystemUUID sv) (sv_Created sv).

Record SubvolumeCreateParams : Type := mkSubvolumeCreateParams {
  scp_Filesystem : string; scp_Name : string; scp_SubvolumeType : string; scp_Comments : string;
  scp_BlockFilesystem : string; scp_Compression : string; scp_ForegroundTarget : string;
  scp_BackgroundTarget : string; scp_PromoteTarget : string; scp_MetadataTarget : string;
  scp_DataReplicas : option Z; scp_VolsizeBytes : option Z
}.

Record Snapshot : Type := mkSnapshot {
  sn_Name : string; sn_Subvolume : string; sn_CreatedAt : option Z
}.

Record SnapshotCreateParams : Type := mkSnapshotCreateParams {
  sncp_Filesystem : string; sncp_Subvolume : string; sncp_Name : string; sncp_ReadOnly : bool
}.

Record SnapshotCloneParams : Type := mkSnapshotCloneParams {
  snk_Filesystem : string; snk_Subvolume : string; snk_Snapshot : string; snk_NewName : string
}.

Record NFSClient : Type := mkNFSClient { nc_Host : string; nc_Options : string }.

Record NFSShare : Type := mkNFSShare {
  nfs_ID : string; nfs_Path : string; nfs_Comment : option string; nfs_Enabled : bool
}.

Record NFSShareCreateParams : Type := mkNFSShareCreateParams {
  nfp_Path : string; nfp_Comment : string; nfp_Clients : list NFSClient; nfp_Enabled : option bool
}.

Record SMBShare : Type := mkSMBShare {
  smb_ID : string; smb_Name : string; smb_Path : string; smb_Comment : option string; smb_Enabled : bool
}.

Record SMBShareCreateParams : Type := mkSMBShareCreateParams {
  smp_Name : string; smp_Path : string; smp_Comment : string; smp_ValidUsers : list string
}.

Record ISCSITarget : Type := mkISCSITarget {
  it_ID : string; it_IQN : string; it_Luns : list string (* BackstorePath of each LUN *)
}.

Record NVMeOFSubsystem : Type := mkNVMeOFSubsystem {
  ns_ID : string; ns_NQN : string; ns_Namespaces : list string (* DevicePath of each namespace *)
}.

(** Parameters of the target and subsystem creations: name and device. *)
Record BlockCreateParams : Type := mkBlockCreateParams { bcp_Name : string; bcp_DevicePath : string }.

Record Filesystem : Type := mkFilesystem { fs_AvailableBytes : Z; fs_Encrypted : option bool }.

Record VolumeParams : Type := mkVolumeParams {
  vp_VolumeID : string; vp_Protocol : string; vp_CapacityBytes : Z; vp_CreatedAt : string;
  vp_DeleteStrategy : string; vp_PVCName : string; vp_PVCNamespace : string; vp_StorageClass : string;
  vp_Adoptable : bool; vp_ClusterID : string; vp_Encrypted : bool
}.

(** ** Constants and pure functions of the backend client *)

Class NastyAPI : Type := {
  PropertyManagedBy : string;
  ManagedByValue : string;
  PropertyCSIVolumeName : string;
  PropertyProtocol : string;
  PropertyCapacityBytes : string;
  PropertyCreatedAt : string;
  PropertyDeleteStrategy : string;
  PropertyPVCName : string;
  PropertyPVCNamespace : string;
  PropertyStorageClass : string;
  PropertyAdoptable : string;
  PropertyClusterID : string;
  DeleteStrategyDelete : string;
  DeleteStrategyRetain : string;
  api_ProtocolNFS : string;
  api_ProtocolNVMeOF : string;
  api_ProtocolISCSI : string;
  api_ProtocolSMB : string;
  StringToInt64 : string -> Z;
  VolumeProperties : VolumeParams -> gomap
}.

(** ** Effects *)

(** A [metrics.OperationTimer]: its protocol and operation labels. *)
Record timer : Type := mkTimer { t_protocol : string; t_operation : string }.

Inductive cop : Type :=
| QueryFilesystem (fsName : string)
| CreateSubvolume (params : SubvolumeCreateParams)
| DeleteSubvolume (filesystem name : string)
| GetSubvolume (filesystem name : string)
| SetSubvolumeProperties (filesystem name : string) (props : smap)
| FindSubvolumesByProperty (key value filesystem : string)
| FindManagedSubvolumes (filesystem : string)
| FindSubvolumeByCSIVolumeName (filesystem volumeName : string)
| ResizeSubvolume (filesystem name : string) (volsizeBytes : Z)
| CloneSubvolume (filesystem name newName : string)
| CloneSnapshot (params : SnapshotCloneParams)
| api_CreateSnapshot (params : SnapshotCreateParams)
| api_DeleteSnapshot (filesystem subvolume name : string)
| api_ListSnapshots (filesystem : string)
| CreateNFSShare (params : NFSShareCreateParams)
| DeleteNFSShare (id : string)
| ListNFSShares
| GetNFSShare (id : string)
| CreateSMBShare (params : SMBShareCreateParams)
| DeleteSMBShare (id : string)
| ListSMBShares
| GetSMBShare (id : string)
| CreateISCSITarget (params : BlockCreateParams)
| DeleteISCSITarget (id : string)
| ListISCSITargets
| GetISCSITargetByIQN (iqn : string)
| CreateNVMeOFSubsystem (params : BlockCreateParams)
| DeleteNVMeOFSubsystem (id : string)
| ListNVMeOFSubsystems
| GetNVMeOFSubsystemByNQN (nqn : string)
(* the Kubernetes client: annotations of a PersistentVolumeClaim *)
| GetPVCAnnotations (namespace name : string)
(* time.Now().UTC().Format(time.RFC3339), crypto/rand.Read of n bytes, time.Sleep *)
| TimeNow
| RandRead (n : nat)
| Sleep (nanoseconds : Z)
(* ctx.Err() and the select between time.After(d) and ctx.Done() *)
| CtxErr
| WaitOrDone (nanoseconds : Z)
(* package metrics *)
| ObserveSuccess (t : timer)
| ObserveError (t : timer)
| SetVolumeCapacity (volumeID protocol : string) (bytes : Z)
| DeleteVolumeCapacity (volumeID protocol : string)
(* ControllerService.identityMu *)
| LockIdentity
| UnlockIdentity.

(** A Go pair [(p, err)] of a pointer or slice and an error. *)
Abbreviation ptr_err A := ((option A * option error)%type).
Abbreviation list_err A := ((list A * option error)%type).

Definition cans (o : cop) : Type :=
  match o with
  | QueryFilesystem _ => ptr_err Filesystem
  | CreateSubvolume _ | GetSubvolume _ _ | SetSubvolumeProperties _ _ _
  | FindSubvolumeByCSIVolumeName _ _ | ResizeSubvolume _ _ _ | CloneSubvolume _ _ _
  | CloneSnapshot _ => ptr_err Subvolume
  | FindSubvolumesByProperty _ _ _ | FindManagedSubvolumes _ => list_err Subvolume
  | DeleteSubvolume _ _ | api_DeleteSnapshot _ _ _ | DeleteNFSShare _ | DeleteSMBShare _
  | DeleteISCSITarget _ | DeleteNVMeOFSubsystem _ => option error
  | api_CreateSnapshot _ => ptr_err Snapshot
  | api_ListSnapshots _ => list_err Snapshot
  | CreateNFSShare _ | GetNFSShare _ => ptr_err NFSShare
  | ListNFSShares => list_err NFSShare
  | CreateSMBShare _ | GetSMBShare _ => ptr_err SMBShare
  | ListSMBShares => list_err SMBShare
  | CreateISCSITarget _ | GetISCSITargetByIQN _ => ptr_err ISCSITarget
  | ListISCSITargets => list_err ISCSITarget
  | CreateNVMeOFSubsystem _ | GetNVMeOFSubsystemByNQN _ => ptr_err NVMeOFSubsystem
  | ListNVMeOFSubsystems => list_err NVMeOFSubsystem
  | GetPVCAnnotations _ _ => res_of error gomap
  | TimeNow => string
  | RandRead _ => res_of error (list Z)
  | CtxErr | WaitOrDone _ => option error
  | Sleep _ | ObserveSuccess _ | ObserveError _ | SetVolumeCapacity _ _ _
  | DeleteVolumeCapacity _ _ | LockIdentity | UnlockIdentity => unit
  end.

Definition csig : signature := {| op := cop; ans := cans |}.

(** Programs of the controller. *)
Abbreviation M := (prog csig).
Definition do_ (o : cop) : M (cans o) := call (Sg := csig) o.

(** ** CSI messages *)

Record CapacityRange : Type := mkCapacityRange { RequiredBytes : Z; LimitBytes : Z }.

(** [VolumeCapability_AccessMode_Mode] *)
Inductive access_mode : Set :=
| UNKNOWN | SINGLE_NODE_WRITER | SINGLE_NODE_READER_ONLY | MULTI_NODE_READER_ONLY
| MULTI_NODE_SINGLE_WRITER | MULTI_NODE_MULTI_WRITER | SINGLE_NODE_SINGLE_WRITER
| SINGLE_NODE_MULTI_WRITER.

Definition access_mode_string (m : access_mode) : string :=
  match m with
  | UNKNOWN => "UNKNOWN" | SINGLE_NODE_WRITER => "SINGLE_NODE_WRITER"
  | SINGLE_NODE_READER_ONLY => "SINGLE_NODE_READER_ONLY"
  | MULTI_NODE_READER_ONLY => "MULTI_NODE_READER_ONLY"
  | MULTI_NODE_SINGLE_WRITER => "MULTI_NODE_SINGLE_WRITER"
  | MULTI_NODE_MULTI_WRITER => "MULTI_NODE_MULTI_WRITER"
  | SINGLE_NODE_SINGLE_WRITER => "SINGLE_NODE_SINGLE_WRITER"
  | SINGLE_NODE_MULTI_WRITER => "SINGLE_NODE_MULTI_WRITER"
  end.

(** The oneof [access_type] of a capability. *)
Inductive access_type : Type :=
| Mount (fsType : string) | Block | NoAccessType.

Record VolumeCapability : Type := mkVolumeCapability { cap_type : access_type; cap_mode : access_mode }.

(** The oneof of a [VolumeContentSource]. *)
Inductive content_source : Type :=
| SourceSnapshot (snapshotId : string) | SourceVolume (volumeId : string) | SourceNone.

Record CreateVolumeRequest : Type := mkCreateVolumeRequest {
  req_Name : string;
  req_CapacityRange : option CapacityRange;
  req_VolumeCapabilities : list VolumeCapability;
  req_Parameters : gomap;
  req_ContentSource : option content_source
}.

Definition GetRequiredBytes (r : option CapacityRange) : Z :=
  match r with Some c => RequiredBytes c | None => 0 end.
Definition GetLimitBytes (r : option CapacityRange) : Z :=
  match r with Some c => LimitBytes c | None => 0 end.

Definition set_CapacityRange (c : option CapacityRange) (req : CreateVolumeRequest) : CreateVolumeRequest :=
  mkCreateVolumeRequest (req_Name req) c (req_VolumeCapabilities req) (req_Parameters req)
    (req_ContentSource req).

Record Volume : Type := mkVolume {
  v_VolumeId : string; v_CapacityBytes : Z; v_VolumeContext : smap; v_ContentSource : option content_source
}.

(** [CreateVolumeResponse] is its [Volume]. *)
Definition set_ContentSource (c : content_source) (v : Volume) : Volume :=
  mkVolume (v_VolumeId v) (v_CapacityBytes v) (v_VolumeContext v) (Some c).

(** ** driver/node.go: protocol and filesystem names; driver/controller.go: constants *)

Definition ProtocolNFS : string := "nfs".
Definition ProtocolNVMeOF : string := "nvmeof".
Definition ProtocolISCSI : string := "iscsi".
Definition ProtocolSMB : string := "smb".
Definition fsTypeExt3 : string := "ext3".
Definition fsTypeExt4 : string := "ext4".
Definition fsTypeXFS : string := "xfs".

Definition paramFilesystem : string := "filesystem".
Definition subvolumeTypeFilesystem : string := "filesystem".
Definition subvolumeTypeBlock : string := "block".
Definition defaultServerAddress : string := "defaultServerAddress".
Definition MinVolumeSize : Z := 1073741824.
Definition MaxVolumeSize : Z := Z.shiftl 256 40.

Definition VolumeContextKeyProtocol : string := "protocol".
Definition VolumeContextKeyServer : string := "server".
Definition VolumeContextKeyShare : string := "share".
Definition VolumeContextKeyDatasetID : string := "datasetID".
Definition VolumeContextKeyDatasetName : string := "datasetName".
Definition VolumeContextKeyNFSShareUUID : string := "nfsShareUUID".
Definition VolumeContextKeyNQN : string := "nqn".
Definition VolumeContextKeyNSID : string := "nsid".
Definition VolumeContextKeyISCSIIQN : string := "iscsiIQN".
Definition VolumeContextKeySMBShareUUID : string := "smbShareUUID".
Definition VolumeContextKeyExpectedCapacity : string := "expectedCapacity".
Definition VolumeContextValueTrue : string := "true".
Definition errMsgVolumeIDRequired : string := "Volume ID is required".
Definition AnnotationAdoptable : string := "nasty-csi.io/adoptable".

Definition CSIPVCName : string := "csi.storage.k8s.io/pvc/name".
Definition CSIPVCNamespace : string := "csi.storage.k8s.io/pvc/namespace".
Definition CSIStorageClassName : string := "csi.storage.k8s.io/sc/name".

(** The driver's own property keys (driver/volume_identity.go). *)
Definition propertyCSIRequestName : string := "nasty-csi:csi_request_name".
Definition propertyVolumeUUID : string := "nasty-csi:volume_uuid".
Definition propertyIdentityVersion : string := "nasty-csi:identity_version".
Definition identityVersion2 : string := "2".

(** ** An instance with the property names documented in docs/FEATURES.md,
    used by the concrete examples. *)

Definition doc_properties (p : VolumeParams) : gomap :=
  Some (list_to_map (filter (fun kv => kv.2 <> "")
    [("nasty-csi:managed_by", "nasty-csi");
     ("nasty-csi:csi_volume_name", vp_VolumeID p);
     ("nasty-csi:protocol", vp_Protocol p);
     ("nasty-csi:capacity_bytes", FormatInt (vp_CapacityBytes p));
     ("nasty-csi:created_at", vp_CreatedAt p);
     ("nasty-csi:delete_strategy", vp_DeleteStrategy p);
     ("nasty-csi:pvc_name", vp_PVCName p);
     ("nasty-csi:pvc_namespace", vp_PVCNamespace p);
     ("nasty-csi:storage_class", vp_StorageClass p);
     ("nasty-csi:cluster_id", vp_ClusterID p)])).

Definition doc_api : NastyAPI := {|
  PropertyManagedBy := "nasty-csi:managed_by";
  ManagedByValue := "nasty-csi";
  PropertyCSIVolumeName := "nasty-csi:csi_volume_name";
  PropertyProtocol := "nasty-csi:protocol";
  PropertyCapacityBytes := "nasty-csi:capacity_bytes";
  PropertyCreatedAt := "nasty-csi:created_at";
  PropertyDeleteStrategy := "nasty-csi:delete_strategy";
  PropertyPVCName := "nasty-csi:pvc_name";
  PropertyPVCNamespace := "nasty-csi:pvc_namespace";
  PropertyStorageClass := "nasty-csi:storage_class";
  PropertyAdoptable := "nasty-csi:adoptable";
  PropertyClusterID := "nasty-csi:cluster_id";
  DeleteStrategyDelete := "delete";
  DeleteStrategyRetain := "retain";
  api_ProtocolNFS := "nfs";
  api_ProtocolNVMeOF := "nvmeof";
  api_ProtocolISCSI := "iscsi";
  api_ProtocolSMB := "smb";
  StringToInt64 s := default 0 (ParseInt s);
  VolumeProperties := doc_properties
|}.

(** ** The service value (the fields of [ControllerService] other than its state) *)

Record service : Type := mkService { clusterID : string; has_kubeClient : bool }.
