(* ===== verification/Metadata.v ===== *)
(** * Volume metadata (driver/controller.go, driver/controller_nfs.go)

    [VolumeMetadata] and what the controller derives from it and from the
    properties of a subvolume: the volume context, the protocol, the recorded
    and the authoritative capacity, and the lookups that find a volume by the
    ID the orchestrator knows. *)

From S2P Require Import Prelude GoStrings Prog Errors Api.

(** ** Volume IDs *)

(** [splitSubvolumeID] splits at the first slash. *)
Definition splitSubvolumeID (subvolumeID : string) : res (string * string) :=
  match Index subvolumeID "/" with
  | None =>
      Err (Errorf (sentinel_text ErrInvalidVolumeID +:+ ": " +:+ Quote subvolumeID +:+ " expected filesystem/name format")
             [err_new ErrInvalidVolumeID])
  | Some idx =>
      if (idx =? str_len subvolumeID - 1)%nat then
        Err (Errorf (sentinel_text ErrInvalidVolumeID +:+ ": " +:+ Quote subvolumeID +:+ " expected filesystem/name format")
               [err_new ErrInvalidVolumeID])
      else Ok (str_take idx subvolumeID, str_drop (S idx) subvolumeID)
  end.

Definition isDatasetPathVolumeID (volumeID : string) : bool := Contains volumeID "/".

Definition isKnownVolume (volumeID : string) : bool := Contains volumeID "/".

(** ** Metadata and volume context *)

Record VolumeMetadata : Type := mkVolumeMetadata {
  m_Name : string;
  m_Protocol : string;
  m_DatasetID : string;
  m_DatasetName : string;
  m_CurrentCapacityBytes : option Z;
  m_RecordedCapacityBytes : option Z;
  m_Server : string;
  m_NVMeOFNQN : string;
  m_ISCSIIQN : string;
  m_NFSShareUUID : string;
  m_SMBShareUUID : string
}.

(** [ctx[k] = v] guarded by [v != ""]. *)
Definition put_nonempty (k v : string) (ctx : smap) : smap :=
  if String.eqb v "" then ctx else <[k := v]> ctx.

Definition buildVolumeContext (meta : VolumeMetadata) : smap :=
  let ctx := {[ VolumeContextKeyProtocol := m_Protocol meta ]} in
  let ctx := put_nonempty VolumeContextKeyServer (m_Server meta) ctx in
  let ctx := put_nonempty VolumeContextKeyDatasetID (m_DatasetID meta) ctx in
  let ctx := put_nonempty VolumeContextKeyDatasetName (m_DatasetName meta) ctx in
  if String.eqb (m_Protocol meta) ProtocolNFS then
    put_nonempty VolumeContextKeyNFSShareUUID (m_NFSShareUUID meta) ctx
  else if String.eqb (m_Protocol meta) ProtocolNVMeOF then
    put_nonempty VolumeContextKeyNQN (m_NVMeOFNQN meta) ctx
  else if String.eqb (m_Protocol meta) ProtocolISCSI then
    put_nonempty VolumeContextKeyISCSIIQN (m_ISCSIIQN meta) ctx
  else if String.eqb (m_Protocol meta) ProtocolSMB then
    put_nonempty VolumeContextKeySMBShareUUID (m_SMBShareUUID meta) ctx
  else ctx.

Definition getProtocolFromVolumeContext (ctx : gomap) : string :=
  if negb (String.eqb ctx.[VolumeContextKeyProtocol] "") then ctx.[VolumeContextKeyProtocol]
  else if negb (String.eqb ctx.[VolumeContextKeyNQN] "") then ProtocolNVMeOF
  else if negb (String.eqb ctx.[VolumeContextKeyISCSIIQN] "") then ProtocolISCSI
  else if negb (String.eqb ctx.[VolumeContextKeyShare] "") then ProtocolNFS
  else ProtocolNFS.

(** ** Capacity of a subvolume *)

Definition authoritativeSubvolumeCapacity (subvol : option Subvolume) : option Z :=
  match subvol with
  | None => None
  | Some sv =>
      if String.eqb (sv_SubvolumeType sv) subvolumeTypeFilesystem then
        match sv_QuotaBytes sv with
        | Some q => Some q
        | None => sv_VolsizeBytes sv
        end
      else if String.eqb (sv_SubvolumeType sv) subvolumeTypeBlock then sv_VolsizeBytes sv
      else None
  end.

Section Metadata.
Context {api : NastyAPI}.

Definition recordedSubvolumeCapacity (subvol : Subvolume) : option Z :=
  match map_lookup (sv_Properties subvol) PropertyCapacityBytes with
  | None => None
  | Some raw => ParseUint raw 64
  end.

(** [extractVolumeMetadataFromSubvolume]: [None] for an unmanaged subvolume.
    The function never returns an error. *)
Definition extractVolumeMetadataFromSubvolume (volumeID : string) (subvol : Subvolume) : option VolumeMetadata :=
  match sv_Properties subvol with
  | None => None
  | Some props =>
      match props !! PropertyManagedBy with
      | None => None
      | Some managedBy =>
          if negb (String.eqb managedBy ManagedByValue) then None
          else
            let subvolumeID := sv_Filesystem subvol +:+ "/" +:+ sv_Name subvol in
            Some {|
              m_Name := volumeID;
              m_Protocol := (Some props).[PropertyProtocol];
              m_DatasetID := subvolumeID;
              m_DatasetName := sv_Name subvol;
              m_CurrentCapacityBytes := authoritativeSubvolumeCapacity (Some subvol);
              m_RecordedCapacityBytes := recordedSubvolumeCapacity subvol;
              m_Server := ""; m_NVMeOFNQN := ""; m_ISCSIIQN := "";
              m_NFSShareUUID := ""; m_SMBShareUUID := "" |}
      end
  end.

(** ** Lookups *)

Definition lookupVolumeBySubvolumePath (subvolumePath : string) : M (res (option VolumeMetadata)) :=
  match splitSubvolumeID subvolumePath with
  | Err err => Ret (Err (Errorf ("invalid subvolume path " +:+ subvolumePath +:+ ": " +:+ err_text err) [err]))
  | Ok (filesystem, name) =>
      let! (subvol, err) := do_ (GetSubvolume filesystem name) in
      match err with
      | Some e =>
          if isNotFoundError err then Ret (Ok None)
          else Ret (Err (Errorf ("failed to query subvolume " +:+ subvolumePath +:+ ": " +:+ err_text e) [e]))
      | None =>
          match subvol with
          | None => Ret (Ok None)
          | Some sv => Ret (Ok (extractVolumeMetadataFromSubvolume subvolumePath sv))
          end
      end
  end.

Definition lookupVolumeByPropertyScan (filesystem volumeName : string) : M (res (option VolumeMetadata)) :=
  let! (subvol, err) := do_ (FindSubvolumeByCSIVolumeName filesystem volumeName) in
  match err with
  | Some e =>
      if errors_Is e nastyapi_ErrDatasetNotFound || isNotFoundError err then Ret (Ok None)
      else Ret (Err (Errorf ("failed to find subvolume by CSI volume name: " +:+ err_text e) [e]))
  | None =>
      match subvol with
      | None => Ret (Ok None)
      | Some sv =>
          let volumeID := sv_Filesystem sv +:+ "/" +:+ sv_Name sv in
          Ret (Ok (extractVolumeMetadataFromSubvolume volumeID sv))
      end
  end.

Definition lookupVolumeByCSIName (volumeName : string) : M (res (option VolumeMetadata)) :=
  if isDatasetPathVolumeID volumeName then lookupVolumeBySubvolumePath volumeName
  else lookupVolumeByPropertyScan "" volumeName.
End Metadata.

(** ** Facts about IDs *)

Definition valid_volume_id (fs name : string) : Prop := str_mem "/" fs = false /\ name <> "".

Lemma splitSubvolumeID_join fs name :
  valid_volume_id fs name -> splitSubvolumeID (fs +:+ "/" +:+ name) = Ok (fs, name).
Proof.
  intros [Hfs Hn]. unfold splitSubvolumeID.
  change ("/" +:+ name) with (String "/" name). rewrite Index_first by done.
  rewrite str_app_length. change (str_len (String "/" name)) with (S (str_len name)).
  destruct (Nat.eqb_spec (str_len fs) (str_len fs + S (str_len name) - 1)%nat) as [E|E].
  - destruct name; [done|]. unfold str_len in E. simpl in E. lia.
  - rewrite str_take_app. f_equal. f_equal.
    change (String "/" name) with ("/" +:+ name). rewrite <- str_app_assoc.
    replace (S (str_len fs)) with (str_len (fs +:+ "/")) by (rewrite str_app_length; unfold str_len; simpl; lia).
    apply str_drop_app.
Qed.

Lemma splitSubvolumeID_ok id fs name :
  splitSubvolumeID id = Ok (fs, name) -> id = fs +:+ "/" +:+ name /\ valid_volume_id fs name.
Proof.
  unfold splitSubvolumeID. destruct (Index id "/") as [i|] eqn:E; [|done].
  destruct (Nat.eqb_spec i (str_len id - 1)%nat) as [F|F]; [done|]. intros [= <- <-].
  pose proof (Index_split _ _ _ E) as [H1 H2].
  split; [exact H1|]. split; [exact H2|].
  intros Hn. change (str_drop (S i) id = "") in Hn. apply F. apply Index_lengths in E as [_ E].
  rewrite Hn in E. change (str_len "") with 0%nat in E. lia.
Qed.

(** The metadata of a managed subvolume, and only of one. *)
Lemma extract_managed `{NastyAPI} volumeID sv meta :
  extractVolumeMetadataFromSubvolume volumeID sv = Some meta ->
  map_lookup (sv_Properties sv) PropertyManagedBy = Some ManagedByValue /\
  m_DatasetID meta = sv_Filesystem sv +:+ "/" +:+ sv_Name sv /\
  m_DatasetName meta = sv_Name sv /\
  m_Name meta = volumeID /\
  m_Protocol meta = (sv_Properties sv).[PropertyProtocol] /\
  m_CurrentCapacityBytes meta = authoritativeSubvolumeCapacity (Some sv) /\
  m_NFSShareUUID meta = "" /\ m_SMBShareUUID meta = "" /\
  m_ISCSIIQN meta = "" /\ m_NVMeOFNQN meta = "".
Proof.
  unfold extractVolumeMetadataFromSubvolume. destruct (sv_Properties sv) as [props|] eqn:Ep; [|done].
  destruct (props !! PropertyManagedBy) as [mb|] eqn:Em; [|done].
  destruct (String.eqb_spec mb ManagedByValue) as [->|]; simpl; [|done].
  intros [= <-]. simpl. rewrite Em. repeat split.
Qed.

(** ** The volume context *)

Lemma put_nonempty_get k v (ctx : smap) : ctx !! k = None -> (Some (put_nonempty k v ctx)).[k] = v.
Proof.
  intros H. unfold put_nonempty, map_get, map_lookup. destruct (String.eqb_spec v "") as [->|]; [by rewrite H|].
  by rewrite lookup_insert_eq.
Qed.

Lemma put_nonempty_other k k' v (ctx : smap) : k <> k' -> put_nonempty k v ctx !! k' = ctx !! k'.
Proof. intros H. unfold put_nonempty. destruct (String.eqb v ""); [done|]. by rewrite lookup_insert_ne. Qed.

(** The entries every protocol's context has. *)
Definition common_context (meta : VolumeMetadata) : smap :=
  put_nonempty VolumeContextKeyDatasetName (m_DatasetName meta)
    (put_nonempty VolumeContextKeyDatasetID (m_DatasetID meta)
      (put_nonempty VolumeContextKeyServer (m_Server meta) {[ VolumeContextKeyProtocol := m_Protocol meta ]})).

(** The key under which a protocol's context carries its own identifier, and
    that identifier. *)
Definition protocol_key (meta : VolumeMetadata) : option (string * string) :=
  if String.eqb (m_Protocol meta) ProtocolNFS then Some (VolumeContextKeyNFSShareUUID, m_NFSShareUUID meta)
  else if String.eqb (m_Protocol meta) ProtocolNVMeOF then Some (VolumeContextKeyNQN, m_NVMeOFNQN meta)
  else if String.eqb (m_Protocol meta) ProtocolISCSI then Some (VolumeContextKeyISCSIIQN, m_ISCSIIQN meta)
  else if String.eqb (m_Protocol meta) ProtocolSMB then Some (VolumeContextKeySMBShareUUID, m_SMBShareUUID meta)
  else None.

Definition protocol_keys : list string :=
  [VolumeContextKeyNFSShareUUID; VolumeContextKeyNQN; VolumeContextKeyISCSIIQN; VolumeContextKeySMBShareUUID].

Lemma protocol_key_in meta k v : protocol_key meta = Some (k, v) -> k ∈ protocol_keys.
Proof. unfold protocol_key, protocol_keys. repeat case_match; intros [= <- <-]; set_solver. Qed.

Lemma buildVolumeContext_split meta :
  buildVolumeContext meta =
  match protocol_key meta with Some (k, v) => put_nonempty k v (common_context meta) | None => common_context meta end.
Proof.
  unfold buildVolumeContext, protocol_key, common_context. cbv zeta.
  repeat (destruct (String.eqb (m_Protocol meta) _); [done|]). done.
Qed.

Lemma buildVolumeContext_common meta k :
  k ∉ protocol_keys -> (Some (buildVolumeContext meta)).[k] = (Some (common_context meta)).[k].
Proof.
  intros Hk. unfold map_get, map_lookup. rewrite buildVolumeContext_split.
  destruct (protocol_key meta) as [[k' v]|] eqn:E; [|done].
  rewrite put_nonempty_other; [done|]. intros ->. by eapply Hk, protocol_key_in.
Qed.

Definition common_keys : list string :=
  [VolumeContextKeyProtocol; VolumeContextKeyServer; VolumeContextKeyDatasetID; VolumeContextKeyDatasetName].

Lemma common_context_none meta k : k ∉ common_keys -> common_context meta !! k = None.
Proof.
  unfold common_keys. rewrite !not_elem_of_cons. intros (H1 & H2 & H3 & H4 & _). unfold common_context.
  rewrite !put_nonempty_other by done. by rewrite lookup_singleton_ne.
Qed.

(** Reads an entry of the common context. *)
Ltac context_entry :=
  rewrite buildVolumeContext_common by (unfold protocol_keys; set_solver);
  unfold common_context, map_get, map_lookup; rewrite ?put_nonempty_other by done;
  first [by rewrite lookup_singleton_eq
        |apply put_nonempty_get; rewrite ?put_nonempty_other by done; by rewrite lookup_singleton_ne].

Lemma built_protocol meta : (Some (buildVolumeContext meta)).[VolumeContextKeyProtocol] = m_Protocol meta.
Proof. context_entry. Qed.

Lemma built_server meta : (Some (buildVolumeContext meta)).[VolumeContextKeyServer] = m_Server meta.
Proof. context_entry. Qed.

Lemma built_key meta k v : protocol_key meta = Some (k, v) -> (Some (buildVolumeContext meta)).[k] = v.
Proof.
  intros E. rewrite buildVolumeContext_split, E. apply put_nonempty_get, common_context_none.
  apply protocol_key_in in E. unfold protocol_keys in E. set_solver.
Qed.

Lemma get_insert_ne (ctx : smap) k k' x : k <> k' -> (Some (<[k := x]> ctx)).[k'] = (Some ctx).[k'].
Proof. intros H. unfold map_get, map_lookup. by rewrite lookup_insert_ne. Qed.

Lemma get_insert (ctx : smap) k x : (Some (<[k := x]> ctx)).[k] = x.
Proof. unfold map_get, map_lookup. by rewrite lookup_insert_eq. Qed.

Lemma get_put_ne (ctx : smap) k k' x : k <> k' -> (Some (put_nonempty k x ctx)).[k'] = (Some ctx).[k'].
Proof. intros H. unfold map_get, map_lookup. by rewrite put_nonempty_other. Qed.

(** The volume context carries the metadata.  The context that a volume
    is answered with gives back the protocol, server, dataset and the
    identifier of its protocol, and the node chooses the protocol the
    controller recorded (NFS when none is recorded). *)
Theorem buildVolumeContext_roundtrip meta :
  let ctx := Some (buildVolumeContext meta) in
  ctx.[VolumeContextKeyProtocol] = m_Protocol meta /\ ctx.[VolumeContextKeyServer] = m_Server meta /\
  ctx.[VolumeContextKeyDatasetID] = m_DatasetID meta /\ ctx.[VolumeContextKeyDatasetName] = m_DatasetName meta /\
  (forall k v, protocol_key meta = Some (k, v) -> ctx.[k] = v) /\
  getProtocolFromVolumeContext ctx = (if String.eqb (m_Protocol meta) "" then ProtocolNFS else m_Protocol meta).
Proof.
  cbv zeta. pose proof (built_protocol meta) as Hp. split_and!; [done|apply built_server|context_entry..| |].
  - apply built_key.
  - unfold getProtocolFromVolumeContext. rewrite Hp. destruct (String.eqb_spec (m_Protocol meta) "") as [E|]; [|done].
    cbn [negb]. assert (forall k, k ∈ [VolumeContextKeyNQN; VolumeContextKeyISCSIIQN; VolumeContextKeyShare] ->
      (Some (buildVolumeContext meta)).[k] = "") as Hk.
    { intros k Hk. rewrite buildVolumeContext_split. assert (protocol_key meta = None) as -> by (unfold protocol_key; by rewrite E).
      unfold map_get, map_lookup. rewrite common_context_none; [done|]. unfold common_keys. set_solver. }
    by rewrite !Hk by set_solver.
Qed.
