(* ===== verification/Capacity.v ===== *)
(** * Capacity arithmetic (driver/controller.go)

    Requested sizes are rounded up to what the backend can represent, checked
    against the request's limit and the backend's ceiling, and compared with
    the current size of an existing volume.  All values are Go [int64] or
    [uint64]; the wrap-around of the arithmetic is written out. *)

From S2P Require Import Prelude GoStrings Prog Errors Api Metadata.

(** ** Definitions *)

(** The allocation unit of a protocol; 0 stands for an unknown protocol. *)
Definition protocol_alignment (protocol : string) : option Z :=
  if String.eqb protocol ProtocolNFS || String.eqb protocol ProtocolSMB then Some 1024
  else if String.eqb protocol ProtocolISCSI || String.eqb protocol ProtocolNVMeOF then Some 512
  else None.

Definition representableCapacity (protocol : string) (requiredBytes : Z) : res Z :=
  match protocol_alignment protocol with
  | None =>
      Err (Errorf (sentinel_text errUnsupportedExpandProtocol +:+ ": " +:+ protocol)
             [err_new errUnsupportedExpandProtocol])
  | Some alignment =>
      if sub64 int64_max (sub64 alignment 1) <? requiredBytes then
        Err (Errorf (sentinel_text errExpansionCapacityTooLarge +:+ ": " +:+ FormatInt requiredBytes)
               [err_new errExpansionCapacityTooLarge])
      else Ok (mul64 (div64 (sub64 (add64 requiredBytes alignment) 1) alignment) alignment)
  end.

Record expansionPlan : Type := mkPlan {
  p_targetBytes : Z; p_currentBytes : Z; p_alreadySatisfied : bool
}.

Definition validateExpansionRange (requiredBytes limitBytes : Z) : res unit :=
  if (requiredBytes <? 0) || (limitBytes <? 0) then
    Err (Status InvalidArgument "Capacity range values must not be negative")
  else if (0 <? limitBytes) && (limitBytes <? requiredBytes) then
    Err (Status InvalidArgument ("Required capacity " +:+ FormatInt requiredBytes +:+ " exceeds limit " +:+ FormatInt limitBytes))
  else if (requiredBytes =? 0) && (limitBytes =? 0) then
    Err (Status InvalidArgument "Capacity range must specify required bytes or limit bytes")
  else Ok tt.

(** The allocation part of [planExpansion], reached when the current capacity
    is unknown or too small. *)
Definition planAllocation (meta : VolumeMetadata) (requiredBytes limitBytes : Z) : res expansionPlan :=
  let allocationBytes := if requiredBytes <? MinVolumeSize then MinVolumeSize else requiredBytes in
  match representableCapacity (m_Protocol meta) allocationBytes with
  | Err err => Err (Status InvalidArgument ("Invalid expansion capacity: " +:+ err_text err))
  | Ok targetBytes =>
      if (0 <? limitBytes) && (limitBytes <? targetBytes) then
        Err (Status OutOfRange ("Smallest representable capacity " +:+ FormatInt targetBytes +:+
                                " exceeds requested limit " +:+ FormatInt limitBytes))
      else Ok (mkPlan targetBytes 0 false)
  end.

Definition known_protocol (protocol : string) : bool :=
  String.eqb protocol ProtocolNFS || String.eqb protocol ProtocolNVMeOF ||
  String.eqb protocol ProtocolISCSI || String.eqb protocol ProtocolSMB.

Definition planExpansion (meta : VolumeMetadata) (requiredBytes limitBytes : Z) : res expansionPlan :=
  if MaxVolumeSize <? requiredBytes then
    Err (Status OutOfRange ("Requested capacity " +:+ FormatInt requiredBytes +:+
                            " exceeds backend maximum " +:+ FormatInt MaxVolumeSize))
  else if negb (known_protocol (m_Protocol meta)) then
    Err (Status Internal ("Unknown protocol " +:+ m_Protocol meta +:+ " for volume " +:+ m_Name meta))
  else
    match m_CurrentCapacityBytes meta with
    | Some current =>
        if int64_max <? current then
          Err (Status OutOfRange ("Current volume capacity " +:+ FormatInt current +:+ " cannot be represented by CSI"))
        else
          let currentBytes := to_int64 current in
          if (0 <? limitBytes) && (limitBytes <? currentBytes) then
            Err (Status OutOfRange ("Current volume capacity " +:+ FormatInt currentBytes +:+
                                    " exceeds requested limit " +:+ FormatInt limitBytes))
          else if requiredBytes <=? currentBytes then Ok (mkPlan currentBytes current true)
          else planAllocation meta requiredBytes limitBytes
    | None =>
        if requiredBytes =? 0 then
          Err (Status InvalidArgument "Required capacity must be positive when current backend capacity is unavailable")
        else planAllocation meta requiredBytes limitBytes
    end.

(** [normalizeCreateCapacity] writes the normalized size into the request. *)
Definition normalizeCreateCapacity (req : CreateVolumeRequest) (protocol : string) : res CreateVolumeRequest :=
  let range := req_CapacityRange req in
  let requestedBytes := GetRequiredBytes range in
  let limitBytes := GetLimitBytes range in
  if (requestedBytes <? 0) || (limitBytes <? 0) then
    Err (Status InvalidArgument "Capacity range values must not be negative")
  else if (0 <? limitBytes) && (limitBytes <? requestedBytes) then
    Err (Status InvalidArgument ("Required capacity " +:+ FormatInt requestedBytes +:+ " exceeds limit " +:+ FormatInt limitBytes))
  else
    let requiredBytes := if 0 <? requestedBytes then requestedBytes else MinVolumeSize in
    let requiredBytes := if requiredBytes <? MinVolumeSize then MinVolumeSize else requiredBytes in
    if MaxVolumeSize <? requiredBytes then
      Err (Status OutOfRange ("Requested capacity " +:+ FormatInt requiredBytes +:+
                              " exceeds backend maximum " +:+ FormatInt MaxVolumeSize))
    else
      match representableCapacity protocol requiredBytes with
      | Err err => Err (Status InvalidArgument ("Invalid volume capacity: " +:+ err_text err))
      | Ok targetBytes =>
          if (0 <? limitBytes) && (limitBytes <? targetBytes) then
            Err (Status OutOfRange ("Smallest representable capacity " +:+ FormatInt targetBytes +:+
                                    " exceeds requested limit " +:+ FormatInt limitBytes))
          else Ok (set_CapacityRange (Some (mkCapacityRange targetBytes limitBytes)) req)
      end.

(** [parseDataReplicas]: 0 for the filesystem's default. *)
Definition parseDataReplicas (val : string) : res Z :=
  if String.eqb val "" then Ok 0
  else match ParseUint val 32 with
       | Some n =>
           if n <? 1 then Err (Status InvalidArgument ("dataReplicas must be a positive integer, got " +:+ Quote val))
           else Ok n
       | None => Err (Status InvalidArgument ("dataReplicas must be a positive integer, got " +:+ Quote val))
       end.

Section CapacityOps.
Context {api : NastyAPI}.

Definition reconcileCapacityProperty (meta : VolumeMetadata) (capacity : Z) : M (res unit) :=
  if match m_RecordedCapacityBytes meta with Some r => r =? capacity | None => false end then Ret (Ok tt)
  else
    match splitSubvolumeID (m_DatasetID meta) with
    | Err err => Ret (Err err)
    | Ok (filesystem, name) =>
        let! (_, err) := do_ (ResizeSubvolume filesystem name capacity) in
        match err with
        | Some e => Ret (Err e)
        | None =>
            let! (_, err) := do_ (SetSubvolumeProperties filesystem name
                                    {[ PropertyCapacityBytes := FormatInt capacity ]}) in
            match err with Some e => Ret (Err e) | None => Ret (Ok tt) end
        end
    end.

(** [ensureClonedVolumeCapacity] returns the selected size and the request
    carrying it ([req.CapacityRange] is non-nil after normalization). *)
Definition ensureClonedVolumeCapacity (req : CreateVolumeRequest) (filesystem name : string)
    : M (res (Z * CreateVolumeRequest)) :=
  let path := filesystem +:+ "/" +:+ name in
  let! (subvolume, err) := do_ (GetSubvolume filesystem name) in
  match err with
  | Some e => Ret (Err (Status Internal ("failed to read cloned subvolume " +:+ path +:+ ": " +:+ err_text e)))
  | None =>
      let invalid := Err (Status Internal ("cloned subvolume " +:+ path +:+ " has no valid backend capacity")) in
      match authoritativeSubvolumeCapacity subvolume with
      | None => Ret invalid
      | Some current =>
          if int64_max <? current then Ret invalid
          else
            let currentBytes := to_int64 current in
            let targetBytes := GetRequiredBytes (req_CapacityRange req) in
            let limitBytes := GetLimitBytes (req_CapacityRange req) in
            let exceeds (z : Z) := Status OutOfRange ("Cloned volume capacity " +:+ FormatInt z +:+
                                                      " exceeds requested limit " +:+ FormatInt limitBytes) in
            if (0 <? limitBytes) && (limitBytes <? currentBytes) then Ret (Err (exceeds currentBytes))
            else
              let selectedBytes := if currentBytes <? targetBytes then targetBytes else currentBytes in
              let! (resized, err) := do_ (ResizeSubvolume filesystem name (to_uint64 selectedBytes)) in
              match err with
              | Some e =>
                  Ret (Err (Status Internal ("failed to apply cloned subvolume capacity for " +:+ path +:+ ": " +:+ err_text e)))
              | None =>
                  let checked (selectedBytes : Z) : M (res (Z * CreateVolumeRequest)) :=
                    if selectedBytes <? targetBytes then
                      Ret (Err (Status Internal ("cloned subvolume " +:+ path +:+ " remained below requested capacity")))
                    else if (0 <? limitBytes) && (limitBytes <? selectedBytes) then
                      Ret (Err (exceeds selectedBytes))
                    else
                      range <- deref (req_CapacityRange req);;
                      Ret (Ok (selectedBytes, set_CapacityRange (Some (mkCapacityRange selectedBytes (LimitBytes range))) req)) in
                  match authoritativeSubvolumeCapacity resized with
                  | None => checked selectedBytes
                  | Some returned =>
                      if int64_max <? returned then
                        Ret (Err (Status Internal ("cloned subvolume " +:+ path +:+ " returned an invalid backend capacity")))
                      else checked (to_int64 returned)
                  end
              end
      end
  end.
End CapacityOps.

Definition requiresNodeExpansion (protocol : string) (capability : option VolumeCapability) : bool :=
  if String.eqb protocol ProtocolISCSI then true
  else if String.eqb protocol ProtocolNVMeOF then
    match capability with
    | None => true
    | Some c => match cap_type c with Block => false | _ => true end
    end
  else false.

(** ** Rounding *)

(** The least multiple of [a] that is at least [r]. *)
Definition least_multiple (a r t : Z) : Prop :=
  r <= t /\ (a | t) /\ forall t', (a | t') -> r <= t' -> t <= t'.

Lemma round_up_least a r :
  0 < a -> 0 <= r -> least_multiple a r ((r + a - 1) / a * a).
Proof.
  intros Ha Hr. pose proof (Z.div_mod (r + a - 1) a ltac:(lia)) as E.
  pose proof (Z.mod_pos_bound (r + a - 1) a ltac:(lia)) as B.
  split; [nia|]. split; [by apply Z.divide_factor_r|].
  intros t' [k ->] Hk. apply Z.mul_le_mono_nonneg_r; [lia|].
  apply Z.lt_succ_r. apply Z.div_lt_upper_bound; nia.
Qed.

Lemma protocol_alignment_pos protocol a : protocol_alignment protocol = Some a -> a = 1024 \/ a = 512.
Proof. unfold protocol_alignment. repeat case_match; naive_solver. Qed.

(** Functional behaviour and absence of overflow of the rounding. *)
Lemma representableCapacity_ok protocol a r :
  protocol_alignment protocol = Some a -> 0 <= r <= int64_max - (a - 1) ->
  exists t, representableCapacity protocol r = Ok t /\ least_multiple a r t /\ is_int64 t.
Proof.
  intros Ha Hr. assert (0 < a <= 1024) as Hpos by (destruct (protocol_alignment_pos _ _ Ha); lia).
  unfold representableCapacity. rewrite Ha. unfold sub64, add64, mul64, div64, int64_max in *.
  rewrite (to_int64_id (a - 1)) by (unfold is_int64, int64_min, int64_max; lia).
  rewrite (to_int64_id (2 ^ 63 - 1 - (a - 1))) by (unfold is_int64, int64_min, int64_max; lia).
  destruct (Z.ltb_spec (2 ^ 63 - 1 - (a - 1)) r); [lia|].
  rewrite to_int64_sub_l.
  rewrite (to_int64_id (r + a - 1)) by (unfold is_int64, int64_min, int64_max; lia).
  rewrite Z.quot_div_nonneg by lia.
  pose proof (round_up_least a r ltac:(lia) ltac:(lia)) as Hl.
  assert (0 <= (r + a - 1) / a * a <= r + a - 1) as Hb.
  { pose proof (Z.div_mod (r + a - 1) a ltac:(lia)). pose proof (Z.mod_pos_bound (r + a - 1) a ltac:(lia)).
    split; [|nia]. apply Z.mul_nonneg_nonneg; [apply Z.div_pos|]; lia. }
  assert (0 <= (r + a - 1) / a <= r + a - 1) as Hd.
  { split; [apply Z.div_pos; lia|]. apply Z.div_le_upper_bound; nia. }
  rewrite (to_int64_id ((r + a - 1) / a)) by (unfold is_int64, int64_min, int64_max; lia).
  rewrite to_int64_id by (unfold is_int64, int64_min, int64_max; lia).
  eexists. split; [done|]. split; [done|]. unfold is_int64, int64_min, int64_max. lia.
Qed.

Lemma representableCapacity_err protocol r e :
  representableCapacity protocol r = Err e ->
  protocol_alignment protocol = None \/
  exists a, protocol_alignment protocol = Some a /\ int64_max - (a - 1) < r.
Proof.
  unfold representableCapacity. destruct (protocol_alignment protocol) as [a|] eqn:Ha; [|by left].
  assert (0 < a <= 1024) as Hpos by (destruct (protocol_alignment_pos _ _ Ha); lia).
  unfold sub64, int64_max.
  rewrite (to_int64_id (a - 1)) by (unfold is_int64, int64_min, int64_max; lia).
  rewrite (to_int64_id (2 ^ 63 - 1 - (a - 1))) by (unfold is_int64, int64_min, int64_max; lia).
  case_match eqn:E; [|done]. intros _. right. exists a. split; [done|]. by apply Z.ltb_lt in E.
Qed.

(** Below the backend's ceiling the rounding of a known protocol succeeds and
    stays below the ceiling. *)
Lemma representableCapacity_max protocol r :
  known_protocol protocol = true -> 0 <= r <= MaxVolumeSize ->
  exists a t, protocol_alignment protocol = Some a /\ representableCapacity protocol r = Ok t /\
    least_multiple a r t /\ t <= MaxVolumeSize.
Proof.
  intros Hp Hr. assert (exists a, protocol_alignment protocol = Some a) as [a Ha].
  { unfold known_protocol in Hp. unfold protocol_alignment. repeat rewrite orb_true_iff in Hp.
    destruct Hp as [[[Hp|Hp]|Hp]|Hp]; rewrite Hp; rewrite ?orb_true_r; simpl; repeat case_match; eauto. }
  assert (MaxVolumeSize = 281474976710656) as HM by reflexivity.
  pose proof (protocol_alignment_pos _ _ Ha) as Hcases.
  destruct (representableCapacity_ok protocol a r Ha) as (t & Ht & Hl & _).
  { unfold int64_max. lia. }
  exists a, t. split; [done|]. split; [done|]. split; [done|]. destruct Hl as (_ & _ & Hmin).
  apply Hmin; [|lia]. rewrite HM. destruct Hcases as [-> | ->].
  - by exists 274877906944.
  - by exists 549755813888.
Qed.

(** ** planAllocation and planExpansion *)

(** What a plan that still has to allocate promises. *)
Definition allocation_ok (protocol : string) (requiredBytes limitBytes : Z) (plan : expansionPlan) : Prop :=
  p_alreadySatisfied plan = false /\
  (exists a, protocol_alignment protocol = Some a /\
     least_multiple a (Z.max requiredBytes MinVolumeSize) (p_targetBytes plan)) /\
  p_targetBytes plan <= MaxVolumeSize /\
  (0 < limitBytes -> p_targetBytes plan <= limitBytes).

Lemma planAllocation_ok meta r l plan :
  known_protocol (m_Protocol meta) = true -> r <= MaxVolumeSize ->
  planAllocation meta r l = Ok plan -> allocation_ok (m_Protocol meta) r l plan.
Proof.
  intros Hp Hr. unfold planAllocation.
  set (alloc := if r <? MinVolumeSize then MinVolumeSize else r).
  assert (alloc = Z.max r MinVolumeSize) as Ealloc by (unfold alloc; destruct (Z.ltb_spec r MinVolumeSize); lia).
  assert (MinVolumeSize = 1073741824 /\ MaxVolumeSize = 281474976710656) as [Hm HM] by done.
  destruct (representableCapacity_max (m_Protocol meta) alloc Hp) as (a & t & Ha & Ht & Hl & Hb); [lia|].
  rewrite Ht. destruct ((0 <? l) && (l <? t)) eqn:El; [done|]. intros [= <-].
  unfold allocation_ok. simpl. split; [done|]. split; [exists a; by rewrite <- Ealloc|].
  split; [done|]. intros Hl0. apply andb_false_iff in El as [El|El]; bool_to_prop; lia.
Qed.

(** The errors of [planAllocation] are those of its two tests. *)
Lemma planAllocation_err meta r l e :
  known_protocol (m_Protocol meta) = true -> r <= MaxVolumeSize ->
  planAllocation meta r l = Err e ->
  err_code e = OutOfRange /\ 0 < l /\
  exists a t, protocol_alignment (m_Protocol meta) = Some a /\
    least_multiple a (Z.max r MinVolumeSize) t /\ l < t.
Proof.
  intros Hp Hr. unfold planAllocation.
  set (alloc := if r <? MinVolumeSize then MinVolumeSize else r).
  assert (alloc = Z.max r MinVolumeSize) as Ealloc by (unfold alloc; destruct (Z.ltb_spec r MinVolumeSize); lia).
  assert (MinVolumeSize = 1073741824 /\ MaxVolumeSize = 281474976710656) as [Hm HM] by done.
  destruct (representableCapacity_max (m_Protocol meta) alloc Hp) as (a & t & Ha & Ht & Hl & Hb); [lia|].
  rewrite Ht. destruct ((0 <? l) && (l <? t)) eqn:El; [|done]. intros [= <-]. bool_to_prop.
  split; [done|]. split; [done|]. exists a, t. by rewrite <- Ealloc.
Qed.

(** The size of a plan, as [ControllerExpandVolume] uses it. *)
Definition plan_ok (meta : VolumeMetadata) (requiredBytes limitBytes : Z) (plan : expansionPlan) : Prop :=
  known_protocol (m_Protocol meta) = true /\ requiredBytes <= MaxVolumeSize /\
  if p_alreadySatisfied plan then
    m_CurrentCapacityBytes meta = Some (p_targetBytes plan) /\
    p_currentBytes plan = p_targetBytes plan /\
    requiredBytes <= p_targetBytes plan <= int64_max /\
    (0 < limitBytes -> p_targetBytes plan <= limitBytes)
  else
    allocation_ok (m_Protocol meta) requiredBytes limitBytes plan /\
    (forall c, m_CurrentCapacityBytes meta = Some c -> c < p_targetBytes plan).

Lemma planExpansion_ok meta requiredBytes limitBytes plan :
  (forall c, m_CurrentCapacityBytes meta = Some c -> is_uint64 c) ->
  planExpansion meta requiredBytes limitBytes = Ok plan ->
  plan_ok meta requiredBytes limitBytes plan.
Proof.
  intros Hc. unfold planExpansion, plan_ok.
  destruct (Z.ltb_spec MaxVolumeSize requiredBytes); [done|].
  destruct (known_protocol (m_Protocol meta)) eqn:Hp; simpl; [|done].
  destruct (m_CurrentCapacityBytes meta) as [c|] eqn:Ec.
  - destruct (Z.ltb_spec int64_max c); [done|].
    specialize (Hc c eq_refl). unfold is_uint64 in Hc.
    rewrite to_int64_id by (unfold is_int64, int64_min in *; lia).
    destruct ((0 <? limitBytes) && (limitBytes <? c)) eqn:El; [done|].
    destruct (Z.leb_spec requiredBytes c).
    + intros [= <-]. simpl. repeat split; lia.
    + intros Hplan. pose proof (planAllocation_ok _ _ _ _ Hp ltac:(done) Hplan) as Hok.
      rewrite (proj1 Hok). split_and!; try done.
      destruct Hok as (_ & (a & _ & Hge & _) & _). intros c' [= <-]. lia.
  - destruct (Z.eqb_spec requiredBytes 0); [done|]. intros Hplan.
    pose proof (planAllocation_ok _ _ _ _ Hp ltac:(done) Hplan) as Hok.
    rewrite (proj1 Hok). split_and!; done.
Qed.

(** An accepted expansion plan covers the request, respects the limit and
    never shrinks the volume: either the current size already satisfies the
    request and is reported unchanged, or the target is the least multiple of
    the protocol's allocation unit that is at least the request and 1 GiB, is
    within the request's limit and the 256 TiB ceiling, and exceeds the
    current size. *)
Theorem planExpansion_correct meta requiredBytes limitBytes plan :
  (forall c, m_CurrentCapacityBytes meta = Some c -> is_uint64 c) ->
  planExpansion meta requiredBytes limitBytes = Ok plan ->
  plan_ok meta requiredBytes limitBytes plan.
Proof. apply planExpansion_ok. Qed.

Definition example_meta : VolumeMetadata :=
  mkVolumeMetadata "tank/pvc-1" "nfs" "tank/pvc-1" "pvc-1" (Some 1073741824) None "" "" "" "" "".

Lemma planExpansion_correct_witness :
  planExpansion example_meta 1073741825 0 = Ok (mkPlan 1073742848 0 false) /\
  plan_ok example_meta 1073741825 0 (mkPlan 1073742848 0 false).
Proof.
  split; [reflexivity|]. apply (planExpansion_correct example_meta 1073741825 0).
  - intros c H. injection H as <-. unfold is_uint64, uint64_max. lia.
  - reflexivity.
Defined.

(** The size a request is normalized to. *)
Definition normalized_size (req : CreateVolumeRequest) (a t : Z) : Prop :=
  least_multiple a (Z.max (GetRequiredBytes (req_CapacityRange req)) MinVolumeSize) t /\
  MinVolumeSize <= t <= MaxVolumeSize /\
  (0 < GetLimitBytes (req_CapacityRange req) -> t <= GetLimitBytes (req_CapacityRange req)).

Lemma alignment_known protocol a : protocol_alignment protocol = Some a -> known_protocol protocol = true.
Proof.
  unfold protocol_alignment, known_protocol.
  destruct (String.eqb protocol ProtocolNFS), (String.eqb protocol ProtocolSMB),
    (String.eqb protocol ProtocolISCSI), (String.eqb protocol ProtocolNVMeOF); done.
Qed.

(** What is rounded up when it is accepted. *)
Lemma representableCapacity_least protocol r t :
  MinVolumeSize <= r <= MaxVolumeSize -> representableCapacity protocol r = Ok t ->
  exists a, protocol_alignment protocol = Some a /\ least_multiple a r t /\ t <= MaxVolumeSize.
Proof.
  intros Hr Ht. assert (exists a, protocol_alignment protocol = Some a) as [a Ha].
  { unfold representableCapacity in Ht. destruct (protocol_alignment protocol); [eauto|done]. }
  exists a. split; [done|].
  destruct (representableCapacity_max protocol r (alignment_known _ _ Ha)) as (a' & t' & Ha' & Ht' & Hl & Hb).
  { unfold MinVolumeSize in Hr. lia. }
  assert (a' = a) as -> by congruence. assert (t' = t) as -> by congruence. split; [done|lia].
Qed.

Lemma normalizeCreateCapacity_ok req protocol req' :
  normalizeCreateCapacity req protocol = Ok req' ->
  exists a t, protocol_alignment protocol = Some a /\ normalized_size req a t /\
    representableCapacity protocol (Z.max (GetRequiredBytes (req_CapacityRange req)) MinVolumeSize) = Ok t /\
    req' = set_CapacityRange (Some (mkCapacityRange t (GetLimitBytes (req_CapacityRange req)))) req.
Proof.
  unfold normalizeCreateCapacity, normalized_size.
  set (r := GetRequiredBytes _). set (l := GetLimitBytes _).
  destruct ((r <? 0) || (l <? 0)) eqn:Eneg; [done|]. bool_to_prop.
  destruct ((0 <? l) && (l <? r)) eqn:Elim; [done|].
  assert (MinVolumeSize = 1073741824) as Hm by done.
  set (q := if (if 0 <? r then r else MinVolumeSize) <? MinVolumeSize then _ else _).
  assert (q = Z.max r MinVolumeSize) as ->.
  { unfold q. destruct (Z.ltb_spec 0 r); [destruct (Z.ltb_spec r MinVolumeSize)|rewrite Z.ltb_irrefl]; lia. }
  destruct (Z.ltb_spec MaxVolumeSize (Z.max r MinVolumeSize)); [done|].
  destruct (representableCapacity protocol (Z.max r MinVolumeSize)) as [t|] eqn:Et; [|done].
  destruct ((0 <? l) && (l <? t)) eqn:Elt; [done|]. intros [= <-].
  destruct (representableCapacity_least protocol (Z.max r MinVolumeSize) t ltac:(lia) Et) as (a & Ha & Hl & Hb).
  exists a, t. pose proof (proj1 Hl). repeat split; try done; try apply Hl; lia.
Qed.

(** A normalized size is not changed by another normalization. *)
Lemma normalized_fixed req protocol a t :
  protocol_alignment protocol = Some a -> normalized_size req a t ->
  let req' := set_CapacityRange (Some (mkCapacityRange t (GetLimitBytes (req_CapacityRange req)))) req in
  0 <= GetLimitBytes (req_CapacityRange req) -> normalizeCreateCapacity req' protocol = Ok req'.
Proof.
  intros Ha (Hl & Hb & Hlim) req' H0. set (l := GetLimitBytes (req_CapacityRange req)) in *.
  assert (MinVolumeSize = 1073741824 /\ MaxVolumeSize = 281474976710656) as [Hm HM] by done.
  destruct (representableCapacity_max protocol t (alignment_known _ _ Ha) ltac:(lia)) as (a' & t' & Ha' & Ht & Hl' & _).
  assert (a' = a) as -> by congruence. assert (t' = t) as ->.
  { destruct Hl as (? & Hd & _), Hl' as (? & _ & Hmin). apply Z.le_antisymm; [|done]. by apply Hmin. }
  unfold normalizeCreateCapacity. subst req'. simpl. fold l.
  destruct (Z.ltb_spec t 0); [lia|]. destruct (Z.ltb_spec l 0); [lia|]. cbn [orb].
  destruct ((0 <? l) && (l <? t)) eqn:Elt; [bool_to_prop; lia|].
  destruct (Z.ltb_spec 0 t); [|lia]. destruct (Z.ltb_spec t MinVolumeSize); [lia|].
  destruct (Z.ltb_spec MaxVolumeSize t); [lia|]. rewrite Ht, Elt. done.
Qed.

(** C35: a create request is normalized to the least representable size that
    covers it: the normalized size is between 1 GiB and 256 TiB, a multiple of
    the protocol's unit, within the limit; nothing else of the request changes
    and normalizing again, as a snapshot restore does, changes nothing. *)
Theorem normalizeCreateCapacity_correct req protocol req' :
  normalizeCreateCapacity req protocol = Ok req' ->
  exists a t, protocol_alignment protocol = Some a /\
    req_CapacityRange req' = Some (mkCapacityRange t (GetLimitBytes (req_CapacityRange req))) /\
    least_multiple a (Z.max (GetRequiredBytes (req_CapacityRange req)) MinVolumeSize) t /\
    MinVolumeSize <= t <= MaxVolumeSize /\
    (0 < GetLimitBytes (req_CapacityRange req) -> t <= GetLimitBytes (req_CapacityRange req)) /\
    req' = set_CapacityRange (req_CapacityRange req') req /\
    normalizeCreateCapacity req' protocol = Ok req'.
Proof.
  intros H. destruct (normalizeCreateCapacity_ok _ _ _ H) as (a & t & Ha & Hs & _ & ->).
  exists a, t. destruct (Hs) as (Hl & Hb & Hlim). repeat split; try done; try lia; try apply Hl.
  eapply normalized_fixed; [done|done|].
  unfold normalizeCreateCapacity in H. destruct ((_ <? 0) || (_ <? 0)) eqn:E; [done|]. by bool_to_prop.
Qed.

Definition example_req : CreateVolumeRequest :=
  mkCreateVolumeRequest "pvc-1" (Some (mkCapacityRange 1073741825 0))
    [mkVolumeCapability (Mount "") SINGLE_NODE_WRITER] None None.

Lemma normalizeCreateCapacity_correct_witness :
  exists a t req', normalizeCreateCapacity example_req "iscsi" = Ok req' /\
    protocol_alignment "iscsi" = Some a /\ req_CapacityRange req' = Some (mkCapacityRange t 0) /\
    least_multiple a 1073741825 t.
Proof.
  destruct (normalizeCreateCapacity_correct example_req "iscsi"
              (set_CapacityRange (Some (mkCapacityRange 1073742336 0)) example_req))
    as (a & t & Ha & Hr & Hl & _); [reflexivity|].
  exists a, t, (set_CapacityRange (Some (mkCapacityRange 1073742336 0)) example_req).
  split; [reflexivity|]. split; [exact Ha|]. split; [exact Hr|exact Hl].
Defined.
