(* ===== verification/Sha256.v ===== *)
(** * SHA-256 (Go's crypto/sha256)

    The digest the backend-name suffix is taken from, computed on a byte string
    (FIPS 180-4), with 32-bit words as [Z] and their wrap-around written out. *)

From S2P Require Import Prelude.

Definition mask32 (x : Z) : Z := x mod 2 ^ 32.
Definition rotr (n x : Z) : Z := mask32 (Z.lor (Z.shiftr x n) (Z.shiftl x (32 - n))).
Definition Ch (x y z : Z) : Z := Z.lxor (Z.land x y) (Z.land (2 ^ 32 - 1 - x) z).
Definition Maj (x y z : Z) : Z := Z.lxor (Z.lxor (Z.land x y) (Z.land x z)) (Z.land y z).
Definition Sigma0 (x : Z) : Z := Z.lxor (Z.lxor (rotr 2 x) (rotr 13 x)) (rotr 22 x).
Definition Sigma1 (x : Z) : Z := Z.lxor (Z.lxor (rotr 6 x) (rotr 11 x)) (rotr 25 x).
Definition sigma0 (x : Z) : Z := Z.lxor (Z.lxor (rotr 7 x) (rotr 18 x)) (Z.shiftr x 3).
Definition sigma1 (x : Z) : Z := Z.lxor (Z.lxor (rotr 17 x) (rotr 19 x)) (Z.shiftr x 10).

(** The constants, as FIPS 180-4 defines them: the first 32 bits of the
    fractional parts of the cube roots (the round constants) and square roots
    (the initial hash) of the first primes. *)

(** The largest [r] with [r ^ 3 <= n], [bits] binary digits at a time. *)
Fixpoint cube_root_bits (bits : nat) (r n : Z) : Z :=
  match bits with
  | O => r
  | S bits' =>
      let r' := r + Z.shiftl 1 (Z.of_nat bits') in
      cube_root_bits bits' (if r' * r' * r' <=? n then r' else r) n
  end.

Definition first_primes : list Z :=
  filter (fun p => forallb (fun d => negb (p mod d =? 0) || (p =? d)) (map Z.of_nat (seq 2 16)) = true)
    (map Z.of_nat (seq 2 310)).

Definition cube_fraction (p : Z) : Z := mask32 (cube_root_bits 40 0 (Z.shiftl p 96)).
Definition square_fraction (p : Z) : Z := mask32 (Z.sqrt (Z.shiftl p 64)).

Definition round_constants : list Z := Eval vm_compute in map cube_fraction first_primes.
Definition initial_hash : list Z := Eval vm_compute in map square_fraction (firstn 8 first_primes).

(** Big-endian bytes to a number and back. *)
Definition be_value (bs : list Z) : Z := fold_left (fun acc b => acc * 256 + b) bs 0.
Fixpoint be_bytes (n : nat) (x : Z) : list Z :=
  match n with O => [] | S n' => be_bytes n' (x / 256) ++ [x mod 256] end.

Definition padded (msg : list Z) : list Z :=
  let len := Z.of_nat (length msg) in
  let zeros := Z.to_nat ((55 - len) mod 64) in
  msg ++ [0x80] ++ repeat 0 zeros ++ be_bytes 8 (8 * len).

(** The message schedule, most recent word first. *)
Fixpoint extend (n : nat) (w : list Z) : list Z :=
  match n with
  | O => w
  | S n' =>
      let at_ (i : nat) := nth (i - 1) w 0 in
      extend n' (mask32 (sigma1 (at_ 2%nat) + at_ 7%nat + sigma0 (at_ 15%nat) + at_ 16%nat) :: w)
  end.

Fixpoint words (n : nat) (bs : list Z) : list Z :=
  match n with O => [] | S n' => be_value (firstn 4 bs) :: words n' (skipn 4 bs) end.

Definition round (st : list Z) (kw : Z * Z) : list Z :=
  match st with
  | [a; b; c; d; e; f; g; h] =>
      let t1 := h + Sigma1 e + Ch e f g + kw.1 + kw.2 in
      let t2 := Sigma0 a + Maj a b c in
      [mask32 (t1 + t2); a; b; c; mask32 (d + t1); e; f; g]
  | _ => st
  end.

Definition compress (h : list Z) (block : list Z) : list Z :=
  let schedule := rev (extend 48 (rev (words 16 block))) in
  let st := fold_left round (combine round_constants schedule) h in
  map (fun p => mask32 (p.1 + p.2)) (combine h st).

(** [n] blocks of 64 bytes. *)
Fixpoint blocks (n : nat) (h : list Z) (bs : list Z) : list Z :=
  match n with
  | O => h
  | S n' => blocks n' (compress h (firstn 64 bs)) (skipn 64 bs)
  end.

Definition sha256_bytes (msg : list Z) : list Z :=
  let p := padded msg in
  concat (map (be_bytes 4) (blocks (length p / 64) initial_hash p)).

Definition byte_values (s : string) : list Z :=
  map (fun c => Z.of_N (N_of_ascii c)) (list_ascii_of_string s).

Definition Sum256 (s : string) : list Z := sha256_bytes (byte_values s).

(** The FIPS test vector for the message abc. *)
Example sha256_abc :
  be_value (Sum256 "abc") = 0xba7816bf8f01cfea414140de5dae2223b00361a396177a9cb410ff61f20015ad.
Proof. vm_compute. reflexivity. Qed.

(** A two-block message. *)
Example sha256_two_blocks :
  be_value (Sum256 "abcdbcdecdefdefgefghfghighijhijkijkljklmklmnlmnomnopnopq")
  = 0x248d6a61d20638b8e5c026930c3e6039a33ce45964ff2167f6ecedd419db06c1.
Proof. vm_compute. reflexivity. Qed.
