(* ===== verification/Names.v ===== *)
(** * Backend volume names (driver/template.go)

    Naming templates, sanitization and the collision-resistant suffix.  Go's
    text/template engine is the parameter [TextTemplate]: parsing a template
    and executing it on the naming context.  [field_templates] is the fragment
    of plain text and field references, used by the examples. *)

From S2P Require Import Prelude GoStrings Errors Api Sha256.
From S2P Require Metadata.

Record VolumeNameContext : Type := mkNameContext {
  PVCName : string; PVCNamespace : string; PVName : string
}.

Class TextTemplate : Type := {
  Template : Type;
  Template_Parse : string -> string -> res Template;
  Template_Execute : Template -> VolumeNameContext -> res string
}.

Definition maxBackendNameBytes : nat := 63.
Definition backendNameSuffixLength : nat := 8.
Definition backendNameSuffixAlphabet : string :=
  "0123456789ABCDEFGHIJKLMNOPQRSTUVWXYZabcdefghijklmnopqrstuvwxyz".
Definition backendNameHashDomain : string := "nasty-csi/backend-name/v2" +:+ String (chr 0) "".

Definition ParamNameTemplate : string := "nameTemplate".
Definition ParamNamePrefix : string := "namePrefix".
Definition ParamNameSuffix : string := "nameSuffix".
Definition ParamCommentTemplate : string := "commentTemplate".

(** ** Characters *)

Definition is_alnum (c : ascii) : bool :=
  let n := nat_of_ascii c in in_range 97 122 n || in_range 65 90 n || in_range 48 57 n.

(** The characters the name may contain. *)
Definition is_name_char (c : ascii) : bool := is_alnum c || str_mem c "._:-".

Fixpoint str_forall (f : ascii -> bool) (s : string) : bool :=
  match s with EmptyString => true | String c s' => f c && str_forall f s' end.

(** [validNameRegex]: one alphanumeric, then name characters. *)
Definition validNameRegex_MatchString (name : string) : bool :=
  match name with
  | EmptyString => false
  | String c s => is_alnum c && str_forall is_name_char s
  end.

Definition validateVolumeName (name : string) : res unit :=
  if String.eqb name "" then Err (err_new ErrVolumeNameEmpty)
  else if negb (validNameRegex_MatchString name) then
    Err (Errorf (sentinel_text ErrVolumeNameInvalid +:+ ": '" +:+ name +:+ "'") [err_new ErrVolumeNameInvalid])
  else Ok tt.

(** ** Sanitization *)

(** The loop of [sanitizeVolumeNameUnlimited]; [started] is [builder.Len() > 0].
    Go iterates over runes: a rune outside ASCII counts as one hyphen where
    this byte loop sees several in a row, and rows of hyphens collapse to one. *)
Fixpoint sanitize_loop (started lastHyphen : bool) (name : string) : string :=
  match name with
  | EmptyString => EmptyString
  | String char rest =>
      let char := if is_name_char char then char else "-"%char in
      if Ascii.eqb char "-" then
        if negb started || lastHyphen then sanitize_loop started lastHyphen rest
        else String char (sanitize_loop true true rest)
      else String char (sanitize_loop true false rest)
  end.

Definition sanitizeVolumeNameUnlimited (name : string) : string :=
  Trim (TrimLeft (sanitize_loop false false name) "._:") "-".

Definition truncateASCIIName (name : string) (limit : nat) : string :=
  if (str_len name <=? limit)%nat then name else str_take limit name.

Definition sanitizeVolumeName (name : string) : string :=
  TrimRight (truncateASCIIName (sanitizeVolumeNameUnlimited name) maxBackendNameBytes) "-".

(** ** Suffix *)

Definition alphabet_at (i : Z) : ascii :=
  match String.get (Z.to_nat i) backendNameSuffixAlphabet with Some c => c | None => "0"%char end.

(** The loop from the last index down: [n] least significant base-62 digits. *)
Fixpoint suffix_digits (n : nat) (value : Z) : string :=
  match n with
  | O => EmptyString
  | S n' => suffix_digits n' (value / 62) +:+ String (alphabet_at (value mod 62)) EmptyString
  end.

Definition backendNameSuffix (requestName : string) : string :=
  let digest := Sum256 (backendNameHashDomain +:+ requestName) in
  let value := be_value (firstn 8 digest) in
  suffix_digits backendNameSuffixLength value.

Section Templates.
Context {tt_ : TextTemplate}.

Record nameTemplateConfig : Type := mkNameConfig {
  nt_template : option Template; nt_prefix : string; nt_suffix : string
}.

Definition parseNameTemplateConfig (params : gomap) : res (option nameTemplateConfig) :=
  let templateStr := params.[ParamNameTemplate] in
  let prefix := params.[ParamNamePrefix] in
  let suffix := params.[ParamNameSuffix] in
  if String.eqb templateStr "" && String.eqb prefix "" && String.eqb suffix "" then Ok None
  else if negb (String.eqb templateStr "") then
    match Template_Parse "volumeName" templateStr with
    | Err err => Err (Errorf ("invalid nameTemplate '" +:+ templateStr +:+ "': " +:+ err_text err) [err])
    | Ok tmpl => Ok (Some (mkNameConfig (Some tmpl) prefix suffix))
    end
  else Ok (Some (mkNameConfig None prefix suffix)).

Definition extractVolumeNameContext (params : gomap) (pvName : string) : VolumeNameContext :=
  mkNameContext params.[CSIPVCName] params.[CSIPVCNamespace] pvName.

Definition renderVolumeNameCandidate (config : option nameTemplateConfig) (ctx : VolumeNameContext) : res string :=
  match config with
  | None => Ok (PVName ctx)
  | Some c =>
      match nt_template c with
      | Some tmpl =>
          match Template_Execute tmpl ctx with
          | Err err => Err (Errorf ("failed to execute name template: " +:+ err_text err) [err])
          | Ok s => Ok s
          end
      | None => Ok (nt_prefix c +:+ PVName ctx +:+ nt_suffix c)
      end
  end.

Definition renderVolumeName (config : option nameTemplateConfig) (ctx : VolumeNameContext) : res string :=
  candidate <-? renderVolumeNameCandidate config ctx;;
  if match config with None => true | Some _ => false end
     && (str_len candidate <=? maxBackendNameBytes)%nat && is_ok (validateVolumeName candidate)
  then Ok candidate
  else
    let stem := sanitizeVolumeNameUnlimited candidate in
    if String.eqb stem "" then Err (err_new ErrVolumeNameEmpty)
    else
      let suffix := "-" +:+ backendNameSuffix (PVName ctx) in
      let stem := truncateASCIIName stem (maxBackendNameBytes - str_len suffix) in
      let name := TrimRight stem "-" +:+ suffix in
      _ <-? validateVolumeName name;;
      Ok name.

Definition ResolveVolumeName (params : gomap) (pvName : string) : res string :=
  config <-? parseNameTemplateConfig params;;
  renderVolumeName config (extractVolumeNameContext params pvName).

Definition ResolveLegacyVolumeName (params : gomap) (pvName : string) : res string :=
  config <-? parseNameTemplateConfig params;;
  candidate <-? renderVolumeNameCandidate config (extractVolumeNameContext params pvName);;
  match config with
  | None => Ok candidate
  | Some _ =>
      let legacy := sanitizeVolumeName candidate in
      _ <-? validateVolumeName legacy;;
      Ok legacy
  end.

Definition ResolveComment (params : gomap) (pvName : string) : res string :=
  let templateStr := params.[ParamCommentTemplate] in
  if String.eqb templateStr "" then Ok ""
  else
    match Template_Parse "comment" templateStr with
    | Err err => Err (Errorf ("invalid commentTemplate '" +:+ templateStr +:+ "': " +:+ err_text err) [err])
    | Ok tmpl =>
        match Template_Execute tmpl (extractVolumeNameContext params pvName) with
        | Err err => Err (Errorf ("failed to execute comment template: " +:+ err_text err) [err])
        | Ok s => Ok s
        end
    end.
End Templates.

(** ** The field-reference fragment of text/template *)

(** Text pieces and the actions between [{{] and [}}]. *)
Inductive piece : Type := Text (s : string) | Field (name : string).

Fixpoint parse_pieces (fuel : nat) (s : string) : res (list piece) :=
  match fuel with
  | O => Err (mk_error "template: too long" [] Unknown)
  | S fuel' =>
      match Index s "{{" with
      | None => Ok [Text s]
      | Some i =>
          let rest := str_drop (i + 2) s in
          match Index rest "}}" with
          | None => Err (mk_error "template: unclosed action" [] Unknown)
          | Some j =>
              ps <-? parse_pieces fuel' (str_drop (j + 2) rest);;
              Ok (Text (str_take i s) :: Field (TrimSpace (str_take j rest)) :: ps)
          end
      end
  end.

Definition exec_piece (ctx : VolumeNameContext) (p : piece) : res string :=
  match p with
  | Text s => Ok s
  | Field f =>
      if String.eqb f ".PVCName" then Ok (PVCName ctx)
      else if String.eqb f ".PVCNamespace" then Ok (PVCNamespace ctx)
      else if String.eqb f ".PVName" then Ok (PVName ctx)
      else Err (mk_error ("template: can't evaluate field " +:+ f) [] Unknown)
  end.

Fixpoint exec_pieces (ctx : VolumeNameContext) (ps : list piece) : res string :=
  match ps with
  | [] => Ok ""
  | p :: ps' => s <-? exec_piece ctx p;; t <-? exec_pieces ctx ps';; Ok (s +:+ t)
  end.

Definition field_templates : TextTemplate := {|
  Template := list piece;
  Template_Parse _ s := parse_pieces (S (str_len s)) s;
  Template_Execute t ctx := exec_pieces ctx t
|}.

(** ** Lemmas *)

Lemma validateVolumeName_ok name :
  validateVolumeName name = Ok tt <-> validNameRegex_MatchString name = true.
Proof.
  unfold validateVolumeName. destruct (String.eqb_spec name "") as [->|]; [split; discriminate|].
  destruct (validNameRegex_MatchString name); simpl; split; congruence.
Qed.

Lemma str_forall_app f s t : str_forall f (s +:+ t) = str_forall f s && str_forall f t.
Proof. induction s; str_norm; [done|]. by rewrite IHs, andb_assoc. Qed.

(** What follows a text without white space makes none of its end. *)
Lemma spaceless_head c w s : spaceless (String c w) = true -> ascii_start s = true -> space_width (String c (w +:+ s)) = 0%nat.
Proof.
  cbn [spaceless]. intros [H%Nat.eqb_eq _]%andb_true_iff Hs. unfold space_width in *. destruct (str_mem c ascii_spaces); [done|].
  destruct w as [|d w]; rewrite ?str_nil_app, ?str_cons_app.
  { destruct s as [|d s]; [done|]. cbv iota beta. cbn [ascii_start] in Hs. rewrite space2_second by done. destruct s; [done|]. by rewrite space3_second. }
  destruct (space2 c d); [done|]. destruct w as [|e w]; rewrite ?str_nil_app, ?str_cons_app; [|done].
  destruct s as [|e s]; [done|]. cbv iota beta. by rewrite space3_third.
Qed.

Lemma spaceless_no_space w : spaceless w = true -> str_forall (fun c => negb (str_mem c ascii_spaces)) w = true.
Proof.
  induction w as [|c w IH]; [done|]. cbn [spaceless str_forall]. intros [Hc Hw]%andb_true_iff. rewrite (IH Hw), andb_true_r.
  apply Nat.eqb_eq in Hc. unfold space_width in Hc. by destruct (str_mem c ascii_spaces).
Qed.

Definition plain_ascii (c : ascii) : bool := negb (str_mem c ascii_spaces) && (nat_of_ascii c <? 128)%nat.

Lemma plain_ascii_width c s : plain_ascii c = true -> space_width (String c s) = 0%nat.
Proof.
  unfold plain_ascii. intros [Hc%negb_true_iff Ha%Nat.ltb_lt]%andb_true_iff. unfold space_width. rewrite Hc.
  assert (forall d, space2 c d = false) as H2.
  { intros d. unfold space2. by destruct (Nat.eqb_spec (nat_of_ascii c) 194); [lia|]. }
  assert (forall d e, space3 c d e = false) as H3.
  { intros d e. unfold space3. destruct (Nat.eqb_spec (nat_of_ascii c) 225), (Nat.eqb_spec (nat_of_ascii c) 226), (Nat.eqb_spec (nat_of_ascii c) 227); try lia; done. }
  destruct s as [|d [|e s]]; by rewrite ?H2, ?H3.
Qed.

Lemma plain_spaceless w s : str_forall plain_ascii w = true -> spaceless s = true -> spaceless (w +:+ s) = true.
Proof.
  induction w as [|c w IH]; [done|]. cbn [str_forall]. intros [Hc Hw]%andb_true_iff Hs. rewrite str_cons_app. cbn [spaceless].
  by rewrite (plain_ascii_width _ _ Hc), (IH Hw Hs).
Qed.

Lemma ascii_spaceless w : str_forall plain_ascii w = true -> spaceless w = true.
Proof. intros H. rewrite <- (str_app_nil_r w). by apply plain_spaceless. Qed.

Lemma str_forall_mem f s c : str_forall f s = true -> str_mem c s = true -> f c = true.
Proof.
  induction s as [|d s IH]; simpl; [done|]. rewrite andb_true_iff, orb_true_iff.
  intros [Hd Hs] [->%Ascii.eqb_eq|Hc]; auto.
Qed.

Lemma str_forall_TrimLeft f s cut : str_forall f s = true -> str_forall f (TrimLeft s cut) = true.
Proof. induction s as [|c s IH]; simpl; [done|]. rewrite andb_true_iff. intros [Hc Hs]. case_match; simpl; rewrite ?Hc, ?Hs; auto. Qed.

Lemma str_forall_TrimRight f s cut : str_forall f s = true -> str_forall f (TrimRight s cut) = true.
Proof.
  destruct (TrimRight_prefix s cut) as [t Ht]. rewrite Ht at 1. rewrite str_forall_app. by intros [? ?]%andb_true_iff.
Qed.

Lemma str_forall_take f n s : str_forall f s = true -> str_forall f (str_take n s) = true.
Proof.
  rewrite <- (str_take_drop n s) at 1. rewrite str_forall_app. by intros [? ?]%andb_true_iff.
Qed.

Lemma valid_name_chars name : validNameRegex_MatchString name = true -> str_forall is_name_char name = true.
Proof.
  destruct name as [|c s]; simpl; [done|]. rewrite !andb_true_iff. intros [Hc Hs].
  split; [|done]. unfold is_name_char. by rewrite Hc.
Qed.

Lemma valid_name_no_slash name : validNameRegex_MatchString name = true -> str_mem "/" name = false.
Proof.
  intros H%valid_name_chars. destruct (str_mem "/" name) eqn:E; [|done].
  by pose proof (str_forall_mem _ _ _ H E).
Qed.

Lemma sanitize_loop_chars a b name : str_forall is_name_char (sanitize_loop a b name) = true.
Proof.
  revert a b. induction name as [|c s IH]; intros a b; simpl; [done|].
  destruct (is_name_char c) eqn:E.
  - destruct (Ascii.eqb c "-") eqn:F.
    + destruct (negb a || b); simpl; [apply IH|]. by rewrite E, IH.
    + simpl. by rewrite E, IH.
  - simpl. destruct (negb a || b); simpl; apply IH.
Qed.

Lemma sanitize_unlimited_chars name : str_forall is_name_char (sanitizeVolumeNameUnlimited name) = true.
Proof. apply str_forall_TrimRight, str_forall_TrimLeft, str_forall_TrimLeft, sanitize_loop_chars. Qed.

Lemma truncate_length name limit : (str_len (truncateASCIIName name limit) <= limit)%nat.
Proof. unfold truncateASCIIName. destruct (Nat.leb_spec (str_len name) limit); [done|apply str_take_length]. Qed.

Lemma str_forall_truncate f name limit : str_forall f name = true -> str_forall f (truncateASCIIName name limit) = true.
Proof. unfold truncateASCIIName. case_match; [done|apply str_forall_take]. Qed.

Lemma suffix_digits_length n v : str_len (suffix_digits n v) = n.
Proof.
  revert v. induction n as [|n IH]; intros v; [done|]. simpl. rewrite str_app_length, IH.
  unfold str_len. simpl. lia.
Qed.

Lemma backendNameSuffix_length r : str_len (backendNameSuffix r) = 8%nat.
Proof. apply suffix_digits_length. Qed.

#[global] Arguments backendNameSuffix : simpl never.

Lemma TrimRight_suffix_length stem r :
  (str_len (TrimRight (truncateASCIIName stem (maxBackendNameBytes - str_len ("-" +:+ backendNameSuffix r))) "-"
            +:+ ("-" +:+ backendNameSuffix r)) <= maxBackendNameBytes)%nat.
Proof.
  rewrite !str_app_length, backendNameSuffix_length. change (str_len "-") with 1%nat.
  unfold maxBackendNameBytes. simpl (1 + 8)%nat. simpl (63 - 9)%nat.
  pose proof (TrimRight_length (truncateASCIIName stem 54) "-").
  pose proof (truncate_length stem 54). lia.
Qed.

Section NameProperties.
Context {tt_ : TextTemplate}.

(** The two ways a name is resolved. *)
Lemma renderVolumeName_cases config ctx name :
  renderVolumeName config ctx = Ok name ->
  (config = None /\ name = PVName ctx /\ (str_len name <= maxBackendNameBytes)%nat /\
     validNameRegex_MatchString name = true) \/
  (exists stem, name = stem +:+ ("-" +:+ backendNameSuffix (PVName ctx)) /\
     (str_len name <= maxBackendNameBytes)%nat /\ validNameRegex_MatchString name = true).
Proof.
  unfold renderVolumeName. destruct (renderVolumeNameCandidate config ctx) as [cand|] eqn:Ec; [|done].
  destruct (_ && _ && _) eqn:Ep.
  - intros [= <-]. left. destruct config; [done|]. simpl in *. injection Ec as <-.
    apply andb_true_iff in Ep as [Ep1 Ep2]. apply Nat.leb_le in Ep1.
    apply is_ok_true in Ep2 as [[] Ep2]. apply validateVolumeName_ok in Ep2. done.
  - destruct (String.eqb _ ""); [done|].
    set (name' := TrimRight _ _ +:+ _).
    destruct (validateVolumeName name') as [[]|] eqn:Ev; [|done]. intros [= <-]. right.
    eexists. split; [reflexivity|]. split; [apply TrimRight_suffix_length|].
    by apply validateVolumeName_ok.
Qed.

(** C34: every resolved backend name is valid for the backend: it starts with
    an alphanumeric, contains only name characters, is at most 63 bytes long,
    and contains no slash, so that the volume ID [filesystem/name] splits
    back into the filesystem and the name. *)
Theorem ResolveVolumeName_valid params pvName name :
  ResolveVolumeName params pvName = Ok name ->
  validNameRegex_MatchString name = true /\ (str_len name <= 63)%nat /\
  forall fs, str_mem "/" fs = false ->
    Metadata.splitSubvolumeID (fs +:+ "/" +:+ name) = Ok (fs, name).
Proof.
  unfold ResolveVolumeName. destruct (parseNameTemplateConfig params) as [config|]; [|done].
  intros H. assert (validNameRegex_MatchString name = true /\ (str_len name <= 63)%nat) as [Hv Hl].
  { by apply renderVolumeName_cases in H as [(_ & _ & ? & ?)|(stem & _ & ? & ?)]. }
  split; [done|]. split; [done|]. intros fs Hfs. apply Metadata.splitSubvolumeID_join.
  split; [done|]. by intros ->.
Qed.

(** Names built from a template, prefix or suffix end in the hash of the
    request name, so requests with different hash suffixes never share a
    backend name, whatever their templates render to. *)
Theorem ResolveVolumeName_collision params1 params2 pv1 pv2 c1 c2 name :
  parseNameTemplateConfig params1 = Ok (Some c1) ->
  parseNameTemplateConfig params2 = Ok (Some c2) ->
  ResolveVolumeName params1 pv1 = Ok name -> ResolveVolumeName params2 pv2 = Ok name ->
  backendNameSuffix pv1 = backendNameSuffix pv2.
Proof.
  intros E1 E2. unfold ResolveVolumeName. rewrite E1, E2. intros H1 H2.
  apply renderVolumeName_cases in H1 as [[? _]|(s1 & -> & _)]; [done|].
  apply renderVolumeName_cases in H2 as [[? _]|(s2 & H & _)]; [done|]. simpl in H.
  assert (Hl : str_len s1 = str_len s2).
  { apply (f_equal str_len) in H. rewrite !str_app_length, !backendNameSuffix_length in H. lia. }
  pose proof (f_equal (str_drop (str_len s1)) H) as Hd. rewrite Hl in Hd at 2.
  rewrite !str_drop_app in Hd. by apply str_app_inj_l in Hd.
Qed.
End NameProperties.

Definition prefix_params : gomap := Some {[ ParamNamePrefix := "prod-" ]}.

(** The expected names of template_test.go. *)
Example template_test_prefix :
  ResolveVolumeName (tt_ := field_templates) prefix_params "pvc-12345" = Ok "prod-pvc-12345-1TvW998x".
Proof. vm_compute. reflexivity. Qed.

Definition fields_params : gomap :=
  Some {[ ParamNameTemplate := "{{ .PVCNamespace }}-{{ .PVCName }}";
          CSIPVCName := "my-pvc"; CSIPVCNamespace := "my-namespace" ]}.

Example template_test_fields :
  ResolveVolumeName (tt_ := field_templates) fields_params "pvc-12345" = Ok "my-namespace-my-pvc-1TvW998x".
Proof. vm_compute. reflexivity. Qed.

(** Sanitization alone does not give a valid name: a period can reappear at the
    front when the hyphen before it is trimmed. *)
Example sanitize_leading_period :
  sanitizeVolumeName ".-.a" = ".a" /\ validNameRegex_MatchString (sanitizeVolumeName ".-.a") = false.
Proof. split; vm_compute; reflexivity. Qed.

Lemma ResolveVolumeName_valid_witness :
  ResolveVolumeName (tt_ := field_templates) prefix_params "pvc-12345" = Ok "prod-pvc-12345-1TvW998x" /\
  validNameRegex_MatchString "prod-pvc-12345-1TvW998x" = true.
Proof.
  assert (H : ResolveVolumeName (tt_ := field_templates) prefix_params "pvc-12345" = Ok "prod-pvc-12345-1TvW998x")
    by (vm_compute; reflexivity).
  split; [exact H|]. exact (proj1 (ResolveVolumeName_valid (tt_ := field_templates) _ _ _ H)).
Defined.

Lemma ResolveVolumeName_collision_witness :
  backendNameSuffix "pvc-12345" = backendNameSuffix "pvc-12345".
Proof.
  refine (ResolveVolumeName_collision (tt_ := field_templates) prefix_params prefix_params
            "pvc-12345" "pvc-12345" (mkNameConfig None "prod-" "") (mkNameConfig None "prod-" "")
            "prod-pvc-12345-1TvW998x" _ _ _ _); vm_compute; reflexivity.
Defined.
