(* ===== verification/Retry.v ===== *)
(** * Retries with backoff (pkg/retry/retry.go)

    [WithRetry] over any signature that can look at the context and wait:
    the class [RetryEnv].  Backoff durations are Go's [time.Duration]
    (nanoseconds, [int64]); the multiplier is a float64, computed with the
    Standard Library's specification of binary64 arithmetic. *)

From Stdlib Require Import SpecFloat.
From S2P Require Import Prelude GoStrings Prog Errors.

(** ** float64 *)

Definition float64 : Type := spec_float.
Definition float_of_int (z : Z) : float64 := binary_normalize 53 1024 z 0 false.
Definition float_mul (x y : float64) : float64 := SFmul 53 1024 x y.
Definition float_one : float64 := float_of_int 1.
Definition float_two : float64 := float_of_int 2.

(** [m <= 0]; a NaN compares false. *)
Definition float_le_zero (x : float64) : bool :=
  match SFcompare x (S754_zero false) with Some Lt | Some Eq => true | _ => false end.

(** Conversion to [int64] truncates; out of range Go leaves the result to the
    platform, here amd64's: the least [int64]. *)
Definition int_of_float (x : float64) : Z :=
  let bounded (z : Z) := if (int64_min <=? z) && (z <=? int64_max) then z else int64_min in
  match x with
  | S754_zero _ => 0
  | S754_finite s m e =>
      let v := if 0 <=? e then Z.pos m * 2 ^ e else Z.pos m / 2 ^ (- e) in
      bounded (if s then - v else v)
  | _ => int64_min
  end.

(** ** Configuration *)

Definition second : Z := 1000000000.

Record Config : Type := mkConfig {
  MaxAttempts : Z;
  InitialBackoff : Z;
  MaxBackoff : Z;
  BackoffMultiplier : float64;
  RetryableFunc : option (error -> bool);
  OperationName : string
}.

Definition defaultOperationName : string := "operation".

Definition DefaultConfig : Config :=
  mkConfig 3 (1 * second) (30 * second) float_two None defaultOperationName.

(** The defaults [WithRetry] applies to unset fields. *)
Definition with_defaults (c : Config) : Config :=
  mkConfig (if MaxAttempts c <=? 0 then 3 else MaxAttempts c)
    (if InitialBackoff c <=? 0 then 1 * second else InitialBackoff c)
    (if MaxBackoff c <=? 0 then 30 * second else MaxBackoff c)
    (if float_le_zero (BackoffMultiplier c) then float_two else BackoffMultiplier c)
    (RetryableFunc c)
    (if String.eqb (OperationName c) "" then defaultOperationName else OperationName c).

Definition next_backoff (c : Config) (backoff : Z) : Z :=
  let b := int_of_float (float_mul (float_of_int backoff) (BackoffMultiplier c)) in
  if MaxBackoff c <? b then MaxBackoff c else b.

(** ** Which errors are worth retrying *)

Definition contains (s : string) (substrings : list string) : bool := existsb (Contains s) substrings.

Definition IsRetryableNetworkError (err : error) : bool :=
  errors_Is err NetTimeout
  || (errors_Is err ECONNREFUSED || errors_Is err ECONNRESET || errors_Is err EPIPE ||
      errors_Is err ENETUNREACH || errors_Is err EHOSTUNREACH || errors_Is err ETIMEDOUT)
  || (errors_Is err io_EOF || errors_Is err io_ErrUnexpectedEOF)
  || errors_Is err net_ErrClosed
  || contains (err_text err)
       ["connection refused"; "connection reset"; "broken pipe"; "i/o timeout";
        "network is unreachable"; "no route to host"; "connection timed out"; "EOF";
        "use of closed network connection"].

Definition IsRetryableAPIError (err : error) : bool :=
  contains (err_text err) ["500"; "502"; "503"; "504"; "busy"; "temporarily unavailable"; "try again"].

Definition IsRetryableError (err : error) : bool :=
  IsRetryableNetworkError err || IsRetryableAPIError err.

Definition IsBusyResourceError (err : error) : bool :=
  contains (err_text err)
    ["subvolume is busy"; "target is busy"; "resource busy"; "EBUSY"; "Device or resource busy";
     "filesystem is busy"].

Definition IsRetryableDeletionError (err : error) : bool :=
  IsBusyResourceError err || IsRetryableError err.

Definition DeletionConfig (operationName : string) : Config :=
  mkConfig 12 (5 * second) (5 * second) float_one (Some IsRetryableDeletionError) operationName.

(** ** The retry loop *)

Class RetryEnv (Sg : signature) : Type := {
  ctx_err : prog Sg (option error);
  wait_or_done : Z -> prog Sg (option error)
}.

Section WithRetry.
Context {Sg : signature} {env : RetryEnv Sg} {T : Type}.

Definition exhausted (c : Config) (lastErr : error) : error :=
  Errorf (sentinel_text ErrMaxRetriesExceeded +:+ ": " +:+ OperationName c +:+ " failed after " +:+
          FormatInt (MaxAttempts c) +:+ " attempts: " +:+ err_text lastErr)
    [err_new ErrMaxRetriesExceeded; lastErr].

(** An error is returned as it is when its outcome is uncertain or the
    configuration does not consider it retryable. *)
Definition gives_up (c : Config) (err : error) : bool :=
  errors_Is err nastyapi_ErrUncertainOutcome ||
  match RetryableFunc c with Some f => negb (f err) | None => false end.

(** [n] attempts are left; [attempt] counts from 1. *)
Fixpoint retry_loop (c : Config) (fn : prog Sg (res T)) (n : nat) (attempt backoff : Z) (lastErr : error)
    : prog Sg (res T) :=
  match n with
  | O => Ret (Err (exhausted c lastErr))
  | S n' =>
      ctx <- ctx_err;;
      match ctx with
      | Some e => Ret (Err e)
      | None =>
          r <- fn;;
          match r with
          | Ok v => Ret (Ok v)
          | Err err =>
              if gives_up c err then Ret (Err err)
              else if attempt <? MaxAttempts c then
                cancelled <- wait_or_done backoff;;
                match cancelled with
                | Some e => Ret (Err e)
                | None => retry_loop c fn n' (attempt + 1) (next_backoff c backoff) err
                end
              else retry_loop c fn n' (attempt + 1) backoff err
          end
      end
  end.

Definition WithRetry (config : Config) (fn : prog Sg (res T)) : prog Sg (res T) :=
  let c := with_defaults config in
  retry_loop c fn (Z.to_nat (MaxAttempts c)) 1 (InitialBackoff c) (err_new ErrMaxRetriesExceeded).

(** ** A proof rule

    [I k h]: the invariant before attempt [k + 1]. *)
Lemma wp_retry_loop (P : policy Sg) (c : Config) (fn : prog Sg (res T)) (I : nat -> list (event Sg) -> Prop)
    (post : res T -> list (event Sg) -> Prop) N :
  (forall k h, I k h -> (k < N)%nat -> wp P h ctx_err (fun o h' =>
     match o with Some e => post (Err e) h' | None =>
       wp P h' fn (fun r h'' =>
         match r with
         | Ok v => post (Ok v) h''
         | Err err =>
             if gives_up c err then post (Err err) h''
             else if Z.of_nat k + 1 <? MaxAttempts c then
               forall b, wp P h'' (wait_or_done b) (fun o h3 =>
                 match o with Some e => post (Err e) h3 | None => I (S k) h3 end)
             else I (S k) h'' /\ post (Err (exhausted c err)) h''
         end)
     end)) ->
  Z.of_nat N = MaxAttempts c ->
  forall n k backoff lastErr h,
  (k + n = N)%nat -> (0 < n)%nat -> I k h ->
  wp P h (retry_loop c fn n (Z.of_nat k + 1) backoff lastErr) post.
Proof.
  intros Hstep HN n. induction n as [|n IH]; intros k backoff lastErr h Hk Hn HI; [lia|].
  simpl. apply wp_bind. eapply wp_mono; [|apply Hstep; [exact HI|lia]].
  intros [e|] h1; [done|]. intros Hfn. apply wp_bind. eapply wp_mono; [|exact Hfn].
  intros [v|err] h2; [done|]. destruct (gives_up c err); [done|].
  destruct (Z.ltb_spec (Z.of_nat k + 1) (MaxAttempts c)) as [Hlt|Hge].
  - intros Hw. apply wp_bind. eapply wp_mono; [|apply (Hw backoff)].
    intros [e|] h3; [done|]. intros HI'.
    replace (Z.of_nat k + 1 + 1) with (Z.of_nat (S k) + 1) by lia. apply IH; [lia|lia|done].
  - intros [_ Hp]. assert (n = O) as -> by lia. exact Hp.
Qed.
End WithRetry.

(** ** Backoff of the configurations in use *)

(** The deletion configuration waits five seconds before every attempt. *)
Lemma deletion_backoff_fixed op : next_backoff (with_defaults (DeletionConfig op)) (5 * second) = 5 * second.
Proof. vm_compute. reflexivity. Qed.

(** The default configuration doubles up to thirty seconds. *)
Example default_backoff :
  next_backoff (with_defaults DefaultConfig) (1 * second) = 2 * second /\
  next_backoff (with_defaults DefaultConfig) (16 * second) = 30 * second.
Proof. split; vm_compute; reflexivity. Qed.
