(* ===== verification/SnapshotId.v ===== *)
(** * Snapshot identifiers and page tokens
    (driver/controller_snapshot.go, driver/controller_snapshot_list.go)

    A snapshot ID is [protocol:filesystem/name@snapshot]; a page token is an
    offset in decimal. *)

From S2P Require Import Prelude GoStrings Errors Api Capacity.

Record SnapshotMetadata : Type := mkSnapshotMetadata {
  s_SnapshotName : string; s_SourceVolume : string; s_Protocol : string
}.

Definition encodeSnapshotID (meta : SnapshotMetadata) : res string :=
  if String.eqb (s_Protocol meta) "" then Err (err_new ErrProtocolRequired)
  else if String.eqb (s_SourceVolume meta) "" then Err (err_new ErrSourceVolumeRequired)
  else if String.eqb (s_SnapshotName meta) "" then Err (err_new ErrSnapshotNameRequired)
  else Ok (s_Protocol meta +:+ ":" +:+ s_SourceVolume meta +:+ "@" +:+ s_SnapshotName meta).

Definition invalid_format (what : string) : error :=
  Errorf (sentinel_text ErrInvalidSnapshotIDFormat +:+ ": " +:+ what) [err_new ErrInvalidSnapshotIDFormat].

Definition decodeSnapshotID (snapshotID : string) : res SnapshotMetadata :=
  match Index snapshotID ":" with
  | None => Err (invalid_format "missing protocol separator")
  | Some colonIdx =>
      let protocol := str_take colonIdx snapshotID in
      let remainder := str_drop (colonIdx + 1) snapshotID in
      if negb (String.eqb protocol ProtocolNFS) && negb (String.eqb protocol ProtocolNVMeOF) &&
         negb (String.eqb protocol ProtocolISCSI) && negb (String.eqb protocol ProtocolSMB) then
        Err (Errorf (sentinel_text ErrInvalidProtocol +:+ ": " +:+ protocol) [err_new ErrInvalidProtocol])
      else
        match LastIndex remainder "@" with
        | None => Err (invalid_format "missing snapshot separator")
        | Some atIdx =>
            let volumeID := str_take atIdx remainder in
            let snapshotName := str_drop (atIdx + 1) remainder in
            if String.eqb volumeID "" then Err (invalid_format "empty volume ID")
            else if String.eqb snapshotName "" then Err (invalid_format "empty snapshot name")
            else Ok (mkSnapshotMetadata snapshotName volumeID protocol)
        end
  end.

(** ** Page tokens *)

Definition encodeSnapshotToken (offset : Z) : string := FormatInt offset.

Definition parseSnapshotToken (token : string) : res Z :=
  match ParseInt token with
  | None => Err (err_new strconv_ErrSyntax)
  | Some offset =>
      if (offset <? 0) || negb (String.eqb token (FormatInt offset)) then Err (err_new strconv_ErrSyntax)
      else Ok offset
  end.

(** ** Creation times *)

Definition snapshotCreationKey (subvolume name : string) : string := subvolume +:+ String (chr 0) name.

(** google.golang.org/protobuf/types/known/timestamppb: a [Timestamp] at whole
    seconds is that number of seconds; [CheckValid] is a parameter. *)
Class Timestamppb : Type := { CheckValid : Z -> bool }.

(** Timestamps of the years 1 to 9999 are valid. *)
Definition proto_timestamps : Timestamppb :=
  {| CheckValid s := (-62135596800 <=? s) && (s <=? 253402300799) |}.

Definition csiSnapshotCreationTime `{Timestamppb} (createdAt : option Z) : res Z :=
  let unavailable := Err (Status Internal "Snapshot creation time is unavailable") in
  match createdAt with
  | Some t => if 0 <? t then (if CheckValid t then Ok t else unavailable) else unavailable
  | None => unavailable
  end.

(** ** Round trips *)

Lemma known_protocol_no_colon protocol : known_protocol protocol = true -> str_mem ":" protocol = false.
Proof.
  unfold known_protocol. rewrite !orb_true_iff, !String.eqb_eq.
  intros [[[->| ->]| ->]| ->]; reflexivity.
Qed.

Lemma known_protocol_tests protocol :
  (negb (String.eqb protocol ProtocolNFS) && negb (String.eqb protocol ProtocolNVMeOF) &&
   negb (String.eqb protocol ProtocolISCSI) && negb (String.eqb protocol ProtocolSMB))
  = negb (known_protocol protocol).
Proof. unfold known_protocol. by rewrite !negb_orb. Qed.

Lemma str_drop_after_app s c t : str_drop (str_len s + 1) (s +:+ String c t) = t.
Proof.
  change (String c t) with (String c "" +:+ t). rewrite <- str_app_assoc.
  replace (str_len s + 1)%nat with (str_len (s +:+ String c "")) by (by rewrite str_app_length).
  apply str_drop_app.
Qed.

(** Decoding an encoded ID gives back its parts. *)
Lemma decode_encoded meta id :
  encodeSnapshotID meta = Ok id -> known_protocol (s_Protocol meta) = true ->
  str_mem "@" (s_SnapshotName meta) = false -> decodeSnapshotID id = Ok meta.
Proof.
  destruct meta as [name vol proto]. unfold encodeSnapshotID, decodeSnapshotID. simpl.
  destruct (String.eqb_spec proto ""); [done|]. destruct (String.eqb_spec vol ""); [done|].
  destruct (String.eqb_spec name ""); [done|]. intros [= <-] Hp Hn.
  change (":" +:+ vol +:+ "@" +:+ name) with (String ":" (vol +:+ String "@" name)).
  rewrite Index_first by (by apply known_protocol_no_colon).
  rewrite str_take_app, str_drop_after_app, known_protocol_tests, Hp. simpl.
  rewrite LastIndex_last by done. rewrite str_take_app, str_drop_after_app.
  destruct (String.eqb_spec vol ""); [done|]. destruct (String.eqb_spec name ""); done.
Qed.



(** An at sign in the name of a snapshot moves to the volume. *)
Example at_sign_moves :
  encodeSnapshotID (mkSnapshotMetadata "a@b" "tank/pvc-1" "nfs") = Ok "nfs:tank/pvc-1@a@b" /\
  decodeSnapshotID "nfs:tank/pvc-1@a@b" = Ok (mkSnapshotMetadata "b" "tank/pvc-1@a" "nfs").
Proof. by split. Qed.

(** An encoded offset parses. *)
Lemma parseSnapshotToken_encode offset :
  0 <= offset -> is_int64 offset -> parseSnapshotToken (encodeSnapshotToken offset) = Ok offset.
Proof.
  intros H0 Hr. unfold parseSnapshotToken, encodeSnapshotToken. rewrite ParseInt_FormatInt by done.
  rewrite String.eqb_refl. by destruct (Z.ltb_spec offset 0); [lia|].
Qed.

(** Page tokens are canonical.  A token parses exactly when it is the
    encoding of a non-negative 64-bit offset, and then to that offset: signs,
    leading zeros and overflowing numbers are refused. *)
Theorem snapshotToken_roundtrip token offset :
  parseSnapshotToken token = Ok offset <->
  token = encodeSnapshotToken offset /\ 0 <= offset /\ is_int64 offset.
Proof.
  split; [|by intros (-> & ? & ?); apply parseSnapshotToken_encode].
  unfold parseSnapshotToken, encodeSnapshotToken. destruct (ParseInt token) as [z|] eqn:E; [|done].
  destruct ((z <? 0) || negb (String.eqb token (FormatInt z))) eqn:F; [done|].
  intros [= <-]. bool_to_prop. split; [done|]. split; [done|]. by eapply ParseInt_range.
Qed.
