(* ===== verification/Identity.v ===== *)
(** * Volume identity (driver/volume_identity.go)

    A volume that the driver created carries, in its properties, the identity
    of the CSI request it belongs to.  This file models the decision whether an
    existing subvolume belongs to a request, the write of the identity, the
    rollback of a creation that failed, and the classification of clones. *)

From S2P Require Import Prelude GoStrings Prog Errors Api Metadata Names.

Record volumeIdentityDecision : Type := mkDecision {
  d_properties : gomap; d_persist : bool
}.

(** The zero value [volumeIdentityDecision{}]. *)
Definition no_decision : volumeIdentityDecision := mkDecision None false.

(** ** UUIDs *)

Definition uuid_hex_digit (d : Z) : ascii :=
  default "0"%char (String.get (Z.to_nat d) "0123456789abcdef").

(** Two hexadecimal digits of a byte. *)
Definition hex_byte (b : Z) : string :=
  String (uuid_hex_digit (Z.land (Z.shiftr b 4) 15)) (String (uuid_hex_digit (Z.land b 15)) "").

Definition hex_bytes (bs : list Z) : string := foldr (fun b s => hex_byte b +:+ s) "" bs.

(** The 16 bytes with the version and variant bits set, and their text. *)
Definition uuid_bytes (value : list Z) : list Z :=
  let byte i := nth i value 0 in
  map byte (seq 0 6) ++ [Z.lor (Z.land (byte 6%nat) 15) 64; byte 7%nat;
                         Z.lor (Z.land (byte 8%nat) 63) 128] ++ map byte (seq 9 7).

Definition uuid_text (v : list Z) : string :=
  let slice a b := hex_bytes (take (b - a) (drop a v)) in
  slice 0%nat 4%nat +:+ "-" +:+ slice 4%nat 6%nat +:+ "-" +:+ slice 6%nat 8%nat +:+ "-" +:+
  slice 8%nat 10%nat +:+ "-" +:+ slice 10%nat 16%nat.

Definition newVolumeUUID : M (res string) :=
  r <- do_ (RandRead 16);;
  match r with
  | Err err => Ret (Err (Errorf ("generate volume UUID: " +:+ err_text err) [err]))
  | Ok value => Ret (Ok (uuid_text (uuid_bytes value)))
  end.

(** ** Property maps *)

Definition copyProperties (properties : gomap) : smap := default ∅ properties.

(** The keys of [extra] win. *)
Definition mergeProperties (base extra : smap) : smap := extra ∪ base.

Definition propertiesContain (properties : gomap) (expected : smap) : bool :=
  forallb (fun kv => String.eqb properties.[kv.1] kv.2) (map_to_list expected).

(** [s.identityMu.Lock(); defer s.identityMu.Unlock()]. *)
Definition with_identityMu {A : Type} (body : M A) : M A :=
  do_ LockIdentity ;;; (r <- body ;; (do_ UnlockIdentity ;;; Ret r)).

Section Identity.
Context {api : NastyAPI} {tt_ : TextTemplate}.

Definition identityProperties (existing : gomap) (requestName backendName protocol : string) : M (res smap) :=
  let props uuid : smap :=
    {[ PropertyCSIVolumeName := backendName;
       PropertyProtocol := protocol;
       propertyCSIRequestName := requestName;
       propertyVolumeUUID := uuid;
       propertyIdentityVersion := identityVersion2 ]} in
  if String.eqb existing.[propertyVolumeUUID] "" then
    uuid <-! newVolumeUUID;;
    Ret (Ok (props uuid))
  else Ret (Ok (props existing.[propertyVolumeUUID])).

Definition legacyPVCIdentityMatches (requestName : string) (params props : gomap) : bool :=
  String.eqb props.[PropertyCSIVolumeName] requestName ||
  (negb (String.eqb params.[CSIPVCName] "") && negb (String.eqb params.[CSIPVCNamespace] "") &&
   String.eqb props.[PropertyPVCName] params.[CSIPVCName] &&
   String.eqb props.[PropertyPVCNamespace] params.[CSIPVCNamespace]).

(** The decision for a subvolume that already exists. *)
Definition decideExistingVolumeIdentity (req : CreateVolumeRequest) (protocol backendName : string)
    (subvol : Subvolume) : M (res volumeIdentityDecision) :=
  let props := sv_Properties subvol in
  let managed := String.eqb props.[PropertyManagedBy] ManagedByValue in
  let adoptExisting := String.eqb (req_Parameters req).["adoptExisting"] VolumeContextValueTrue in
  let sv := sv_Filesystem subvol +:+ "/" +:+ sv_Name subvol in
  let with_identity (persist : bool) : M (res volumeIdentityDecision) :=
    r <- identityProperties props (req_Name req) backendName protocol;;
    match r with
    | Err err => Ret (Err (Status Internal ("failed to generate volume identity: " +:+ err_text err)))
    | Ok identity => Ret (Ok (mkDecision (Some identity) persist))
    end in
  if managed && String.eqb props.[propertyIdentityVersion] identityVersion2 then
    if negb (String.eqb props.[propertyCSIRequestName] (req_Name req)) ||
       negb (String.eqb props.[PropertyProtocol] protocol) then
      Ret (Err (Status FailedPrecondition
        ("backend volume " +:+ sv +:+ " belongs to CSI request " +:+ Quote props.[propertyCSIRequestName] +:+
         " using protocol " +:+ Quote props.[PropertyProtocol])))
    else
      with_identity (String.eqb props.[propertyVolumeUUID] "" ||
                     negb (String.eqb props.[PropertyCSIVolumeName] backendName))
  else if managed then
    let legacyMatch := String.eqb (sv_Name subvol) backendName && String.eqb props.[PropertyProtocol] protocol &&
                       legacyPVCIdentityMatches (req_Name req) (req_Parameters req) props in
    if negb legacyMatch && negb adoptExisting then
      Ret (Err (Status AlreadyExists
        ("legacy backend volume " +:+ sv +:+ " cannot be proven to belong to CSI request " +:+ Quote (req_Name req))))
    else with_identity true
  else if negb adoptExisting then
    Ret (Err (Status AlreadyExists
      ("backend volume " +:+ sv +:+ " is not owned by nasty-csi; set adoptExisting=true to claim it")))
  else with_identity true.

Definition newVolumeIdentityDecision (req : CreateVolumeRequest) (backendName protocol : string)
    : M (res volumeIdentityDecision) :=
  r <- identityProperties None (req_Name req) backendName protocol;;
  match r with
  | Err err => Ret (Err (Status Internal ("failed to generate volume identity: " +:+ err_text err)))
  | Ok properties => Ret (Ok (mkDecision (Some properties) true))
  end.

(** A subvolume that may belong to the request, under its current or its
    legacy name, the name it was found under, and the decision about it. *)
Definition selectExistingCreateSubvolume (req : CreateVolumeRequest) (filesystem backendName protocol : string)
    : M (res (option Subvolume * string * volumeIdentityDecision)) :=
  match ResolveLegacyVolumeName (req_Parameters req) (req_Name req) with
  | Err err => Ret (Err (Status InvalidArgument ("failed to resolve legacy volume name: " +:+ err_text err)))
  | Ok legacyName =>
      let! (subvol, err) := do_ (GetSubvolume filesystem backendName) in
      match query_failed err with
      | Some e => Ret (Err (Status Internal ("failed to query existing subvolume: " +:+ err_text e)))
      | None =>
          let decide_for (subvol : option Subvolume) (selectedName : string) :=
            match subvol with
            | None => Ret (Ok (None, backendName, no_decision))
            | Some sv =>
                decision <-! decideExistingVolumeIdentity req protocol selectedName sv;;
                Ret (Ok (Some sv, selectedName, decision))
            end in
          match subvol with
          | None =>
              if String.eqb legacyName backendName then decide_for None backendName
              else
                let! (subvol, err) := do_ (GetSubvolume filesystem legacyName) in
                match query_failed err with
                | Some e => Ret (Err (Status Internal ("failed to query legacy subvolume: " +:+ err_text e)))
                | None => decide_for subvol legacyName
                end
          | Some _ => decide_for subvol backendName
          end
      end
  end.

(** ** Writing the identity

    The result is the error and the subvolume with the [Properties] the code
    leaves in it. *)
Definition intended_properties (subvol : Subvolume) (base : gomap) (identity : smap) : smap :=
  let props := <[PropertyManagedBy := ManagedByValue]> (mergeProperties (copyProperties base) identity) in
  put_nonempty PropertyCreatedAt (sv_Properties subvol).[PropertyCreatedAt] props.

Definition persistVolumeIdentity (subvol : Subvolume) (base : gomap) (decision : volumeIdentityDecision)
    : M (option error * Subvolume) :=
  with_identityMu (
    let sv := sv_Filesystem subvol +:+ "/" +:+ sv_Name subvol in
    if negb (d_persist decision) && bool_decide (base = None) then Ret (None, subvol)
    else
      match d_properties decision with
      | None => Ret (Some (Status Internal "volume identity properties were not initialized"), subvol)
      | Some identity =>
          let props := intended_properties subvol base identity in
          if propertiesContain (sv_Properties subvol) props then Ret (None, subvol)
          else
            let! (_, err) := do_ (SetSubvolumeProperties (sv_Filesystem subvol) (sv_Name subvol) props) in
            match err with
            | None => Ret (None, set_Properties (Some props) subvol)
            | Some e =>
                let! (refreshed, readErr) := do_ (GetSubvolume (sv_Filesystem subvol) (sv_Name subvol)) in
                let unknown :=
                  Status Aborted ("identity write state on " +:+ sv +:+
                    " is unknown; retry without rollback: write error: " +:+ err_text e +:+
                    ", verification error: " +:+ opt_err_text readErr) in
                match readErr, refreshed with
                | None, Some current =>
                    let subvol' := set_Properties (sv_Properties current) subvol in
                    if negb (propertiesContain (sv_Properties current) props) then
                      Ret (Some (Status Internal ("failed to persist identity properties on " +:+ sv +:+
                        "; verification confirmed the intended state did not commit: " +:+ err_text e)), subvol')
                    else
                      Ret (Some (Status Aborted ("identity properties on " +:+ sv +:+
                        " may have committed despite an error; retry the identical request: " +:+ err_text e)), subvol')
                | _, _ => Ret (Some unknown, subvol)
                end
            end
      end).

(** ** Rollback *)

Definition hasCompleteV2Identity (properties : gomap) (backendName : string) : bool :=
  String.eqb properties.[PropertyManagedBy] ManagedByValue &&
  String.eqb properties.[propertyIdentityVersion] identityVersion2 &&
  negb (String.eqb properties.[propertyCSIRequestName] "") &&
  negb (String.eqb properties.[propertyVolumeUUID] "") &&
  negb (String.eqb properties.[PropertyProtocol] "") &&
  String.eqb properties.[PropertyCSIVolumeName] backendName.

Definition rollbackCreatedSubvolume (subvol : Subvolume) (operationErr : error) : M error :=
  if bool_decide (err_code operationErr = Aborted) then Ret operationErr
  else with_identityMu (
    let sv := sv_Filesystem subvol +:+ "/" +:+ sv_Name subvol in
    let! (current, readErr) := do_ (GetSubvolume (sv_Filesystem subvol) (sv_Name subvol)) in
    let committed := match readErr, current with
                     | None, Some c => hasCompleteV2Identity (sv_Properties c) (sv_Name subvol)
                     | _, _ => false
                     end in
    if committed then
      Ret (Status Aborted (err_text operationErr +:+
        "; rollback skipped because identity committed concurrently on " +:+ sv))
    else
      match query_failed readErr with
      | Some e => Ret (Status Aborted (err_text operationErr +:+ "; rollback state for " +:+ sv +:+
                                       " is unknown: " +:+ err_text e))
      | None =>
          if isNotFoundError readErr || bool_decide (current = None) then Ret operationErr
          else
            rollbackErr <- do_ (DeleteSubvolume (sv_Filesystem subvol) (sv_Name subvol));;
            match rollbackErr with
            | Some e => Ret (Status Internal (err_text operationErr +:+
                "; additionally failed to roll back newly created subvolume " +:+ sv +:+ ": " +:+ err_text e))
            | None => Ret operationErr
            end
      end).

(** ** Clones *)

Record cloneDestinationSelection : Type := mkDestination {
  cd_name : string; cd_existed : bool; cd_legacy : bool
}.

(** A legacy destination or volume is provably the request's. *)
Definition legacyProof (req : CreateVolumeRequest) (protocol legacyName : string) (destination : Subvolume) : bool :=
  let props := sv_Properties destination in
  String.eqb props.[PropertyManagedBy] ManagedByValue &&
  String.eqb (sv_Name destination) legacyName && String.eqb props.[PropertyProtocol] protocol &&
  legacyPVCIdentityMatches (req_Name req) (req_Parameters req) props.

Definition selectCloneDestination (req : CreateVolumeRequest) (filesystem backendName protocol : string)
    : M (res cloneDestinationSelection) :=
  match ResolveLegacyVolumeName (req_Parameters req) (req_Name req) with
  | Err err => Ret (Err (Status InvalidArgument ("failed to resolve legacy clone name: " +:+ err_text err)))
  | Ok legacyName =>
      let! (destination, err) := do_ (GetSubvolume filesystem backendName) in
      match query_failed err with
      | Some e => Ret (Err (Status Internal ("failed to query clone destination: " +:+ err_text e)))
      | None =>
          match destination with
          | Some _ => Ret (Ok (mkDestination backendName true false))
          | None =>
              if String.eqb legacyName backendName then Ret (Ok (mkDestination backendName false false))
              else
                let! (destination, err) := do_ (GetSubvolume filesystem legacyName) in
                match query_failed err with
                | Some e => Ret (Err (Status Internal ("failed to query legacy clone destination: " +:+ err_text e)))
                | None =>
                    match destination with
                    | None => Ret (Ok (mkDestination backendName false false))
                    | Some dest =>
                        if negb (legacyProof req protocol legacyName dest) then
                          Ret (Err (Status AlreadyExists
                            ("legacy clone destination " +:+ sv_Filesystem dest +:+ "/" +:+ sv_Name dest +:+
                             " cannot be proven to belong to CSI request " +:+ Quote (req_Name req))))
                        else Ret (Ok (mkDestination legacyName true true))
                    end
                end
          end
      end
  end.

Definition cloneCarriesSourceIdentity (destination source : gomap) : bool :=
  if negb (String.eqb source.[propertyVolumeUUID] "") &&
     String.eqb destination.[propertyVolumeUUID] source.[propertyVolumeUUID] then true
  else if negb (String.eqb source.[propertyCSIRequestName] "") &&
          String.eqb destination.[propertyCSIRequestName] source.[propertyCSIRequestName] &&
          negb (String.eqb source.[PropertyCSIVolumeName] "") &&
          String.eqb destination.[PropertyCSIVolumeName] source.[PropertyCSIVolumeName] then true
  else if String.eqb source.[propertyIdentityVersion] identityVersion2 then false
  else if negb (String.eqb destination.[propertyIdentityVersion] "") ||
          negb (String.eqb destination.[propertyCSIRequestName] "") ||
          negb (String.eqb destination.[propertyVolumeUUID] "") then false
  else if existsb (fun key => negb (String.eqb source.[key] "") && negb (String.eqb destination.[key] source.[key]))
            [PropertyManagedBy; PropertyCSIVolumeName; PropertyProtocol; PropertyCreatedAt;
             PropertyCapacityBytes; PropertyPVCName; PropertyPVCNamespace; PropertyStorageClass] then false
  else String.eqb source.[PropertyManagedBy] ManagedByValue &&
       negb (String.eqb source.[PropertyCSIVolumeName] "") && negb (String.eqb source.[PropertyProtocol] "").

Definition classifyCloneIdentity (req : CreateVolumeRequest) (protocol sourceBackendName backendName : string)
    (destination : option Subvolume) (sourceProperties : gomap)
    (sourceExists backendCreated destinationExisted legacy : bool) (freshIdentity : volumeIdentityDecision)
    : M (res volumeIdentityDecision) :=
  if backendCreated || negb destinationExisted then Ret (Ok freshIdentity)
  else
    dest <- deref destination;;
    let props := sv_Properties dest in
    let sv := sv_Filesystem dest +:+ "/" +:+ sv_Name dest in
    let preserve (what : string) : M (res volumeIdentityDecision) :=
      r <- identityProperties props (req_Name req) backendName protocol;;
      match r with
      | Err err => Ret (Err (Status Internal (what +:+ err_text err)))
      | Ok identity => Ret (Ok (mkDecision (Some identity) true))
      end in
    let matchingDestination :=
      String.eqb props.[PropertyManagedBy] ManagedByValue &&
      String.eqb props.[propertyIdentityVersion] identityVersion2 &&
      String.eqb props.[propertyCSIRequestName] (req_Name req) && String.eqb props.[PropertyProtocol] protocol in
    if matchingDestination then preserve "failed to preserve clone identity: "
    else
      let sourceIdentityCopied :=
        if negb sourceExists then
          hasCompleteV2Identity props sourceBackendName && String.eqb props.[PropertyProtocol] protocol
        else cloneCarriesSourceIdentity props sourceProperties in
      if sourceIdentityCopied && negb legacy then Ret (Ok freshIdentity)
      else if legacy then
        if negb (legacyProof req protocol backendName dest) then
          Ret (Err (Status AlreadyExists ("legacy clone destination " +:+ sv +:+
                                          " lost ownership proof after source validation")))
        else if sourceIdentityCopied then Ret (Ok freshIdentity)
        else preserve "failed to initialize legacy clone identity: "
      else
        Ret (Err (Status AlreadyExists ("clone destination " +:+ sv +:+
                                        " has source provenance but incompatible CSI ownership"))).
End Identity.

(** ** Distinct property keys

    What is assumed of the constants of the client: its property keys are
    different from each other and from the driver's own, and the ownership mark
    is not the empty string. *)
Class NastyAPILaws {api : NastyAPI} : Prop := {
  keys_distinct : NoDup [PropertyManagedBy; PropertyCSIVolumeName; PropertyProtocol; PropertyCreatedAt;
                         propertyCSIRequestName; propertyVolumeUUID; propertyIdentityVersion];
  managed_value : ManagedByValue <> ""
}.

#[export] Instance doc_api_laws : @NastyAPILaws doc_api.
Proof. split; [|done]. apply (bool_decide_unpack _). vm_compute. exact I. Qed.
