(* ===== verification/Ownership.v ===== *)
(** * Deletion ownership and share cleanup
    (driver/delete_ownership.go, driver/share_cleanup.go)

    Nothing is deleted unless the backend's answer proves that the subvolume is
    the driver's, and storage stays while its presentation cannot be removed. *)

From S2P Require Import Prelude GoStrings Prog Errors Api Metadata Capacity.

Section Ownership.
Context {api : NastyAPI}.

Definition validateDeletionOwnership (subvol : option Subvolume) (meta : VolumeMetadata) (protocol : string)
    : res unit :=
  match subvol with
  | None => Err (Status Unavailable "Ownership query returned no subvolume; refusing deletion")
  | Some sv =>
      let props := sv_Properties sv in
      if negb (String.eqb props.[PropertyManagedBy] ManagedByValue) then
        Err (Status FailedPrecondition ("Subvolume " +:+ m_DatasetID meta +:+
          " is not proven to be managed by nasty-csi; verify ownership and recover metadata explicitly before retrying deletion"))
      else if match map_lookup props PropertyCSIVolumeName with
              | Some name => negb (String.eqb name (m_DatasetName meta)) | None => false end then
        Err (Status FailedPrecondition ("Subvolume " +:+ m_DatasetID meta +:+ " volume name mismatch; refusing deletion"))
      else if match map_lookup props PropertyProtocol with
              | Some stored => negb (String.eqb stored protocol) | None => false end then
        Err (Status FailedPrecondition ("Subvolume " +:+ m_DatasetID meta +:+ " protocol mismatch; refusing deletion"))
      else
        let strategy := props.[PropertyDeleteStrategy] in
        if negb (String.eqb strategy "") && negb (String.eqb strategy DeleteStrategyDelete) &&
           negb (String.eqb strategy DeleteStrategyRetain) then
          Err (Status FailedPrecondition ("Subvolume " +:+ m_DatasetID meta +:+ " has an unknown delete strategy; refusing deletion"))
        else Ok tt
  end.

(** The part of [lookupDeletionVolume] after the backend's answer. *)
Definition verify_lookup (volumeID : string) (answer : ptr_err Subvolume) : res (option VolumeMetadata) :=
    let '(subvol, err) := answer in
    match err with
    | Some e =>
        if negb (errors_Is e nastyapi_ErrDatasetNotFound) && negb (isNotFoundError err) then
          Err (Status Unavailable ("Cannot verify deletion ownership: " +:+ err_text e))
        else Ok None
    | None =>
        match subvol with
        | None => Ok None
        | Some sv =>
            let meta := {|
              m_Name := ""; m_Protocol := "";
              m_DatasetID := sv_Filesystem sv +:+ "/" +:+ sv_Name sv;
              m_DatasetName := sv_Name sv;
              m_CurrentCapacityBytes := None; m_RecordedCapacityBytes := None; m_Server := "";
              m_NVMeOFNQN := ""; m_ISCSIIQN := ""; m_NFSShareUUID := ""; m_SMBShareUUID := "" |} in
            let protocol := (sv_Properties sv).[PropertyProtocol] in
            _ <-? validateDeletionOwnership (Some sv) meta protocol;;
            if known_protocol protocol then Ok (extractVolumeMetadataFromSubvolume volumeID sv)
            else Err (Status FailedPrecondition
              "Missing or unknown volume protocol; recover metadata explicitly before deletion")
        end
    end.

Definition lookupDeletionVolume (volumeID : string) : M (res (option VolumeMetadata)) :=
  if isDatasetPathVolumeID volumeID then
    match splitSubvolumeID volumeID with
    | Err splitErr => Ret (Err (Status InvalidArgument ("Invalid volume ID: " +:+ err_text splitErr)))
    | Ok (filesystem, name) => answer <- do_ (GetSubvolume filesystem name);; Ret (verify_lookup volumeID answer)
    end
  else answer <- do_ (FindSubvolumeByCSIVolumeName "" volumeID);; Ret (verify_lookup volumeID answer).
End Ownership.

(** [deleteShareByPath]: every listed share of the path is removed; the first
    removal that fails (other than by absence) stops the loop. *)
Definition deleteShareByPath {T : Type} (protocol path : string) (list_ : M (list_err T))
    (identity : T -> string * string) (remove : string -> M (option error)) : M (res unit) :=
  let! (shares, err) := list_ in
  match err with
  | Some e => Ret (Err (Status Unavailable ("Cannot verify " +:+ protocol +:+ " share cleanup: " +:+ err_text e)))
  | None =>
      stopped <- for_range shares (fun share =>
        let '(id, sharePath) := identity share in
        if negb (String.eqb sharePath path) then Ret None
        else
          err <- remove id;;
          match query_failed err with
          | Some e => Ret (Some (Status Unavailable
              ("Failed to delete " +:+ protocol +:+ " share " +:+ id +:+ ": " +:+ err_text e)))
          | None => Ret None
          end);;
      match stopped with
      | Some e => Ret (Err e)
      | None => Ret (Ok tt)
      end
  end.
