(* ===== verification/Comment.v ===== *)
(** * The comment of a share (driver/controller_nfs.go)

    A share's comment records its volume's name and capacity:
    [fmt.Sprintf("CSI Volume: %s | Capacity: %d", name, capacity)].  The
    capacity is read back with [fmt.Sscanf] and the same format, whose
    behaviour for literal text, runs of spaces, [%s] and [%d] is written out
    here; package fmt takes for spaces what package unicode does. *)

From Stdlib Require Import DecimalString.
From S2P Require Import Prelude GoStrings Names.

(** ** fmt.Sscanf *)

Definition newline : ascii := chr 10.

(** Spaces other than newlines are skipped; [n] more bytes belong to the last. *)
Fixpoint skip_blanks (s : string) (n : nat) : string :=
  match s with
  | EmptyString => EmptyString
  | String c s' =>
      match n with
      | S n => skip_blanks s' n
      | O => if Ascii.eqb c newline then s else match space_width s with O => s | S n => skip_blanks s' n end
      end
  end.

(** A space of the format: at least one blank of the input, or its end. *)
Definition scan_format_space (s : string) : option string :=
  match s with
  | EmptyString => Some EmptyString
  | String c _ => if negb (space_width s =? 0)%nat && negb (Ascii.eqb c newline) then Some (skip_blanks s 0) else None
  end.

(** Literal text of the format. *)
Fixpoint scan_literal (lit s : string) : option string :=
  match lit with
  | EmptyString => Some s
  | String c lit' =>
      match s with
      | String d s' => if Ascii.eqb c d then scan_literal lit' s' else None
      | EmptyString => None
      end
  end.

(** What every verb does first: skip blanks; a newline or the end is an error. *)
Definition scan_verb_start (s : string) : option string :=
  match skip_blanks s 0 with
  | EmptyString => None
  | String c s' => if Ascii.eqb c newline then None else Some (String c s')
  end.

(** The token and the rest, by a predicate on characters. *)
Fixpoint span (f : ascii -> bool) (s : string) : string * string :=
  match s with
  | EmptyString => (EmptyString, EmptyString)
  | String c s' => if f c then let '(t, r) := span f s' in (String c t, r) else (EmptyString, s)
  end.

(** The token up to the next space. *)
Fixpoint span_word (s : string) : string * string :=
  match s with
  | EmptyString => (EmptyString, EmptyString)
  | String c s' => if (space_width s =? 0)%nat then let '(t, r) := span_word s' in (String c t, r) else (EmptyString, s)
  end.

Definition scan_string (s : string) : option (string * string) :=
  s ← scan_verb_start s; Some (span_word s).

Definition is_digit (c : ascii) : bool := in_range 48 57 (nat_of_ascii c).

(** What [%d] does into an [int64] once blanks are gone: an optional sign and at least one digit. *)
Definition scan_number (s : string) : option (Z * string) :=
  let '(sign, body) :=
    match s with
    | String c s' => if str_mem c "+-" then (String c "", s') else ("", s)
    | EmptyString => ("", s)
    end in
  let '(digits, rest) := span is_digit body in
  if String.eqb digits "" then None
  else z ← ParseInt (sign +:+ digits); Some (z, rest).

Definition scan_int (s : string) : option (Z * string) :=
  s ← scan_verb_start s; scan_number s.

(** The scan of ["CSI Volume: %s | Capacity: %d"]; text after the number is ignored. *)
Definition scan_comment (comment : string) : option (string * Z) :=
  s ← scan_literal "CSI" comment;
  s ← scan_format_space s;
  s ← scan_literal "Volume:" s;
  s ← scan_format_space s;
  '(name, s) ← scan_string s;
  s ← scan_format_space s;
  s ← scan_literal "|" s;
  s ← scan_format_space s;
  s ← scan_literal "Capacity:" s;
  s ← scan_format_space s;
  '(capacity, _) ← scan_int s;
  Some (name, capacity).

(** ** The driver's functions *)

Definition parseCapacityFromComment (comment : string) : Z :=
  if String.eqb comment "" then 0
  else match scan_comment comment with
       | Some (_, parsedCapacity) => parsedCapacity
       | None => 0
       end.

Definition volume_comment (volumeName : string) (capacity : Z) : string :=
  "CSI Volume: " +:+ volumeName +:+ " | Capacity: " +:+ FormatInt capacity.

(** ** Round trip *)

(** A name that [%s] reads whole. *)
Definition scannable (name : string) : Prop :=
  name <> "" /\ spaceless name = true.

Lemma obind_Some {A B : Type} (a : A) (f : A -> option B) : (Some a ≫= f) = f a.
Proof. done. Qed.

Lemma span_app f s c t :
  str_forall f s = true -> f c = false -> span f (s +:+ String c t) = (s, String c t).
Proof.
  intros H Hc. induction s as [|d s IH].
  - rewrite str_nil_app. simpl. by rewrite Hc.
  - rewrite str_cons_app. simpl in H |- *. apply andb_true_iff in H as [-> H]. by rewrite IH.
Qed.

Lemma span_all f s : str_forall f s = true -> span f s = (s, "").
Proof.
  intros H. induction s as [|d s IH]; simpl in *; [done|].
  apply andb_true_iff in H as [-> H]. by rewrite IH.
Qed.

Lemma scan_literal_app lit t : scan_literal lit (lit +:+ t) = Some t.
Proof. induction lit; str_norm; [done|]. by rewrite Ascii.eqb_refl. Qed.

Lemma not_space_head c s : space_width (String c s) = 0%nat ->
  skip_blanks (String c s) 0 = String c s /\ scan_verb_start (String c s) = Some (String c s).
Proof.
  intros Hc. assert (Ascii.eqb c newline = false) as Hn by (apply Ascii.eqb_neq; by intros ->).
  assert (skip_blanks (String c s) 0 = String c s) as E by (cbn [skip_blanks]; by rewrite Hn, Hc).
  split; [done|]. unfold scan_verb_start. by rewrite E, Hn.
Qed.

Lemma span_word_app s t : spaceless s = true -> span_word (s +:+ String " " t) = (s, String " " t).
Proof.
  induction s as [|c s IH]; [done|]. intros H. rewrite str_cons_app. cbn [span_word].
  rewrite (spaceless_head c s (String " " t) H eq_refl). cbn [spaceless] in H. apply andb_true_iff in H as [_ H]. by rewrite (IH H).
Qed.

Lemma scan_string_token name s :
  scannable name -> scan_string (name +:+ String " " s) = Some (name, String " " s).
Proof.
  intros [Hne Hf]. unfold scan_string. rewrite <- (span_word_app name s Hf). destruct name as [|c name]; [done|].
  rewrite str_cons_app. by rewrite (proj2 (not_space_head c _ (spaceless_head c name (String " " s) Hf eq_refl))).
Qed.

Lemma uint_digits_all d : str_forall is_digit (NilEmpty.string_of_uint d) = true.
Proof. induction d; simpl; try exact IHd; reflexivity. Qed.

Lemma FormatN_digits n : str_forall is_digit (FormatN n) = true /\ FormatN n <> "".
Proof.
  split.
  - unfold FormatN, NilZero.string_of_uint. destruct (N.to_uint n) as [|d|d|d|d|d|d|d|d|d|d]; try reflexivity;
      apply (uint_digits_all d).
  - destruct (FormatN_head n) as (c & s & -> & _). done.
Qed.

Lemma digits_spaceless s : str_forall is_digit s = true -> spaceless s = true.
Proof.
  intros H. apply ascii_spaceless. induction s as [|c s IH]; [done|]. cbn [str_forall] in *. apply andb_true_iff in H as [Hc Hs].
  rewrite (IH Hs), andb_true_r. clear -Hc. by destruct c as [[] [] [] [] [] [] [] []].
Qed.

Lemma FormatInt_scannable z : scannable (FormatInt z).
Proof.
  unfold FormatInt. destruct (z <? 0).
  - destruct (FormatN_digits (Z.to_N (- z))) as [Hd _]. split; [by rewrite str_cons_app|].
    apply (plain_spaceless "-"); [done|by apply digits_spaceless].
  - destruct (FormatN_digits (Z.to_N z)) as [Hd Hn]. split; [done|by apply digits_spaceless].
Qed.

(** A space of the format before a token. *)
Lemma scan_format_space_token t s :
  scannable t -> ascii_start s = true -> scan_format_space (String " " (t +:+ s)) = Some (t +:+ s).
Proof.
  intros [Hn Ht] Hs. destruct t as [|c t]; [done|]. rewrite str_cons_app.
  change (scan_format_space (String " " (String c (t +:+ s)))) with (Some (skip_blanks (String c (t +:+ s)) 0)).
  by rewrite (proj1 (not_space_head c _ (spaceless_head c t s Ht Hs))).
Qed.

Lemma scan_number_format z : is_int64 z -> scan_number (FormatInt z) = Some (z, "").
Proof.
  intros Hz. pose proof (ParseInt_FormatInt z Hz) as HP. unfold FormatInt in *. unfold scan_number.
  destruct (Z.ltb_spec z 0) as [Hneg|Hpos].
  - destruct (FormatN_digits (Z.to_N (- z))) as [Hd Hne]. rewrite str_cons_app, str_nil_app in *.
    rewrite (proj1 (eq_comm _ _) (eq_refl : true = str_mem "-" "+-")), span_all by done.
    rewrite (proj2 (String.eqb_neq _ _) Hne), str_cons_app, str_nil_app. by rewrite HP.
  - destruct (FormatN_digits (Z.to_N z)) as [Hd Hne].
    destruct (FormatN_head (Z.to_N z)) as (c & s & E & H1 & H2). rewrite E in *.
    assert (str_mem c "+-" = false) as ->.
    { simpl. destruct (Ascii.eqb_spec c "+"%char); [done|]. destruct (Ascii.eqb_spec c "-"%char); done. }
    rewrite span_all by done. rewrite (proj2 (String.eqb_neq _ _) Hne), str_nil_app. by rewrite HP.
Qed.

Lemma scan_int_format z : is_int64 z -> scan_int (FormatInt z) = Some (z, "").
Proof.
  intros Hz. destruct (FormatInt_scannable z) as [Hn Hs]. rewrite <- (scan_number_format z Hz). unfold scan_int.
  destruct (FormatInt z) as [|c s]; [done|]. pose proof (spaceless_head c s "" Hs eq_refl) as Hw. rewrite str_app_nil_r in Hw.
  by rewrite (proj2 (not_space_head c s Hw)).
Qed.

(** The capacity written into a share's comment is read back from it,
    for every name without white space and every capacity of 64 bits.  (The
    names the driver resolves have no white space.) *)
Theorem comment_roundtrip name capacity :
  scannable name -> is_int64 capacity ->
  parseCapacityFromComment (volume_comment name capacity) = capacity.
Proof.
  intros Hn Hc. unfold parseCapacityFromComment, volume_comment.
  change ("CSI Volume: " +:+ name +:+ " | Capacity: " +:+ FormatInt capacity)
    with ("CSI" +:+ String " " ("Volume:" +:+ String " " (name +:+ String " " ("|" +:+ String " "
            ("Capacity:" +:+ String " " (FormatInt capacity)))))).
  change (String.eqb ("CSI" +:+ _) "") with false. cbv iota.
  unfold scan_comment. rewrite scan_literal_app.
  rewrite obind_Some, (scan_format_space_token "Volume:"), obind_Some by done.
  rewrite scan_literal_app, obind_Some, (scan_format_space_token name), obind_Some by done.
  rewrite scan_string_token, obind_Some by done.
  rewrite (scan_format_space_token "|"), obind_Some, scan_literal_app, obind_Some by done.
  rewrite (scan_format_space_token "Capacity:"), obind_Some, scan_literal_app, obind_Some by done.
  rewrite <- (str_app_nil_r (FormatInt capacity)), scan_format_space_token, str_app_nil_r by (done || apply FormatInt_scannable).
  by rewrite obind_Some, scan_int_format.
Qed.

Lemma comment_roundtrip_witness :
  volume_comment "pvc-1" 1073741824 = "CSI Volume: pvc-1 | Capacity: 1073741824" /\
  parseCapacityFromComment (volume_comment "pvc-1" 1073741824) = 1073741824.
Proof.
  split; [reflexivity|]. apply comment_roundtrip; [by split|]. split; vm_compute; discriminate.
Defined.
