(* ===== verification/Capabilities.v ===== *)
(** * Request validation and volume capabilities (driver/controller.go) *)

From S2P Require Import Prelude GoStrings Prog Errors Api.

Definition validateCreateVolumeRequest (req : CreateVolumeRequest) : res unit :=
  if String.eqb (req_Name req) "" then Err (Status InvalidArgument "Volume name is required")
  else match req_VolumeCapabilities req with
       | [] => Err (Status InvalidArgument "Volume capabilities are required")
       | _ => Ok tt
       end.

Definition isMultiNodeMode (mode : access_mode) : bool :=
  match mode with
  | MULTI_NODE_READER_ONLY | MULTI_NODE_SINGLE_WRITER | MULTI_NODE_MULTI_WRITER => true
  | _ => false
  end.

Definition is_block_protocol (protocol : string) : bool :=
  String.eqb protocol ProtocolNVMeOF || String.eqb protocol ProtocolISCSI.

Definition has_mount (cap : VolumeCapability) : bool :=
  match cap_type cap with Mount _ => true | _ => false end.

Fixpoint validateAccessModeForProtocol (caps : list VolumeCapability) (protocol : string) : res unit :=
  match caps with
  | [] => Ok tt
  | cap :: rest =>
      if negb (isMultiNodeMode (cap_mode cap)) then validateAccessModeForProtocol rest protocol
      else if is_block_protocol protocol then
        if has_mount cap then
          Err (Status InvalidArgument
            ("multi-node access mode " +:+ access_mode_string (cap_mode cap) +:+
             " with mounted filesystem is not supported for " +:+ protocol +:+
             " — use volumeMode: Block for multi-node block storage (e.g., KubeVirt live migration)"))
        else validateAccessModeForProtocol rest protocol
      else validateAccessModeForProtocol rest protocol
  end.

(** The loop of [requestedBlockFilesystem], with its two accumulators. *)
Fixpoint block_filesystem_loop (caps : list VolumeCapability) (mode filesystem : string) : res string :=
  match caps with
  | [] => Ok filesystem
  | cap :: rest =>
      let conflict (capabilityMode capabilityFilesystem : string) : res string :=
        if negb (String.eqb mode "") && negb (String.eqb mode capabilityMode) then
          Err (Status InvalidArgument "volume capabilities mix mount and raw block access")
        else if negb (String.eqb filesystem "") && negb (String.eqb capabilityFilesystem "") &&
                negb (String.eqb filesystem capabilityFilesystem) then
          Err (Status InvalidArgument ("volume capabilities request conflicting filesystem types " +:+
                                       Quote filesystem +:+ " and " +:+ Quote capabilityFilesystem))
        else block_filesystem_loop rest capabilityMode
               (if String.eqb capabilityFilesystem "" then filesystem else capabilityFilesystem) in
      match cap_type cap with
      | Mount fsType =>
          let capabilityFilesystem := if String.eqb fsType "" then fsTypeExt4 else fsType in
          if String.eqb capabilityFilesystem fsTypeExt3 || String.eqb capabilityFilesystem fsTypeExt4 ||
             String.eqb capabilityFilesystem fsTypeXFS
          then conflict "mount" capabilityFilesystem
          else Err (Status InvalidArgument ("unsupported filesystem type " +:+ Quote capabilityFilesystem +:+ " for block volume"))
      | Block => conflict "block" ""
      | NoAccessType => Err (Status InvalidArgument "volume capability must specify mount or block access")
      end
  end.

Definition requestedBlockFilesystem (caps : list VolumeCapability) : res string :=
  block_filesystem_loop caps "" "".

(** A pointer to a string that is nil or empty. *)
Definition nil_or_empty (p : option string) : bool :=
  match p with Some s => String.eqb s "" | None => true end.

Definition validateInitializedBlockFilesystem (subvolume : Subvolume) (expected : string) : res unit :=
  let sv := "block subvolume " +:+ sv_Filesystem subvolume +:+ "/" +:+ sv_Name subvolume in
  if String.eqb expected "" then Ok tt
  else
    match sv_BlockFilesystem subvolume with
    | None => Err (Status FailedPrecondition (sv +:+ " has no authoritative filesystem initialization metadata"))
    | Some fs =>
        if String.eqb fs "" then
          Err (Status FailedPrecondition (sv +:+ " has no authoritative filesystem initialization metadata"))
        else if negb (String.eqb fs expected) then
          Err (Status AlreadyExists (sv +:+ " contains " +:+ fs +:+ ", requested " +:+ expected))
        else if nil_or_empty (sv_BlockFilesystemUUID subvolume) then
          Err (Status FailedPrecondition (sv +:+ " has no verified filesystem UUID"))
        else Ok tt
    end.

Definition validateKnownBlockFilesystem (subvolume : Subvolume) (expected : string) : res unit :=
  match sv_BlockFilesystem subvolume with
  | None => Ok tt
  | Some fs =>
      if String.eqb expected "" then Ok tt
      else if negb (String.eqb fs expected) then
        Err (Status AlreadyExists ("block subvolume " +:+ sv_Filesystem subvolume +:+ "/" +:+ sv_Name subvolume +:+
                                   " contains " +:+ fs +:+ ", requested " +:+ expected))
      else Ok tt
  end.

(** ** What the validations mean *)

(** The filesystem a mount capability asks for. *)
Definition wanted_fs (fsType : string) : string := if String.eqb fsType "" then fsTypeExt4 else fsType.

Definition supported_fs (fs : string) : Prop := fs = fsTypeExt3 \/ fs = fsTypeExt4 \/ fs = fsTypeXFS.

(** Capabilities a single block volume can serve, initialised with [fs]: all
    raw, or all mounts of the one supported filesystem. *)
Definition uniform_block (caps : list VolumeCapability) : Prop := Forall (fun c => cap_type c = Block) caps.
Definition uniform_mount (fs : string) (caps : list VolumeCapability) : Prop :=
  Forall (fun c => exists t, cap_type c = Mount t /\ wanted_fs t = fs) caps.

Lemma supported_fs_tests fs :
  (String.eqb fs fsTypeExt3 || String.eqb fs fsTypeExt4 || String.eqb fs fsTypeXFS) = true <-> supported_fs fs.
Proof. unfold supported_fs. rewrite !orb_true_iff, !String.eqb_eq. tauto. Qed.

Lemma supported_fs_nonempty fs : supported_fs fs -> String.eqb fs "" = false.
Proof. by intros [->|[->| ->]]. Qed.

Lemma block_loop_block caps fs : block_filesystem_loop caps "block" "" = Ok fs <-> uniform_block caps /\ fs = "".
Proof.
  unfold uniform_block. induction caps as [|c caps IH]; simpl.
  { split; [intros [= <-]; split; [constructor|done]|by intros [_ ->]]. }
  rewrite Forall_cons. destruct (cap_type c) as [t| |]; simpl.
  - split; [|intros [[[=] _] _]]. destruct (_ || _); done.
  - rewrite IH. tauto.
  - split; [done|intros [[[=] _] _]].
Qed.

Lemma block_loop_mount caps fs0 fs :
  supported_fs fs0 -> block_filesystem_loop caps "mount" fs0 = Ok fs <-> uniform_mount fs0 caps /\ fs = fs0.
Proof.
  intros Hs. unfold uniform_mount. induction caps as [|c caps IH]; simpl.
  { split; [intros [= <-]; split; [constructor|done]|by intros [_ ->]]. }
  rewrite Forall_cons. destruct (cap_type c) as [t| |]; simpl.
  - change (if String.eqb t "" then fsTypeExt4 else t) with (wanted_fs t).
    rewrite (supported_fs_nonempty _ Hs). simpl.
    destruct (_ || _) eqn:Et.
    + apply supported_fs_tests in Et. rewrite (supported_fs_nonempty _ Et). simpl.
      destruct (String.eqb_spec fs0 (wanted_fs t)) as [E|E]; simpl.
      * rewrite <- E, IH. split; [intros [H ->]|intros [[_ H] ->]]; eauto.
      * split; [done|]. intros [[(t' & [= <-] & F) _] _]. by symmetry in F.
    + split; [done|]. intros [[(t' & [= <-] & F) _] _]. apply supported_fs_tests in Hs. rewrite F in Et. congruence.
  - split; [done|]. intros [[(? & [=] & _) _] _].
  - split; [done|]. intros [[(? & [=] & _) _] _].
Qed.

(** [requestedBlockFilesystem] accepts exactly the capability lists one
    block volume can serve, and returns what to initialise it with: the empty
    string for raw volumes, the one requested filesystem for mounted ones. *)
Theorem requestedBlockFilesystem_correct caps fs :
  requestedBlockFilesystem caps = Ok fs <->
  (uniform_block caps /\ fs = "") \/ (caps <> [] /\ supported_fs fs /\ uniform_mount fs caps).
Proof.
  unfold requestedBlockFilesystem. destruct caps as [|c caps]; simpl.
  { split; [intros [= <-]; left; split; [constructor|done]|]. intros [[_ ->]|[[] _]]; done. }
  unfold uniform_block, uniform_mount. rewrite Forall_cons. destruct (cap_type c) as [t| |] eqn:Ec; simpl.
  - change (if String.eqb t "" then fsTypeExt4 else t) with (wanted_fs t). destruct (_ || _) eqn:Et.
    + apply supported_fs_tests in Et. rewrite (supported_fs_nonempty _ Et), block_loop_mount by done. split.
      * intros [H ->]. right. split; [done|]. split; [done|]. constructor; eauto.
      * intros [[[[=] _] _]|(_ & _ & H)]. apply Forall_cons in H as [(t' & E & <-) H]. rewrite Ec in E.
        injection E as <-. done.
    + split; [done|]. intros [[[[=] _] _]|(_ & Hs & H)]. apply Forall_cons in H as [(t' & E & <-) _].
      rewrite Ec in E. injection E as <-. apply supported_fs_tests in Hs. congruence.
  - rewrite block_loop_block. split.
    + intros [H ->]. left. done.
    + intros [[[_ H] ->]|(_ & _ & H)]; [done|]. apply Forall_cons in H as [(t' & E & _) _]. congruence.
  - split; [done|]. intros [[[[=] _] _]|(_ & _ & H)]. apply Forall_cons in H as [(t' & E & _) _]. congruence.
Qed.

(** Multi-node access is refused exactly when a block protocol would mount
    a filesystem on several nodes. *)
Theorem validateAccessModeForProtocol_correct caps protocol :
  validateAccessModeForProtocol caps protocol = Ok tt <->
  ~ (is_block_protocol protocol = true /\
     exists c fs, c ∈ caps /\ isMultiNodeMode (cap_mode c) = true /\ cap_type c = Mount fs).
Proof.
  induction caps as [|c caps IH]; simpl.
  { split; [|done]. intros _ (_ & c & fs & H & _). by apply elem_of_nil in H. }
  destruct (isMultiNodeMode (cap_mode c)) eqn:Em; simpl.
  - destruct (is_block_protocol protocol) eqn:Ep.
    + destruct (has_mount c) eqn:Eh.
      * split; [done|]. intros H. exfalso. apply H. split; [done|]. unfold has_mount in Eh.
        destruct (cap_type c) as [fs| |] eqn:Et; try done. exists c, fs. split; [left|done].
      * rewrite IH. unfold has_mount in Eh. split; intros H [_ (c' & fs & Hc & Hm & Ht)].
        -- apply elem_of_cons in Hc as [->|Hc]; [by rewrite Ht in Eh|]. apply H. eauto 8.
        -- apply H. split; [done|]. exists c', fs. split; [by right|done].
    + rewrite IH. split; intros _ [? _]; discriminate.
  - rewrite IH. split; intros H [Hp (c' & fs & Hc & Hm & Ht)]; apply H; split; try done.
    + apply elem_of_cons in Hc as [->|Hc]; [congruence|]. eauto.
    + exists c', fs. split; [by right|done].
Qed.
