(* ===== verification/Common.v ===== *)
(** * What the four protocols share (driver/controller.go,
    driver/controller_nfs.go)

    The parameters of a volume, the property map written with it, the shared
    steps of creation, deletion and expansion, and their error conventions. *)

From S2P Require Import Prelude GoStrings Prog Errors Api Metadata Capacity Names Retry Identity Capabilities.

(** ** Errors, metrics and pointers *)

(** [timer.ObserveError(); return nil, err] *)
Definition fail {A : Type} (t : timer) (e : error) : M (res A) := do_ (ObserveError t) ;;; Ret (Err e).

(** [if err != nil { timer.ObserveError(); return nil, err }] *)
Definition observed {A : Type} (t : timer) (p : M (res A)) : M (res A) :=
  r <- p;; match r with Ok a => Ret (Ok a) | Err e => fail t e end.

Definition lift {A : Type} (r : res A) : M (res A) := Ret r.

(** [timer.ObserveSuccess(); return v, nil] *)
Definition succeed {A : Type} (t : timer) (a : A) : M (res A) := do_ (ObserveSuccess t) ;;; Ret (Ok a).

(** The first element of a listing with a property, as the search loops find it. *)
Definition find_first {A : Type} (f : A -> bool) (l : list A) : option A := List.find f l.

(** A block device path that is present. *)
Definition block_device (sv : Subvolume) : option string :=
  match sv_BlockDevice sv with
  | Some d => if String.eqb d "" then None else Some d
  | None => None
  end.

(** [retry.WithRetryNoResult] *)
#[export] Instance controller_retry : RetryEnv csig := {|
  ctx_err := do_ CtxErr;
  wait_or_done d := do_ (WaitOrDone d)
|}.

Definition WithRetryNoResult (config : Config) (fn : M (option error)) : M (option error) :=
  r <- WithRetry config (e <- fn ;; Ret (match e with Some e => Err e | None => Ok tt end));;
  Ret (match r with Ok _ => None | Err e => Some e end).

(** ** Volume parameters

    The fields common to [nfsVolumeParams], [smbVolumeParams],
    [iscsiVolumeParams] and [nvmeofVolumeParams]. *)
Record volumeParams : Type := mkVolumeParams_ {
  filesystem : string; volumeName : string; subvolumeName : string; deleteStrategy : string;
  server : string; comment : string; compression : string; foregroundTarget : string;
  backgroundTarget : string; promoteTarget : string; metadataTarget : string;
  pvcName : string; pvcNamespace : string; storageClass : string;
  requestedCapacity : Z; dataReplicas : Z; markAdoptable : bool; encrypted : bool
}.

(** [params.volumeName = name; params.subvolumeName = name] *)
Definition with_names (name : string) (p : volumeParams) : volumeParams :=
  mkVolumeParams_ (filesystem p) name name (deleteStrategy p) (server p) (comment p) (compression p)
    (foregroundTarget p) (backgroundTarget p) (promoteTarget p) (metadataTarget p) (pvcName p)
    (pvcNamespace p) (storageClass p) (requestedCapacity p) (dataReplicas p) (markAdoptable p) (encrypted p).

(** [params.markAdoptable = true] *)
Definition mark_adoptable (p : volumeParams) : volumeParams :=
  mkVolumeParams_ (filesystem p) (volumeName p) (subvolumeName p) (deleteStrategy p) (server p) (comment p)
    (compression p) (foregroundTarget p) (backgroundTarget p) (promoteTarget p) (metadataTarget p) (pvcName p)
    (pvcNamespace p) (storageClass p) (requestedCapacity p) (dataReplicas p) true (encrypted p).

(** The capacity of a request: its required bytes, 1 GiB when they are zero. *)
Definition requested_capacity (req : CreateVolumeRequest) : Z :=
  let required := GetRequiredBytes (req_CapacityRange req) in
  if required =? 0 then 1 * 1024 * 1024 * 1024 else required.

Section Common.
Context {api : NastyAPI} {tt_ : TextTemplate}.

(** The part of the four [validate*Params] after the filesystem and server
    checks; [defaultStrategy] is the delete strategy used when none is given. *)
Definition validateParams (req : CreateVolumeRequest) (fs server defaultStrategy : string) : res volumeParams :=
  let params := req_Parameters req in
  match ResolveVolumeName params (req_Name req) with
  | Err err => Err (Status InvalidArgument ("failed to resolve volume name: " +:+ err_text err))
  | Ok name =>
      match ResolveComment params (req_Name req) with
      | Err err => Err (Status InvalidArgument ("failed to resolve comment template: " +:+ err_text err))
      | Ok comment =>
          replicas <-? parseDataReplicas params.["dataReplicas"];;
          Ok {|
            filesystem := fs; volumeName := name; subvolumeName := name;
            deleteStrategy := if String.eqb params.["deleteStrategy"] "" then defaultStrategy else params.["deleteStrategy"];
            server := server; comment := comment;
            compression := params.["compression"]; foregroundTarget := params.["foregroundTarget"];
            backgroundTarget := params.["backgroundTarget"]; promoteTarget := params.["promoteTarget"];
            metadataTarget := params.["metadataTarget"];
            pvcName := params.[CSIPVCName]; pvcNamespace := params.[CSIPVCNamespace];
            storageClass := params.[CSIStorageClassName];
            requestedCapacity := requested_capacity req; dataReplicas := replicas;
            markAdoptable := String.eqb params.["markAdoptable"] VolumeContextValueTrue;
            encrypted := EqualFold params.["encryption"] "true" |}
      end
  end.

(** The four [*PropertiesV1] differ in the protocol constant. *)
Definition propertiesV1 (protocol : string) (params : volumeParams) (clusterID : string) : M gomap :=
  now <- do_ TimeNow;;
  Ret (VolumeProperties {|
    vp_VolumeID := volumeName params; vp_Protocol := protocol;
    vp_CapacityBytes := requestedCapacity params; vp_CreatedAt := now;
    vp_DeleteStrategy := deleteStrategy params; vp_PVCName := pvcName params;
    vp_PVCNamespace := pvcNamespace params; vp_StorageClass := storageClass params;
    vp_Adoptable := markAdoptable params; vp_ClusterID := clusterID; vp_Encrypted := encrypted params |}).

(** The property map an adoption writes. *)
Definition adoptionProperties (protocol volumeName : string) (capacity : Z) (params : gomap) (clusterID : string)
    : M gomap :=
  now <- do_ TimeNow;;
  Ret (VolumeProperties {|
    vp_VolumeID := volumeName; vp_Protocol := protocol; vp_CapacityBytes := capacity; vp_CreatedAt := now;
    vp_DeleteStrategy := if String.eqb params.["deleteStrategy"] "" then DeleteStrategyDelete else params.["deleteStrategy"];
    vp_PVCName := params.[CSIPVCName]; vp_PVCNamespace := params.[CSIPVCNamespace];
    vp_StorageClass := params.[CSIStorageClassName];
    vp_Adoptable := String.eqb params.["markAdoptable"] VolumeContextValueTrue;
    vp_ClusterID := clusterID; vp_Encrypted := false |}).

Definition pvcHasAdoptableAnnotation (s : service) (params : gomap) : M bool :=
  if negb (has_kubeClient s) then Ret false
  else
    let pvcName := params.[CSIPVCName] in
    let pvcNamespace := params.[CSIPVCNamespace] in
    if String.eqb pvcName "" || String.eqb pvcNamespace "" then Ret false
    else
      r <- do_ (GetPVCAnnotations pvcNamespace pvcName);;
      match r with
      | Err _ => Ret false
      | Ok annotations => Ret (String.eqb annotations.[AnnotationAdoptable] VolumeContextValueTrue)
      end.

(** [if !params.markAdoptable && s.pvcHasAdoptableAnnotation(...)] *)
Definition apply_annotation (s : service) (req : CreateVolumeRequest) (params : volumeParams) : M volumeParams :=
  if markAdoptable params then Ret params
  else
    marked <- pvcHasAdoptableAnnotation s (req_Parameters req);;
    Ret (if marked then mark_adoptable params else params).

Definition subvolumeCreateParams (filesystem name subvolumeType blockFilesystem : string) (p : volumeParams)
    : SubvolumeCreateParams := {|
  scp_Filesystem := filesystem; scp_Name := name; scp_SubvolumeType := subvolumeType;
  scp_Comments := comment p; scp_BlockFilesystem := blockFilesystem; scp_Compression := compression p;
  scp_ForegroundTarget := foregroundTarget p; scp_BackgroundTarget := backgroundTarget p;
  scp_PromoteTarget := promoteTarget p; scp_MetadataTarget := metadataTarget p;
  scp_DataReplicas := if 0 <? dataReplicas p then Some (dataReplicas p) else None;
  scp_VolsizeBytes := if 0 <? requestedCapacity p then Some (to_uint64 (requestedCapacity p)) else None |}.

Definition create_failed (filesystem name : string) (capacity : Z) (e : error) : error :=
  createVolumeError ("Failed to create subvolume " +:+ filesystem +:+ "/" +:+ name +:+ " (" +:+
                     FormatInt capacity +:+ " bytes)") e.

(** The subvolume and whether this call created it. *)
Definition getOrCreateSubvolume (subvolumeType blockFilesystem : string) (p : volumeParams) (t : timer)
    : M (res (Subvolume * bool)) :=
  let fs := filesystem p in
  let name := subvolumeName p in
  let! (existing, err) := do_ (GetSubvolume fs name) in
  match err, existing with
  | None, Some sv => Ret (Ok (sv, false))
  | _, _ =>
      match query_failed err with
      | Some e => fail t (Status Internal ("Failed to query subvolume " +:+ fs +:+ "/" +:+ name +:+ ": " +:+ err_text e))
      | None =>
          let! (subvol, err) := do_ (CreateSubvolume (subvolumeCreateParams fs name subvolumeType blockFilesystem p)) in
          match err with
          | Some e => fail t (create_failed fs name (requestedCapacity p) e)
          | None =>
              sv <- deref subvol;;
              Ret (Ok (sv, sv_Created sv))
          end
      end
  end.

(** [if createdByRequest { return nil, s.rollbackCreatedSubvolume(...) }; return nil, err] *)
Definition rollback_if {A : Type} (created : bool) (sv : Subvolume) (e : error) : M (res A) :=
  if created then e' <- rollbackCreatedSubvolume sv e;; Ret (Err e')
  else Ret (Err e).

(** ** Deletion and expansion *)

(** [v, ok := props[key]; ok && v != expected] *)
Definition lookup_differs (props : gomap) (key expected : string) : bool :=
  match map_lookup props key with Some v => negb (String.eqb v expected) | None => false end.

(** The delete strategy stored with a volume, "delete" by default. *)
Definition strategy_of (props : gomap) : string :=
  match map_lookup props PropertyDeleteStrategy with
  | Some strategy => if String.eqb strategy "" then DeleteStrategyDelete else strategy
  | None => DeleteStrategyDelete
  end.

(** [DeleteSubvolume] where absence counts as success. *)
Definition delete_absent_ok (fs name : string) : M (option error) :=
  err <- do_ (DeleteSubvolume fs name);;
  Ret (query_failed err).

(** The last step of the NFS, iSCSI and NVMe-oF deletions: an uncertain
    outcome is never repeated, a definite failure is retried. *)
Definition delete_subvolume_with_retry (t : timer) (fs name operation : string) (failed : error -> error)
    : M (res unit) :=
  firstErr <- do_ (DeleteSubvolume fs name);;
  match firstErr with
  | None => Ret (Ok tt)
  | Some e =>
      if errors_Is e nastyapi_ErrUncertainOutcome then
        fail t (Status Unavailable ("Subvolume deletion outcome uncertain; reconcile before retrying: " +:+ err_text e))
      else if isNotFoundError firstErr then Ret (Ok tt)
      else
        retryErr <- WithRetryNoResult (DeletionConfig operation) (delete_absent_ok fs name);;
        match retryErr with
        | Some e => fail t (failed e)
        | None => Ret (Ok tt)
        end
  end.

(** [ControllerExpandVolumeResponse]: the capacity and whether the node must expand. *)
Definition expansion : Type := (Z * bool)%type.

(** The body the four [expand*Volume] share, with their messages. *)
Definition expand_volume (t : timer) (protocol : string) (meta : VolumeMetadata) (requiredBytes : Z) (node : bool)
    (bad_id : error -> string) (prop_failed : string -> string -> error -> string) : M (res expansion) :=
  if String.eqb (m_DatasetID meta) "" then
    fail t (Status InvalidArgument "subvolume ID not found in volume metadata")
  else
    match splitSubvolumeID (m_DatasetID meta) with
    | Err err => fail t (Status InvalidArgument (bad_id err))
    | Ok (fs, name) =>
        let! (_, resizeErr) := do_ (ResizeSubvolume fs name (to_uint64 requiredBytes)) in
        match resizeErr with
        | Some e => fail t (Status Internal ("Failed to resize subvolume: " +:+ err_text e))
        | None =>
            let! (_, err) := do_ (SetSubvolumeProperties fs name {[ PropertyCapacityBytes := FormatInt requiredBytes ]}) in
            match err with
            | Some e => fail t (Status Internal (prop_failed fs name e))
            | None =>
                do_ (SetVolumeCapacity (m_Name meta) protocol requiredBytes) ;;;
                succeed t (requiredBytes, node)
            end
        end
    end.

(** ** Volume information *)

(** [VolumeHealth] (driver/node_health.go) and [controllerVolumeInfo]. *)
Record VolumeHealth : Type := mkHealth { Abnormal : bool; Message : string }.

Record controllerVolumeInfo : Type := mkInfo { i_Volume : Volume; i_Health : VolumeHealth }.

Definition msgVolumeIsHealthy : string := "Volume is healthy".

Definition volume_info (meta : VolumeMetadata) (capacityBytes : Z) (messages : list string) : controllerVolumeInfo :=
  let abnormal := match messages with [] => false | _ => true end in
  mkInfo (mkVolume (m_Name meta) capacityBytes (buildVolumeContext meta) None)
    (mkHealth abnormal (if abnormal then Join messages "; " else msgVolumeIsHealthy)).

(** The capacity recorded in a property map: 0 when it is absent. *)
Definition stored_capacity (props : gomap) : Z :=
  match map_lookup props PropertyCapacityBytes with
  | Some capStr => StringToInt64 capStr
  | None => 0
  end.

(** The capacity recorded with an existing block volume, by default the requested one. *)
Definition existing_block_capacity (sv : Subvolume) (requested : Z) : Z :=
  match map_lookup (sv_Properties sv) PropertyCapacityBytes with
  | Some capStr => let capBytes := StringToInt64 capStr in if 0 <? capBytes then capBytes else requested
  | None => requested
  end.
End Common.

(** ** Proof rules for the controller's programs *)

Abbreviation history := (list (event csig)).
Definition cev (o : cop) (r : cans o) : event csig := ev (Sg := csig) o r.

Lemma wp_do P h (o : cop) (post : cans o -> history -> Prop) :
  allow (Sg := csig) P h o -> (forall r, env (Sg := csig) P h o r -> post r (h ++ [cev o r])) -> wp P h (do_ o) post.
Proof. by split. Qed.

Lemma wp_fail {A} P h t e (Q : res A -> history -> Prop) :
  allow (Sg := csig) P h (ObserveError t) -> (forall r, Q (Err e) (h ++ [cev (ObserveError t) r])) -> wp P h (fail t e) Q.
Proof. intros Ha H. apply wp_bind, wp_do; [done|]. intros r _. apply H. Qed.

Lemma wp_succeed {A} P h t (a : A) (Q : res A -> history -> Prop) :
  allow (Sg := csig) P h (ObserveSuccess t) -> (forall r, Q (Ok a) (h ++ [cev (ObserveSuccess t) r])) ->
  wp P h (succeed t a) Q.
Proof. intros Ha H. apply wp_bind, wp_do; [done|]. intros r _. apply H. Qed.

Lemma wp_observed {A} P h t (p : M (res A)) (Q : res A -> history -> Prop) :
  (forall h', allow (Sg := csig) P h' (ObserveError t)) ->
  wp P h p (fun r h' => match r with
                        | Ok a => Q (Ok a) h'
                        | Err e => forall r, Q (Err e) (h' ++ [cev (ObserveError t) r])
                        end) ->
  wp P h (observed t p) Q.
Proof.
  intros Ha H. apply wp_bind. eapply wp_mono; [|exact H].
  intros [a|e] h'; [done|]. intros HQ. by apply wp_fail.
Qed.

(** One interaction whose permission holds by computation. *)
Ltac wp_op :=
  lazymatch goal with
  | |- wp _ _ (do_ _) _ => apply wp_do; [try exact I|intros ? _; cbv beta]
  | |- wp _ _ (fail _ _) _ => apply wp_fail; [try exact I|intros ?; cbv beta]
  | |- wp _ _ (succeed _ _) _ => apply wp_succeed; [try exact I|intros ?; cbv beta]
  | |- wp _ _ (observed _ _) _ => apply wp_observed; [intros ?; try exact I|]
  | |- wp _ _ (lift _) _ => apply wp_ret; cbv beta iota
  end.
Ltac wp_auto := repeat (wp_step || wp_op).
