(* ===== verification/Nfs.v ===== *)
(** * NFS volumes (driver/controller_nfs.go, driver/controller.go) *)

From S2P Require Import Prelude GoStrings Prog Errors Api Metadata Capacity Names Identity Capabilities Comment Ownership Common.

Definition defaultNFSClientOptions : string := "rw,no_root_squash".

Definition nfs_timer (operation : string) : timer := mkTimer ProtocolNFS operation.

(** [nfsVolumeParams]: the common fields and the NFS ones ([subvolumeID] is
    always [filesystem/subvolumeName] and not read). *)
Record nfsVolumeParams : Type := mkNfsParams { nfs_params :> volumeParams; nfsClients : list NFSClient }.

Definition nfs_set_params (f : volumeParams -> volumeParams) (p : nfsVolumeParams) : nfsVolumeParams :=
  mkNfsParams (f (nfs_params p)) (nfsClients p).

Definition parseNFSClient (entry : string) : NFSClient :=
  let '(host, options) := SplitN2 (TrimSpace entry) ":" in
  mkNFSClient host (match options with Some o => o | None => defaultNFSClientOptions end).

Definition parseNFSClients (clientsParam : string) : list NFSClient :=
  if String.eqb clientsParam "" then [mkNFSClient "*" defaultNFSClientOptions]
  else map parseNFSClient (Split clientsParam ",").

(** The share of a path, as the loops over a listing find it. *)
Definition nfs_share_of (path : string) (shares : list NFSShare) : option NFSShare :=
  find_first (fun share => String.eqb (nfs_Path share) path) shares.

Definition nfs_create_params (path volumeName : string) (capacity : Z) (clients : list NFSClient)
    : NFSShareCreateParams :=
  mkNFSShareCreateParams path (volume_comment volumeName capacity) clients (Some true).

Section Nfs.
Context {api : NastyAPI} {tt_ : TextTemplate} (s : service).

Definition validateNFSParams (req : CreateVolumeRequest) : res nfsVolumeParams :=
  let params := req_Parameters req in
  if String.eqb params.[paramFilesystem] "" then
    Err (Status InvalidArgument "filesystem parameter is required for NFS volumes")
  else
    let server := if String.eqb params.["server"] "" then defaultServerAddress else params.["server"] in
    p <-? validateParams req params.[paramFilesystem] server DeleteStrategyDelete;;
    Ok (mkNfsParams p (parseNFSClients params.["nfsClients"])).

(** The response, after the capacity metric is recorded. *)
Definition buildNFSVolumeResponseFromSubvolume (volumeName server : string) (subvol : Subvolume)
    (nfsShare : NFSShare) (capacity : Z) : M Volume :=
  let volumeID := sv_Filesystem subvol +:+ "/" +:+ sv_Name subvol in
  let meta := {|
    m_Name := volumeName; m_Protocol := ProtocolNFS; m_DatasetID := volumeID; m_DatasetName := sv_Name subvol;
    m_CurrentCapacityBytes := None; m_RecordedCapacityBytes := None; m_Server := server;
    m_NVMeOFNQN := ""; m_ISCSIIQN := ""; m_NFSShareUUID := nfs_ID nfsShare; m_SMBShareUUID := "" |} in
  let volumeContext := <[VolumeContextKeyShare := sv_Path subvol]> (buildVolumeContext meta) in
  do_ (SetVolumeCapacity volumeID ProtocolNFS capacity) ;;;
  Ret (mkVolume volumeID capacity volumeContext None).

Definition nfsPropertiesV1 (params : nfsVolumeParams) : M gomap :=
  propertiesV1 api_ProtocolNFS params (clusterID s).

(** The existing volume's response, or [None] to continue with the share. *)
Definition handleExistingNFSSubvolume (params : nfsVolumeParams) (existingSubvol : Subvolume)
    (identity : volumeIdentityDecision) (t : timer) : M (res (option Volume)) :=
  let! (shares, err) := do_ ListNFSShares in
  match err with
  | Some e => fail t (Status Internal ("Failed to list NFS shares: " +:+ err_text e))
  | None =>
      match nfs_share_of (sv_Path existingSubvol) shares with
      | None => Ret (Ok None)
      | Some existingShare =>
          let existingCapacity :=
            match nfs_Comment existingShare with Some c => parseCapacityFromComment c | None => 0 end in
          if (0 <? existingCapacity) && negb (existingCapacity =? requestedCapacity params) then
            fail t (Status AlreadyExists ("Volume " +:+ volumeName params +:+
              " already exists with different capacity (existing: " +:+ FormatInt existingCapacity +:+
              " bytes, requested: " +:+ FormatInt (requestedCapacity params) +:+ " bytes)"))
          else
            props <- nfsPropertiesV1 params;;
            let! (err, subvol) := persistVolumeIdentity existingSubvol props identity in
            match err with
            | Some e => fail t e
            | None =>
                let capacityToReturn := if 0 <? existingCapacity then existingCapacity else requestedCapacity params in
                resp <- buildNFSVolumeResponseFromSubvolume (volumeName params) (server params) subvol
                          existingShare capacityToReturn;;
                succeed t (Some resp)
            end
      end
  end.

Definition createNFSShareForSubvolume (subvol : Subvolume) (params : nfsVolumeParams) (t : timer)
    : M (res NFSShare) :=
  let sv := sv_Filesystem subvol +:+ "/" +:+ sv_Name subvol in
  let! (nfsShare, err) := do_ (CreateNFSShare
    (nfs_create_params (sv_Path subvol) (volumeName params) (requestedCapacity params) (nfsClients params))) in
  match err with
  | Some e => fail t (Status Internal ("Failed to create NFS share for subvolume " +:+ sv +:+ ": " +:+ err_text e))
  | None =>
      let mismatch (returnedPath : string) : error :=
        Status Internal ("created NFS share path " +:+ Quote returnedPath +:+ " does not match subvolume path " +:+
                         Quote (sv_Path subvol)) in
      match nfsShare with
      | None => fail t (mismatch "")
      | Some share =>
          if negb (String.eqb (nfs_Path share) (sv_Path subvol)) then fail t (mismatch (nfs_Path share))
          else Ret (Ok share)
      end
  end.

(** From the commit of the identity on: the share is created only after it. *)
Definition nfs_commit_and_share (params : nfsVolumeParams) (subvol : Subvolume) (createdByRequest : bool)
    (identity : volumeIdentityDecision) (t : timer) : M (res Volume) :=
  props <- nfsPropertiesV1 params;;
  let! (propertyErr, subvol) := persistVolumeIdentity subvol props identity in
  match propertyErr with
  | Some e => do_ (ObserveError t) ;;; rollback_if createdByRequest subvol e
  | None =>
      nfsShare <-! createNFSShareForSubvolume subvol params t;;
      resp <- buildNFSVolumeResponseFromSubvolume (volumeName params) (server params) subvol nfsShare
                (requestedCapacity params);;
      succeed t resp
  end.

Definition createNFSVolume (req : CreateVolumeRequest) : M (res Volume) :=
  let t := nfs_timer "create" in
  params <-! observed t (lift (validateNFSParams req));;
  common <- apply_annotation s req params;;
  let params := nfs_set_params (fun _ => common) params in
  sel <-! observed t (selectExistingCreateSubvolume req (filesystem params) (subvolumeName params) ProtocolNFS);;
  let '(existingSubvol, selectedName, found) := sel in
  let params := nfs_set_params (with_names selectedName) params in
  match existingSubvol with
  | Some sv =>
      handled <-! handleExistingNFSSubvolume params sv found t;;
      match handled with
      | Some resp => Ret (Ok resp)
      | None => nfs_commit_and_share params sv false found t
      end
  | None =>
      identity <-! observed t (newVolumeIdentityDecision req (subvolumeName params) ProtocolNFS);;
      let! (newSubvol, createErr) := do_ (CreateSubvolume
        (subvolumeCreateParams (filesystem params) (subvolumeName params) subvolumeTypeFilesystem "" params)) in
      match createErr with
      | Some e => fail t (create_failed (filesystem params) (subvolumeName params) (requestedCapacity params) e)
      | None =>
          sv <- deref newSubvol;;
          if sv_Created sv then nfs_commit_and_share params sv true identity t
          else
            identity <-! observed t (decideExistingVolumeIdentity req ProtocolNFS (subvolumeName params) sv);;
            nfs_commit_and_share params sv false identity t
      end
  end.

(** ** Deletion *)

Definition nfs_remove_share (id : string) : M (option error) := do_ (DeleteNFSShare id).

(** The share is removed by its ID, when known, and then by its path. *)
Definition nfs_delete_shares (t : timer) (shareUUID fs name : string) : M (res unit) :=
  let by_path : M (res unit) :=
    if negb (String.eqb fs "") && negb (String.eqb name "") then
      observed t (deleteShareByPath ProtocolNFS ("/fs/" +:+ fs +:+ "/" +:+ name) (do_ ListNFSShares)
                    (fun share => (nfs_ID share, nfs_Path share)) nfs_remove_share)
    else Ret (Ok tt) in
  if String.eqb shareUUID "" then by_path
  else
    err <- do_ (DeleteNFSShare shareUUID);;
    match query_failed err with
    | Some e => fail t (Status Unavailable ("Failed to delete NFS share " +:+ shareUUID +:+ ": " +:+ err_text e))
    | None => by_path
    end.

(** Presentation, then storage. *)
Definition nfs_delete_all (t : timer) (meta : VolumeMetadata) (fs name : string) : M (res unit) :=
  _ <-! nfs_delete_shares t (m_NFSShareUUID meta) fs name;;
  let finish : M (res unit) :=
    do_ (DeleteVolumeCapacity (m_Name meta) ProtocolNFS) ;;; succeed t tt in
  if String.eqb fs "" || String.eqb name "" then finish
  else
    _ <-! delete_subvolume_with_retry t fs name "delete-nfs-subvolume"
            (fun e => Status Internal ("Failed to delete subvolume " +:+ fs +:+ "/" +:+ name +:+ ": " +:+ err_text e));;
    finish.

Definition nfs_delete_unless_retained (t : timer) (meta : VolumeMetadata) (fs name strategy : string)
    : M (res unit) :=
  if String.eqb strategy DeleteStrategyRetain then succeed t tt
  else nfs_delete_all t meta fs name.

Definition deleteNFSVolume (meta : VolumeMetadata) : M (res unit) :=
  let t := nfs_timer "delete" in
  let '(fs, name) := match splitSubvolumeID (m_DatasetID meta) with
                     | Ok p => p | Err _ => ("", m_Name meta) end in
  if negb (String.eqb fs "") && negb (String.eqb name "") then
    let! (subvol, getErr) := do_ (GetSubvolume fs name) in
    match getErr with
    | Some e =>
        if isNotFoundError getErr then succeed t tt
        else fail t (Status Unavailable ("Cannot verify subvolume ownership; refusing deletion: " +:+ err_text e))
    | None =>
        match validateDeletionOwnership subvol meta ProtocolNFS with
        | Err ownershipErr => fail t ownershipErr
        | Ok _ =>
            sv <- deref subvol;;
            let props := sv_Properties sv in
            if lookup_differs props PropertyManagedBy ManagedByValue then
              fail t (Status FailedPrecondition ("Subvolume " +:+ fs +:+ "/" +:+ name +:+
                        " is not managed by nasty-csi (managed_by=" +:+ props.[PropertyManagedBy] +:+ ")"))
            else if lookup_differs props PropertyCSIVolumeName (m_DatasetName meta) then
              fail t (Status FailedPrecondition ("Subvolume " +:+ fs +:+ "/" +:+ name +:+
                        " volume name mismatch (stored=" +:+ props.[PropertyCSIVolumeName] +:+
                        ", requested=" +:+ m_DatasetName meta +:+ ")"))
            else nfs_delete_unless_retained t meta fs name (strategy_of props)
        end
    end
  else nfs_delete_unless_retained t meta fs name DeleteStrategyDelete.

(** ** Adoption, expansion, information *)

Definition adoptNFSVolume (req : CreateVolumeRequest) (subvol : Subvolume) (params : gomap) : M (res Volume) :=
  let t := nfs_timer "adopt" in
  let volumeName := sv_Name subvol in
  let server := if String.eqb params.["server"] "" then defaultServerAddress else params.["server"] in
  let capacity := requested_capacity req in
  if String.eqb (sv_Path subvol) "" then
    fail t (Status Internal ("Subvolume " +:+ sv_Filesystem subvol +:+ "/" +:+ sv_Name subvol +:+ " has no path"))
  else
    props <- adoptionProperties api_ProtocolNFS volumeName capacity params (clusterID s);;
    r <- identityProperties (sv_Properties subvol) (req_Name req) (sv_Name subvol) ProtocolNFS;;
    match r with
    | Err identityErr => Ret (Err (Status Internal ("failed to generate adopted volume identity: " +:+ err_text identityErr)))
    | Ok identity =>
        let! (existingShares, err) := do_ ListNFSShares in
        match err with
        | Some e => fail t (Status Internal ("Failed to list NFS shares while adopting volume: " +:+ err_text e))
        | None =>
            let existing := nfs_share_of (sv_Path subvol) existingShares in
            let! (err, subvol) := persistVolumeIdentity subvol props (mkDecision (Some identity) true) in
            match err with
            | Some e => fail t e
            | None =>
                let share : M (res NFSShare) :=
                  match existing with
                  | Some share => Ret (Ok share)
                  | None =>
                      let! (newShare, createErr) := do_ (CreateNFSShare
                        (nfs_create_params (sv_Path subvol) volumeName capacity
                           [mkNFSClient "*" defaultNFSClientOptions])) in
                      match createErr with
                      | Some e => fail t (Status Internal ("Failed to create NFS share for adopted volume: " +:+ err_text e))
                      | None =>
                          let mismatch := Status Internal
                            ("created NFS share path does not match adopted subvolume " +:+ sv_Path subvol) in
                          match newShare with
                          | Some share => if String.eqb (nfs_Path share) (sv_Path subvol) then Ret (Ok share)
                                          else fail t mismatch
                          | None => fail t mismatch
                          end
                      end
                  end in
                nfsShare <-! share;;
                let volumeID := sv_Filesystem subvol +:+ "/" +:+ sv_Name subvol in
                let meta := {|
                  m_Name := volumeName; m_Protocol := ProtocolNFS; m_DatasetID := volumeID;
                  m_DatasetName := sv_Name subvol; m_CurrentCapacityBytes := None;
                  m_RecordedCapacityBytes := None; m_Server := server; m_NVMeOFNQN := "";
                  m_ISCSIIQN := ""; m_NFSShareUUID := nfs_ID nfsShare; m_SMBShareUUID := "" |} in
                do_ (SetVolumeCapacity volumeName ProtocolNFS capacity) ;;;
                succeed t (mkVolume volumeID capacity
                  (<[VolumeContextKeyShare := sv_Path subvol]> (buildVolumeContext meta)) None)
            end
        end
    end.

Definition expandNFSVolume (meta : VolumeMetadata) (requiredBytes : Z) : M (res expansion) :=
  expand_volume (nfs_timer "expand") ProtocolNFS meta requiredBytes false
    (fun err => "invalid subvolume ID " +:+ Quote (m_DatasetID meta) +:+ ": " +:+ err_text err)
    (fun fs name e => "Failed to update capacity for '" +:+ fs +:+ "/" +:+ name +:+ "': " +:+ err_text e).

Definition getNFSVolumeInfo (meta : VolumeMetadata) : M (res controllerVolumeInfo) :=
  let subvolume_check : M (list string * Z) :=
    match splitSubvolumeID (m_DatasetID meta) with
    | Err _ => Ret ([], 0)
    | Ok (fs, name) =>
        let! (subvol, err) := do_ (GetSubvolume fs name) in
        match err with
        | Some e =>
            if isNotFoundError err then Ret (["Subvolume " +:+ m_DatasetID meta +:+ " not found"], 0)
            else Ret (["Subvolume " +:+ m_DatasetID meta +:+ " query failed: " +:+ err_text e], 0)
        | None =>
            sv <- deref subvol;;
            Ret ([], stored_capacity (sv_Properties sv))
        end
    end in
  let! (m1, capacityBytes) := subvolume_check in
  m2 <- (if String.eqb (m_NFSShareUUID meta) "" then Ret []
         else
           let! (foundShare, err) := do_ (GetNFSShare (m_NFSShareUUID meta)) in
           match err, foundShare with
           | Some e, _ => Ret ["Failed to query NFS share " +:+ m_NFSShareUUID meta +:+ ": " +:+ err_text e]
           | None, None => Ret ["NFS share " +:+ m_NFSShareUUID meta +:+ " not found"]
           | None, Some share =>
               if nfs_Enabled share then Ret []
               else Ret ["NFS share " +:+ m_NFSShareUUID meta +:+ " is disabled"]
           end);;
  Ret (Ok (volume_info meta capacityBytes (m1 ++ m2))).
End Nfs.
