(* ===== verification/Smb.v ===== *)
(** * SMB volumes (driver/controller_smb.go) *)

From S2P Require Import Prelude GoStrings Prog Errors Api Metadata Capacity Names Identity Capabilities Comment Ownership Common.

Definition smb_timer (operation : string) : timer := mkTimer ProtocolSMB operation.

(** [smbVolumeParams] *)
Record smbVolumeParams : Type := mkSmbParams { smb_params :> volumeParams; smbUsername : string }.

Definition smb_set_params (f : volumeParams -> volumeParams) (p : smbVolumeParams) : smbVolumeParams :=
  mkSmbParams (f (smb_params p)) (smbUsername p).

Definition smb_share_of (path : string) (shares : list SMBShare) : option SMBShare :=
  find_first (fun share => String.eqb (smb_Path share) path) shares.

Definition smb_create_params (path volumeName username : string) (capacity : Z) : SMBShareCreateParams :=
  mkSMBShareCreateParams volumeName path (volume_comment volumeName capacity)
    (if String.eqb username "" then [] else [username]).

(** [smbShare == nil || smbShare.Path != path || smbShare.Name != name] is false. *)
Definition smb_share_matches (share : option SMBShare) (path name : string) : option SMBShare :=
  match share with
  | Some sh => if String.eqb (smb_Path sh) path && String.eqb (smb_Name sh) name then Some sh else None
  | None => None
  end.

Section Smb.
Context {api : NastyAPI} {tt_ : TextTemplate} (s : service).

Definition validateSMBParams (req : CreateVolumeRequest) : res smbVolumeParams :=
  let params := req_Parameters req in
  if String.eqb params.[paramFilesystem] "" then
    Err (Status InvalidArgument "filesystem parameter is required for SMB volumes")
  else
    let server := if String.eqb params.["server"] "" then defaultServerAddress else params.["server"] in
    p <-? validateParams req params.[paramFilesystem] server DeleteStrategyDelete;;
    Ok (mkSmbParams p params.["smbUsername"]).

Definition buildSMBVolumeResponse (volumeName server : string) (subvol : Subvolume) (smbShare : SMBShare)
    (capacity : Z) : M Volume :=
  let volumeID := sv_Filesystem subvol +:+ "/" +:+ sv_Name subvol in
  let meta := {|
    m_Name := volumeName; m_Protocol := ProtocolSMB; m_DatasetID := volumeID; m_DatasetName := sv_Name subvol;
    m_CurrentCapacityBytes := None; m_RecordedCapacityBytes := None; m_Server := server;
    m_NVMeOFNQN := ""; m_ISCSIIQN := ""; m_NFSShareUUID := ""; m_SMBShareUUID := smb_ID smbShare |} in
  let volumeContext := <[VolumeContextKeyShare := smb_Name smbShare]> (buildVolumeContext meta) in
  do_ (SetVolumeCapacity volumeID ProtocolSMB capacity) ;;;
  Ret (mkVolume volumeID capacity volumeContext None).

Definition smbPropertiesV1 (params : smbVolumeParams) : M gomap :=
  propertiesV1 api_ProtocolSMB params (clusterID s).

Definition handleExistingSMBSubvolume (params : smbVolumeParams) (existingSubvol : Subvolume)
    (decision : volumeIdentityDecision) (t : timer) : M (res (option Volume)) :=
  let! (shares, err) := do_ ListSMBShares in
  match err with
  | Some e => fail t (Status Internal ("Failed to list SMB shares: " +:+ err_text e))
  | None =>
      match smb_share_of (sv_Path existingSubvol) shares with
      | None => Ret (Ok None)
      | Some existingShare =>
          if negb (String.eqb (smb_Name existingShare) (subvolumeName params)) then
            fail t (Status FailedPrecondition ("SMB share path " +:+ sv_Path existingSubvol +:+
              " is published under backend name " +:+ Quote (smb_Name existingShare) +:+ " instead of " +:+
              Quote (subvolumeName params)))
          else
            let existingCapacity :=
              match smb_Comment existingShare with Some c => parseCapacityFromComment c | None => 0 end in
            if (0 <? existingCapacity) && negb (existingCapacity =? requestedCapacity params) then
              fail t (Status AlreadyExists ("Volume " +:+ volumeName params +:+
                " already exists with different capacity (existing: " +:+ FormatInt existingCapacity +:+
                " bytes, requested: " +:+ FormatInt (requestedCapacity params) +:+ " bytes)"))
            else
              props <- smbPropertiesV1 params;;
              let! (err, subvol) := persistVolumeIdentity existingSubvol props decision in
              match err with
              | Some e => fail t e
              | None =>
                  let capacityToReturn :=
                    if 0 <? existingCapacity then existingCapacity else requestedCapacity params in
                  resp <- buildSMBVolumeResponse (volumeName params) (server params) subvol existingShare
                            capacityToReturn;;
                  succeed t (Some resp)
              end
      end
  end.

Definition createSMBShareForSubvolume (subvol : Subvolume) (params : smbVolumeParams) (t : timer)
    : M (res SMBShare) :=
  let sv := sv_Filesystem subvol +:+ "/" +:+ sv_Name subvol in
  let! (smbShare, err) := do_ (CreateSMBShare
    (smb_create_params (sv_Path subvol) (volumeName params) (smbUsername params) (requestedCapacity params))) in
  match err with
  | Some e => fail t (Status Internal ("Failed to create SMB share '" +:+ volumeName params +:+
                        "' for subvolume " +:+ sv +:+ ": " +:+ err_text e))
  | None =>
      match smb_share_matches smbShare (sv_Path subvol) (volumeName params) with
      | Some share => Ret (Ok share)
      | None => fail t (Status Internal ("created SMB share does not match backend name/path " +:+
                          volumeName params +:+ ":" +:+ sv_Path subvol))
      end
  end.

Definition smb_commit_and_share (params : smbVolumeParams) (subvol : Subvolume) (createdByRequest : bool)
    (decision : volumeIdentityDecision) (t : timer) : M (res Volume) :=
  props <- smbPropertiesV1 params;;
  let! (propertyErr, subvol) := persistVolumeIdentity subvol props decision in
  match propertyErr with
  | Some e => do_ (ObserveError t) ;;; rollback_if createdByRequest subvol e
  | None =>
      smbShare <-! createSMBShareForSubvolume subvol params t;;
      resp <- buildSMBVolumeResponse (volumeName params) (server params) subvol smbShare
                (requestedCapacity params);;
      succeed t resp
  end.

Definition createSMBVolume (req : CreateVolumeRequest) : M (res Volume) :=
  let t := smb_timer "create" in
  params <-! observed t (lift (validateSMBParams req));;
  common <- apply_annotation s req params;;
  let params := smb_set_params (fun _ => common) params in
  sel <-! observed t (selectExistingCreateSubvolume req (filesystem params) (subvolumeName params) ProtocolSMB);;
  let '(existingSubvol, selectedName, found) := sel in
  let params := smb_set_params (with_names selectedName) params in
  match existingSubvol with
  | Some sv =>
      handled <-! handleExistingSMBSubvolume params sv found t;;
      match handled with
      | Some resp => Ret (Ok resp)
      | None => smb_commit_and_share params sv false found t
      end
  | None =>
      fresh <-! observed t (newVolumeIdentityDecision req (subvolumeName params) ProtocolSMB);;
      got <-! getOrCreateSubvolume subvolumeTypeFilesystem "" params t;;
      let '(sv, created) := got in
      if created then smb_commit_and_share params sv true fresh t
      else
        decision <-! observed t (decideExistingVolumeIdentity req ProtocolSMB (subvolumeName params) sv);;
        smb_commit_and_share params sv false decision t
  end.

(** ** Deletion *)

Definition smb_remove_share (id : string) : M (option error) := do_ (DeleteSMBShare id).

Definition smb_delete_shares (t : timer) (shareUUID : string) (target : option (string * string)) : M (res unit) :=
  let by_path : M (res unit) :=
    match target with
    | Some (fs, name) =>
        observed t (deleteShareByPath ProtocolSMB ("/fs/" +:+ fs +:+ "/" +:+ name) (do_ ListSMBShares)
                      (fun share => (smb_ID share, smb_Path share)) smb_remove_share)
    | None => Ret (Ok tt)
    end in
  if String.eqb shareUUID "" then by_path
  else
    err <- do_ (DeleteSMBShare shareUUID);;
    match query_failed err with
    | Some e => fail t (Status Unavailable ("Failed to delete SMB share " +:+ shareUUID +:+ ": " +:+ err_text e))
    | None => by_path
    end.

Definition smb_delete_all (t : timer) (meta : VolumeMetadata) (target : option (string * string)) : M (res unit) :=
  _ <-! smb_delete_shares t (m_SMBShareUUID meta) target;;
  let finish : M (res unit) :=
    do_ (DeleteVolumeCapacity (m_Name meta) ProtocolSMB) ;;; succeed t tt in
  match target with
  | None => finish
  | Some (fs, name) =>
      firstErr <- do_ (DeleteSubvolume fs name);;
      match query_failed firstErr with
      | Some e => fail t (Status Internal ("Failed to delete subvolume " +:+ fs +:+ "/" +:+ name +:+ ": " +:+ err_text e))
      | None => finish
      end
  end.

Definition deleteSMBVolume (meta : VolumeMetadata) : M (res unit) :=
  let t := smb_timer "delete" in
  let target := match splitSubvolumeID (m_DatasetID meta) with
                | Ok (fs, name) => if negb (String.eqb fs "") && negb (String.eqb name "") then Some (fs, name) else None
                | Err _ => None
                end in
  let unless_retained (strategy : string) : M (res unit) :=
    if String.eqb strategy DeleteStrategyRetain then succeed t tt
    else smb_delete_all t meta target in
  match target with
  | None => unless_retained DeleteStrategyDelete
  | Some (fs, name) =>
      let! (subvol, getErr) := do_ (GetSubvolume fs name) in
      match getErr with
      | Some e =>
          if isNotFoundError getErr then succeed t tt
          else fail t (Status Unavailable ("Cannot verify subvolume ownership; refusing deletion: " +:+ err_text e))
      | None =>
          match validateDeletionOwnership subvol meta ProtocolSMB with
          | Err ownershipErr => fail t ownershipErr
          | Ok _ =>
              sv <- deref subvol;;
              unless_retained (strategy_of (sv_Properties sv))
          end
      end
  end.

(** ** Adoption, expansion, information *)

Definition adoptSMBVolume (req : CreateVolumeRequest) (subvol : Subvolume) (params : gomap) : M (res Volume) :=
  let t := smb_timer "adopt" in
  let volumeName := sv_Name subvol in
  let server := if String.eqb params.["server"] "" then defaultServerAddress else params.["server"] in
  let capacity := requested_capacity req in
  if String.eqb (sv_Path subvol) "" then
    fail t (Status Internal ("Subvolume " +:+ sv_Filesystem subvol +:+ "/" +:+ sv_Name subvol +:+ " has no path"))
  else
    props <- adoptionProperties api_ProtocolSMB volumeName capacity params (clusterID s);;
    r <- identityProperties (sv_Properties subvol) (req_Name req) (sv_Name subvol) ProtocolSMB;;
    match r with
    | Err identityErr => Ret (Err (Status Internal ("failed to generate adopted volume identity: " +:+ err_text identityErr)))
    | Ok properties =>
        let! (existingShares, err) := do_ ListSMBShares in
        match err with
        | Some e => fail t (Status Internal ("Failed to list SMB shares while adopting volume: " +:+ err_text e))
        | None =>
            let existing := smb_share_of (sv_Path subvol) existingShares in
            let! (err, subvol) := persistVolumeIdentity subvol props (mkDecision (Some properties) true) in
            match err with
            | Some e => fail t e
            | None =>
                let share : M (res SMBShare) :=
                  match existing with
                  | Some share => Ret (Ok share)
                  | None =>
                      let! (newShare, createErr) := do_ (CreateSMBShare
                        (smb_create_params (sv_Path subvol) volumeName params.["smbUsername"] capacity)) in
                      match createErr with
                      | Some e => fail t (Status Internal ("Failed to create SMB share for adopted volume: " +:+ err_text e))
                      | None =>
                          match smb_share_matches newShare (sv_Path subvol) volumeName with
                          | Some share => Ret (Ok share)
                          | None => fail t (Status Internal ("created SMB share does not match adopted backend name/path " +:+
                                              volumeName +:+ ":" +:+ sv_Path subvol))
                          end
                      end
                  end in
                smbShare <-! share;;
                let volumeID := sv_Filesystem subvol +:+ "/" +:+ sv_Name subvol in
                let meta := {|
                  m_Name := volumeName; m_Protocol := ProtocolSMB; m_DatasetID := volumeID;
                  m_DatasetName := sv_Name subvol; m_CurrentCapacityBytes := None;
                  m_RecordedCapacityBytes := None; m_Server := server; m_NVMeOFNQN := "";
                  m_ISCSIIQN := ""; m_NFSShareUUID := ""; m_SMBShareUUID := smb_ID smbShare |} in
                do_ (SetVolumeCapacity volumeName ProtocolSMB capacity) ;;;
                succeed t (mkVolume volumeID capacity
                  (<[VolumeContextKeyShare := smb_Name smbShare]> (buildVolumeContext meta)) None)
            end
        end
    end.

Definition expandSMBVolume (meta : VolumeMetadata) (requiredBytes : Z) : M (res expansion) :=
  expand_volume (smb_timer "expand") ProtocolSMB meta requiredBytes false
    (fun err => "invalid subvolume ID " +:+ Quote (m_DatasetID meta) +:+ ": " +:+ err_text err)
    (fun fs name e => "Failed to update capacity for '" +:+ fs +:+ "/" +:+ name +:+ "': " +:+ err_text e).

(** The capacity of an SMB volume is not reported. *)
Definition getSMBVolumeInfo (meta : VolumeMetadata) : M (res controllerVolumeInfo) :=
  m1 <- (match splitSubvolumeID (m_DatasetID meta) with
         | Err _ => Ret []
         | Ok (fs, name) =>
             let! (subvol, getErr) := do_ (GetSubvolume fs name) in
             match getErr, subvol with
             | None, Some _ => Ret []
             | _, _ => Ret ["Subvolume " +:+ fs +:+ "/" +:+ name +:+ " not accessible: " +:+ opt_err_text getErr]
             end
         end);;
  m2 <- (if String.eqb (m_SMBShareUUID meta) "" then Ret []
         else
           let! (foundShare, shareErr) := do_ (GetSMBShare (m_SMBShareUUID meta)) in
           match shareErr, foundShare with
           | Some e, _ => Ret ["Failed to query SMB share " +:+ m_SMBShareUUID meta +:+ ": " +:+ err_text e]
           | None, None => Ret ["SMB share " +:+ m_SMBShareUUID meta +:+ " not found"]
           | None, Some share =>
               if smb_Enabled share then Ret []
               else Ret ["SMB share " +:+ m_SMBShareUUID meta +:+ " is disabled"]
           end);;
  Ret (Ok (volume_info meta 0 (m1 ++ m2))).
End Smb.
