(* ===== verification/Block.v ===== *)
(** * What iSCSI and NVMe-oF creation share
    (driver/controller_iscsi.go, driver/controller_nvmeof.go)

    The two creations are the same code up to the protocol, the target that
    exposes the device, and their messages.  This file holds the shared part:
    from the existing subvolume, if any, to the commit of the identity, with
    the rollback of every failure after a creation. *)

From S2P Require Import Prelude GoStrings Prog Errors Api Metadata Capacity Names Identity Capabilities Common.

Section Block.
Context {api : NastyAPI} {tt_ : TextTemplate}.

(** [timer.ObserveError(); if createdByRequest { return s.rollback... }; return err] *)
Definition abandon {A : Type} (t : timer) (created : bool) (subvol : Subvolume) (e : error) : M (res A) :=
  do_ (ObserveError t) ;;; rollback_if created subvol e.

(** Ownership is committed before the device is exposed. *)
Definition block_commit_and_expose (t : timer) (created : bool) (subvol : Subvolume)
    (decision : volumeIdentityDecision) (properties : M gomap) (expose : Subvolume -> M (res Volume))
    : M (res Volume) :=
  props <- properties;;
  let! (propertyErr, subvol) := persistVolumeIdentity subvol props decision in
  match propertyErr with
  | Some e => abandon t created subvol e
  | None => expose subvol
  end.

(** The identity of the subvolume that [getOrCreateSubvolume] returned. *)
Definition block_identity (req : CreateVolumeRequest) (protocol name : string) (existed created : bool)
    (decision : volumeIdentityDecision) (subvol : Subvolume) : M (res volumeIdentityDecision) :=
  if created then
    if existed then newVolumeIdentityDecision req name protocol else Ret (Ok decision)
  else decideExistingVolumeIdentity req protocol name subvol.

Definition create_block_volume (req : CreateVolumeRequest) (protocol : string) (t : timer)
    (params : volumeParams) (blockFilesystem : string) (existing : option Subvolume)
    (found : volumeIdentityDecision) (properties : M gomap)
    (expose : string -> Subvolume -> M (res Volume)) : M (res Volume) :=
  let requestedInitialization :=
    match req_ContentSource req with Some _ => "" | None => blockFilesystem end in
  decision <-! (match existing with
                | Some _ => Ret (Ok found)
                | None => observed t (newVolumeIdentityDecision req (subvolumeName params) protocol)
                end);;
  got <-! getOrCreateSubvolume subvolumeTypeBlock requestedInitialization params t;;
  let '(subvol, created) := got in
  decided <- block_identity req protocol (subvolumeName params) (bool_decide (is_Some existing)) created decision subvol;;
  match decided with
  | Err e => abandon t created subvol e
  | Ok decision =>
      match block_device subvol with
      | None => abandon t created subvol
                  (Status Internal ("Block subvolume " +:+ subvolumeName params +:+ " has no block device path"))
      | Some blockDevice =>
          match validateInitializedBlockFilesystem subvol requestedInitialization with
          | Err initErr => abandon t created subvol initErr
          | Ok _ => block_commit_and_expose t created subvol decision properties (expose blockDevice)
          end
      end
  end.

(** The start of the two adoptions: the server, the filesystem, the device
    and the identity of the adopted subvolume. *)
Definition adopt_block_checks (t : timer) (req : CreateVolumeRequest) (subvol : Subvolume) (params : gomap)
    (what : string) : M (res string) :=
  if String.eqb params.["server"] "" then
    fail t (Status InvalidArgument ("server parameter is required for " +:+ what +:+ " volumes"))
  else
    match requestedBlockFilesystem (req_VolumeCapabilities req) with
    | Err e => fail t e
    | Ok requestedFilesystem =>
        match validateKnownBlockFilesystem subvol requestedFilesystem with
        | Err e => fail t e
        | Ok _ =>
            match block_device subvol with
            | None => fail t (Status Internal ("Block subvolume " +:+ sv_Filesystem subvol +:+ "/" +:+ sv_Name subvol +:+
                                               " has no block device path"))
            | Some blockDevice => Ret (Ok blockDevice)
            end
        end
    end.

(** The two reads of an information request about the subvolume. *)
Definition block_subvolume_check (fs name label : string) : M (option Subvolume * list string) :=
  let! (subvol, err) := do_ (GetSubvolume fs name) in
  match err with
  | Some e =>
      if isNotFoundError err then Ret (subvol, ["Block subvolume " +:+ label +:+ " not found"])
      else Ret (subvol, ["Block subvolume " +:+ label +:+ " query failed: " +:+ err_text e])
  | None => Ret (subvol, [])
  end.
End Block.
