(* ===== verification/Iscsi.v ===== *)
(** * iSCSI volumes (driver/controller_iscsi.go) *)

From S2P Require Import Prelude GoStrings Prog Errors Api Metadata Capacity Names Identity Capabilities Ownership Common Block.

Definition iscsi_timer (operation : string) : timer := mkTimer ProtocolISCSI operation.

Definition deleteStrategyDelete : string := "delete".

Definition generateIQN (volumeName : string) : string :=
  "iqn.2137-04.storage.nasty:" +:+ ToLower volumeName.

Definition iscsiTargetUsesDevice (target : option ISCSITarget) (devicePath : string) : bool :=
  match target with
  | None => false
  | Some tg => if String.eqb devicePath "" then false
               else existsb (fun lun => String.eqb lun devicePath) (it_Luns tg)
  end.

(** [iscsiVolumeParams] *)
Record iscsiVolumeParams : Type := mkIscsiParams {
  iscsi_params :> volumeParams; targetIQN : string; iscsi_blockFilesystem : string
}.

(** [params.volumeName = ...; params.subvolumeName = ...; params.targetIQN = generateIQN(...)] *)
Definition iscsi_with_names (name : string) (common : volumeParams) (p : iscsiVolumeParams) : iscsiVolumeParams :=
  mkIscsiParams (with_names name common) (generateIQN name) (iscsi_blockFilesystem p).

Definition iscsi_target_of (iqn : string) (targets : list ISCSITarget) : option ISCSITarget :=
  find_first (fun target => String.eqb (it_IQN target) iqn) targets.

(** [target == nil || target.IQN != iqn || !iscsiTargetUsesDevice(target, device)] is false. *)
Definition iscsi_target_matches (target : option ISCSITarget) (iqn device : string) : option ISCSITarget :=
  match target with
  | Some tg => if String.eqb (it_IQN tg) iqn && iscsiTargetUsesDevice target device then Some tg else None
  | None => None
  end.

Section Iscsi.
Context {api : NastyAPI} {tt_ : TextTemplate} (s : service).

Definition validateISCSIParams (req : CreateVolumeRequest) : res iscsiVolumeParams :=
  let params := req_Parameters req in
  if String.eqb params.[paramFilesystem] "" then
    Err (Status InvalidArgument "filesystem parameter is required for iSCSI volumes")
  else if String.eqb params.["server"] "" then
    Err (Status InvalidArgument "server parameter is required for iSCSI volumes")
  else
    p <-? validateParams req params.[paramFilesystem] params.["server"] deleteStrategyDelete;;
    blockFilesystem <-? requestedBlockFilesystem (req_VolumeCapabilities req);;
    Ok (mkIscsiParams p (generateIQN (volumeName p)) blockFilesystem).

Definition buildISCSIVolumeResponse (volumeName server : string) (subvol : Subvolume) (target : ISCSITarget)
    (capacity : Z) : M Volume :=
  let volumeID := sv_Filesystem subvol +:+ "/" +:+ sv_Name subvol in
  let meta := {|
    m_Name := volumeName; m_Protocol := ProtocolISCSI; m_DatasetID := volumeID; m_DatasetName := sv_Name subvol;
    m_CurrentCapacityBytes := None; m_RecordedCapacityBytes := None; m_Server := server;
    m_NVMeOFNQN := ""; m_ISCSIIQN := it_IQN target; m_NFSShareUUID := ""; m_SMBShareUUID := "" |} in
  let volumeContext := <[VolumeContextKeyExpectedCapacity := FormatInt capacity]> (buildVolumeContext meta) in
  do_ (SetVolumeCapacity volumeID ProtocolISCSI capacity) ;;;
  Ret (mkVolume volumeID capacity volumeContext None).

Definition iscsiPropertiesV1 (params : iscsiVolumeParams) : M gomap :=
  propertiesV1 api_ProtocolISCSI params (clusterID s).

Definition handleExistingISCSISubvolume (params : iscsiVolumeParams) (existingSubvol : Subvolume)
    (decision : volumeIdentityDecision) (t : timer) : M (res (option Volume)) :=
  match validateKnownBlockFilesystem existingSubvol (iscsi_blockFilesystem params) with
  | Err e => fail t e
  | Ok _ =>
      let existingCapacity := existing_block_capacity existingSubvol (requestedCapacity params) in
      if (0 <? existingCapacity) && negb (existingCapacity =? requestedCapacity params) then
        fail t (Status AlreadyExists ("Volume '" +:+ volumeName params +:+
          "' already exists with different capacity: existing=" +:+ FormatInt existingCapacity +:+
          " bytes, requested=" +:+ FormatInt (requestedCapacity params) +:+ " bytes"))
      else
        let! (targets, listErr) := do_ ListISCSITargets in
        match listErr with
        | Some e => fail t (Status Internal ("Failed to list iSCSI targets during idempotency check: " +:+ err_text e))
        | None =>
            match iscsi_target_of (targetIQN params) targets with
            | None => Ret (Ok None)
            | Some target =>
                match block_device existingSubvol with
                | None => fail t (Status FailedPrecondition ("block subvolume " +:+ sv_Filesystem existingSubvol +:+
                                    "/" +:+ sv_Name existingSubvol +:+ " has no block device"))
                | Some device =>
                    if negb (iscsiTargetUsesDevice (Some target) device) then
                      fail t (Status FailedPrecondition ("iSCSI target " +:+ it_IQN target +:+
                                " is not linked to block device " +:+ device))
                    else
                      props <- iscsiPropertiesV1 params;;
                      let! (err, subvol) := persistVolumeIdentity existingSubvol props decision in
                      match err with
                      | Some e => fail t e
                      | None =>
                          resp <- buildISCSIVolumeResponse (volumeName params) (server params) subvol target
                                    existingCapacity;;
                          succeed t (Some resp)
                      end
                end
            end
        end
  end.

(** The target is created with its LUN in one call and checked. *)
Definition iscsi_expose (params : iscsiVolumeParams) (t : timer) (blockDevice : string) (subvol : Subvolume)
    : M (res Volume) :=
  let! (target, err) := do_ (CreateISCSITarget (mkBlockCreateParams (volumeName params) blockDevice)) in
  match err with
  | Some e => fail t (Status Internal ("Failed to create iSCSI target '" +:+ volumeName params +:+ "': " +:+ err_text e))
  | None =>
      match iscsi_target_matches target (targetIQN params) blockDevice with
      | None => fail t (Status Internal ("created iSCSI target does not match IQN " +:+ Quote (targetIQN params) +:+
                          " and block device " +:+ blockDevice))
      | Some tg =>
          do_ (ObserveSuccess t) ;;;
          (resp <- buildISCSIVolumeResponse (volumeName params) (server params) subvol tg (requestedCapacity params);;
           Ret (Ok resp))
      end
  end.

Definition createISCSIVolume (req : CreateVolumeRequest) : M (res Volume) :=
  let t := iscsi_timer "create" in
  params <-! observed t (lift (validateISCSIParams req));;
  common <- apply_annotation s req params;;
  sel <-! observed t (selectExistingCreateSubvolume req (filesystem common) (subvolumeName common) ProtocolISCSI);;
  let '(existingSubvol, selectedName, found) := sel in
  let params := iscsi_with_names selectedName common params in
  let continue_ := create_block_volume req ProtocolISCSI t params (iscsi_blockFilesystem params) existingSubvol found
                     (iscsiPropertiesV1 params) (iscsi_expose params t) in
  match existingSubvol with
  | Some sv =>
      handled <-! handleExistingISCSISubvolume params sv found t;;
      match handled with
      | Some resp => Ret (Ok resp)
      | None => continue_
      end
  | None => continue_
  end.

(** ** Deletion *)

(** The delete strategy, or [None] when the subvolume is gone. *)
Definition verifyISCSIOwnership (meta : VolumeMetadata) : M (res (option string)) :=
  match splitSubvolumeID (m_DatasetID meta) with
  | Err splitErr => Ret (Err (Status InvalidArgument ("Invalid volume ID: " +:+ err_text splitErr)))
  | Ok (fs, name) =>
      let! (subvol, err) := do_ (GetSubvolume fs name) in
      match err with
      | Some e =>
          if isNotFoundError err then Ret (Ok None)
          else Ret (Err (Status Unavailable ("Cannot verify subvolume ownership; refusing deletion: " +:+ err_text e)))
      | None =>
          match validateDeletionOwnership subvol meta ProtocolISCSI with
          | Err ownershipErr => Ret (Err ownershipErr)
          | Ok _ =>
              sv <- deref subvol;;
              let props := sv_Properties sv in
              if lookup_differs props PropertyManagedBy ManagedByValue then
                Ret (Err (Status FailedPrecondition ("Subvolume " +:+ m_DatasetID meta +:+
                       " is not managed by nasty-csi (managed_by=" +:+ props.[PropertyManagedBy] +:+ ")")))
              else if lookup_differs props PropertyCSIVolumeName (m_DatasetName meta) then
                Ret (Err (Status FailedPrecondition ("Subvolume " +:+ m_DatasetID meta +:+
                       " volume name mismatch (stored=" +:+ props.[PropertyCSIVolumeName] +:+ ", requested=" +:+
                       m_DatasetName meta +:+ ")")))
              else Ret (Ok (Some (strategy_of props)))
          end
      end
  end.

(** The ID of the target of an IQN, empty when there is none. *)
Definition iscsi_delete_target (t : timer) (iqn : string) : M (res unit) :=
  if String.eqb iqn "" then Ret (Ok tt)
  else
    let! (target, lookupErr) := do_ (GetISCSITargetByIQN iqn) in
    match query_failed lookupErr with
    | Some e => fail t (Status Unavailable ("Cannot verify iSCSI target cleanup: " +:+ err_text e))
    | None =>
        let targetID := match lookupErr, target with None, Some tg => it_ID tg | _, _ => "" end in
        if String.eqb targetID "" then Ret (Ok tt)
        else
          err <- do_ (DeleteISCSITarget targetID);;
          match query_failed err with
          | Some e => fail t (Status Internal ("Failed to delete iSCSI target " +:+ targetID +:+ ": " +:+ err_text e))
          | None => Ret (Ok tt)
          end
    end.

Definition deleteISCSIVolume (meta : VolumeMetadata) : M (res unit) :=
  let t := iscsi_timer deleteStrategyDelete in
  verified <-! observed t (verifyISCSIOwnership meta);;
  match verified with
  | None => succeed t tt
  | Some strategy =>
      if String.eqb strategy DeleteStrategyRetain then succeed t tt
      else
        match splitSubvolumeID (m_DatasetID meta) with
        | Err splitErr => fail t (Status InvalidArgument ("Invalid volume ID: " +:+ err_text splitErr))
        | Ok (fs, name) =>
            let iqn := if String.eqb (m_ISCSIIQN meta) "" && negb (String.eqb name "")
                       then generateIQN name else m_ISCSIIQN meta in
            _ <-! iscsi_delete_target t iqn;;
            _ <-! delete_subvolume_with_retry t fs name "delete-iscsi-subvol"
                    (fun e => Status Internal ("Failed to delete block subvolume " +:+ m_DatasetID meta +:+ ": " +:+ err_text e));;
            do_ (DeleteVolumeCapacity (m_Name meta) ProtocolISCSI) ;;;
            succeed t tt
        end
  end.

(** ** Expansion, information, adoption *)

Definition expandISCSIVolume (meta : VolumeMetadata) (requiredBytes : Z) : M (res expansion) :=
  expand_volume (iscsi_timer "expand") ProtocolISCSI meta requiredBytes true
    (fun err => "Invalid volume ID: " +:+ err_text err)
    (fun _ _ e => "Failed to update capacity for iSCSI volume '" +:+ m_DatasetID meta +:+ "'. Error: " +:+ err_text e).

Definition getISCSIVolumeInfo (meta : VolumeMetadata) : M (res controllerVolumeInfo) :=
  match splitSubvolumeID (m_DatasetID meta) with
  | Err splitErr => Ret (Err (Status InvalidArgument ("Invalid volume ID: " +:+ err_text splitErr)))
  | Ok (fs, name) =>
      let! (subvol, m1) := block_subvolume_check fs name (fs +:+ "/" +:+ name) in
      m2 <- (if String.eqb (m_ISCSIIQN meta) "" then Ret []
             else
               let! (target, err) := do_ (GetISCSITargetByIQN (m_ISCSIIQN meta)) in
               match err, target with
               | Some e, _ => Ret ["Failed to query iSCSI target by IQN " +:+ m_ISCSIIQN meta +:+ ": " +:+ err_text e]
               | None, None => Ret ["iSCSI target with IQN " +:+ m_ISCSIIQN meta +:+ " not found"]
               | None, Some _ => Ret []
               end);;
      let capacityBytes := match subvol with Some sv => stored_capacity (sv_Properties sv) | None => 0 end in
      Ret (Ok (volume_info meta capacityBytes (m1 ++ m2)))
  end.

Definition adoptISCSIVolume (req : CreateVolumeRequest) (subvol : Subvolume) (params : gomap) : M (res Volume) :=
  let t := iscsi_timer "adopt" in
  let volumeName := sv_Name subvol in
  let capacity := requested_capacity req in
  blockDevice <-! adopt_block_checks t req subvol params "iSCSI";;
  props <- adoptionProperties api_ProtocolISCSI volumeName capacity params (clusterID s);;
  r <- identityProperties (sv_Properties subvol) (req_Name req) (sv_Name subvol) ProtocolISCSI;;
  match r with
  | Err identityErr => Ret (Err (Status Internal ("failed to generate adopted volume identity: " +:+ err_text identityErr)))
  | Ok properties =>
      let! (targets, listErr) := do_ ListISCSITargets in
      match listErr with
      | Some e => fail t (Status Internal ("Failed to list iSCSI targets while adopting volume: " +:+ err_text e))
      | None =>
          let expectedIQN := generateIQN volumeName in
          let existing := iscsi_target_of expectedIQN targets in
          let persist_and_expose : M (res Volume) :=
            let! (err, subvol) := persistVolumeIdentity subvol props (mkDecision (Some properties) true) in
            match err with
            | Some e => fail t e
            | None =>
                let target : M (res ISCSITarget) :=
                  match existing with
                  | Some tg => Ret (Ok tg)
                  | None =>
                      let! (newTarget, createErr) := do_ (CreateISCSITarget (mkBlockCreateParams volumeName blockDevice)) in
                      match createErr with
                      | Some e => fail t (Status Internal ("Failed to create iSCSI target for adopted volume: " +:+ err_text e))
                      | None =>
                          match iscsi_target_matches newTarget expectedIQN blockDevice with
                          | Some tg => Ret (Ok tg)
                          | None => fail t (Status Internal ("created iSCSI target does not match IQN " +:+
                                              Quote expectedIQN +:+ " and block device " +:+ blockDevice))
                          end
                      end
                  end in
                tg <-! target;;
                do_ (ObserveSuccess t) ;;;
                do_ (SetVolumeCapacity volumeName ProtocolISCSI capacity) ;;;
                (resp <- buildISCSIVolumeResponse volumeName params.["server"] subvol tg capacity;;
                 Ret (Ok resp))
            end in
          match existing with
          | Some target =>
              if negb (iscsiTargetUsesDevice existing blockDevice) then
                fail t (Status FailedPrecondition ("iSCSI target " +:+ it_IQN target +:+
                          " is not linked to block device " +:+ blockDevice))
              else persist_and_expose
          | None => persist_and_expose
          end
      end
  end.
End Iscsi.
