(* ===== verification/Nvmeof.v ===== *)
(** * NVMe-oF volumes (driver/controller_nvmeof.go, driver/controller.go) *)

From S2P Require Import Prelude GoStrings Prog Errors Api Metadata Capacity Names Identity Capabilities Ownership Common Block.

Definition nvmeof_timer (operation : string) : timer := mkTimer ProtocolNVMeOF operation.

Definition defaultNQNPrefix : string := "nqn.2026-02.io.nasty.csi".
Definition namespaceInitDelay : Z := 3000000000.
Definition paramNrIOQueues : string := "nvmeof.nr-io-queues".
Definition paramQueueSize : string := "nvmeof.queue-size".

Definition generateNQN (nqnPrefix volumeName : string) : string := nqnPrefix +:+ ":" +:+ volumeName.

(** [params["subsystemNQN"]], or the default prefix. *)
Definition nqn_prefix (params : gomap) : string :=
  if String.eqb params.["subsystemNQN"] "" then defaultNQNPrefix else params.["subsystemNQN"].

Definition nvmeSubsystemMatchesName (subsystem : option NVMeOFSubsystem) (volumeName : string) : bool :=
  match subsystem with
  | Some ss => HasSuffix (ns_NQN ss) (":" +:+ volumeName)
  | None => false
  end.

Definition nvmeSubsystemUsesDevice (subsystem : option NVMeOFSubsystem) (devicePath : string) : bool :=
  match subsystem with
  | None => false
  | Some ss => if String.eqb devicePath "" then false
               else existsb (fun namespace => String.eqb namespace devicePath) (ns_Namespaces ss)
  end.

(** [filter] by a boolean test; the indices the code collects stand for the elements. *)
Definition selectNVMeSubsystem (subsystems : list NVMeOFSubsystem) (expectedNQN volumeName devicePath : string)
    : res (option NVMeOFSubsystem) :=
  let exactCandidates := List.filter (fun ss => String.eqb (ns_NQN ss) expectedNQN) subsystems in
  let suffixCandidates := List.filter (fun ss => nvmeSubsystemMatchesName (Some ss) volumeName) subsystems in
  let candidates := match exactCandidates with [] => suffixCandidates | _ => exactCandidates end in
  match candidates with
  | [] => Ok None
  | _ =>
      match List.filter (fun ss => nvmeSubsystemUsesDevice (Some ss) devicePath) candidates with
      | [] => Err (Status FailedPrecondition ("NVMe-oF subsystem candidates for " +:+ Quote volumeName +:+
                     " are not linked to block device " +:+ devicePath))
      | [ss] => Ok (Some ss)
      | _ => Err (Status FailedPrecondition ("multiple NVMe-oF subsystems for " +:+ Quote volumeName +:+
                     " are linked to block device " +:+ devicePath))
      end
  end.

Definition injectQueueParams (volumeContext : smap) (nrIOQueues queueSize : string) : smap :=
  put_nonempty paramQueueSize queueSize (put_nonempty paramNrIOQueues nrIOQueues volumeContext).

(** [nvmeofVolumeParams] *)
Record nvmeofVolumeParams : Type := mkNvmeofParams {
  nvmeof_params :> volumeParams; subsystemNQN : string; nvmeof_blockFilesystem : string;
  nrIOQueues : string; queueSize : string
}.

Definition nvmeof_with_names (name : string) (req : CreateVolumeRequest) (common : volumeParams)
    (p : nvmeofVolumeParams) : nvmeofVolumeParams :=
  mkNvmeofParams (with_names name common) (generateNQN (nqn_prefix (req_Parameters req)) name)
    (nvmeof_blockFilesystem p) (nrIOQueues p) (queueSize p).

(** [resp.Volume.VolumeContext] with the queue parameters. *)
Definition with_queue_params (nrIOQueues queueSize : string) (v : Volume) : Volume :=
  mkVolume (v_VolumeId v) (v_CapacityBytes v) (injectQueueParams (v_VolumeContext v) nrIOQueues queueSize)
    (v_ContentSource v).

Definition nvme_subsystem_matches (subsystem : option NVMeOFSubsystem) (name device : string)
    : option NVMeOFSubsystem :=
  if nvmeSubsystemMatchesName subsystem name && nvmeSubsystemUsesDevice subsystem device then subsystem else None.

Section Nvmeof.
Context {api : NastyAPI} {tt_ : TextTemplate} (s : service).

Definition validateNVMeOFParams (req : CreateVolumeRequest) : res nvmeofVolumeParams :=
  let params := req_Parameters req in
  if String.eqb params.[paramFilesystem] "" then
    Err (Status InvalidArgument "filesystem parameter is required for NVMe-oF volumes")
  else if String.eqb params.["server"] "" then
    Err (Status InvalidArgument "server parameter is required for NVMe-oF volumes")
  else
    p <-? validateParams req params.[paramFilesystem] params.["server"] DeleteStrategyDelete;;
    blockFilesystem <-? requestedBlockFilesystem (req_VolumeCapabilities req);;
    Ok (mkNvmeofParams p (generateNQN (nqn_prefix params) (volumeName p)) blockFilesystem
          params.[paramNrIOQueues] params.[paramQueueSize]).

Definition buildNVMeOFVolumeResponse (volumeName server : string) (subvol : Subvolume)
    (subsystem : NVMeOFSubsystem) (capacity : Z) : M Volume :=
  let volumeID := sv_Filesystem subvol +:+ "/" +:+ sv_Name subvol in
  let meta := {|
    m_Name := volumeName; m_Protocol := ProtocolNVMeOF; m_DatasetID := volumeID; m_DatasetName := sv_Name subvol;
    m_CurrentCapacityBytes := None; m_RecordedCapacityBytes := None; m_Server := server;
    m_NVMeOFNQN := ns_NQN subsystem; m_ISCSIIQN := ""; m_NFSShareUUID := ""; m_SMBShareUUID := "" |} in
  let volumeContext :=
    <[VolumeContextKeyExpectedCapacity := FormatInt capacity]>
      (<[VolumeContextKeyNSID := "1"]> (buildVolumeContext meta)) in
  do_ (SetVolumeCapacity volumeID ProtocolNVMeOF capacity) ;;;
  Ret (mkVolume volumeID capacity volumeContext None).

Definition nvmeofPropertiesV1 (params : nvmeofVolumeParams) : M gomap :=
  propertiesV1 api_ProtocolNVMeOF params (clusterID s).

Definition handleExistingNVMeOFSubvolume (params : nvmeofVolumeParams) (existingSubvol : Subvolume)
    (decision : volumeIdentityDecision) (t : timer) : M (res (option Volume)) :=
  match validateKnownBlockFilesystem existingSubvol (nvmeof_blockFilesystem params) with
  | Err e => fail t e
  | Ok _ =>
      let existingCapacity := existing_block_capacity existingSubvol (requestedCapacity params) in
      if (0 <? existingCapacity) && negb (existingCapacity =? requestedCapacity params) then
        fail t (Status AlreadyExists ("Volume '" +:+ volumeName params +:+
          "' already exists with different capacity: existing=" +:+ FormatInt existingCapacity +:+
          " bytes, requested=" +:+ FormatInt (requestedCapacity params) +:+ " bytes"))
      else
        match block_device existingSubvol with
        | None => fail t (Status FailedPrecondition ("block subvolume " +:+ sv_Filesystem existingSubvol +:+
                            "/" +:+ sv_Name existingSubvol +:+ " has no block device"))
        | Some device =>
            let! (subsystems, listErr) := do_ ListNVMeOFSubsystems in
            match listErr with
            | Some e => fail t (Status Internal ("Failed to list NVMe-oF subsystems during idempotency check: " +:+ err_text e))
            | None =>
                match selectNVMeSubsystem subsystems (subsystemNQN params) (volumeName params) device with
                | Err selectErr => fail t selectErr
                | Ok None => Ret (Ok None)
                | Ok (Some subsystem) =>
                    props <- nvmeofPropertiesV1 params;;
                    let! (err, subvol) := persistVolumeIdentity existingSubvol props decision in
                    match err with
                    | Some e => fail t e
                    | None =>
                        resp <- buildNVMeOFVolumeResponse (volumeName params) (server params) subvol subsystem
                                  existingCapacity;;
                        succeed t (Some (with_queue_params (nrIOQueues params) (queueSize params) resp))
                    end
                end
            end
        end
  end.

Definition nvmeof_expose (params : nvmeofVolumeParams) (t : timer) (blockDevice : string) (subvol : Subvolume)
    : M (res Volume) :=
  let! (subsystem, err) := do_ (CreateNVMeOFSubsystem (mkBlockCreateParams (volumeName params) blockDevice)) in
  match err with
  | Some e => fail t (Status Internal ("Failed to create NVMe-oF subsystem '" +:+ subsystemNQN params +:+ "': " +:+ err_text e))
  | None =>
      match nvme_subsystem_matches subsystem (volumeName params) blockDevice with
      | None => fail t (Status Internal ("created NVMe-oF subsystem does not match backend name " +:+
                          Quote (volumeName params) +:+ " and block device " +:+ blockDevice))
      | Some ss =>
          do_ (Sleep namespaceInitDelay) ;;;
          (resp <- buildNVMeOFVolumeResponse (volumeName params) (server params) subvol ss (requestedCapacity params);;
           succeed t (with_queue_params (nrIOQueues params) (queueSize params) resp))
      end
  end.

Definition createNVMeOFVolume (req : CreateVolumeRequest) : M (res Volume) :=
  let t := nvmeof_timer "create" in
  params <-! observed t (lift (validateNVMeOFParams req));;
  common <- apply_annotation s req params;;
  sel <-! observed t (selectExistingCreateSubvolume req (filesystem common) (subvolumeName common) ProtocolNVMeOF);;
  let '(existingSubvol, selectedName, found) := sel in
  let params := nvmeof_with_names selectedName req common params in
  let continue_ := create_block_volume req ProtocolNVMeOF t params (nvmeof_blockFilesystem params) existingSubvol found
                     (nvmeofPropertiesV1 params) (nvmeof_expose params t) in
  match existingSubvol with
  | Some sv =>
      handled <-! handleExistingNVMeOFSubvolume params sv found t;;
      match handled with
      | Some resp => Ret (Ok resp)
      | None => continue_
      end
  | None => continue_
  end.

(** ** Deletion *)

Definition nvmeof_delete_subsystem (t : timer) (nqn : string) : M (res unit) :=
  if String.eqb nqn "" then Ret (Ok tt)
  else
    let! (subsystem, lookupErr) := do_ (GetNVMeOFSubsystemByNQN nqn) in
    match query_failed lookupErr with
    | Some e => fail t (Status Unavailable ("Cannot verify NVMe-oF subsystem cleanup: " +:+ err_text e))
    | None =>
        let subsystemID := match lookupErr, subsystem with None, Some ss => ns_ID ss | _, _ => "" end in
        if String.eqb subsystemID "" then Ret (Ok tt)
        else
          err <- do_ (DeleteNVMeOFSubsystem subsystemID);;
          match query_failed err with
          | Some e => fail t (Status Internal ("Failed to delete NVMe-oF subsystem " +:+ subsystemID +:+ ": " +:+ err_text e))
          | None => Ret (Ok tt)
          end
    end.

Definition deletion_nqn_prefix : string := "nqn.2137-04.storage.nasty:".

Definition deleteNVMeOFVolume (meta : VolumeMetadata) : M (res unit) :=
  let t := nvmeof_timer "delete" in
  match splitSubvolumeID (m_DatasetID meta) with
  | Err splitErr => fail t (Status InvalidArgument ("Invalid volume ID: " +:+ err_text splitErr))
  | Ok (fs, name) =>
      let! (subvol, err) := do_ (GetSubvolume fs name) in
      match err with
      | Some e =>
          if isNotFoundError err then succeed t tt
          else fail t (Status Unavailable ("Cannot verify subvolume ownership; refusing deletion: " +:+ err_text e))
      | None =>
          match validateDeletionOwnership subvol meta ProtocolNVMeOF with
          | Err ownershipErr => fail t ownershipErr
          | Ok _ =>
              let retained :=
                match subvol with
                | Some sv => bool_decide (map_lookup (sv_Properties sv) PropertyDeleteStrategy = Some DeleteStrategyRetain)
                | None => false
                end in
              if retained then succeed t tt
              else
                let nqn := if String.eqb (m_NVMeOFNQN meta) "" && negb (String.eqb name "")
                           then deletion_nqn_prefix +:+ name else m_NVMeOFNQN meta in
                _ <-! nvmeof_delete_subsystem t nqn;;
                _ <-! delete_subvolume_with_retry t fs name "delete-nvmeof-subvol"
                        (fun e => Status Internal ("Failed to delete block subvolume " +:+ m_DatasetID meta +:+ ": " +:+ err_text e));;
                do_ (DeleteVolumeCapacity (m_Name meta) ProtocolNVMeOF) ;;;
                succeed t tt
          end
      end
  end.

(** ** Expansion, adoption, information *)

Definition expandNVMeOFVolume (meta : VolumeMetadata) (requiredBytes : Z) (nodeExpansionRequired : bool)
    : M (res expansion) :=
  expand_volume (nvmeof_timer "expand") ProtocolNVMeOF meta requiredBytes nodeExpansionRequired
    (fun err => "Invalid volume ID: " +:+ err_text err)
    (fun _ _ e => "Failed to update capacity for NVMe-oF volume '" +:+ m_DatasetID meta +:+ "'. Error: " +:+ err_text e).

Definition adoptNVMeOFVolume (req : CreateVolumeRequest) (subvol : Subvolume) (params : gomap) : M (res Volume) :=
  let t := nvmeof_timer "adopt" in
  let volumeName := sv_Name subvol in
  let capacity := requested_capacity req in
  blockDevice <-! adopt_block_checks t req subvol params "NVMe-oF";;
  props <- adoptionProperties api_ProtocolNVMeOF volumeName capacity params (clusterID s);;
  r <- identityProperties (sv_Properties subvol) (req_Name req) (sv_Name subvol) ProtocolNVMeOF;;
  match r with
  | Err identityErr => Ret (Err (Status Internal ("failed to generate adopted volume identity: " +:+ err_text identityErr)))
  | Ok properties =>
      let! (subsystems, listErr) := do_ ListNVMeOFSubsystems in
      match listErr with
      | Some e => fail t (Status Internal ("Failed to list NVMe-oF subsystems while adopting volume: " +:+ err_text e))
      | None =>
          let expectedNQN := generateNQN (nqn_prefix params) volumeName in
          match selectNVMeSubsystem subsystems expectedNQN volumeName blockDevice with
          | Err selectErr => fail t selectErr
          | Ok existing =>
              let! (err, subvol) := persistVolumeIdentity subvol props (mkDecision (Some properties) true) in
              match err with
              | Some e => fail t e
              | None =>
                  let subsystem : M (res NVMeOFSubsystem) :=
                    match existing with
                    | Some ss => Ret (Ok ss)
                    | None =>
                        let! (newSubsystem, createErr) := do_ (CreateNVMeOFSubsystem (mkBlockCreateParams volumeName blockDevice)) in
                        match createErr with
                        | Some e => fail t (Status Internal ("Failed to create NVMe-oF subsystem for adopted volume (NQN: " +:+
                                              expectedNQN +:+ "): " +:+ err_text e))
                        | None =>
                            match nvme_subsystem_matches newSubsystem volumeName blockDevice with
                            | Some ss => Ret (Ok ss)
                            | None => fail t (Status Internal ("created NVMe-oF subsystem does not match backend name " +:+
                                                Quote volumeName +:+ " and block device " +:+ blockDevice))
                            end
                        end
                    end in
                  ss <-! subsystem;;
                  do_ (ObserveSuccess t) ;;;
                  do_ (SetVolumeCapacity volumeName ProtocolNVMeOF capacity) ;;;
                  (resp <- buildNVMeOFVolumeResponse volumeName params.["server"] subvol ss capacity;;
                   Ret (Ok (with_queue_params params.[paramNrIOQueues] params.[paramQueueSize] resp)))
              end
          end
      end
  end.

Definition getNVMeOFVolumeInfo (meta : VolumeMetadata) : M (res controllerVolumeInfo) :=
  let subvolume_check : M (list string * Z) :=
    match splitSubvolumeID (m_DatasetID meta) with
    | Err _ => Ret ([], 0)
    | Ok (fs, name) =>
        let! (subvol, err) := do_ (GetSubvolume fs name) in
        match err with
        | Some e =>
            if isNotFoundError err then Ret (["Block subvolume " +:+ m_DatasetID meta +:+ " not found"], 0)
            else Ret (["Block subvolume " +:+ m_DatasetID meta +:+ " query failed: " +:+ err_text e], 0)
        | None =>
            sv <- deref subvol;;
            Ret ([], stored_capacity (sv_Properties sv))
        end
    end in
  let! (m1, capacityBytes) := subvolume_check in
  m2 <- (if String.eqb (m_NVMeOFNQN meta) "" then Ret []
         else
           let! (foundSubsystem, err) := do_ (GetNVMeOFSubsystemByNQN (m_NVMeOFNQN meta)) in
           match err, foundSubsystem with
           | Some e, _ => Ret ["NVMe-oF subsystem not found for NQN " +:+ m_NVMeOFNQN meta +:+ ": " +:+ err_text e]
           | None, None => Ret ["NVMe-oF subsystem not found for NQN " +:+ m_NVMeOFNQN meta]
           | None, Some _ => Ret []
           end);;
  Ret (Ok (volume_info meta capacityBytes (m1 ++ m2))).
End Nvmeof.
