(* ===== verification/Clone.v ===== *)
(** * Creation by protocol, from a snapshot and from a volume
    (driver/controller.go, driver/controller_snapshot_clone.go) *)

From S2P Require Import Prelude GoStrings Prog Errors Api Metadata Capacity Names Identity Capabilities SnapshotId Common Nfs Smb Iscsi Nvmeof.

Section Clone.
Context {api : NastyAPI} {tt_ : TextTemplate} (s : service).

Definition createVolumeByProtocol (req : CreateVolumeRequest) (protocol : string) : M (res Volume) :=
  if String.eqb protocol ProtocolNFS then createNFSVolume s req
  else if String.eqb protocol ProtocolNVMeOF then createNVMeOFVolume s req
  else if String.eqb protocol ProtocolISCSI then createISCSIVolume s req
  else if String.eqb protocol ProtocolSMB then createSMBVolume s req
  else Ret (Err (Status InvalidArgument ("Unsupported protocol: " +:+ protocol +:+
                                         " (supported: nfs, nvmeof, iscsi, smb)"))).

(** The call of [persistVolumeIdentity] with a clone that may be nil: the
    method locks and then panics on [subvol.Properties], and the deferred
    unlock runs. *)
Definition persist_clone (clone : option Subvolume) (base : smap) (decision : volumeIdentityDecision)
    : M (option error * Subvolume) :=
  match clone with
  | Some sv => persistVolumeIdentity sv (Some base) decision
  | None => do_ LockIdentity ;;; do_ UnlockIdentity ;;; Panic
  end.

(** The rest of both clone paths once the backend has answered: the clone's
    capacity, its identity, and the protocol's creation over it. *)
Definition finish_clone (req : CreateVolumeRequest) (protocol filesystem sourceName selectedName : string)
    (sourceProperties : M gomap) (sourceExists : bool) (selection : cloneDestinationSelection)
    (freshIdentity : volumeIdentityDecision) (createdClone : option Subvolume) : M (res Volume) :=
  let backendCreated := match createdClone with Some c => sv_Created c | None => false end in
  (* [if backendCreated { return s.rollbackCreatedSubvolume(ctx, createdClone, e) }; return e] *)
  let abandon_clone (e : error) : M (res Volume) :=
    match createdClone with
    | Some c => rollback_if (sv_Created c) c e
    | None => Ret (Err e)
    end in
  sized <- ensureClonedVolumeCapacity req filesystem selectedName;;
  match sized with
  | Err capacityErr => abandon_clone capacityErr
  | Ok (requestedCapacity, req) =>
      let! (clone, getErr) := do_ (GetSubvolume filesystem selectedName) in
      match getErr with
      | Some e => abandon_clone (Status Internal ("failed to read cloned subvolume identity: " +:+ err_text e))
      | None =>
          sourceProps <- sourceProperties;;
          classified <- classifyCloneIdentity req protocol sourceName selectedName clone sourceProps sourceExists
            backendCreated (cd_existed selection) (cd_legacy selection) freshIdentity;;
          match classified with
          | Err identityErr => abandon_clone identityErr
          | Ok decision =>
              clone <- (if backendCreated then c <- deref clone;; Ret (Some (set_Properties None c))
                        else Ret clone);;
              let csiProps := mergeProperties
                {[ PropertyManagedBy := ManagedByValue; PropertyCapacityBytes := FormatInt requestedCapacity ]}
                (copyProperties (d_properties decision)) in
              let! (propErr, clone) := persist_clone clone csiProps decision in
              match propErr with
              | Some e => rollback_if backendCreated clone e
              | None => createVolumeByProtocol req protocol
              end
          end
      end
  end.

(** Choosing the destination, cloning into it, and the rest. *)
Definition clone_into (req : CreateVolumeRequest) (protocol filesystem sourceName : string)
    (sourceProperties : M gomap) (sourceExists : bool) (clone : string -> M (ptr_err Subvolume)) (what : string)
    : M (res Volume) :=
  match ResolveVolumeName (req_Parameters req) (req_Name req) with
  | Err err => Ret (Err (Status InvalidArgument ("failed to resolve volume name: " +:+ err_text err)))
  | Ok newName =>
      selection <-! selectCloneDestination req filesystem newName protocol;;
      let selectedName := cd_name selection in
      freshIdentity <-! newVolumeIdentityDecision req selectedName protocol;;
      let! (createdClone, cloneErr) := clone selectedName in
      match cloneErr with
      | Some e => Ret (Err (createVolumeError ("failed to clone " +:+ what) e))
      | None => finish_clone req protocol filesystem sourceName selectedName sourceProperties sourceExists
                  selection freshIdentity createdClone
      end
  end.

(** The filesystem and protocol of a request must be the source's. *)
Definition check_clone_params (params : gomap) (filesystem protocol what : string) : res unit :=
  let requestedFilesystem := params.[paramFilesystem] in
  let requestedProtocol := params.["protocol"] in
  if negb (String.eqb requestedFilesystem "") && negb (String.eqb requestedFilesystem filesystem) then
    Err (Status InvalidArgument (what +:+ " must use source filesystem " +:+ Quote filesystem +:+
                                 ", requested " +:+ Quote requestedFilesystem))
  else if negb (String.eqb requestedProtocol "") && negb (String.eqb requestedProtocol protocol) then
    Err (Status InvalidArgument (what +:+ " must use source protocol " +:+ Quote protocol +:+
                                 ", requested " +:+ Quote requestedProtocol))
  else Ok tt.

(** [resp.Volume.ContentSource = ...] on success *)
Definition with_source (source : content_source) (p : M (res Volume)) : M (res Volume) :=
  v <-! p;; Ret (Ok (set_ContentSource source v)).

Definition createVolumeFromVolume (req : CreateVolumeRequest) (sourceVolumeID : string) : M (res Volume) :=
  looked <- lookupVolumeByCSIName sourceVolumeID;;
  match looked with
  | Err err => Ret (Err (Status Internal ("failed to lookup source volume " +:+ sourceVolumeID +:+ ": " +:+ err_text err)))
  | Ok None => Ret (Err (Status NotFound ("source volume " +:+ sourceVolumeID +:+ " not found")))
  | Ok (Some sourceMeta) =>
      match splitSubvolumeID (m_DatasetID sourceMeta) with
      | Err err => Ret (Err (Status InvalidArgument ("invalid source volume dataset ID " +:+
                               Quote (m_DatasetID sourceMeta) +:+ ": " +:+ err_text err)))
      | Ok (filesystem, sourceSubvolName) =>
          let! (sourceSubvolume, err) := do_ (GetSubvolume filesystem sourceSubvolName) in
          match err with
          | Some e => Ret (Err (Status Internal ("failed to read source volume identity: " +:+ err_text e)))
          | None =>
              let protocol := m_Protocol sourceMeta in
              match normalizeCreateCapacity req protocol with
              | Err e => Ret (Err e)
              | Ok req =>
                  match check_clone_params (req_Parameters req) filesystem protocol "volume clone" with
                  | Err e => Ret (Err e)
                  | Ok _ =>
                      (* [sourceSubvolume.Properties] is read only after the clone, and panics if it is nil *)
                      with_source (SourceVolume sourceVolumeID)
                        (clone_into req protocol filesystem sourceSubvolName
                           (source <- deref sourceSubvolume;; Ret (sv_Properties source)) true
                           (fun selectedName => do_ (CloneSubvolume filesystem sourceSubvolName selectedName)) "volume")
                  end
              end
          end
      end
  end.

(** The properties of the snapshot's source and whether it exists. *)
Definition snapshotSourceProperties (filesystem subvolume : string) : M (res (gomap * bool)) :=
  let! (source, err) := do_ (GetSubvolume filesystem subvolume) in
  if isNotFoundError err then Ret (Ok (Some ∅, false))
  else
    match err with
    | Some e => Ret (Err (Status Internal ("failed to read snapshot source identity: " +:+ err_text e)))
    | None =>
        match source with
        | None => Ret (Ok (Some ∅, false))
        | Some sv => Ret (Ok (sv_Properties sv, true))
        end
    end.

Definition createVolumeFromSnapshot (req : CreateVolumeRequest) (snapshotID : string) : M (res Volume) :=
  match decodeSnapshotID snapshotID with
  | Err err => Ret (Err (Status NotFound ("snapshot " +:+ Quote snapshotID +:+ " not found: " +:+ err_text err)))
  | Ok meta =>
      match splitSubvolumeID (s_SourceVolume meta) with
      | Err err => Ret (Err (Status InvalidArgument ("invalid source volume ID " +:+ Quote (s_SourceVolume meta) +:+
                               ": " +:+ err_text err)))
      | Ok (filesystem, parentSubvolume) =>
          let protocol := s_Protocol meta in
          match normalizeCreateCapacity req protocol with
          | Err e => Ret (Err e)
          | Ok req =>
              match check_clone_params (req_Parameters req) filesystem protocol "snapshot restore" with
              | Err e => Ret (Err e)
              | Ok _ =>
                  source <-! snapshotSourceProperties filesystem parentSubvolume;;
                  let '(sourceProperties, sourceExists) := source in
                  with_source (SourceSnapshot snapshotID)
                    (clone_into req protocol filesystem parentSubvolume (Ret sourceProperties) sourceExists
                       (fun selectedName => do_ (CloneSnapshot
                          (mkSnapshotCloneParams filesystem parentSubvolume (s_SnapshotName meta) selectedName))) "snapshot")
              end
          end
      end
  end.

(** [None] when the request has no usable source. *)
Definition handleVolumeContentSource (req : CreateVolumeRequest) : option (M (res Volume)) :=
  match req_ContentSource req with
  | None => None
  | Some (SourceSnapshot snapshotId) => Some (createVolumeFromSnapshot req snapshotId)
  | Some (SourceVolume volumeId) => Some (createVolumeFromVolume req volumeId)
  | Some SourceNone => None
  end.
End Clone.
