(* ===== verification/Controller.v ===== *)
(** * The controller service (driver/controller.go) *)

From S2P Require Import Prelude GoStrings Prog Errors Api Metadata Capacity Names Identity Capabilities Ownership Common Nfs Smb Iscsi Nvmeof Clone.

(** ** Adoption rules *)

Section Adoption.
Context {api : NastyAPI}.

Definition IsVolumeAdoptable (props : gomap) : bool :=
  match map_lookup props PropertyManagedBy with
  | None => false
  | Some managedBy =>
      if negb (String.eqb managedBy ManagedByValue) then false
      else
        match map_lookup props PropertyProtocol with
        | None => false
        | Some protocol =>
            if String.eqb protocol "" then false
            else String.eqb protocol api_ProtocolNFS || String.eqb protocol api_ProtocolNVMeOF ||
                 String.eqb protocol api_ProtocolISCSI || String.eqb protocol api_ProtocolSMB
        end
  end.

(** [extract(key, infoKey)] *)
Definition extract_info (props : gomap) (key infoKey : string) (info : smap) : smap :=
  match map_lookup props key with
  | Some v => if String.eqb v "" then info else <[infoKey := v]> info
  | None => info
  end.

Definition GetAdoptionInfo (props : gomap) : smap :=
  let info : smap := ∅ in
  let info := extract_info props PropertyCSIVolumeName "volumeID" info in
  let info := extract_info props PropertyProtocol "protocol" info in
  let info := extract_info props PropertyCapacityBytes "capacityBytes" info in
  let info := extract_info props PropertyDeleteStrategy "deleteStrategy" info in
  let info := extract_info props PropertyPVCName "pvcName" info in
  let info := extract_info props PropertyPVCNamespace "pvcNamespace" info in
  extract_info props PropertyStorageClass "storageClass" info.

(** The loop over the candidates: exactly one may match the namespace. *)
Fixpoint unique_pvc_match (pvcName pvcNamespace filesystem : string) (candidates : list Subvolume)
    (match_ : option Subvolume) : res (option Subvolume) :=
  match candidates with
  | [] => Ok match_
  | candidate :: rest =>
      match sv_Properties candidate with
      | None => unique_pvc_match pvcName pvcNamespace filesystem rest match_
      | Some props =>
          if String.eqb (Some props).[PropertyPVCNamespace] pvcNamespace then
            match match_ with
            | Some _ => Err (Status FailedPrecondition ("multiple subvolumes match PVC identity " +:+ pvcNamespace +:+
                               "/" +:+ pvcName +:+ " in filesystem " +:+ filesystem))
            | None => unique_pvc_match pvcName pvcNamespace filesystem rest (Some candidate)
            end
          else unique_pvc_match pvcName pvcNamespace filesystem rest match_
      end
  end.

Definition findSubvolumeByPVCIdentity (params : gomap) (filesystem : string) : M (res (option Subvolume)) :=
  let pvcName := params.[CSIPVCName] in
  let pvcNamespace := params.[CSIPVCNamespace] in
  if String.eqb pvcName "" || String.eqb pvcNamespace "" then Ret (Ok None)
  else
    let! (candidates, err) := do_ (FindSubvolumesByProperty PropertyPVCName pvcName filesystem) in
    match err with
    | Some e => Ret (Err (Status Internal ("failed to search by PVC identity " +:+ pvcNamespace +:+ "/" +:+ pvcName +:+
                            ": " +:+ err_text e)))
    | None => Ret (unique_pvc_match pvcName pvcNamespace filesystem candidates None)
    end.
End Adoption.

(** ** Listing *)

(** [ListVolumesRequest] and [ListVolumesResponse]. *)
Record list_request : Type := mkListRequest { lr_MaxEntries : Z; lr_StartingToken : string }.
Record list_response (A : Type) : Type := mkListResponse { lr_Entries : list A; lr_NextToken : string }.
Arguments mkListResponse {_} _ _.
Arguments lr_Entries {_} _.
Arguments lr_NextToken {_} _.

(** The index after the entry the token names. *)
Fixpoint token_index (entries : list Volume) (token : string) (i : nat) : option nat :=
  match entries with
  | [] => None
  | v :: rest => if String.eqb (v_VolumeId v) token then Some (S i) else token_index rest token (S i)
  end.

(** [entries[start:end]] *)
Definition slice {A : Type} (l : list A) (start stop : nat) : list A := take (stop - start) (drop start l).

(** The page from an index on: at most [maxEntries] entries, all for 0. *)
Definition volumes_page (entries : list Volume) (maxEntries : Z) (startIdx : nat) : list_response Volume :=
  let limited := (0 <? maxEntries) && (Z.of_nat startIdx + maxEntries <? Z.of_nat (length entries)) in
  let endIdx := if limited then (startIdx + Z.to_nat maxEntries)%nat else length entries in
  let nextToken :=
    if limited then match entries !! (endIdx - 1)%nat with Some v => v_VolumeId v | None => "" end else "" in
  mkListResponse (slice entries startIdx endIdx) nextToken.

Definition paginate_volumes (entries : list Volume) (req : list_request) : res (list_response Volume) :=
  if String.eqb (lr_StartingToken req) "" then Ok (volumes_page entries (lr_MaxEntries req) 0)
  else
    match token_index entries (lr_StartingToken req) 0 with
    | Some startIdx => Ok (volumes_page entries (lr_MaxEntries req) startIdx)
    | None => Err (Status Aborted ("invalid starting_token: " +:+ lr_StartingToken req))
    end.

(** ** Requests and responses of the other calls *)

Record ExpandVolumeRequest : Type := mkExpandRequest {
  er_VolumeId : string; er_CapacityRange : option CapacityRange; er_VolumeCapability : option VolumeCapability
}.

(** [ValidateVolumeCapabilitiesResponse]: the confirmed capabilities or a message. *)
Definition validation : Type := (list VolumeCapability + string)%type.

Section Controller.
Context {api : NastyAPI} {tt_ : TextTemplate} (s : service).

(** ** CreateVolume *)

(** [None] when no volume can be adopted. *)
Definition checkAndAdoptVolume (req : CreateVolumeRequest) (params : gomap) (protocol : string)
    : M (res (option Volume)) :=
  let volumeName := req_Name req in
  let adoptExisting := String.eqb params.["adoptExisting"] VolumeContextValueTrue in
  let filesystem := params.[paramFilesystem] in
  let! (subvol, err) := do_ (FindSubvolumeByCSIVolumeName filesystem volumeName) in
  let subvol := match err with Some _ => None | None => subvol end in
  found <-! (match subvol with
             | Some sv => Ret (Ok (Some sv))
             | None => findSubvolumeByPVCIdentity params filesystem
             end);;
  match found with
  | None => Ret (Ok None)
  | Some sv =>
      match sv_Properties sv with
      | None => Ret (Ok None)
      | Some _ =>
          let props := sv_Properties sv in
          if negb (IsVolumeAdoptable props) then Ret (Ok None)
          else if negb (String.eqb props.[PropertyAdoptable] VolumeContextValueTrue) && negb adoptExisting then Ret (Ok None)
          else
            let volumeProtocol := props.[PropertyProtocol] in
            if negb (String.eqb volumeProtocol protocol) then
              Ret (Err (Status FailedPrecondition ("Cannot adopt volume " +:+ volumeName +:+
                     ": protocol mismatch (volume has " +:+ volumeProtocol +:+ ", requested " +:+ protocol +:+ ")")))
            else
              let adopt : M (res Volume) :=
                if String.eqb protocol ProtocolNFS then adoptNFSVolume s req sv params
                else if String.eqb protocol ProtocolNVMeOF then adoptNVMeOFVolume s req sv params
                else if String.eqb protocol ProtocolISCSI then adoptISCSIVolume s req sv params
                else if String.eqb protocol ProtocolSMB then adoptSMBVolume s req sv params
                else Ret (Err (Status InvalidArgument ("Unsupported protocol for adoption: " +:+ protocol))) in
              resp <-! adopt;; Ret (Ok (Some resp))
      end
  end.

(** An encrypted class needs an encrypted filesystem. *)
Definition check_encryption (params : gomap) : M (res unit) :=
  if EqualFold params.["encryption"] "true" then
    let fsName := params.[paramFilesystem] in
    if String.eqb fsName "" then Ret (Err (Status InvalidArgument "encryption requires a filesystem parameter"))
    else
      let! (fs, err) := do_ (QueryFilesystem fsName) in
      match err with
      | Some e => Ret (Err (Status Internal ("failed to query filesystem " +:+ Quote fsName +:+
                             " for encryption check: " +:+ err_text e)))
      | None =>
          fs <- deref fs;;
          match fs_Encrypted fs with
          | Some true => Ret (Ok tt)
          | _ => Ret (Err (Status InvalidArgument ("StorageClass requires encryption but filesystem " +:+ Quote fsName +:+
                   " is not encrypted; create an encrypted filesystem or remove the encryption parameter")))
          end
      end
  else Ret (Ok tt).

(** [checkExistingVolume] always answers [ErrVolumeNotFound]. *)
Definition checkExistingVolume : res (option Volume) := Err (err_new ErrVolumeNotFound).

(** The validations before the first interaction: the protocol and the
    normalized request. *)
Definition validate_create (req : CreateVolumeRequest) : res (string * CreateVolumeRequest) :=
  _ <-? validateCreateVolumeRequest req;;
  let params := req_Parameters req in
  let protocol := if String.eqb params.["protocol"] "" then ProtocolNFS else params.["protocol"] in
  req <-? normalizeCreateCapacity req protocol;;
  _ <-? validateAccessModeForProtocol (req_VolumeCapabilities req) protocol;;
  if is_block_protocol protocol then
    _ <-? requestedBlockFilesystem (req_VolumeCapabilities req);;
    Ok (protocol, req)
  else Ok (protocol, req).

(** Adoption, the encryption check and the creation of a source-less request. *)
Definition create_fresh (req : CreateVolumeRequest) (protocol : string) : M (res Volume) :=
  let params := req_Parameters req in
  adopted <-! checkAndAdoptVolume req params protocol;;
  match adopted with
  | Some resp => Ret (Ok resp)
  | None =>
      _ <-! check_encryption params;;
      createVolumeByProtocol s req protocol
  end.

Definition CreateVolume (req : CreateVolumeRequest) : M (res Volume) :=
  match validate_create req with
  | Err e => Ret (Err e)
  | Ok (protocol, req) =>
      match checkExistingVolume with
      | Ok (Some existingVolume) => Ret (Ok existingVolume)
      | Ok None => create_fresh req protocol
      | Err e =>
          if negb (errors_Is e ErrVolumeNotFound) then Ret (Err e)
          else
            match handleVolumeContentSource s req with
            | Some handled => handled
            | None => create_fresh req protocol
            end
      end
  end.

(** ** DeleteVolume *)

Definition DeleteVolume (volumeID : string) : M (res unit) :=
  if String.eqb volumeID "" then Ret (Err (Status InvalidArgument errMsgVolumeIDRequired))
  else
    volumeMeta <-! lookupDeletionVolume volumeID;;
    match volumeMeta with
    | None => Ret (Ok tt)
    | Some meta =>
        let protocol := m_Protocol meta in
        if String.eqb protocol ProtocolNFS then deleteNFSVolume meta
        else if String.eqb protocol ProtocolNVMeOF then deleteNVMeOFVolume meta
        else if String.eqb protocol ProtocolISCSI then deleteISCSIVolume meta
        else if String.eqb protocol ProtocolSMB then deleteSMBVolume meta
        else Ret (Err (Status Internal ("Unknown protocol " +:+ protocol +:+ " for volume " +:+ volumeID)))
    end.

(** ** Validation, listing, capacity *)

Definition ValidateVolumeCapabilities (volumeID : string) (caps : list VolumeCapability) : M (res validation) :=
  if String.eqb volumeID "" then Ret (Err (Status InvalidArgument errMsgVolumeIDRequired))
  else
    match caps with
    | [] => Ret (Err (Status InvalidArgument "Volume capabilities are required"))
    | _ =>
        looked <- lookupVolumeByCSIName volumeID;;
        match looked with
        | Ok (Some meta) =>
            let protocol := m_Protocol meta in
            let refused (e : error) : M (res validation) :=
              Ret (Ok (inr ("capabilities not confirmed: " +:+ err_text e))) in
            if String.eqb protocol "" then Ret (Ok (inl caps))
            else
              match validateAccessModeForProtocol caps protocol with
              | Err e => refused e
              | Ok _ =>
                  if is_block_protocol protocol then
                    match requestedBlockFilesystem caps with
                    | Err e => refused e
                    | Ok _ => Ret (Ok (inl caps))
                    end
                  else Ret (Ok (inl caps))
              end
        | _ => Ret (Err (Status NotFound ("Volume " +:+ volumeID +:+ " not found")))
        end
    end.

(** The entry of a managed subvolume. *)
Definition managed_entry (sv : Subvolume) : option Volume :=
  let volumeID := sv_Filesystem sv +:+ "/" +:+ sv_Name sv in
  match sv_Properties sv with
  | None => None
  | Some _ =>
      match extractVolumeMetadataFromSubvolume volumeID sv with
      | None => None
      | Some meta => Some (mkVolume volumeID (stored_capacity (sv_Properties sv)) (buildVolumeContext meta) None)
      end
  end.

Definition listManagedVolumes : M (res (list Volume)) :=
  let! (subvols, err) := do_ (FindManagedSubvolumes "") in
  match err with
  | Some e => Ret (Err (Errorf ("failed to find managed subvolumes: " +:+ err_text e) [e]))
  | None => Ret (Ok (omap managed_entry subvols))
  end.

Definition ListVolumes (req : list_request) : M (res (list_response Volume)) :=
  listed <- listManagedVolumes;;
  match listed with
  | Err err => Ret (Err (Status Internal ("failed to list managed volumes: " +:+ err_text err)))
  | Ok entries => Ret (paginate_volumes entries req)
  end.

(** The gauge of one subvolume, when it is ours and its size is known. *)
Definition seed_one (sv : Subvolume) : M (option unit) :=
  let props := sv_Properties sv in
  let owner := props.[PropertyClusterID] in
  if negb (String.eqb (clusterID s) "") && negb (String.eqb owner "") && negb (String.eqb owner (clusterID s)) then Ret None
  else
    let protocol := props.[PropertyProtocol] in
    let capacity := StringToInt64 props.[PropertyCapacityBytes] in
    if String.eqb protocol "" || (capacity <=? 0) then Ret None
    else do_ (SetVolumeCapacity (sv_Filesystem sv +:+ "/" +:+ sv_Name sv) protocol capacity) ;;; Ret None.

Definition seedVolumeCapacityMetrics : M (res unit) :=
  let! (subvols, err) := do_ (FindManagedSubvolumes "") in
  match err with
  | Some e => Ret (Err (Errorf ("failed to find managed subvolumes: " +:+ err_text e) [e]))
  | None => for_range subvols seed_one ;;; Ret (Ok tt)
  end.

(** The available bytes, 0 without a filesystem parameter. *)
Definition GetCapacity (params : gomap) : M (res Z) :=
  match params with
  | None => Ret (Ok 0)
  | Some _ =>
      let fsName := params.[paramFilesystem] in
      if String.eqb fsName "" then Ret (Ok 0)
      else
        let! (fs, err) := do_ (QueryFilesystem fsName) in
        match err with
        | Some e => Ret (Err (Status Internal ("Failed to query filesystem capacity: " +:+ err_text e)))
        | None => fs <- deref fs;; Ret (Ok (to_int64 (fs_AvailableBytes fs)))
        end
  end.

(** ** Expansion *)

Definition ControllerExpandVolume (req : ExpandVolumeRequest) : M (res expansion) :=
  let volumeID := er_VolumeId req in
  if String.eqb volumeID "" then Ret (Err (Status InvalidArgument errMsgVolumeIDRequired))
  else
    match er_CapacityRange req with
    | None => Ret (Err (Status InvalidArgument "Capacity range is required"))
    | Some range =>
        match validateExpansionRange (RequiredBytes range) (LimitBytes range) with
        | Err e => Ret (Err e)
        | Ok _ =>
            looked <- lookupVolumeByCSIName volumeID;;
            match looked with
            | Err e => Ret (Err (Status Internal ("Failed to lookup volume: " +:+ err_text e)))
            | Ok None => Ret (Err (Status NotFound ("Volume " +:+ volumeID +:+ " not found for expansion")))
            | Ok (Some meta) =>
                match planExpansion meta (RequiredBytes range) (LimitBytes range) with
                | Err e => Ret (Err e)
                | Ok plan =>
                    let node := requiresNodeExpansion (m_Protocol meta) (er_VolumeCapability req) in
                    if p_alreadySatisfied plan then
                      reconciled <- reconcileCapacityProperty meta (p_currentBytes plan);;
                      match reconciled with
                      | Err e => Ret (Err (Status Internal ("Failed to reconcile volume capacity metadata: " +:+ err_text e)))
                      | Ok _ => Ret (Ok (p_targetBytes plan, node))
                      end
                    else if String.eqb (m_Protocol meta) ProtocolNFS then expandNFSVolume meta (p_targetBytes plan)
                    else if String.eqb (m_Protocol meta) ProtocolNVMeOF then expandNVMeOFVolume meta (p_targetBytes plan) node
                    else if String.eqb (m_Protocol meta) ProtocolISCSI then expandISCSIVolume meta (p_targetBytes plan)
                    else if String.eqb (m_Protocol meta) ProtocolSMB then expandSMBVolume meta (p_targetBytes plan)
                    else Ret (Err (Status Internal ("Unknown protocol " +:+ m_Protocol meta +:+ " for volume " +:+ volumeID)))
                end
            end
        end
    end.

(** ** Information *)

Definition getControllerVolumeInfo (volumeID : string) : M (res controllerVolumeInfo) :=
  if String.eqb volumeID "" then Ret (Err (Status InvalidArgument errMsgVolumeIDRequired))
  else
    looked <- lookupVolumeByCSIName volumeID;;
    match looked with
    | Err e => Ret (Err (Status Internal ("Failed to lookup volume: " +:+ err_text e)))
    | Ok None => Ret (Err (Status NotFound ("Volume " +:+ volumeID +:+ " not found")))
    | Ok (Some meta) =>
        if String.eqb (m_Protocol meta) ProtocolNFS then getNFSVolumeInfo meta
        else if String.eqb (m_Protocol meta) ProtocolNVMeOF then getNVMeOFVolumeInfo meta
        else if String.eqb (m_Protocol meta) ProtocolISCSI then getISCSIVolumeInfo meta
        else if String.eqb (m_Protocol meta) ProtocolSMB then getSMBVolumeInfo meta
        else Ret (Err (Status Internal ("Unknown protocol " +:+ m_Protocol meta +:+ " for volume " +:+ volumeID)))
    end.

Definition ControllerGetVolume (volumeID : string) : M (res Volume) :=
  info <-! getControllerVolumeInfo volumeID;; Ret (Ok (i_Volume info)).

(** [VolumeHealth.ToCSI] (driver/node_health.go): the messages of the DEGRADED
    entries. *)
Definition ToCSI (h : VolumeHealth) (volumeID : string) : string * list string :=
  (volumeID, if Abnormal h then [Message h] else []).

Definition ControllerGetVolumeHealth (volumeID : string) : M (res (string * list string)) :=
  info <-! getControllerVolumeInfo volumeID;; Ret (Ok (ToCSI (i_Health info) volumeID)).

Definition ControllerModifyVolume (volumeID : string) : res unit :=
  if String.eqb volumeID "" then Err (Status InvalidArgument errMsgVolumeIDRequired)
  else Err (Status Unimplemented "ControllerModifyVolume not implemented").
End Controller.
