(* ===== verification/Publish.v ===== *)
(** * Publishing volumes to nodes (driver/controller.go, driver/node_registry.go)

    The controller's own state: the published volumes with their readonly flag,
    keyed by [volumeID:nodeID], and the node registry.  The mutexes make every
    call one atomic step, so interleavings of calls are sequences of steps. *)

From S2P Require Import Prelude GoStrings Errors Api Metadata Names.

(** ** The node registry *)

Module NodeRegistry.
(** The registered nodes and when each was registered. *)
Definition t : Type := gmap string Z.

Definition NewNodeRegistry : t := ∅.
Definition Register (nodeID : string) (now : Z) (r : t) : t := <[nodeID := now]> r.
Definition IsRegistered (nodeID : string) (r : t) : bool := bool_decide (is_Some (r !! nodeID)).
Definition Unregister (nodeID : string) (r : t) : t := delete nodeID r.
Definition Count (r : t) : nat := size r.
End NodeRegistry.

(** ** Publishing *)

Abbreviation published := (gmap string bool).

Record PublishRequest : Type := mkPublishRequest {
  pr_VolumeId : string; pr_NodeId : string; pr_Readonly : bool; pr_VolumeCapability : option VolumeCapability
}.

Definition publishKey (volumeID nodeID : string) : string := volumeID +:+ ":" +:+ nodeID.

(** The registry is consulted only when it knows some node. *)
Definition node_unknown (registry : option NodeRegistry.t) (nodeID : string) : bool :=
  match registry with
  | Some r => (0 <? NodeRegistry.Count r)%nat && negb (NodeRegistry.IsRegistered nodeID r)
  | None => false
  end.

Definition ControllerPublishVolume (registry : option NodeRegistry.t) (req : PublishRequest) (m : published)
    : res unit * published :=
  if String.eqb (pr_VolumeId req) "" then (Err (Status InvalidArgument errMsgVolumeIDRequired), m)
  else if String.eqb (pr_NodeId req) "" then (Err (Status InvalidArgument "Node ID is required"), m)
  else
    match pr_VolumeCapability req with
    | None => (Err (Status InvalidArgument "Volume capability is required"), m)
    | Some _ =>
        if negb (isKnownVolume (pr_VolumeId req)) then
          (Err (Status NotFound ("volume " +:+ pr_VolumeId req +:+ " not found")), m)
        else if node_unknown registry (pr_NodeId req) then
          (Err (Status NotFound ("node " +:+ pr_NodeId req +:+ " not found")), m)
        else
          let key := publishKey (pr_VolumeId req) (pr_NodeId req) in
          match m !! key with
          | Some existingReadonly =>
              if negb (Bool.eqb existingReadonly (pr_Readonly req)) then
                (Err (Status AlreadyExists ("volume " +:+ pr_VolumeId req +:+ " is already published to node " +:+
                        pr_NodeId req +:+ " with incompatible readonly mode")), m)
              else (Ok tt, m)
          | None => (Ok tt, <[key := pr_Readonly req]> m)
          end
    end.

Definition ControllerUnpublishVolume (volumeID nodeID : string) (m : published) : res unit * published :=
  if String.eqb volumeID "" then (Err (Status InvalidArgument errMsgVolumeIDRequired), m)
  else if negb (String.eqb nodeID "") then (Ok tt, delete (publishKey volumeID nodeID) m)
  else (Ok tt, filter (fun kv => HasPrefix kv.1 (volumeID +:+ ":") = false) m).

(** ** Calls *)

Inductive publish_call : Type :=
| CPublish (registry : option NodeRegistry.t) (req : PublishRequest)
| CUnpublish (volumeID nodeID : string).

(** ** The abstract contract

    What the CSI specification asks for: a finite map from pairs of a volume
    and a node to the readonly flag. *)
Abbreviation attachments := (gmap (string * string) bool).

Definition publish_valid (registry : option NodeRegistry.t) (req : PublishRequest) : bool :=
  negb (String.eqb (pr_VolumeId req) "") && negb (String.eqb (pr_NodeId req) "") &&
  bool_decide (is_Some (pr_VolumeCapability req)) && isKnownVolume (pr_VolumeId req) &&
  negb (node_unknown registry (pr_NodeId req)).

(** The answer (success or error) and the attachments after a call. *)
Definition spec_step (a : attachments) (c : publish_call) : bool * attachments :=
  match c with
  | CPublish registry req =>
      if publish_valid registry req then
        match a !! (pr_VolumeId req, pr_NodeId req) with
        | Some readonly => (Bool.eqb readonly (pr_Readonly req), a)
        | None => (true, <[(pr_VolumeId req, pr_NodeId req) := pr_Readonly req]> a)
        end
      else (false, a)
  | CUnpublish volumeID nodeID =>
      if String.eqb volumeID "" then (false, a)
      else if String.eqb nodeID "" then (true, filter (fun kv => kv.1.1 <> volumeID) a)
      else (true, delete (volumeID, nodeID) a)
  end.

(** The answer and state of the implementation. *)
Definition impl_step (m : published) (c : publish_call) : bool * published :=
  match c with
  | CPublish registry req => let '(r, m') := ControllerPublishVolume registry req m in (is_ok r, m')
  | CUnpublish volumeID nodeID => let '(r, m') := ControllerUnpublishVolume volumeID nodeID m in (is_ok r, m')
  end.

(** The answers to a sequence of calls and the final state. *)
Fixpoint steps {S : Type} (step : S -> publish_call -> bool * S) (st : S) (cs : list publish_call) : list bool * S :=
  match cs with
  | [] => ([], st)
  | c :: cs' =>
      let '(r, st1) := step st c in
      let '(rs, st2) := steps step st1 cs' in (r :: rs, st2)
  end.

(** The volume of a call. *)
Definition call_volume (c : publish_call) : string :=
  match c with CPublish _ req => pr_VolumeId req | CUnpublish volumeID _ => volumeID end.

(** Keys determine the volume and the node when volume IDs hold no colon. *)
Definition colon_free (v : string) : Prop := str_mem ":" v = false.

Lemma publishKey_inj v n v' n' :
  colon_free v -> colon_free v' -> publishKey v n = publishKey v' n' -> v = v' /\ n = n'.
Proof.
  unfold colon_free, publishKey. intros H H' E.
  change (":" +:+ n) with (String ":" n) in E. change (":" +:+ n') with (String ":" n') in E.
  pose proof (Index_first ":" v n H) as I. pose proof (Index_first ":" v' n' H') as I'.
  assert (v = v') as ->.
  { rewrite E, I' in I. injection I as I. pose proof (str_take_app v (String ":" n)) as T.
    by rewrite E, <- I, str_take_app in T. }
  split; [done|]. apply str_app_inj_l in E. congruence.
Qed.

Lemma publishKey_prefix v v' n :
  colon_free v -> colon_free v' -> HasPrefix (publishKey v' n) (v +:+ ":") = true <-> v' = v.
Proof.
  intros H H'. split.
  - intros (t & E)%HasPrefix_split. rewrite str_app_assoc in E.
    change (publishKey v' n = publishKey v t) in E. by apply publishKey_inj in E as [-> _].
  - intros ->. apply HasPrefix_split. exists n. unfold publishKey. by rewrite str_app_assoc.
Qed.

(** The simulation relation. *)
Record represents (a : attachments) (m : published) : Prop := {
  rep_lookup : forall v n, colon_free v -> m !! publishKey v n = a !! (v, n);
  rep_dom : forall v n r, a !! (v, n) = Some r -> colon_free v
}.

Lemma represents_empty : represents ∅ ∅.
Proof. split; intros; by rewrite ?lookup_empty in *. Qed.

Lemma represents_insert a m v n r :
  represents a m -> colon_free v -> represents (<[(v, n) := r]> a) (<[publishKey v n := r]> m).
Proof.
  intros [Hl Hd] Hv. split.
  - intros v' n' Hv'. destruct (decide ((v, n) = (v', n'))) as [[= <- <-]|E].
    + by rewrite !lookup_insert_eq.
    + rewrite !lookup_insert_ne; [by apply Hl|done|].
      intros F. apply publishKey_inj in F as [-> ->]; done.
  - intros v' n' r' H. destruct (decide ((v, n) = (v', n'))) as [[= <- <-]|E]; [done|].
    rewrite lookup_insert_ne in H by done. by eapply Hd.
Qed.

Lemma represents_delete a m v n :
  represents a m -> colon_free v -> represents (delete (v, n) a) (delete (publishKey v n) m).
Proof.
  intros [Hl Hd] Hv. split.
  - intros v' n' Hv'. destruct (decide ((v, n) = (v', n'))) as [[= <- <-]|E].
    + by rewrite !lookup_delete_eq.
    + rewrite !lookup_delete_ne; [by apply Hl|done|].
      intros F. apply publishKey_inj in F as [-> ->]; done.
  - intros v' n' r' [_ H]%lookup_delete_Some. by eapply Hd.
Qed.

Lemma represents_unpublish_all a m v :
  represents a m -> colon_free v ->
  represents (filter (fun kv => kv.1.1 <> v) a) (filter (fun kv => HasPrefix kv.1 (v +:+ ":") = false) m).
Proof.
  intros [Hl Hd] Hv. split.
  - intros v' n' Hv'. apply option_eq. intros r. rewrite !map_lookup_filter_Some, Hl by done. simpl.
    rewrite <- not_true_iff_false, publishKey_prefix by done. done.
  - intros v' n' r' [H _]%map_lookup_filter_Some. by eapply Hd.
Qed.

Lemma impl_step_refines a m c :
  represents a m -> colon_free (call_volume c) ->
  (impl_step m c).1 = (spec_step a c).1 /\ represents (spec_step a c).2 (impl_step m c).2.
Proof.
  intros HR Hv. destruct c as [reg [v n ro cap]|v n]; simpl in Hv |- *.
  - unfold ControllerPublishVolume, publish_valid. simpl.
    destruct (String.eqb v ""); [done|]. destruct (String.eqb n ""); [done|].
    destruct cap as [cap|]; [|by rewrite bool_decide_eq_false_2 by (by intros [? ?])].
    rewrite bool_decide_eq_true_2 by eauto. simpl.
    destruct (isKnownVolume v); [|done]. destruct (node_unknown reg n); [done|]. simpl.
    rewrite (rep_lookup _ _ HR) by done. destruct (a !! (v, n)) as [ro'|]; simpl.
    + destruct (Bool.eqb ro' ro); done.
    + split; [done|]. by apply represents_insert.
  - unfold ControllerUnpublishVolume. destruct (String.eqb v ""); [done|].
    destruct (String.eqb n ""); simpl; split; auto using represents_delete, represents_unpublish_all.
Qed.


Definition rw_cap : option VolumeCapability := Some (mkVolumeCapability (Mount "") SINGLE_NODE_WRITER).


(** The volume names that the driver accepts may contain colons, and then
    the contract fails: the publication of one volume is forgotten when
    another, whose name is a prefix, is unpublished from all nodes, and a
    conflicting publication is accepted afterwards. *)
Theorem publish_colon_confusion :
  is_ok (validateVolumeName "a:b") = true /\
  (steps impl_step ∅ [CPublish None (mkPublishRequest "tank/a:b" "n1" false rw_cap);
                      CUnpublish "tank/a" "";
                      CPublish None (mkPublishRequest "tank/a:b" "n1" true rw_cap)]).1 = [true; true; true] /\
  (steps spec_step ∅ [CPublish None (mkPublishRequest "tank/a:b" "n1" false rw_cap);
                      CUnpublish "tank/a" "";
                      CPublish None (mkPublishRequest "tank/a:b" "n1" true rw_cap)]).1 = [true; true; false].
Proof. split; [|split]; vm_compute; reflexivity. Qed.
