(* ===== verification/Snapshots.v ===== *)
(** * Snapshots (driver/controller_snapshot.go, driver/controller_snapshot_list.go) *)

From S2P Require Import Prelude GoStrings Prog Errors Api Metadata Capacity SnapshotId Common Controller.

Definition snapshot_timer (operation : string) : timer := mkTimer "snapshot" operation.

(** [csi.Snapshot]: always ready to use; the creation time in seconds. *)
Record CSISnapshot : Type := mkCSISnapshot {
  cs_SnapshotId : string; cs_SourceVolumeId : string; cs_CreationTime : Z; cs_SizeBytes : Z
}.

Record ListSnapshotsRequest : Type := mkListSnapshotsRequest {
  ls_MaxEntries : Z; ls_StartingToken : string; ls_SnapshotId : string; ls_SourceVolumeId : string
}.

Definition empty_list : list_response CSISnapshot := mkListResponse [] "".

Section Snapshots.
Context {api : NastyAPI} {ts : Timestamppb}.

(** The later snapshot of a key wins, as in the map the code fills. *)
Definition creation_times (snapshots : list Snapshot) : gmap string (option Z) :=
  foldl (fun m sn => <[snapshotCreationKey (sn_Subvolume sn) (sn_Name sn) := sn_CreatedAt sn]> m) ∅ snapshots.

Definition snapshotCreationTimes (filesystem : string) : M (res (gmap string (option Z))) :=
  let! (snapshots, err) := do_ (api_ListSnapshots filesystem) in
  match err with
  | Some e => Ret (Err e)
  | None => Ret (Ok (creation_times snapshots))
  end.

(** [creationTimes[key]]: nil for a missing key. *)
Definition time_of (times : gmap string (option Z)) (subvolume name : string) : option Z :=
  default None (times !! snapshotCreationKey subvolume name).

(** The protocol of a subvolume, NFS by default. *)
Definition snapshot_protocol (props : gomap) : string :=
  if String.eqb props.[PropertyProtocol] "" then ProtocolNFS else props.[PropertyProtocol].

(** Another managed volume that has a snapshot of this name. *)
Definition snapshot_elsewhere (filesystem subvolumeName snapshotName : string) (managed : list Subvolume)
    : option Subvolume :=
  List.find (fun sv => existsb (fun snap => String.eqb snap snapshotName) (sv_Snapshots sv) &&
                       negb (String.eqb (sv_Filesystem sv) filesystem && String.eqb (sv_Name sv) subvolumeName)) managed.

Definition CreateSnapshot (snapshotName sourceVolumeID : string) : M (res CSISnapshot) :=
  let t := snapshot_timer "create" in
  if String.eqb snapshotName "" then fail t (Status InvalidArgument "Snapshot name is required")
  else if String.eqb sourceVolumeID "" then fail t (Status InvalidArgument "Source volume ID is required")
  else
    match splitSubvolumeID sourceVolumeID with
    | Err err => fail t (Status InvalidArgument ("Invalid source volume ID " +:+ Quote sourceVolumeID +:+ ": " +:+ err_text err))
    | Ok (filesystem, subvolumeName) =>
        let! (subvol, err) := do_ (GetSubvolume filesystem subvolumeName) in
        match err with
        | Some e => fail t (Status NotFound ("Source volume " +:+ sourceVolumeID +:+ " not found: " +:+ err_text e))
        | None =>
            subvol <- deref subvol;;
            let protocol := snapshot_protocol (sv_Properties subvol) in
            let encoded (k : string -> M (res CSISnapshot)) : M (res CSISnapshot) :=
              match encodeSnapshotID (mkSnapshotMetadata snapshotName sourceVolumeID protocol) with
              | Err encodeErr => fail t (Status Internal ("Failed to encode snapshot ID: " +:+ err_text encodeErr))
              | Ok snapshotID => k snapshotID
              end in
            let answer (snapshotID : string) (createdAt : option Z) : M (res CSISnapshot) :=
              match csiSnapshotCreationTime createdAt with
              | Err timeErr => fail t timeErr
              | Ok creationTime =>
                  succeed t (mkCSISnapshot snapshotID sourceVolumeID creationTime (stored_capacity (sv_Properties subvol)))
              end in
            let! (managed, findErr) := do_ (FindManagedSubvolumes "") in
            let elsewhere := match findErr with
                             | Some _ => None
                             | None => snapshot_elsewhere filesystem subvolumeName snapshotName managed
                             end in
            match elsewhere with
            | Some sv => fail t (Status AlreadyExists ("snapshot " +:+ Quote snapshotName +:+
                           " already exists on different volume " +:+ sv_Filesystem sv +:+ "/" +:+ sv_Name sv))
            | None =>
                if existsb (fun snap => String.eqb snap snapshotName) (sv_Snapshots subvol) then
                  encoded (fun snapshotID =>
                    times <- snapshotCreationTimes filesystem;;
                    match times with
                    | Err e => fail t (Status Internal ("Failed to retrieve snapshot creation time: " +:+ err_text e))
                    | Ok times => answer snapshotID (time_of times subvolumeName snapshotName)
                    end)
                else
                  let! (snap, err) := do_ (api_CreateSnapshot (mkSnapshotCreateParams filesystem subvolumeName snapshotName true)) in
                  match err with
                  | Some e => fail t (Status Internal ("Failed to create snapshot: " +:+ err_text e))
                  | None => snap <- deref snap;; encoded (fun snapshotID => answer snapshotID (sn_CreatedAt snap))
                  end
            end
        end
    end.

(** An ID that does not parse names no snapshot: deletion succeeds. *)
Definition DeleteSnapshot (snapshotID : string) : M (res unit) :=
  let t := snapshot_timer "delete" in
  if String.eqb snapshotID "" then fail t (Status InvalidArgument "Snapshot ID is required")
  else
    match decodeSnapshotID snapshotID with
    | Err _ => succeed t tt
    | Ok meta =>
        match splitSubvolumeID (s_SourceVolume meta) with
        | Err _ => succeed t tt
        | Ok (filesystem, subvolumeName) =>
            err <- do_ (api_DeleteSnapshot filesystem subvolumeName (s_SnapshotName meta));;
            match query_failed err with
            | Some e => fail t (Status Internal ("Failed to delete snapshot: " +:+ err_text e))
            | None => succeed t tt
            end
        end
    end.

(** ** Listing *)


Definition listSnapshotByID (req : ListSnapshotsRequest) : M (res (list_response CSISnapshot)) :=
  match decodeSnapshotID (ls_SnapshotId req) with
  | Err _ => Ret (Ok empty_list)
  | Ok meta =>
      match splitSubvolumeID (s_SourceVolume meta) with
      | Err _ => Ret (Ok empty_list)
      | Ok (filesystem, subvolumeName) =>
          let! (subvol, err) := do_ (GetSubvolume filesystem subvolumeName) in
          match err with
          | Some _ => Ret (Ok empty_list)
          | None =>
              subvol <- deref subvol;;
              if negb (existsb (fun snap => String.eqb snap (s_SnapshotName meta)) (sv_Snapshots subvol)) then Ret (Ok empty_list)
              else
                times <- snapshotCreationTimes filesystem;;
                match times with
                | Err e => Ret (Err (Status Internal ("Failed to retrieve snapshot creation time: " +:+ err_text e)))
                | Ok times =>
                    match csiSnapshotCreationTime (time_of times subvolumeName (s_SnapshotName meta)) with
                    | Err e => Ret (Err e)
                    | Ok creationTime =>
                        let entry := mkCSISnapshot (ls_SnapshotId req) (s_SourceVolume meta) creationTime
                                       (stored_capacity (sv_Properties subvol)) in
                        if String.eqb (ls_StartingToken req) "" then Ret (Ok (mkListResponse [entry] ""))
                        else
                          match parseSnapshotToken (ls_StartingToken req) with
                          | Err e => Ret (Err (Status Aborted ("invalid starting_token: " +:+ err_text e)))
                          | Ok startIndex =>
                              if 0 <? startIndex then Ret (Ok empty_list) else Ret (Ok (mkListResponse [entry] ""))
                          end
                    end
                end
          end
      end
  end.

(** The entries of the snapshots of one volume, in the given order: a name
    that cannot be encoded is skipped, a missing creation time is an error. *)
Fixpoint snapshot_entries (sourceVolumeID subvolumeName protocol : string) (sizeBytes : Z)
    (times : gmap string (option Z)) (names : list string) : res (list CSISnapshot) :=
  match names with
  | [] => Ok []
  | snapName :: rest =>
      match encodeSnapshotID (mkSnapshotMetadata snapName sourceVolumeID protocol) with
      | Err _ => snapshot_entries sourceVolumeID subvolumeName protocol sizeBytes times rest
      | Ok snapshotID =>
          creationTime <-? csiSnapshotCreationTime (time_of times subvolumeName snapName);;
          entries <-? snapshot_entries sourceVolumeID subvolumeName protocol sizeBytes times rest;;
          Ok (mkCSISnapshot snapshotID sourceVolumeID creationTime sizeBytes :: entries)
      end
  end.

(** The offset of a token, 0 for the empty one. *)
Definition start_index (token what : string) : res Z :=
  if String.eqb token "" then Ok 0
  else match parseSnapshotToken token with
       | Err e => Err (Status Aborted (what +:+ ": " +:+ err_text e))
       | Ok i => Ok i
       end.

(** [endIndex] and the token of the next page. *)
Definition next_token (endIndex len : Z) : string :=
  if endIndex <? len then encodeSnapshotToken endIndex else "".

Definition listSnapshotsBySourceVolume (req : ListSnapshotsRequest) : M (res (list_response CSISnapshot)) :=
  let sourceVolumeID := ls_SourceVolumeId req in
  match splitSubvolumeID sourceVolumeID with
  | Err _ => Ret (Ok empty_list)
  | Ok (filesystem, subvolumeName) =>
      let! (subvol, err) := do_ (GetSubvolume filesystem subvolumeName) in
      match err with
      | Some _ => Ret (Ok empty_list)
      | None =>
          subvol <- deref subvol;;
          let protocol := snapshot_protocol (sv_Properties subvol) in
          let sizeBytes := stored_capacity (sv_Properties subvol) in
          let snapshots := sort_by (fun name => name) (sv_Snapshots subvol) in
          let len := Z.of_nat (length snapshots) in
          times <- snapshotCreationTimes filesystem;;
          match times with
          | Err e => Ret (Err (Status Internal ("Failed to retrieve snapshot creation time: " +:+ err_text e)))
          | Ok times =>
              let maxEntries := if ls_MaxEntries req <=? 0 then len else ls_MaxEntries req in
              match start_index (ls_StartingToken req) "Invalid starting token" with
              | Err e => Ret (Err e)
              | Ok startIndex =>
                  if negb (String.eqb (ls_StartingToken req) "") && ((startIndex <? 0) || (len <=? startIndex)) then
                    Ret (Ok empty_list)
                  else
                    let endIndex := Z.min (startIndex + maxEntries) len in
                    match snapshot_entries sourceVolumeID subvolumeName protocol sizeBytes times
                            (slice snapshots (Z.to_nat startIndex) (Z.to_nat endIndex)) with
                    | Err e => Ret (Err e)
                    | Ok entries => Ret (Ok (mkListResponse entries (next_token endIndex len)))
                    end
              end
          end
      end
  end.

(** The entries of all managed subvolumes; the creation times are read once
    per filesystem. *)
Fixpoint all_entries (subvols : list Subvolume) (cache : gmap string (gmap string (option Z)))
    (acc : list CSISnapshot) : M (res (list CSISnapshot)) :=
  match subvols with
  | [] => Ret (Ok acc)
  | sv :: rest =>
      let sourceVolumeID := sv_Filesystem sv +:+ "/" +:+ sv_Name sv in
      times <- (match cache !! sv_Filesystem sv with
                | Some times => Ret (Ok times)
                | None => snapshotCreationTimes (sv_Filesystem sv)
                end);;
      match times with
      | Err e => Ret (Err (Status Internal ("Failed to retrieve snapshot creation time: " +:+ err_text e)))
      | Ok times =>
          match snapshot_entries sourceVolumeID (sv_Name sv) (snapshot_protocol (sv_Properties sv))
                  (stored_capacity (sv_Properties sv)) times (sv_Snapshots sv) with
          | Err e => Ret (Err e)
          | Ok entries => all_entries rest (<[sv_Filesystem sv := times]> cache) (acc ++ entries)
          end
      end
  end.

Definition paginate_snapshots (allEntries : list CSISnapshot) (startIndex maxEntries : Z) : list_response CSISnapshot :=
  let len := Z.of_nat (length allEntries) in
  if len <=? startIndex then empty_list
  else
    let endIndex := if (0 <? maxEntries) && (startIndex + maxEntries <? len) then startIndex + maxEntries else len in
    mkListResponse (slice allEntries (Z.to_nat startIndex) (Z.to_nat endIndex)) (next_token endIndex len).

Definition listAllSnapshots (req : ListSnapshotsRequest) : M (res (list_response CSISnapshot)) :=
  let! (subvols, err) := do_ (FindManagedSubvolumes "") in
  match err with
  | Some _ => Ret (Ok empty_list)
  | None =>
      collected <-! all_entries subvols ∅ [];;
      let allEntries := sort_by cs_SnapshotId collected in
      match start_index (ls_StartingToken req) "invalid starting_token" with
      | Err e => Ret (Err e)
      | Ok startIndex => Ret (Ok (paginate_snapshots allEntries startIndex (ls_MaxEntries req)))
      end
  end.

Definition ListSnapshots (req : ListSnapshotsRequest) : M (res (list_response CSISnapshot)) :=
  if ls_MaxEntries req <? 0 then Ret (Err (Status InvalidArgument "max_entries must not be negative"))
  else
    match start_index (ls_StartingToken req) "invalid starting_token" with
    | Err e => Ret (Err e)
    | Ok _ =>
        if negb (String.eqb (ls_SnapshotId req) "") then listSnapshotByID req
        else if negb (String.eqb (ls_SourceVolumeId req) "") then listSnapshotsBySourceVolume req
        else listAllSnapshots req
    end.

Definition ControllerGetSnapshot (snapshotID : string) : M (res CSISnapshot) :=
  if String.eqb snapshotID "" then Ret (Err (Status InvalidArgument "Snapshot ID is required"))
  else
    listResp <-! ListSnapshots (mkListSnapshotsRequest 0 "" snapshotID "");;
    match lr_Entries listResp with
    | [] => Ret (Err (Status NotFound ("Snapshot " +:+ snapshotID +:+ " not found")))
    | snapshot :: _ => Ret (Ok snapshot)
    end.
End Snapshots.
