(* ===== verification/Backend.v ===== *)
(** * A concrete backend for the examples

    A small in-memory backend that answers the operations of the controller the
    way the documentation of the client describes.  It is not part of the
    model: the theorems hold for every backend.  The examples and witnesses
    execute the controller against it. *)

From S2P Require Import Prelude GoStrings Prog Errors Api Metadata Common.

Record world : Type := mkWorld {
  w_subvols : gmap (string * string) Subvolume;
  w_nfs : list NFSShare; w_smb : list SMBShare; w_iscsi : list ISCSITarget; w_nvme : list NVMeOFSubsystem;
  w_snaps : list (string * Snapshot);
  w_next : Z
}.

Definition empty_world : world := mkWorld ∅ [] [] [] [] [] 1.

Definition set_subvols (m : gmap (string * string) Subvolume) (w : world) : world :=
  mkWorld m (w_nfs w) (w_smb w) (w_iscsi w) (w_nvme w) (w_snaps w) (w_next w).
Definition set_shares (nfs : list NFSShare) (smb : list SMBShare) (w : world) : world :=
  mkWorld (w_subvols w) nfs smb (w_iscsi w) (w_nvme w) (w_snaps w) (w_next w + 1).
Definition set_targets (iscsi : list ISCSITarget) (nvme : list NVMeOFSubsystem) (w : world) : world :=
  mkWorld (w_subvols w) (w_nfs w) (w_smb w) iscsi nvme (w_snaps w) (w_next w + 1).
Definition set_snaps (snaps : list (string * Snapshot)) (w : world) : world :=
  mkWorld (w_subvols w) (w_nfs w) (w_smb w) (w_iscsi w) (w_nvme w) snaps (w_next w + 1).

Definition not_found : error := mk_error "subvolume not found" [nastyapi_ErrDatasetNotFound] Unknown.

Definition new_subvol (fs name type : string) (volsize : option Z) (blockfs : string) (created : bool) : Subvolume :=
  let block := String.eqb type subvolumeTypeBlock in
  mkSubvolume fs name type ("/fs/" +:+ fs +:+ "/" +:+ name)
    (if block then None else volsize) (if block then volsize else None) None []
    (if block then Some ("/dev/loop-" +:+ name) else None)
    (if block then Some blockfs else None) (if block then Some "uuid" else None) created.

Definition with_size (z : Z) (sv : Subvolume) : Subvolume :=
  let block := String.eqb (sv_SubvolumeType sv) subvolumeTypeBlock in
  mkSubvolume (sv_Filesystem sv) (sv_Name sv) (sv_SubvolumeType sv) (sv_Path sv)
    (if block then None else Some z) (if block then Some z else None) (sv_Properties sv) (sv_Snapshots sv)
    (sv_BlockDevice sv) (sv_BlockFilesystem sv) (sv_BlockFilesystemUUID sv) (sv_Created sv).

Definition with_created (c : bool) (sv : Subvolume) : Subvolume :=
  mkSubvolume (sv_Filesystem sv) (sv_Name sv) (sv_SubvolumeType sv) (sv_Path sv) (sv_QuotaBytes sv)
    (sv_VolsizeBytes sv) (sv_Properties sv) (sv_Snapshots sv) (sv_BlockDevice sv) (sv_BlockFilesystem sv)
    (sv_BlockFilesystemUUID sv) c.

Definition renamed (name : string) (sv : Subvolume) : Subvolume :=
  mkSubvolume (sv_Filesystem sv) name (sv_SubvolumeType sv) ("/fs/" +:+ sv_Filesystem sv +:+ "/" +:+ name)
    (sv_QuotaBytes sv) (sv_VolsizeBytes sv) (sv_Properties sv) []
    (match sv_BlockDevice sv with Some _ => Some ("/dev/loop-" +:+ name) | None => None end)
    (sv_BlockFilesystem sv) (sv_BlockFilesystemUUID sv) true.

Definition with_snapshot (name : string) (sv : Subvolume) : Subvolume :=
  mkSubvolume (sv_Filesystem sv) (sv_Name sv) (sv_SubvolumeType sv) (sv_Path sv) (sv_QuotaBytes sv)
    (sv_VolsizeBytes sv) (sv_Properties sv) (sv_Snapshots sv ++ [name]) (sv_BlockDevice sv) (sv_BlockFilesystem sv)
    (sv_BlockFilesystemUUID sv) (sv_Created sv).

Section Backend.
Context {api : NastyAPI}.

Definition w_list (w : world) : list Subvolume := map snd (map_to_list (w_subvols w)).

Definition with_prop (key value : string) (w : world) : list Subvolume :=
  List.filter (fun sv => bool_decide (map_lookup (sv_Properties sv) key = Some value)) (w_list w).

Definition id_of (w : world) : string := "id-" +:+ FormatInt (w_next w).

(** The update of an existing subvolume, or its absence. *)
Definition update (fs name : string) (f : Subvolume -> Subvolume) (w : world) : ptr_err Subvolume * world :=
  match w_subvols w !! (fs, name) with
  | Some sv => ((Some (f sv), None), set_subvols (<[(fs, name) := f sv]> (w_subvols w)) w)
  | None => ((None, Some not_found), w)
  end.

Definition clone_from (fs name newName : string) (w : world) : ptr_err Subvolume * world :=
  match w_subvols w !! (fs, name) with
  | Some sv => ((Some (renamed newName sv), None), set_subvols (<[(fs, newName) := renamed newName sv]> (w_subvols w)) w)
  | None => ((None, Some not_found), w)
  end.

Definition backend (o : cop) : world -> cans o * world :=
  match o return world -> cans o * world with
  | QueryFilesystem _ => fun w => ((Some (mkFilesystem 1099511627776 (Some true)), None), w)
  | CreateSubvolume p => fun w =>
      let sv := new_subvol (scp_Filesystem p) (scp_Name p) (scp_SubvolumeType p) (scp_VolsizeBytes p)
                  (scp_BlockFilesystem p) in
      match w_subvols w !! (scp_Filesystem p, scp_Name p) with
      | Some old => ((Some (with_created false old), None), w)
      | None => ((Some (sv true), None), set_subvols (<[(scp_Filesystem p, scp_Name p) := sv false]> (w_subvols w)) w)
      end
  | DeleteSubvolume fs name => fun w =>
      match w_subvols w !! (fs, name) with
      | Some _ => (None, set_subvols (delete (fs, name) (w_subvols w)) w)
      | None => (Some not_found, w)
      end
  | GetSubvolume fs name => fun w =>
      match w_subvols w !! (fs, name) with
      | Some sv => ((Some sv, None), w)
      | None => ((None, Some not_found), w)
      end
  | SetSubvolumeProperties fs name props => fun w =>
      update fs name (fun sv => set_Properties (Some (props ∪ default ∅ (sv_Properties sv))) sv) w
  | FindSubvolumesByProperty key value _ => fun w => ((with_prop key value w, None), w)
  | FindManagedSubvolumes _ => fun w => ((with_prop PropertyManagedBy ManagedByValue w, None), w)
  | FindSubvolumeByCSIVolumeName _ name => fun w =>
      match with_prop PropertyCSIVolumeName name w with
      | sv :: _ => ((Some sv, None), w)
      | [] => ((None, Some not_found), w)
      end
  | ResizeSubvolume fs name z => update fs name (with_size z)
  | CloneSubvolume fs name newName => clone_from fs name newName
  | CloneSnapshot p => clone_from (snk_Filesystem p) (snk_Subvolume p) (snk_NewName p)
  | api_CreateSnapshot p => fun w =>
      let sn := mkSnapshot (sncp_Name p) (sncp_Subvolume p) (Some (1700000000 + w_next w)) in
      let '(_, w) := update (sncp_Filesystem p) (sncp_Subvolume p) (with_snapshot (sncp_Name p)) w in
      ((Some sn, None), set_snaps (w_snaps w ++ [(sncp_Filesystem p, sn)]) w)
  | api_DeleteSnapshot fs sub name => fun w => (None, w)
  | api_ListSnapshots fs => fun w =>
      ((map snd (List.filter (fun x => String.eqb x.1 fs) (w_snaps w)), None), w)
  | CreateNFSShare p => fun w =>
      let sh := mkNFSShare (id_of w) (nfp_Path p) (Some (nfp_Comment p)) true in
      ((Some sh, None), set_shares (w_nfs w ++ [sh]) (w_smb w) w)
  | DeleteNFSShare id => fun w =>
      (None, set_shares (List.filter (fun sh => negb (String.eqb (nfs_ID sh) id)) (w_nfs w)) (w_smb w) w)
  | ListNFSShares => fun w => ((w_nfs w, None), w)
  | GetNFSShare id => fun w => ((List.find (fun sh => String.eqb (nfs_ID sh) id) (w_nfs w), None), w)
  | CreateSMBShare p => fun w =>
      let sh := mkSMBShare (id_of w) (smp_Name p) (smp_Path p) (Some (smp_Comment p)) true in
      ((Some sh, None), set_shares (w_nfs w) (w_smb w ++ [sh]) w)
  | DeleteSMBShare id => fun w =>
      (None, set_shares (w_nfs w) (List.filter (fun sh => negb (String.eqb (smb_ID sh) id)) (w_smb w)) w)
  | ListSMBShares => fun w => ((w_smb w, None), w)
  | GetSMBShare id => fun w => ((List.find (fun sh => String.eqb (smb_ID sh) id) (w_smb w), None), w)
  | CreateISCSITarget p => fun w =>
      let tg := mkISCSITarget (id_of w) ("iqn.2137-04.storage.nasty:" +:+ ToLower (bcp_Name p)) [bcp_DevicePath p] in
      ((Some tg, None), set_targets (w_iscsi w ++ [tg]) (w_nvme w) w)
  | DeleteISCSITarget id => fun w =>
      (None, set_targets (List.filter (fun tg => negb (String.eqb (it_ID tg) id)) (w_iscsi w)) (w_nvme w) w)
  | ListISCSITargets => fun w => ((w_iscsi w, None), w)
  | GetISCSITargetByIQN iqn => fun w =>
      match List.find (fun tg => String.eqb (it_IQN tg) iqn) (w_iscsi w) with
      | Some tg => ((Some tg, None), w)
      | None => ((None, Some not_found), w)
      end
  | CreateNVMeOFSubsystem p => fun w =>
      let ss := mkNVMeOFSubsystem (id_of w) ("nqn.2137-04.storage.nasty:" +:+ bcp_Name p) [bcp_DevicePath p] in
      ((Some ss, None), set_targets (w_iscsi w) (w_nvme w ++ [ss]) w)
  | DeleteNVMeOFSubsystem id => fun w =>
      (None, set_targets (w_iscsi w) (List.filter (fun ss => negb (String.eqb (ns_ID ss) id)) (w_nvme w)) w)
  | ListNVMeOFSubsystems => fun w => ((w_nvme w, None), w)
  | GetNVMeOFSubsystemByNQN nqn => fun w =>
      match List.find (fun ss => String.eqb (ns_NQN ss) nqn) (w_nvme w) with
      | Some ss => ((Some ss, None), w)
      | None => ((None, Some not_found), w)
      end
  | GetPVCAnnotations _ _ => fun w => (Ok None, w)
  | TimeNow => fun w => ("2026-01-01T00:00:00Z", w)
  | RandRead n => fun w => (Ok (map (fun i => (Z.of_nat i * 37 + w_next w) mod 256) (seq 0 n)), w)
  | Sleep _ => fun w => (tt, w)
  | CtxErr => fun w => (None, w)
  | WaitOrDone _ => fun w => (None, w)
  | ObserveSuccess _ => fun w => (tt, w)
  | ObserveError _ => fun w => (tt, w)
  | SetVolumeCapacity _ _ _ => fun w => (tt, w)
  | DeleteVolumeCapacity _ _ => fun w => (tt, w)
  | LockIdentity => fun w => (tt, w)
  | UnlockIdentity => fun w => (tt, w)
  end.

(** The same backend, refusing every property write. *)
Definition unwritable (o : cop) : world -> cans o * world :=
  match o return world -> cans o * world with
  | SetSubvolumeProperties _ _ _ => fun w => ((None, Some (mk_error "permission denied" [] Unknown)), w)
  | o => backend o
  end.

(** The outcome, the final state and the trace of a program. *)
Definition play {A : Type} (p : M A) (w : world) : outcome A * world * history :=
  run (Sg := csig) backend p w.

Definition after {A : Type} (p : M A) (w : world) : world := (play p w).1.2.
Definition answer_of {A : Type} (p : M A) (w : world) : outcome A := (play p w).1.1.
Definition trace_of {A : Type} (p : M A) (w : world) : history := (play p w).2.

Lemma play_exec {A : Type} (p : M A) (w : world) : exec p (trace_of p w) (answer_of p w).
Proof. apply run_exec. Qed.
End Backend.

(** A trace cut before its first operation of a kind. *)
Fixpoint cut (kind : cop -> bool) (tr : history) : option (history * history) :=
  match tr with
  | [] => None
  | e :: tr' =>
      if kind (projT1 e) then Some ([], tr')
      else match cut kind tr' with Some (a, b) => Some (e :: a, b) | None => None end
  end.

Definition cut_before (kind : cop -> bool) (tr : history) : history := default [] (fst <$> cut kind tr).
Definition cut_after (kind : cop -> bool) (tr : history) : history := default [] (snd <$> cut kind tr).
