(* ===== verification/Lifecycle.v ===== *)
(** * Executions of the model

    The controller run against the concrete backend of [Backend.v]: the
    lifecycle of a volume of each protocol.  These examples exercise the model
    end to end; the witnesses of the general theorems reuse their worlds. *)

From S2P Require Import Prelude GoStrings Prog Errors Api Metadata Capacity Names SnapshotId Common Controller Snapshots Backend.

#[local] Existing Instance doc_api.
#[local] Existing Instance field_templates.
#[local] Existing Instance proto_timestamps.

Definition demo_service : service := mkService "" false.

Definition demo_params (protocol : string) : gomap :=
  Some {[ "protocol" := protocol; "filesystem" := "tank"; "server" := "10.0.0.1" ]}.

Definition mount_rw : list VolumeCapability := [mkVolumeCapability (Mount "") SINGLE_NODE_WRITER].

Definition demo_request (protocol name : string) : CreateVolumeRequest :=
  mkCreateVolumeRequest name (Some (mkCapacityRange 1073741824 0)) mount_rw (demo_params protocol) None.

Definition demo_clone (protocol name source : string) : CreateVolumeRequest :=
  mkCreateVolumeRequest name (Some (mkCapacityRange 1073741824 0)) mount_rw (demo_params protocol)
    (Some (SourceVolume source)).

Definition created_world (protocol name : string) : world :=
  after (CreateVolume demo_service (demo_request protocol name)) empty_world.

(** What a successful answer says. *)
Definition summary (o : outcome (res Volume)) : option (string * Z) :=
  match o with
  | Done (Ok v) => Some (v_VolumeId v, v_CapacityBytes v)
  | _ => None
  end.

Definition is_done_ok {A : Type} (o : outcome (res A)) : bool :=
  match o with Done (Ok _) => true | _ => false end.

(** Creating twice gives the same volume; the second time nothing is created. *)
Example create_idempotent :
  forallb (fun protocol =>
    let req := demo_request protocol "pvc-1" in
    let w := created_world protocol "pvc-1" in
    bool_decide (summary (answer_of (CreateVolume demo_service req) empty_world) = Some ("tank/pvc-1", 1073741824)) &&
    bool_decide (summary (answer_of (CreateVolume demo_service req) w) = Some ("tank/pvc-1", 1073741824)) &&
    bool_decide (size (w_subvols (after (CreateVolume demo_service req) w)) = 1%nat))
    ["nfs"; "smb"; "iscsi"; "nvmeof"] = true.
Proof. vm_compute. reflexivity. Qed.

(** Deleting removes the subvolume and its presentation, and succeeds again. *)
Example delete_all :
  forallb (fun protocol =>
    let w := after (DeleteVolume "tank/pvc-1") (created_world protocol "pvc-1") in
    is_done_ok (answer_of (DeleteVolume "tank/pvc-1") (created_world protocol "pvc-1")) &&
    is_done_ok (answer_of (DeleteVolume "tank/pvc-1") w) &&
    bool_decide (w_subvols w = ∅) && bool_decide (length (w_nfs w) + length (w_smb w) = 0)%nat &&
    bool_decide (length (w_iscsi w) + length (w_nvme w) = 0)%nat)
    ["nfs"; "smb"; "iscsi"; "nvmeof"] = true.
Proof. vm_compute. reflexivity. Qed.

(** Expanding to 2 GiB. *)
Example expand_all :
  forallb (fun protocol =>
    match answer_of (ControllerExpandVolume (mkExpandRequest "tank/pvc-1" (Some (mkCapacityRange 2147483648 0)) None))
            (created_world protocol "pvc-1") with
    | Done (Ok (cap, node)) => (cap =? 2147483648) && Bool.eqb node (Capabilities.is_block_protocol protocol)
    | _ => false
    end)
    ["nfs"; "smb"; "iscsi"; "nvmeof"] = true.
Proof. vm_compute. reflexivity. Qed.

(** A clone is a second volume with its own identity. *)
Example clone_all :
  forallb (fun protocol =>
    let req := demo_clone protocol "pvc-2" "tank/pvc-1" in
    let w := after (CreateVolume demo_service req) (created_world protocol "pvc-1") in
    bool_decide (summary (answer_of (CreateVolume demo_service req) (created_world protocol "pvc-1"))
                 = Some ("tank/pvc-2", 1073741824)) &&
    match w_subvols w !! ("tank", "pvc-1"), w_subvols w !! ("tank", "pvc-2") with
    | Some a, Some b =>
        String.eqb (sv_Properties b).[propertyCSIRequestName] "pvc-2" &&
        negb (String.eqb (sv_Properties a).[propertyVolumeUUID] (sv_Properties b).[propertyVolumeUUID])
    | _, _ => false
    end)
    ["nfs"; "smb"; "iscsi"; "nvmeof"] = true.
Proof. vm_compute. reflexivity. Qed.

(** Snapshots are listed with their IDs. *)
Example snapshot_listing :
  let w := after (CreateSnapshot "snap-1" "tank/pvc-1") (created_world "nfs" "pvc-1") in
  answer_of (ListSnapshots (mkListSnapshotsRequest 0 "" "" "tank/pvc-1")) w
  = Done (Ok (mkListResponse [mkCSISnapshot "nfs:tank/pvc-1@snap-1" "tank/pvc-1" 1700000002 1073741824] "")).
Proof. vm_compute. reflexivity. Qed.
