(* ===== verification/Deletion.v ===== *)
(** * Safety of DeleteVolume

    What every execution of [Controller.DeleteVolume] may do, whatever the
    backend answers: nothing is destroyed that the backend has not just shown
    to be the driver's, storage goes last, and an uncertain deletion is not
    repeated. *)

From S2P Require Import Prelude GoStrings Prog Errors Api Metadata Capacity Names Retry Identity Capabilities Ownership Common Nfs Smb Iscsi Nvmeof Controller Backend Lifecycle.

(** ** What a history shows *)

Section Facts.
Context {api : NastyAPI}.

(** The properties that make a subvolume the driver's to delete: managed,
    recorded under this name and protocol if under any, not retained. *)
Record deletable (sv : Subvolume) (name protocol : string) : Prop := {
  del_managed : (sv_Properties sv).[PropertyManagedBy] = ManagedByValue;
  del_name : forall n, map_lookup (sv_Properties sv) PropertyCSIVolumeName = Some n -> n = name;
  del_protocol : forall p, map_lookup (sv_Properties sv) PropertyProtocol = Some p -> p = protocol;
  del_strategy : DeleteStrategyRetain <> "" ->
    map_lookup (sv_Properties sv) PropertyDeleteStrategy <> Some DeleteStrategyRetain
}.

(** The backend showed a deletable subvolume at this place.  [datasetName] is
    the name of the volume that was looked up; it is the subvolume's unless
    a filesystem name contains a slash. *)
Definition shown_deletable (h : history) (protocol fs name : string) : Prop :=
  exists sv datasetFs datasetName,
    cev (GetSubvolume fs name) (Some sv, None) ∈ h /\
    fs +:+ "/" +:+ name = datasetFs +:+ "/" +:+ datasetName /\
    deletable sv datasetName protocol.

(** What the lookup of the volume ID was answered with. *)
Definition lookup_answer (h : history) (volumeID : string) (answer : ptr_err Subvolume) : Prop :=
  (exists fs n, splitSubvolumeID volumeID = Ok (fs, n) /\ cev (GetSubvolume fs n) answer ∈ h) \/
  (isDatasetPathVolumeID volumeID = false /\ cev (FindSubvolumeByCSIVolumeName "" volumeID) answer ∈ h).

(** The answer says that there is no such subvolume. *)
Definition reported_absent (answer : ptr_err Subvolume) : Prop :=
  match answer with
  | (_, Some e) => errors_Is e nastyapi_ErrDatasetNotFound = true \/ isNotFoundError (Some e) = true
  | (sv, None) => sv = None
  end.

(** The lookup of the volume ID was answered with a subvolume at this path and of
    this protocol. *)
Definition located (h : history) (volumeID protocol path : string) : Prop :=
  exists sv, lookup_answer h volumeID (Some sv, None) /\ path = sv_Filesystem sv +:+ "/" +:+ sv_Name sv /\
    (sv_Properties sv).[PropertyProtocol] = protocol.

(** The subvolume of the volume, shown to be the driver's to delete. *)
Definition owned (h : history) (volumeID protocol fs name : string) : Prop :=
  located h volumeID protocol (fs +:+ "/" +:+ name) /\ shown_deletable h protocol fs name.

(** The backend listed this share at the path of the subvolume, or found this
    target or subsystem under the name that a deletion looks for. *)
Definition presented (h : history) (fs name : string) (o : cop) : Prop :=
  match o with
  | DeleteNFSShare id => exists shares share, cev ListNFSShares (shares, None) ∈ h /\ share ∈ shares /\
      nfs_ID share = id /\ nfs_Path share = "/fs/" +:+ fs +:+ "/" +:+ name
  | DeleteSMBShare id => exists shares share, cev ListSMBShares (shares, None) ∈ h /\ share ∈ shares /\
      smb_ID share = id /\ smb_Path share = "/fs/" +:+ fs +:+ "/" +:+ name
  | DeleteISCSITarget id => exists tg, cev (GetISCSITargetByIQN (generateIQN name)) (Some tg, None) ∈ h /\ it_ID tg = id
  | DeleteNVMeOFSubsystem id =>
      exists ss, cev (GetNVMeOFSubsystemByNQN (deletion_nqn_prefix +:+ name)) (Some ss, None) ∈ h /\ ns_ID ss = id
  | _ => False
  end.

(** Every presentation of the subvolume that the backend listed or found is
    gone: removed, or reported absent. *)
Inductive presentation_gone (h : history) (fs name : string) : string -> Prop :=
| gone_nfs shares :
    cev ListNFSShares (shares, None) ∈ h ->
    (forall share, share ∈ shares -> nfs_Path share = "/fs/" +:+ fs +:+ "/" +:+ name ->
       exists r, cev (DeleteNFSShare (nfs_ID share)) r ∈ h /\ query_failed r = None) ->
    presentation_gone h fs name ProtocolNFS
| gone_smb shares :
    cev ListSMBShares (shares, None) ∈ h ->
    (forall share, share ∈ shares -> smb_Path share = "/fs/" +:+ fs +:+ "/" +:+ name ->
       exists r, cev (DeleteSMBShare (smb_ID share)) r ∈ h /\ query_failed r = None) ->
    presentation_gone h fs name ProtocolSMB
| gone_iscsi target lookupErr :
    cev (GetISCSITargetByIQN (generateIQN name)) (target, lookupErr) ∈ h ->
    query_failed lookupErr = None ->
    (forall tg, lookupErr = None -> target = Some tg -> it_ID tg <> "" ->
       exists r, cev (DeleteISCSITarget (it_ID tg)) r ∈ h /\ query_failed r = None) ->
    presentation_gone h fs name ProtocolISCSI
| gone_nvmeof subsystem lookupErr :
    cev (GetNVMeOFSubsystemByNQN (deletion_nqn_prefix +:+ name)) (subsystem, lookupErr) ∈ h ->
    query_failed lookupErr = None ->
    (forall ss, lookupErr = None -> subsystem = Some ss -> ns_ID ss <> "" ->
       exists r, cev (DeleteNVMeOFSubsystem (ns_ID ss)) r ∈ h /\ query_failed r = None) ->
    presentation_gone h fs name ProtocolNVMeOF.

(** Some deletion's outcome is unknown. *)
Definition uncertain_deletion (h : history) : Prop :=
  exists fs name e, cev (DeleteSubvolume fs name) (Some e) ∈ h /\ errors_Is e nastyapi_ErrUncertainOutcome = true.

Definition is_deletion (e : event csig) : bool :=
  match projT1 e with DeleteSubvolume _ _ => true | _ => false end.

(** How many times a subvolume deletion was sent. *)
Definition deletions (h : history) : nat := length (List.filter is_deletion h).

(** The most deletions one request may send: the first and the retries. *)
Definition max_deletions : nat := 13.

(** ** The policy of a deletion *)

Definition delete_allow (volumeID : string) (h : history) (o : cop) : Prop :=
  match o with
  | GetSubvolume _ _ | FindSubvolumeByCSIVolumeName _ _
  | ListNFSShares | ListSMBShares | GetISCSITargetByIQN _ | GetNVMeOFSubsystemByNQN _
  | CtxErr | WaitOrDone _ | ObserveSuccess _ | ObserveError _ | DeleteVolumeCapacity _ _ => True
  | DeleteNFSShare _ => exists fs name, owned h volumeID ProtocolNFS fs name /\ presented h fs name o
  | DeleteSMBShare _ => exists fs name, owned h volumeID ProtocolSMB fs name /\ presented h fs name o
  | DeleteISCSITarget _ => exists fs name, owned h volumeID ProtocolISCSI fs name /\ presented h fs name o
  | DeleteNVMeOFSubsystem _ => exists fs name, owned h volumeID ProtocolNVMeOF fs name /\ presented h fs name o
  | DeleteSubvolume fs name =>
      (exists protocol, owned h volumeID protocol fs name /\ presentation_gone h fs name protocol) /\
      ~ uncertain_deletion h /\ (deletions h < max_deletions)%nat
  | _ => False
  end.

Definition delete_policy (volumeID : string) : policy csig :=
  {| allow h o := delete_allow volumeID h o; env := any_env; crash := False |}.

(** ** Monotonicity *)

Lemma shown_deletable_app h t p fs n : shown_deletable h p fs n -> shown_deletable (h ++ t) p fs n.
Proof. intros (sv & dfs & dn & H & ?). exists sv, dfs, dn. auto with csi. Qed.

Lemma lookup_answer_app h t id a : lookup_answer h id a -> lookup_answer (h ++ t) id a.
Proof. intros [(fs & n & ? & ?)|[? ?]]; [left; exists fs, n|right]; auto with csi. Qed.

Lemma located_app h t id p path : located h id p path -> located (h ++ t) id p path.
Proof. intros (sv & H & ?). exists sv. split; [by apply lookup_answer_app|done]. Qed.

Lemma owned_app h t id p fs n : owned h id p fs n -> owned (h ++ t) id p fs n.
Proof. intros [H1 H2]. split; [by apply located_app|by apply shown_deletable_app]. Qed.

Lemma presentation_gone_app h t p fs n : presentation_gone h fs n p -> presentation_gone (h ++ t) fs n p.
Proof.
  intros [shares H1 H2|shares H1 H2|tg e H1 H2 H3|ss e H1 H2 H3];
    [eapply gone_nfs|eapply gone_smb|eapply gone_iscsi|eapply gone_nvmeof]; eauto with csi;
    intros x Hx Hy; [destruct (H2 x Hx Hy) as (r & ? & ?)|destruct (H2 x Hx Hy) as (r & ? & ?)|
                     intros Hz; destruct (H3 x Hx Hy Hz) as (r & ? & ?)|
                     intros Hz; destruct (H3 x Hx Hy Hz) as (r & ? & ?)]; eauto with csi.
Qed.

Lemma deletions_app h t : deletions (h ++ t) = (deletions h + deletions t)%nat.
Proof. unfold deletions. rewrite List.filter_app. by rewrite length_app. Qed.

Lemma uncertain_app h t : uncertain_deletion (h ++ t) <-> uncertain_deletion h \/ uncertain_deletion t.
Proof.
  unfold uncertain_deletion. setoid_rewrite elem_of_app. split.
  - intros (fs & n & e & [H|H] & He); [left|right]; eauto.
  - intros [(fs & n & e & H & He)|(fs & n & e & H & He)]; eauto 8.
Qed.

(** No deletion has been sent yet. *)
Definition untouched (h : history) : Prop := deletions h = 0%nat.

Lemma untouched_certain h : untouched h -> ~ uncertain_deletion h.
Proof.
  intros H (fs & n & e & Hin & _). unfold untouched, deletions in H.
  assert (cev (DeleteSubvolume fs n) (Some e) ∈ List.filter is_deletion h) as Hf.
  { apply list_elem_of_In, List.filter_In. split; [by apply list_elem_of_In|done]. }
  destruct (List.filter is_deletion h); [by apply elem_of_nil in Hf|done].
Qed.

Lemma untouched_snoc h o r : untouched h -> is_deletion (cev o r) = false -> untouched (h ++ [cev o r]).
Proof. intros H E. unfold untouched. rewrite deletions_app, H. unfold deletions. simpl. by rewrite E. Qed.
End Facts.

#[export] Hint Resolve shown_deletable_app lookup_answer_app located_app owned_app presentation_gone_app untouched_snoc : csi.

Section Specs.
Context {api : NastyAPI} {tt_ : TextTemplate} (volumeID : string).

Abbreviation dwp := (wp (delete_policy volumeID)).

(** The backend accepted the deletion or reported absence. *)
Definition deletion_accepted (h : history) (fs name : string) : Prop :=
  exists r, cev (DeleteSubvolume fs name) r ∈ h /\ query_failed r = None.

Lemma deletion_accepted_app h t fs n : deletion_accepted h fs n -> deletion_accepted (h ++ t) fs n.
Proof. intros (r & H & ?). exists r. auto with csi. Qed.

(** May be deleted: shown to be ours and not presented any more. *)
Definition ready (h : history) (fs name : string) : Prop :=
  exists protocol, owned h volumeID protocol fs name /\ presentation_gone h fs name protocol.

Lemma ready_app h t fs n : ready h fs n -> ready (h ++ t) fs n.
Proof. intros (p & ? & ?). exists p. auto with csi. Qed.
Hint Resolve deletion_accepted_app ready_app : csi.

Definition deletion_answer (e : event csig) : option (option error) :=
  match e with
  | existT o r => match o return cans o -> option (option error) with DeleteSubvolume _ _ => fun r => Some r | _ => fun _ => None end r
  end.

(** One more deletion that did not fail with an uncertain outcome. *)
Lemma deletion_step h fs n r k :
  deletions h = k -> ~ uncertain_deletion h ->
  (forall e, r = Some e -> errors_Is e nastyapi_ErrUncertainOutcome = false) ->
  deletions (h ++ [cev (DeleteSubvolume fs n) r]) = S k /\
  ~ uncertain_deletion (h ++ [cev (DeleteSubvolume fs n) r]).
Proof.
  intros Hk Hu Hr. split; [rewrite deletions_app; unfold deletions at 2; simpl; lia|].
  rewrite uncertain_app. intros [?|(fs' & n' & e & H & He)]; [done|].
  apply list_elem_of_singleton in H. apply (f_equal deletion_answer) in H. injection H as H.
  by rewrite (Hr e) in He.
Qed.

Lemma untouched_deletions h : untouched h -> deletions h = 0%nat /\ ~ uncertain_deletion h.
Proof. intros H. split; [done|]. by apply untouched_certain. Qed.

(** Before attempt [k + 1] of the retries [k + 1] deletions were sent, none
    of uncertain outcome. *)
Definition attempt_inv (fs n : string) (k : nat) (h : history) : Prop :=
  deletions h = S k /\ ~ uncertain_deletion h /\ ready h fs n.

Lemma attempt_inv_snoc fs n k h o r :
  attempt_inv fs n k h -> is_deletion (cev o r) = false -> attempt_inv fs n k (h ++ [cev o r]).
Proof.
  intros (H1 & H2 & H3) E. split; [|split]; [|rewrite uncertain_app|auto with csi].
  - rewrite deletions_app, H1. unfold deletions. simpl. rewrite E. simpl. lia.
  - intros [?|(fs' & n' & e & H & _)]; [done|]. apply list_elem_of_singleton in H.
    rewrite <- H in E. discriminate E.
Qed.
Hint Resolve attempt_inv_snoc : csi.

Lemma attempt_inv_next fs n k h e :
  attempt_inv fs n k h -> errors_Is e nastyapi_ErrUncertainOutcome = false ->
  attempt_inv fs n (S k) (h ++ [cev (DeleteSubvolume fs n) (Some e)]).
Proof.
  intros (H1 & H2 & H3) He. split; [|split]; [| |auto with csi];
    apply (deletion_step h fs n (Some e) (S k)); try done; by intros ? [= <-].
Qed.

Lemma gives_up_deletion op e :
  gives_up (with_defaults (DeletionConfig op)) e = false -> errors_Is e nastyapi_ErrUncertainOutcome = false.
Proof. unfold gives_up. intros H. by apply orb_false_iff in H as [H _]. Qed.

Lemma wp_deletion_retries h fs n operation :
  attempt_inv fs n 0 h ->
  dwp h (WithRetryNoResult (DeletionConfig operation) (delete_absent_ok fs n))
    (fun r h' => r = None -> deletion_accepted h' fs n).
Proof.
  intros HI. unfold WithRetryNoResult. wp_step.
  eapply wp_mono; cycle 1.
  { unfold WithRetry. cbv zeta.
    refine (wp_retry_loop (delete_policy volumeID) (with_defaults (DeletionConfig operation)) _ (attempt_inv fs n)
             (fun r h' => is_ok r = true -> deletion_accepted h' fs n) 12 _ eq_refl 12 0 _ _ h eq_refl _ HI); [|lia].
    intros k h' HI' Hk. apply wp_do; [done|]. intros c _. cbv beta. destruct c as [c|]; [done|].
    assert (attempt_inv fs n k (h' ++ [cev CtxErr None])) as HI1 by auto with csi.
    unfold delete_absent_ok. do 2 wp_step. apply wp_do.
    { destruct HI1 as (H1 & H2 & H3). split; [exact H3|]. split; [done|]. rewrite H1. unfold max_deletions. lia. }
    intros r _. cbv beta. wp_step. wp_step. destruct (query_failed r) as [e|] eqn:Er.
    - assert (r = Some e) as ->.
      { destruct r as [e'|]; [|done]. unfold query_failed in Er. destruct (isNotFoundError _); congruence. }
      destruct (gives_up _ e) eqn:Eg; [done|].
      pose proof (attempt_inv_next fs n k _ e HI1 (gives_up_deletion _ _ Eg)) as HI2.
      case_match; [|by split].
      intros b. apply wp_do; [done|]. intros d _. destruct d; [done|]. auto with csi.
    - intros _. exists r. auto with csi. }
  intros r h' Hr. wp_step. destruct r; [|done]. intros _. by apply Hr.
Qed.

Lemma wp_delete_subvolume_with_retry h t fs n operation failed :
  untouched h -> ready h fs n ->
  dwp h (delete_subvolume_with_retry t fs n operation failed)
    (fun r h' => is_ok r = true -> deletion_accepted h' fs n).
Proof.
  intros H0 Hr. destruct (untouched_deletions h H0) as [Hk Hu].
  unfold delete_subvolume_with_retry. wp_step. apply wp_do.
  { simpl. split; [exact Hr|]. split; [done|]. rewrite Hk. unfold max_deletions. lia. }
  intros first _. cbv beta. destruct first as [e|]; [|wp_step; intros _; exists None; auto with csi].
  destruct (errors_Is e nastyapi_ErrUncertainOutcome) eqn:Ee; [by apply wp_fail|].
  destruct (isNotFoundError (Some e)) eqn:En.
  { wp_step. intros _. exists (Some e). split; [auto with csi|]. unfold query_failed. by rewrite En. }
  wp_step. eapply wp_mono; [|apply wp_deletion_retries].
  - intros [e'|] h' Hr'; [by apply wp_fail|]. wp_step. auto.
  - split; [|split; [|auto with csi]]; apply (deletion_step h fs n (Some e) 0); try done; by intros ? [= <-].
Qed.

(** ** Shares *)

(** [J] holds once the shares are listed; [removed] of every one at the path. *)
Lemma wp_deleteShareByPath {T} (P : policy csig) h (list_ : M (list_err T)) (identity_ : T -> string * string)
    (remove : string -> M (option error)) protocol path (J : list T -> history -> Prop)
    (removed : string -> history -> Prop) (Q : res unit -> history -> Prop) :
  (forall id h t, removed id h -> removed id (h ++ t)) ->
  (forall shares share h, J shares h -> share ∈ shares -> (identity_ share).2 = path ->
     wp P h (remove (identity_ share).1) (fun r h' => J shares h' /\ (query_failed r = None -> removed (identity_ share).1 h'))) ->
  (forall e h, Q (Err e) h) ->
  wp P h list_ (fun a h' => a.2 = None -> J a.1 h' /\ forall h'', J a.1 h'' ->
      (exists t, h'' = h' ++ t) ->
      (forall share, share ∈ a.1 -> (identity_ share).2 = path -> removed (identity_ share).1 h'') -> Q (Ok tt) h'') ->
  wp P h (deleteShareByPath protocol path list_ identity_ remove) Q.
Proof.
  intros Hmono Hrem Herr Hlist. unfold deleteShareByPath. wp_step. eapply wp_mono; [|exact Hlist].
  intros [shares [e|]] h1 HJQ; cbv beta iota; cbn [fst snd] in HJQ; [wp_step; auto|]. wp_step.
  destruct (HJQ eq_refl) as [HJ HQ]. clear HJQ.
  apply (wp_for_range P (fun done_ h' => J shares h' /\ (exists t, h' = h1 ++ t) /\
    forall share, share ∈ done_ -> (identity_ share).2 = path -> removed (identity_ share).1 h')).
  - split; [done|]. split; [exists []; by rewrite app_nil_r|]. intros share H. by apply elem_of_nil in H.
  - intros done_ share rest h' E (HJ' & [t ->] & Hd).
    assert (share ∈ shares) as Hin by (rewrite E; apply elem_of_app; right; by left).
    pose proof (Hrem shares share (h1 ++ t) HJ' Hin) as Hone. destruct (identity_ share) as [id p] eqn:Ei. cbn [fst snd] in Hone.
    destruct (String.eqb_spec p path) as [->|Hp]; simpl negb; cbv iota.
    + wp_step. eapply wp_mono; [|apply wp_grows, Hone; reflexivity].
      intros r h'' [[HJ'' Hr] [t' ->]]. destruct (query_failed r) as [e|]; wp_step; cbv beta iota.
      * wp_step. by apply Herr.
      * split; [done|]. split; [exists (t ++ t'); by rewrite app_assoc|].
        intros sh [H|H]%elem_of_app Hsh; [by apply Hmono, Hd|].
        apply list_elem_of_singleton in H. subst sh. rewrite Ei. by apply Hr.
    + wp_step. split; [done|]. split; [by exists t|]. intros sh [H|H]%elem_of_app Hsh; [by apply Hd|].
      apply list_elem_of_singleton in H. subst sh. by rewrite Ei in Hsh.
  - intros h' (HJ' & Ht & Hd). wp_step. by apply HQ.
Qed.

(** What the lookup hands to the protocols' deletions. *)
Record looked_up (meta : VolumeMetadata) : Prop := {
  lu_id : exists datasetFs, m_DatasetID meta = datasetFs +:+ "/" +:+ m_DatasetName meta;
  lu_nfs : m_NFSShareUUID meta = "";
  lu_smb : m_SMBShareUUID meta = "";
  lu_iqn : m_ISCSIIQN meta = "";
  lu_nqn : m_NVMeOFNQN meta = ""
}.

Lemma validate_deletable sv meta p :
  validateDeletionOwnership (Some sv) meta p = Ok tt ->
  (DeleteStrategyRetain <> "" -> map_lookup (sv_Properties sv) PropertyDeleteStrategy <> Some DeleteStrategyRetain) ->
  deletable sv (m_DatasetName meta) p.
Proof.
  unfold validateDeletionOwnership. intros H Hs.
  destruct (String.eqb_spec (sv_Properties sv).[PropertyManagedBy] ManagedByValue) as [Hm|]; simpl in H; [|done].
  destruct (match map_lookup _ PropertyCSIVolumeName with Some _ => _ | None => _ end) eqn:Hn; [done|].
  destruct (match map_lookup _ PropertyProtocol with Some _ => _ | None => _ end) eqn:Hp; [done|].
  split; [done|..|done]; intros x E; rewrite E in *; bool_to_prop; congruence.
Qed.

Lemma strategy_of_retained props :
  strategy_of props <> DeleteStrategyRetain -> DeleteStrategyRetain <> "" ->
  map_lookup props PropertyDeleteStrategy <> Some DeleteStrategyRetain.
Proof.
  unfold strategy_of. intros H Hne E. rewrite E in H.
  by rewrite (proj2 (String.eqb_neq _ _) Hne) in H.
Qed.

Lemma shown h meta p fs n sv :
  looked_up meta -> splitSubvolumeID (m_DatasetID meta) = Ok (fs, n) ->
  cev (GetSubvolume fs n) (Some sv, None) ∈ h -> deletable sv (m_DatasetName meta) p ->
  shown_deletable h p fs n.
Proof.
  intros [[dfs Hid] _ _ _ _] Hs Hin Hd. apply splitSubvolumeID_ok in Hs as [Hs _].
  exists sv, dfs, (m_DatasetName meta). split; [done|]. split; [by rewrite <- Hs, Hid|done].
Qed.

Lemma shown_owned h meta p fs n sv :
  looked_up meta -> located h volumeID p (m_DatasetID meta) -> splitSubvolumeID (m_DatasetID meta) = Ok (fs, n) ->
  cev (GetSubvolume fs n) (Some sv, None) ∈ h -> deletable sv (m_DatasetName meta) p -> owned h volumeID p fs n.
Proof.
  intros Hm Hl Hs Hin Hd. split; [|by eapply shown]. apply splitSubvolumeID_ok in Hs as [<- _]. exact Hl.
Qed.

(** The subvolume's stored strategy, or the default, is to retain. *)
Definition retained (sv : Subvolume) : Prop :=
  strategy_of (sv_Properties sv) = DeleteStrategyRetain \/
  map_lookup (sv_Properties sv) PropertyDeleteStrategy = Some DeleteStrategyRetain.

(** ** Why a deletion may report success *)
Inductive success_reason (h : history) (meta : VolumeMetadata) : Prop :=
| sr_deleted fs n : splitSubvolumeID (m_DatasetID meta) = Ok (fs, n) -> deletion_accepted h fs n -> success_reason h meta
| sr_absent fs n sv e : splitSubvolumeID (m_DatasetID meta) = Ok (fs, n) ->
    cev (GetSubvolume fs n) (sv, Some e) ∈ h -> isNotFoundError (Some e) = true -> success_reason h meta
| sr_retained fs n sv : splitSubvolumeID (m_DatasetID meta) = Ok (fs, n) ->
    cev (GetSubvolume fs n) (Some sv, None) ∈ h ->
    retained sv -> success_reason h meta
| sr_no_filesystem n : splitSubvolumeID (m_DatasetID meta) = Ok ("", n) -> success_reason h meta
| sr_no_id e : splitSubvolumeID (m_DatasetID meta) = Err e -> success_reason h meta.
End Specs.

#[export] Hint Resolve deletion_accepted_app ready_app : csi.

Section Protocols.
Context {api : NastyAPI} {tt_ : TextTemplate} (volumeID : string).

Abbreviation dwp := (wp (delete_policy volumeID)).

Lemma success_reason_app h t meta : success_reason h meta -> success_reason (h ++ t) meta.
Proof.
  intros []; [eapply sr_deleted|eapply sr_absent|eapply sr_retained|eapply sr_no_filesystem|eapply sr_no_id];
    eauto with csi.
Qed.
Hint Resolve success_reason_app : csi.

Lemma wp_nfs_delete_all h t meta fs n :
  looked_up meta -> untouched h -> owned h volumeID ProtocolNFS fs n -> fs <> "" -> n <> "" ->
  dwp h (nfs_delete_all t meta fs n) (fun r h' => is_ok r = true -> deletion_accepted h' fs n).
Proof.
  intros Hm H0 Hs Hfs Hn. unfold nfs_delete_all, nfs_delete_shares. rewrite (lu_nfs _ Hm).
  rewrite (proj2 (String.eqb_neq _ _) Hfs), (proj2 (String.eqb_neq _ _) Hn). simpl negb. simpl orb. simpl andb.
  cbv iota zeta. wp_step. change (String.eqb "" "") with true. cbv iota. wp_op.
  apply (wp_deleteShareByPath _ h _ _ _ _ _
    (fun shares h' => untouched h' /\ owned h' volumeID ProtocolNFS fs n /\ cev ListNFSShares (shares, None) ∈ h')
    (fun id h' => exists r, cev (DeleteNFSShare id) r ∈ h' /\ query_failed r = None)).
  - intros id h1 t1 (r & Hin & Hr). exists r. auto with csi.
  - intros shares share h1 (H1 & H2 & H3) Hin Hp. unfold nfs_remove_share. wp_op; [exists fs, n; split; [done|by exists shares, share]|].
    split; [auto with csi|]. intros Hr. eauto with csi.
  - intros e h1 r. by wp_step.
  - apply wp_do; [exact I|]. intros [shares err] _. cbn [fst snd]. intros ->. split; [auto with csi|]. intros h2 (H1 & H2 & H3) _ Hd. cbv beta.
    wp_step. eapply wp_mono; [|apply wp_delete_subvolume_with_retry; [done|]].
    + intros [[]|e] h3 Hacc; [|by wp_step]. repeat (wp_step || wp_op). intros _. auto with csi.
    + exists ProtocolNFS. split; [done|]. eapply (gone_nfs _ _ _ shares); [done|]. intros sh Hin Hp. by apply Hd.
Qed.

(** The goals of the error branches: no success is reported. *)
Ltac refuse := repeat (wp_step || wp_op); done.

Lemma wp_deleteNFSVolume h meta :
  looked_up meta -> located h volumeID ProtocolNFS (m_DatasetID meta) -> untouched h ->
  dwp h (deleteNFSVolume meta) (fun r h' => is_ok r = true -> success_reason h' meta).
Proof.
  intros Hm Hl H0. unfold deleteNFSVolume. cbv zeta.
  assert (forall fs n, splitSubvolumeID (m_DatasetID meta) = Ok (fs, n) \/
                       (exists e, splitSubvolumeID (m_DatasetID meta) = Err e /\ fs = "") -> fs = "" \/ n = "" ->
    dwp h (nfs_delete_unless_retained (nfs_timer "delete") meta fs n DeleteStrategyDelete)
      (fun r h' => is_ok r = true -> success_reason h' meta)) as Hincomplete.
  { intros fs n Hsplit Hempty.
    assert (forall h', success_reason h' meta) as Hsr.
    { intros h'. destruct Hsplit as [Hs|(e & Hs & ->)]; [|by eapply sr_no_id].
      destruct Hempty as [-> | ->]; [by eapply sr_no_filesystem|].
      apply splitSubvolumeID_ok in Hs as [_ [_ []]]. done. }
    unfold nfs_delete_unless_retained, nfs_delete_all, nfs_delete_shares. rewrite (lu_nfs _ Hm).
    assert (negb (String.eqb fs "") && negb (String.eqb n "") = false) as -> by (destruct Hempty as [-> | ->]; [done|apply andb_false_r]).
    assert (String.eqb fs "" || String.eqb n "" = true) as -> by (destruct Hempty as [-> | ->]; [done|apply orb_true_r]).
    change (String.eqb "" "") with true. cbv iota. repeat (wp_step || wp_op); auto. }
  destruct (splitSubvolumeID (m_DatasetID meta)) as [[fs n]|e] eqn:Es; cbv iota beta; [|apply Hincomplete; eauto].
  destruct (String.eqb_spec fs "") as [->|Hfs]; [apply Hincomplete; auto|].
  destruct (String.eqb_spec n "") as [->|Hn]; [apply Hincomplete; auto|]. cbn [negb andb]. cbv iota.
  wp_step. apply wp_do; [exact I|]. intros [subvol getErr] _. cbv beta iota.
  destruct getErr as [e|].
  { destruct (isNotFoundError (Some e)) eqn:En; [|refuse]. wp_op. intros _. eapply sr_absent; eauto with csi. }
  destruct (validateDeletionOwnership subvol meta ProtocolNFS) as [[]|e] eqn:Ev; [|refuse].
  do 2 wp_step; [by intros ->|]. cbv zeta. subst subvol. rename a into sv.
  destruct (lookup_differs _ _ _); [refuse|]. destruct (lookup_differs _ _ _); [refuse|].
  unfold nfs_delete_unless_retained. destruct (String.eqb_spec (strategy_of (sv_Properties sv)) DeleteStrategyRetain) as [Er|Er].
  { wp_op. intros _. eapply sr_retained; eauto with csi. by left. }
  eapply wp_mono; [|apply wp_nfs_delete_all; try done].
  - intros r h' Hd Hok. eapply sr_deleted; eauto.
  - auto with csi.
  - eapply shown_owned; eauto with csi. by apply validate_deletable, strategy_of_retained.
Qed.

(** ** SMB *)

Lemma wp_smb_delete_all h t meta fs n :
  looked_up meta -> untouched h -> owned h volumeID ProtocolSMB fs n ->
  dwp h (smb_delete_all t meta (Some (fs, n))) (fun r h' => is_ok r = true -> deletion_accepted h' fs n).
Proof.
  intros Hm H0 Hs. unfold smb_delete_all, smb_delete_shares. rewrite (lu_smb _ Hm). cbv zeta.
  wp_step. change (String.eqb "" "") with true. cbv iota. wp_op.
  apply (wp_deleteShareByPath _ h _ _ _ _ _
    (fun shares h' => untouched h' /\ owned h' volumeID ProtocolSMB fs n /\ cev ListSMBShares (shares, None) ∈ h')
    (fun id h' => exists r, cev (DeleteSMBShare id) r ∈ h' /\ query_failed r = None)).
  - intros id h1 t1 (r & Hin & Hr). exists r. auto with csi.
  - intros shares share h1 (H1 & H2 & H3) Hin Hp. unfold smb_remove_share. wp_op; [exists fs, n; split; [done|by exists shares, share]|].
    split; [auto with csi|]. intros Hr. eauto with csi.
  - intros e h1 r. by wp_step.
  - apply wp_do; [exact I|]. intros [shares err] _. cbn [fst snd]. intros ->. split; [auto with csi|].
    intros h2 (H1 & H2 & H3) _ Hd. cbv beta. wp_step. apply wp_do.
    + split; [|split; [by apply untouched_certain|rewrite H1; unfold max_deletions; lia]].
      exists ProtocolSMB. split; [done|]. eapply (gone_smb _ _ _ shares); [done|].
      intros sh Hin Hp. by apply Hd.
    + intros r _. cbv beta. destruct (query_failed r) eqn:Er; [refuse|]. repeat (wp_step || wp_op).
      intros _. exists r. auto with csi.
Qed.

Lemma wp_deleteSMBVolume h meta :
  looked_up meta -> located h volumeID ProtocolSMB (m_DatasetID meta) -> untouched h ->
  dwp h (deleteSMBVolume meta) (fun r h' => is_ok r = true -> success_reason h' meta).
Proof.
  intros Hm Hl H0. unfold deleteSMBVolume. cbv zeta.
  assert ((forall h', success_reason h' meta) ->
    dwp h (if String.eqb DeleteStrategyDelete DeleteStrategyRetain then succeed (smb_timer "delete") tt
           else smb_delete_all (smb_timer "delete") meta None)
      (fun r h' => is_ok r = true -> success_reason h' meta)) as Hincomplete.
  { intros Hsr. unfold smb_delete_all, smb_delete_shares. rewrite (lu_smb _ Hm).
    change (String.eqb "" "") with true. cbv iota. repeat (wp_step || wp_op); auto. }
  destruct (splitSubvolumeID (m_DatasetID meta)) as [[fs n]|e] eqn:Es; cbv iota beta;
    [|apply Hincomplete; intros; by eapply sr_no_id].
  destruct (String.eqb_spec fs "") as [->|Hfs]; [apply Hincomplete; intros; by eapply sr_no_filesystem|].
  destruct (String.eqb_spec n "") as [->|Hn]; [by apply splitSubvolumeID_ok in Es as [_ [_ []]]|].
  cbn [negb andb]. cbv iota.
  wp_step. apply wp_do; [exact I|]. intros [subvol getErr] _. cbv beta iota.
  destruct getErr as [e|].
  { destruct (isNotFoundError (Some e)) eqn:En; [|refuse]. wp_op. intros _. eapply sr_absent; eauto with csi. }
  destruct (validateDeletionOwnership subvol meta ProtocolSMB) as [[]|e] eqn:Ev; [|refuse].
  do 2 wp_step; [by intros ->|]. subst subvol. rename a into sv.
  destruct (String.eqb_spec (strategy_of (sv_Properties sv)) DeleteStrategyRetain) as [Er|Er].
  { wp_op. intros _. eapply sr_retained; eauto with csi. by left. }
  eapply wp_mono; [|apply wp_smb_delete_all; try done].
  - intros r h' Hd Hok. eapply sr_deleted; eauto.
  - auto with csi.
  - eapply shown_owned; eauto with csi. by apply validate_deletable, strategy_of_retained.
Qed.

(** ** Block protocols *)

Lemma wp_block_delete h t fs n operation failed meta protocol :
  splitSubvolumeID (m_DatasetID meta) = Ok (fs, n) -> untouched h -> ready volumeID h fs n ->
  dwp h (_ <-! delete_subvolume_with_retry t fs n operation failed;;
         do_ (DeleteVolumeCapacity (m_Name meta) protocol) ;;; succeed t tt)
    (fun r h' => is_ok r = true -> success_reason h' meta).
Proof.
  intros Hs H0 Hr. wp_step. eapply wp_mono; [|by apply wp_delete_subvolume_with_retry].
  intros [[]|e] h' Hacc; [|refuse]. repeat (wp_step || wp_op). intros _. eapply sr_deleted; eauto with csi.
Qed.

Lemma wp_deleteISCSIVolume h meta :
  looked_up meta -> located h volumeID ProtocolISCSI (m_DatasetID meta) -> untouched h ->
  dwp h (deleteISCSIVolume meta) (fun r h' => is_ok r = true -> success_reason h' meta).
Proof.
  intros Hm Hl H0. unfold deleteISCSIVolume, verifyISCSIOwnership. cbv zeta. wp_step. wp_op.
  destruct (splitSubvolumeID (m_DatasetID meta)) as [[fs n]|e] eqn:Es; [|refuse].
  wp_step. apply wp_do; [exact I|]. intros [subvol err] _. cbv beta iota.
  destruct err as [e|].
  { destruct (isNotFoundError (Some e)) eqn:En; [|refuse]. wp_step. wp_op. intros _. eapply sr_absent; eauto with csi. }
  destruct (validateDeletionOwnership subvol meta ProtocolISCSI) as [[]|e] eqn:Ev; [|refuse].
  do 2 wp_step; [by intros ->|]. subst subvol. rename a into sv.
  destruct (lookup_differs _ _ _); [refuse|]. destruct (lookup_differs _ _ _); [refuse|]. wp_step.
  destruct (String.eqb_spec (strategy_of (sv_Properties sv)) DeleteStrategyRetain) as [Er|Er].
  { wp_op. intros _. eapply sr_retained; eauto with csi. by left. }
  assert (owned (h ++ [cev (GetSubvolume fs n) (Some sv, None)]) volumeID ProtocolISCSI fs n) as Hs.
  { eapply shown_owned; eauto with csi. by apply validate_deletable, strategy_of_retained. }
  rewrite (lu_iqn _ Hm). destruct (String.eqb_spec n "") as [->|Hn]; [by apply splitSubvolumeID_ok in Es as [_ [_ []]]|].
  change (String.eqb "" "" && negb false) with true. cbv iota.
  wp_step. unfold iscsi_delete_target. change (String.eqb (generateIQN n) "") with false. cbv iota.
  wp_step. apply wp_do; [exact I|]. intros [target lookupErr] _. cbv beta iota.
  destruct (query_failed lookupErr) eqn:El; [refuse|]. cbv zeta.
  set (targetID := match lookupErr with None => _ | Some _ => _ end).
  assert (forall h', (forall tg, lookupErr = None -> target = Some tg -> it_ID tg <> "" ->
      exists r, cev (DeleteISCSITarget (it_ID tg)) r ∈ h' /\ query_failed r = None) ->
    (exists t', h' = (h ++ [cev (GetSubvolume fs n) (Some sv, None)]) ++
       [cev (GetISCSITargetByIQN (generateIQN n)) (target, lookupErr)] ++ t') ->
    ready volumeID h' fs n) as Hready.
  { intros h' Hgone [t' ->]. exists ProtocolISCSI. split; [auto with csi|].
    eapply gone_iscsi; [|exact El|exact Hgone]. rewrite app_assoc. auto with csi. }
  destruct (String.eqb_spec targetID "") as [Et|Et].
  - wp_step. apply wp_block_delete; [done|auto with csi|]. apply Hready; [|by exists []].
    intros tg -> -> Hne. by subst targetID.
  - assert (exists tg, lookupErr = None /\ target = Some tg /\ targetID = it_ID tg) as (tg & -> & -> & ->)
      by (subst targetID; destruct lookupErr, target; try done; by eexists).
    wp_step. apply wp_do; [exists fs, n; split; [auto with csi|]; exists tg; auto with csi|]. intros r _. cbv beta.
    destruct (query_failed r) eqn:Er'; [refuse|]. wp_step. apply wp_block_delete; [done|auto with csi|].
    apply Hready; [|eexists; by rewrite <- !app_assoc]. intros tg0 _ [= <-] _. exists r. auto with csi.
Qed.

Lemma wp_deleteNVMeOFVolume h meta :
  looked_up meta -> located h volumeID ProtocolNVMeOF (m_DatasetID meta) -> untouched h ->
  dwp h (deleteNVMeOFVolume meta) (fun r h' => is_ok r = true -> success_reason h' meta).
Proof.
  intros Hm Hl H0. unfold deleteNVMeOFVolume. cbv zeta.
  destruct (splitSubvolumeID (m_DatasetID meta)) as [[fs n]|e] eqn:Es; [|refuse].
  wp_step. apply wp_do; [exact I|]. intros [subvol err] _. cbv beta iota.
  destruct err as [e|].
  { destruct (isNotFoundError (Some e)) eqn:En; [|refuse]. wp_op. intros _. eapply sr_absent; eauto with csi. }
  destruct (validateDeletionOwnership subvol meta ProtocolNVMeOF) as [[]|e] eqn:Ev; [|refuse].
  destruct subvol as [sv|]; [|done]. cbv iota.
  case_bool_decide as Er.
  { wp_op. intros _. eapply sr_retained; eauto with csi. by right. }
  assert (owned (h ++ [cev (GetSubvolume fs n) (Some sv, None)]) volumeID ProtocolNVMeOF fs n) as Hs.
  { eapply shown_owned; eauto with csi. by apply validate_deletable. }
  rewrite (lu_nqn _ Hm). destruct (String.eqb_spec n "") as [->|Hn]; [by apply splitSubvolumeID_ok in Es as [_ [_ []]]|].
  change (String.eqb "" "" && negb false) with true. cbv iota.
  wp_step. unfold nvmeof_delete_subsystem. change (String.eqb (deletion_nqn_prefix +:+ n) "") with false. cbv iota.
  wp_step. apply wp_do; [exact I|]. intros [target lookupErr] _. cbv beta iota.
  destruct (query_failed lookupErr) eqn:El; [refuse|]. cbv zeta.
  set (targetID := match lookupErr with None => _ | Some _ => _ end).
  assert (forall h', (forall tg, lookupErr = None -> target = Some tg -> ns_ID tg <> "" ->
      exists r, cev (DeleteNVMeOFSubsystem (ns_ID tg)) r ∈ h' /\ query_failed r = None) ->
    (exists t', h' = (h ++ [cev (GetSubvolume fs n) (Some sv, None)]) ++
       [cev (GetNVMeOFSubsystemByNQN (deletion_nqn_prefix +:+ n)) (target, lookupErr)] ++ t') ->
    ready volumeID h' fs n) as Hready.
  { intros h' Hgone [t' ->]. exists ProtocolNVMeOF. split; [auto with csi|].
    eapply gone_nvmeof; [|exact El|exact Hgone]. rewrite app_assoc. auto with csi. }
  destruct (String.eqb_spec targetID "") as [Et|Et].
  - wp_step. apply wp_block_delete; [done|auto with csi|]. apply Hready; [|by exists []].
    intros tg -> -> Hne. by subst targetID.
  - assert (exists ss, lookupErr = None /\ target = Some ss /\ targetID = ns_ID ss) as (ss & -> & -> & ->)
      by (subst targetID; destruct lookupErr, target; try done; by eexists).
    wp_step. apply wp_do; [exists fs, n; split; [auto with csi|]; exists ss; auto with csi|]. intros r _. cbv beta.
    destruct (query_failed r) eqn:Er'; [refuse|]. wp_step. apply wp_block_delete; [done|auto with csi|].
    apply Hready; [|eexists; by rewrite <- !app_assoc]. intros tg0 _ [= <-] _. exists r. auto with csi.
Qed.

(** ** DeleteVolume *)

(** What the lookup may conclude from the answers. *)
Definition lookup_result (r : res (option VolumeMetadata)) (h : history) : Prop :=
  untouched h /\
  match r with
  | Err _ => True
  | Ok None => exists a, lookup_answer h volumeID a /\ (ManagedByValue = "" \/ reported_absent a)
  | Ok (Some meta) => exists sv, lookup_answer h volumeID (Some sv, None) /\ looked_up meta /\
      m_DatasetID meta = sv_Filesystem sv +:+ "/" +:+ sv_Name sv /\
      m_Protocol meta = (sv_Properties sv).[PropertyProtocol]
  end.

Lemma extract_none sv :
  extractVolumeMetadataFromSubvolume volumeID sv = None ->
  (sv_Properties sv).[PropertyManagedBy] = ManagedByValue -> ManagedByValue = "".
Proof.
  unfold extractVolumeMetadataFromSubvolume, map_get, map_lookup.
  destruct (sv_Properties sv) as [props|]; [|by intros _ <-].
  destruct (props !! PropertyManagedBy) as [mb|]; [|by intros _ <-]. simpl.
  intros H E. by rewrite <- E, String.eqb_refl in H.
Qed.

Lemma verify_lookup_result a h :
  untouched h -> lookup_answer h volumeID a -> lookup_result (verify_lookup volumeID a) h.
Proof.
  intros Hu Ha. split; [done|]. destruct a as [subvol [e|]]; unfold verify_lookup.
  - destruct (errors_Is e nastyapi_ErrDatasetNotFound) eqn:E1; cbn [negb andb].
    { exists (subvol, Some e). split; [done|]. right. by left. }
    destruct (isNotFoundError (Some e)) eqn:E2; cbn [negb]; [|done].
    exists (subvol, Some e). split; [done|]. right. by right.
  - destruct subvol as [sv|]; [|by exists (None, None); split; [|right]].
    destruct (validateDeletionOwnership _ _ _) as [[]|] eqn:Ev; [|done].
    destruct (known_protocol _); [|done].
    destruct (extractVolumeMetadataFromSubvolume volumeID sv) as [meta|] eqn:Ex.
    + exists sv. split; [done|]. apply extract_managed in Ex as (_ & Hid & Hn & _ & Hp & _ & H1 & H2 & H3 & H4).
      split; [|done]. split; try done. exists (sv_Filesystem sv). by rewrite Hid, Hn.
    + exists (Some sv, None). split; [done|]. left. eapply extract_none; [done|].
      unfold validateDeletionOwnership in Ev. destruct (String.eqb_spec (sv_Properties sv).[PropertyManagedBy] ManagedByValue); [done|].
      discriminate Ev.
Qed.

Lemma wp_lookupDeletionVolume h :
  untouched h -> dwp h (lookupDeletionVolume volumeID) lookup_result.
Proof.
  intros H0. unfold lookupDeletionVolume. destruct (isDatasetPathVolumeID volumeID) eqn:Ed.
  - destruct (splitSubvolumeID volumeID) as [[fs n]|e] eqn:Es; [|by wp_step].
    wp_step. apply wp_do; [exact I|]. intros a _. wp_step. apply verify_lookup_result; [auto with csi|].
    left. exists fs, n. auto with csi.
  - wp_step. apply wp_do; [exact I|]. intros a _. wp_step. apply verify_lookup_result; [auto with csi|].
    right. auto with csi.
Qed.

(** Why DeleteVolume may report success, for any subvolume of the lookup. *)
Definition delete_justified (h : history) : Prop :=
  (exists a, lookup_answer h volumeID a /\ (ManagedByValue = "" \/ reported_absent a)) \/
  (exists sv meta, lookup_answer h volumeID (Some sv, None) /\
     m_DatasetID meta = sv_Filesystem sv +:+ "/" +:+ sv_Name sv /\ success_reason h meta).

Lemma wp_DeleteVolume h :
  untouched h ->
  dwp h (DeleteVolume volumeID) (fun r h' => is_ok r = true -> delete_justified h').
Proof.
  intros H0. unfold DeleteVolume. destruct (String.eqb volumeID ""); [by wp_step|].
  eapply wp_call_spec; [by apply wp_lookupDeletionVolume|].
  intros [[meta|]|e] t [H1 Hr]; cbv beta iota; [|wp_step; by left|by wp_step]. cbv zeta.
  destruct Hr as (sv & Ha & Hm & Hid & Hp).
  assert (forall p : M (res unit), dwp (h ++ t) p (fun r h' => is_ok r = true -> success_reason h' meta) ->
                    dwp (h ++ t) p (fun r h' => is_ok r = true -> delete_justified h')) as Hlift.
  { intros p Hp'. eapply wp_mono; [|apply wp_grows, Hp']. intros r h' [Hok [t' ->]] E. right.
    exists sv, meta. split; [by apply lookup_answer_app|]. auto. }
  assert (forall protocol, m_Protocol meta = protocol -> located (h ++ t) volumeID protocol (m_DatasetID meta)) as Hl.
  { intros p <-. exists sv. by rewrite Hp. }
  repeat (match goal with |- wp _ _ (if String.eqb ?a ?b then _ else _) _ => destruct (String.eqb_spec a b) end);
    [apply Hlift, wp_deleteNFSVolume|apply Hlift, wp_deleteNVMeOFVolume|apply Hlift, wp_deleteISCSIVolume
    |apply Hlift, wp_deleteSMBVolume|by wp_step]; auto.
Qed.
End Protocols.

(** ** Theorems *)

Section Theorems.
Context {api : NastyAPI} {tt_ : TextTemplate}.

Lemma delete_allowed volumeID tr out t1 o r t2 :
  exec (DeleteVolume volumeID) tr out -> tr = t1 ++ cev o r :: t2 -> delete_allow volumeID t1 o.
Proof.
  intros He E. eapply (wp_sound_allow (delete_policy volumeID) []); [apply wp_DeleteVolume; done|exact He| |exact E].
  by apply env_trace_any.
Qed.

(** What an operation of [DeleteVolume volumeID] needs the backend to have
    shown before: a subvolume is destroyed, and a presentation is removed,
    only for the subvolume that the lookup of the volume returned, shown again
    to be the driver's; the presentation is one the backend listed at its
    path, or found under the name the deletion derives from it; no other
    operation of the backend that changes something is ever performed. *)
Definition ownership_shown (volumeID : string) (h : history) (o : cop) : Prop :=
  match o with
  | DeleteSubvolume fs name => exists protocol, owned h volumeID protocol fs name
  | DeleteNFSShare _ => exists fs name, owned h volumeID ProtocolNFS fs name /\ presented h fs name o
  | DeleteSMBShare _ => exists fs name, owned h volumeID ProtocolSMB fs name /\ presented h fs name o
  | DeleteISCSITarget _ => exists fs name, owned h volumeID ProtocolISCSI fs name /\ presented h fs name o
  | DeleteNVMeOFSubsystem _ => exists fs name, owned h volumeID ProtocolNVMeOF fs name /\ presented h fs name o
  | CreateSubvolume _ | SetSubvolumeProperties _ _ _ | ResizeSubvolume _ _ _ | CloneSubvolume _ _ _
  | CloneSnapshot _ | api_CreateSnapshot _ | api_DeleteSnapshot _ _ _ | CreateNFSShare _ | CreateSMBShare _
  | CreateISCSITarget _ | CreateNVMeOFSubsystem _ => False
  | _ => True
  end.

(** C5: DeleteVolume destroys nothing that is not provably the driver's.  In
    every execution, whatever the backend answers, each deletion of a
    subvolume is of the subvolume at the path that the lookup of the volume ID
    was answered with, after the backend returned that subvolume with the
    driver's ownership mark, no conflicting volume name or protocol, and a
    delete strategy other than retain.  A share is removed only if the backend
    listed it at that path, a target or subsystem only if the backend returned
    it under the name that the deletion derives from that subvolume's name,
    and only after the same proof, for the protocol of the presentation; and
    nothing else is modified. *)
Theorem DeleteVolume_owned_only volumeID tr out t1 o r t2 :
  exec (DeleteVolume volumeID) tr out -> tr = t1 ++ cev o r :: t2 -> ownership_shown volumeID t1 o.
Proof.
  intros He E. pose proof (delete_allowed _ _ _ _ _ _ _ He E) as H.
  destruct o; simpl in *; try done. destruct H as [(p & Hs & _) _]. by exists p.
Qed.


Lemma deletions_bound (tr : history) n :
  (forall t1 e t2, tr = t1 ++ e :: t2 -> is_deletion e = true -> (deletions t1 < n)%nat) -> (deletions tr <= n)%nat.
Proof.
  induction tr as [|e tr IH] using rev_ind; intros H; [unfold deletions; simpl; lia|].
  rewrite deletions_app. unfold deletions at 2. simpl. destruct (is_deletion e) eqn:Ee; simpl.
  - specialize (H tr e [] eq_refl Ee). lia.
  - rewrite Nat.add_0_r. apply IH. intros t1 e' t2 -> He'. apply (H t1 e' (t2 ++ [e])); [by rewrite <- app_assoc|done].
Qed.

(** C7: a deletion whose outcome is uncertain is never repeated, and at most
    thirteen deletions are sent: the first and the twelve retries. *)
Theorem DeleteVolume_no_replay volumeID tr out :
  exec (DeleteVolume volumeID) tr out ->
  (deletions tr <= max_deletions)%nat /\
  (forall t1 e r t2, tr = t1 ++ cev e r :: t2 -> uncertain_deletion t1 ->
     forall fs name, e <> DeleteSubvolume fs name).
Proof.
  intros He. split.
  - apply deletions_bound. intros t1 [o r] t2 E Ho. destruct o; try discriminate Ho.
    by destruct (delete_allowed _ _ _ _ _ _ _ He E) as (_ & _ & ?).
  - intros t1 e r t2 E Hu fs n ->. by destruct (delete_allowed _ _ _ _ _ _ _ He E) as (_ & ? & _).
Qed.

(** A subvolume as the backend stores it: its filesystem and its name are not
    empty, and no filesystem name contains a slash. *)
Definition well_placed (sv : Subvolume) : Prop :=
  sv_Filesystem sv <> "" /\ valid_volume_id (sv_Filesystem sv) (sv_Name sv).

#[export] Instance well_placed_dec sv : Decision (well_placed sv).
Proof. unfold well_placed, valid_volume_id. apply _. Defined.

(** The storage of the subvolume is gone, or was shown to be retained. *)
Inductive storage_settled (h : history) (sv : Subvolume) : Prop :=
| settled_deleted : deletion_accepted h (sv_Filesystem sv) (sv_Name sv) -> storage_settled h sv
| settled_absent a : cev (GetSubvolume (sv_Filesystem sv) (sv_Name sv)) a ∈ h -> a.2 <> None -> reported_absent a ->
    storage_settled h sv
| settled_retained again : cev (GetSubvolume (sv_Filesystem sv) (sv_Name sv)) (Some again, None) ∈ h ->
    retained again -> storage_settled h sv.

Lemma well_placed_settled h sv meta :
  well_placed sv -> m_DatasetID meta = sv_Filesystem sv +:+ "/" +:+ sv_Name sv ->
  success_reason h meta -> storage_settled h sv.
Proof.
  intros [Hfs Hv] Hid Hr. pose proof (splitSubvolumeID_join _ _ Hv) as Hs. rewrite <- Hid in Hs.
  destruct Hr as [fs n E Hd|fs n sv' e E Hin He|fs n sv' E Hin Hret|n E|e E]; rewrite Hs in E;
    [injection E as <- <-..| |by exfalso].
  - by apply settled_deleted.
  - eapply settled_absent; [exact Hin|done|by right].
  - by eapply settled_retained.
  - by injection E as E _.
Qed.

(** C8: DeleteVolume never dereferences a nil pointer; and where the
    subvolumes that answer the lookup of the volume carry their place (a
    filesystem without a slash and a name), it reports success only if the
    lookup was answered with absence, or the deletion of the subvolume that
    answered it was accepted or answered with absence, or the backend,
    asked again, reported that subvolume absent or showed it to be retained.
    Success with an unmanaged or incomplete subvolume left behind is
    excluded. *)
Theorem DeleteVolume_success `{!NastyAPILaws} volumeID tr out :
  exec (DeleteVolume volumeID) tr out ->
  match out with
  | Panicked => False
  | Done r => r = Ok tt ->
      (forall sv, lookup_answer tr volumeID (Some sv, None) -> well_placed sv) ->
      (exists a, lookup_answer tr volumeID a /\ reported_absent a) \/
      (exists sv, lookup_answer tr volumeID (Some sv, None) /\ storage_settled tr sv)
  end.
Proof.
  intros He. pose proof (wp_sound_post (delete_policy volumeID) [] _ _ _ _ (wp_DeleteVolume volumeID [] eq_refl) He) as Hpost.
  specialize (Hpost (env_trace_any (delete_policy volumeID) [] tr eq_refl)). destruct out as [r|]; [|done].
  intros -> Hwell. destruct (Hpost eq_refl) as [(a & Ha & [Hm|Hr])|(sv & meta & Ha & Hid & Hr)].
  - by apply managed_value in Hm.
  - left. by exists a.
  - right. exists sv. split; [done|]. eapply well_placed_settled; eauto.
Qed.
End Theorems.

#[local] Existing Instance doc_api.
#[local] Existing Instance field_templates.

Definition demo_volume : string := "tank/pvc-1".
Definition demo_world : world := created_world "nfs" "pvc-1".

Definition deletes (o : cop) : bool := match o with DeleteSubvolume _ _ => true | _ => false end.
Definition demo_before : history := cut_before deletes (trace_of (DeleteVolume demo_volume) demo_world).
Definition demo_after : history := cut_after deletes (trace_of (DeleteVolume demo_volume) demo_world).

Lemma demo_trace :
  trace_of (DeleteVolume demo_volume) demo_world = demo_before ++ cev (DeleteSubvolume "tank" "pvc-1") None :: demo_after.
Proof. vm_compute. reflexivity. Qed.

Definition removes_share (o : cop) : bool := match o with DeleteNFSShare _ => true | _ => false end.
Definition share_before : history := cut_before removes_share (trace_of (DeleteVolume demo_volume) demo_world).
Definition share_after : history := cut_after removes_share (trace_of (DeleteVolume demo_volume) demo_world).
Definition demo_share : string :=
  match find (fun s => String.eqb (nfs_Path s) "/fs/tank/pvc-1") (w_nfs demo_world) with Some s => nfs_ID s | None => "" end.

Lemma share_trace :
  trace_of (DeleteVolume demo_volume) demo_world = share_before ++ cev (DeleteNFSShare demo_share) None :: share_after.
Proof. vm_compute. reflexivity. Qed.

Lemma DeleteVolume_owned_only_witness :
  (exists protocol, owned demo_before demo_volume protocol "tank" "pvc-1") /\
  (exists fs name, owned share_before demo_volume ProtocolNFS fs name /\
     presented share_before fs name (DeleteNFSShare demo_share)).
Proof.
  split.
  - exact (DeleteVolume_owned_only demo_volume _ _ demo_before (DeleteSubvolume "tank" "pvc-1") None demo_after
             (play_exec (DeleteVolume demo_volume) demo_world) demo_trace).
  - exact (DeleteVolume_owned_only demo_volume _ _ share_before (DeleteNFSShare demo_share) None share_after
             (play_exec (DeleteVolume demo_volume) demo_world) share_trace).
Defined.


Lemma DeleteVolume_no_replay_witness : (deletions (trace_of (DeleteVolume demo_volume) demo_world) <= 13)%nat.
Proof. apply (DeleteVolume_no_replay demo_volume _ _ (play_exec (DeleteVolume demo_volume) demo_world)). Defined.

(** What every lookup of a history was answered with. *)
Definition looked_up_subvolume (e : event csig) : option Subvolume :=
  match e with
  | existT o r =>
      match o return cans o -> option Subvolume with
      | GetSubvolume _ _ => fun a => a.1
      | FindSubvolumeByCSIVolumeName _ _ => fun a => a.1
      | _ => fun _ => None
      end r
  end.

Lemma all_well_placed h volumeID :
  Forall well_placed (omap looked_up_subvolume h) ->
  forall sv, lookup_answer h volumeID (Some sv, None) -> well_placed sv.
Proof.
  intros HF sv Ha. rewrite Forall_forall in HF. apply HF, list_elem_of_omap.
  destruct Ha as [(fs & n & _ & Hin)|[_ Hin]]; by eexists.
Qed.

Lemma DeleteVolume_success_witness :
  answer_of (DeleteVolume demo_volume) demo_world = Done (Ok tt) /\
  ((exists a, lookup_answer (trace_of (DeleteVolume demo_volume) demo_world) demo_volume a /\ reported_absent a) \/
   (exists sv, lookup_answer (trace_of (DeleteVolume demo_volume) demo_world) demo_volume (Some sv, None) /\
      storage_settled (trace_of (DeleteVolume demo_volume) demo_world) sv)).
Proof.
  assert (answer_of (DeleteVolume demo_volume) demo_world = Done (Ok tt)) as E by (vm_compute; reflexivity).
  split; [exact E|].
  pose proof (DeleteVolume_success demo_volume _ _ (play_exec (DeleteVolume demo_volume) demo_world)) as H.
  rewrite E in H. apply H; [reflexivity|]. apply all_well_placed.
  apply (bool_decide_unpack _). vm_compute. exact I.
Defined.
