(* ===== verification/Creation.v ===== *)
(** * Safety of CreateVolume

    What every execution of [Controller.CreateVolume] may do, whatever the
    backend answers: storage is exposed only after the identity of its owner is
    durable, a rollback deletes only what the request itself created and what
    carries no complete identity, and identities are written and rolled back
    only under the identity lock. *)

From S2P Require Import Prelude GoStrings Prog Errors Api Metadata Capacity Names Retry Identity Capabilities SnapshotId Common Nfs Smb Block Iscsi Nvmeof Clone Controller Backend Lifecycle.

#[local] Set Default Proof Using "Type*".

(** ** The identity lock *)

Definition lock_step (o : cop) (st : bool) : bool :=
  match o with LockIdentity => true | UnlockIdentity => false | _ => st end.

(** Whether the lock is held after a history. *)
Definition lock_held (h : history) : bool := foldl (fun st (e : event csig) => lock_step (projT1 e) st) false h.

Lemma lock_held_snoc h o r : lock_held (h ++ [cev o r]) = lock_step o (lock_held h).
Proof. unfold lock_held. by rewrite foldl_app. Qed.

Lemma lock_keep h o r b : lock_held h = b -> lock_step o b = b -> lock_held (h ++ [cev o r]) = b.
Proof. intros <- E. by rewrite lock_held_snoc. Qed.

#[export] Hint Extern 1 (lock_held (_ ++ [cev _ _]) = _) => (eapply lock_keep; [|reflexivity]) : csi.

Section Facts.
Context {api : NastyAPI}.

(** The properties name the owner: the request [rn], its protocol, a UUID. *)
Record identifies (rn protocol : string) (props : gomap) : Prop := {
  idf_managed : props.[PropertyManagedBy] = ManagedByValue;
  idf_version : props.[propertyIdentityVersion] = identityVersion2;
  idf_request : props.[propertyCSIRequestName] = rn;
  idf_protocol : props.[PropertyProtocol] = protocol;
  idf_uuid : props.[propertyVolumeUUID] <> ""
}.

(** The subvolume of an answer, if it carries one. *)
Definition answered_subvolumes (e : event csig) : list Subvolume :=
  match e with
  | existT o r =>
      match o return cans o -> list Subvolume with
      | CreateSubvolume _ | GetSubvolume _ _ | SetSubvolumeProperties _ _ _ | FindSubvolumeByCSIVolumeName _ _
      | ResizeSubvolume _ _ _ | CloneSubvolume _ _ _ | CloneSnapshot _ =>
          fun r => match r.1 with Some sv => [sv] | None => [] end
      | FindSubvolumesByProperty _ _ _ | FindManagedSubvolumes _ => fun r => r.1
      | _ => fun _ => []
      end r
  end.

(** The backend returned this subvolume; its properties may have been
    cleared in memory since. *)
Definition shown (h : history) (sv : Subvolume) : Prop :=
  exists e sv0, e ∈ h /\ sv0 ∈ answered_subvolumes e /\
    sv_Filesystem sv = sv_Filesystem sv0 /\ sv_Name sv = sv_Name sv0 /\ sv_Path sv = sv_Path sv0 /\
    sv_BlockDevice sv = sv_BlockDevice sv0 /\
    (sv_Properties sv = sv_Properties sv0 \/ sv_Properties sv = None).

(** The identity of the owner of a subvolume is durable: the backend
    accepted a write of it, or returned it. *)
Definition durable (h : history) (fs name rn protocol : string) : Prop :=
  (exists props a, cev (SetSubvolumeProperties fs name props) (a, None) ∈ h /\ identifies rn protocol (Some props)) \/
  (exists e sv, e ∈ h /\ sv ∈ answered_subvolumes e /\ sv_Filesystem sv = fs /\ sv_Name sv = name /\
     identifies rn protocol (sv_Properties sv)).

(** A subvolume whose storage [has] and whose owner is durably [rn]. *)
Definition owned_storage (h : history) (rn protocol : string) (has : Subvolume -> Prop) : Prop :=
  exists sv, shown h sv /\ has sv /\ durable h (sv_Filesystem sv) (sv_Name sv) rn protocol.

(** The backend created this subvolume for an operation of this request. *)
Definition created_here (h : history) (fs name : string) : Prop :=
  exists sv, sv_Created sv = true /\ sv_Filesystem sv = fs /\ sv_Name sv = name /\
    ((exists p err, cev (CreateSubvolume p) (Some sv, err) ∈ h) \/
     (exists p err, cev (CloneSnapshot p) (Some sv, err) ∈ h) \/
     (exists f a b err, cev (CloneSubvolume f a b) (Some sv, err) ∈ h)).

(** The last interaction read the subvolume, and it carries no complete
    identity. *)
Definition just_read_incomplete (h : history) (fs name : string) : Prop :=
  exists h0 sv, h = h0 ++ [cev (GetSubvolume fs name) (Some sv, None)] /\
    hasCompleteV2Identity (sv_Properties sv) name = false.

Definition create_allow (rn : string) (h : history) (o : cop) : Prop :=
  match o with
  | LockIdentity => lock_held h = false
  | UnlockIdentity => lock_held h = true
  | SetSubvolumeProperties fs name props => lock_held h = true /\ (exists protocol, identifies rn protocol (Some props))
  | DeleteSubvolume fs name => lock_held h = true /\ created_here h fs name /\ just_read_incomplete h fs name
  | CreateNFSShare p => owned_storage h rn ProtocolNFS (fun sv => sv_Path sv = nfp_Path p)
  | CreateSMBShare p => owned_storage h rn ProtocolSMB (fun sv => sv_Path sv = smp_Path p)
  | CreateISCSITarget p => owned_storage h rn ProtocolISCSI (fun sv => block_device sv = Some (bcp_DevicePath p))
  | CreateNVMeOFSubsystem p => owned_storage h rn ProtocolNVMeOF (fun sv => block_device sv = Some (bcp_DevicePath p))
  | DeleteNFSShare _ | DeleteSMBShare _ | DeleteISCSITarget _ | DeleteNVMeOFSubsystem _
  | api_CreateSnapshot _ | api_DeleteSnapshot _ _ _ | DeleteVolumeCapacity _ _ => False
  | _ => True
  end.

(** ** What a successful creation leaves behind *)

Record same_place (a b : Subvolume) : Prop := {
  same_filesystem : sv_Filesystem a = sv_Filesystem b;
  same_name : sv_Name a = sv_Name b;
  same_path : sv_Path a = sv_Path b;
  same_device : sv_BlockDevice a = sv_BlockDevice b
}.

(** The backend listed, or created without an error, the share, target or
    subsystem that exposes the storage of a subvolume: the protocol, and what
    the share, target or subsystem is reached by. *)
Inductive exposed (h : history) (sv : Subvolume) : string -> string -> Prop :=
| exposed_nfs_listed shares share :
    cev ListNFSShares (shares, None) ∈ h -> share ∈ shares -> nfs_Path share = sv_Path sv -> exposed h sv ProtocolNFS (sv_Path sv)
| exposed_nfs p share :
    cev (CreateNFSShare p) (Some share, None) ∈ h -> nfs_Path share = sv_Path sv -> exposed h sv ProtocolNFS (sv_Path sv)
| exposed_smb_listed shares share :
    cev ListSMBShares (shares, None) ∈ h -> share ∈ shares -> smb_Path share = sv_Path sv -> exposed h sv ProtocolSMB (smb_Name share)
| exposed_smb p share :
    cev (CreateSMBShare p) (Some share, None) ∈ h -> smb_Path share = sv_Path sv -> exposed h sv ProtocolSMB (smb_Name share)
| exposed_iscsi_listed targets target device :
    cev ListISCSITargets (targets, None) ∈ h -> target ∈ targets -> block_device sv = Some device ->
    iscsiTargetUsesDevice (Some target) device = true -> exposed h sv ProtocolISCSI (it_IQN target)
| exposed_iscsi p target device :
    cev (CreateISCSITarget p) (Some target, None) ∈ h -> block_device sv = Some device ->
    iscsiTargetUsesDevice (Some target) device = true -> exposed h sv ProtocolISCSI (it_IQN target)
| exposed_nvmeof_listed subsystems ss device :
    cev ListNVMeOFSubsystems (subsystems, None) ∈ h -> ss ∈ subsystems -> block_device sv = Some device ->
    nvmeSubsystemUsesDevice (Some ss) device = true -> exposed h sv ProtocolNVMeOF (ns_NQN ss)
| exposed_nvmeof p ss device :
    cev (CreateNVMeOFSubsystem p) (Some ss, None) ∈ h -> block_device sv = Some device ->
    nvmeSubsystemUsesDevice (Some ss) device = true -> exposed h sv ProtocolNVMeOF (ns_NQN ss).

Lemma same_place_refl sv : same_place sv sv.
Proof. done. Qed.

Lemma same_place_properties p sv : same_place sv (set_Properties p sv).
Proof. done. Qed.

(** The entry of the volume context by which a node reaches the storage. *)
Definition route_key (protocol : string) : string :=
  if String.eqb protocol ProtocolNVMeOF then VolumeContextKeyNQN
  else if String.eqb protocol ProtocolISCSI then VolumeContextKeyISCSIIQN
  else VolumeContextKeyShare.

Definition routes (v : Volume) (protocol endpoint : string) : Prop :=
  (Some (v_VolumeContext v)).[VolumeContextKeyProtocol] = protocol /\ (Some (v_VolumeContext v)).[route_key protocol] = endpoint.

(** A volume that was answered: the backend showed its subvolume, whose owner
    is durably the request, its storage is exposed, and its context leads there. *)
Definition created_volume (h : history) (rn : string) (capacity : Z) (v : Volume) : Prop :=
  exists sv protocol endpoint, shown h sv /\ durable h (sv_Filesystem sv) (sv_Name sv) rn protocol /\
    exposed h sv protocol endpoint /\ routes v protocol endpoint /\
    v_VolumeId v = sv_Filesystem sv +:+ "/" +:+ sv_Name sv /\ v_CapacityBytes v = capacity.

(** The client answers a subvolume under the name it was asked for. *)
Definition answer_named (o : cop) : cans o -> Prop :=
  match o return cans o -> Prop with
  | GetSubvolume fs name | CloneSubvolume fs _ name =>
      fun r => forall sv, r.1 = Some sv -> sv_Filesystem sv = fs /\ sv_Name sv = name
  | CloneSnapshot p =>
      fun r => forall sv, r.1 = Some sv -> sv_Filesystem sv = snk_Filesystem p /\ sv_Name sv = snk_NewName p
  | _ => fun _ => True
  end.

Definition create_policy (rn : string) : policy csig :=
  {| allow h o := create_allow rn h o; env _ o r := answer_named o r; crash := True |}.

(** ** Monotonicity *)

Lemma shown_app h t sv : shown h sv -> shown (h ++ t) sv.
Proof. intros (e & sv0 & H & ?). exists e, sv0. auto with csi. Qed.

Lemma durable_app h t fs n rn p : durable h fs n rn p -> durable (h ++ t) fs n rn p.
Proof. intros [(props & a & H & ?)|(e & sv & H & ?)]; [left; exists props, a|right; exists e, sv]; auto with csi. Qed.

Lemma created_here_app h t fs n : created_here h fs n -> created_here (h ++ t) fs n.
Proof.
  intros (sv & H1 & H2 & H3 & [(p & e & H)|[(p & e & H)|(f & a & b & e & H)]]); exists sv; repeat split; try done;
    eauto 10 with csi.
Qed.

Lemma exposed_app h t sv p n : exposed h sv p n -> exposed (h ++ t) sv p n.
Proof.
  destruct 1; [eapply exposed_nfs_listed|eapply exposed_nfs|eapply exposed_smb_listed|eapply exposed_smb
    |eapply exposed_iscsi_listed|eapply exposed_iscsi|eapply exposed_nvmeof_listed|eapply exposed_nvmeof];
    eauto with csi.
Qed.

Lemma created_volume_app h t rn c v : created_volume h rn c v -> created_volume (h ++ t) rn c v.
Proof.
  intros (sv & p & n & H1 & H2 & H3 & H4 & H5). exists sv, p, n.
  auto 10 using shown_app, durable_app, exposed_app.
Qed.

(** The answer that carries a subvolume shows it. *)
Lemma shown_answer h o r sv : sv ∈ answered_subvolumes (cev o r) -> shown (h ++ [cev o r]) sv.
Proof. intros H. exists (cev o r), sv. repeat split; auto with csi. Qed.

Lemma shown_get h o (r : cans o) sv :
  answered_subvolumes (cev o r) = [sv] -> shown (h ++ [cev o r]) sv.
Proof. intros E. apply shown_answer. rewrite E. by left. Qed.
End Facts.

#[export] Hint Resolve shown_app durable_app created_here_app exposed_app created_volume_app : csi.

Section Identity.
Context {api : NastyAPI} {laws : NastyAPILaws} {tt_ : TextTemplate} (rn : string).

Abbreviation cwp := (wp (create_policy rn)).

(** ** Identity maps *)

(** The part of an identity that [mergeProperties] adds to a property map. *)
Record carries (protocol : string) (idp : smap) : Prop := {
  car_version : idp !! propertyIdentityVersion = Some identityVersion2;
  car_request : idp !! propertyCSIRequestName = Some rn;
  car_protocol : idp !! PropertyProtocol = Some protocol;
  car_uuid : exists u, idp !! propertyVolumeUUID = Some u /\ u <> ""
}.

Lemma key_facts :
  PropertyManagedBy <> propertyCSIRequestName /\ PropertyManagedBy <> propertyVolumeUUID /\
  PropertyManagedBy <> propertyIdentityVersion /\ PropertyManagedBy <> PropertyProtocol /\
  PropertyManagedBy <> PropertyCreatedAt /\ PropertyCSIVolumeName <> PropertyProtocol /\
  PropertyCSIVolumeName <> propertyCSIRequestName /\ PropertyCSIVolumeName <> propertyVolumeUUID /\
  PropertyCSIVolumeName <> propertyIdentityVersion /\ PropertyProtocol <> propertyCSIRequestName /\
  PropertyProtocol <> propertyVolumeUUID /\ PropertyProtocol <> propertyIdentityVersion /\
  PropertyCreatedAt <> propertyCSIRequestName /\ PropertyCreatedAt <> propertyVolumeUUID /\
  PropertyCreatedAt <> propertyIdentityVersion /\ PropertyCreatedAt <> PropertyProtocol.
Proof.
  pose proof keys_distinct as H. repeat (apply NoDup_cons in H as [? H]).
  repeat match goal with H : _ ∉ _ :: _ |- _ => apply not_elem_of_cons in H as [? H] end.
  repeat split; congruence.
Qed.

Lemma intended_identifies sv base idp protocol :
  carries protocol idp -> identifies rn protocol (Some (intended_properties sv base idp)).
Proof.
  intros [H1 H2 H3 (u & H4 & Hu)].
  destruct key_facts as (K1 & K2 & K3 & K4 & K5 & _ & _ & _ & _ & _ & _ & _ & K6 & K7 & K8 & K9).
  unfold intended_properties, mergeProperties.
  split; unfold map_get, map_lookup; rewrite put_nonempty_other by done;
    rewrite ?lookup_insert_eq, ?lookup_insert_ne by done; try done;
    erewrite lookup_union_Some_l by eassumption; done.
Qed.

Lemma propertiesContain_get props expected k v :
  propertiesContain props expected = true -> expected !! k = Some v -> props.[k] = v.
Proof.
  unfold propertiesContain. rewrite forallb_forall. intros H Hk.
  specialize (H (k, v)). apply String.eqb_eq, H, list_elem_of_In, elem_of_map_to_list, Hk.
Qed.

Lemma contain_identifies props sv base idp protocol :
  carries protocol idp -> propertiesContain props (intended_properties sv base idp) = true ->
  identifies rn protocol props.
Proof.
  intros Hc H. destruct (intended_identifies sv base idp protocol Hc) as [I1 I2 I3 I4 I5].
  destruct Hc as [H1 H2 H3 (u & H4 & Hu)].
  destruct key_facts as (K1 & K2 & K3 & K4 & K5 & _ & _ & _ & _ & _ & _ & _ & K6 & K7 & K8 & K9).
  assert (forall k v, idp !! k = Some v -> PropertyManagedBy <> k -> PropertyCreatedAt <> k -> props.[k] = v) as Hget.
  { intros k v Hk Hm Hcr. eapply propertiesContain_get; [exact H|]. unfold intended_properties, mergeProperties.
    rewrite put_nonempty_other, lookup_insert_ne by done. by erewrite lookup_union_Some_l by eassumption. }
  split; [|by apply Hget..|rewrite (Hget _ _ H4); done].
  eapply propertiesContain_get; [exact H|]. unfold intended_properties.
  by rewrite put_nonempty_other, lookup_insert_eq.
Qed.

(** A decision that is good for a subvolume (or a new one): its properties
    carry the identity, and it may skip the write only where the identity is
    already complete. *)
Definition good_decision (protocol : string) (sv : option Subvolume) (d : volumeIdentityDecision) : Prop :=
  exists idp, d_properties d = Some idp /\ carries protocol idp /\
    (d_persist d = false -> exists sv0, sv = Some sv0 /\ identifies rn protocol (sv_Properties sv0)).

(** ** Programs that only draw random bytes *)

Lemma uuid_nonempty v : uuid_text v <> "".
Proof.
  unfold uuid_text. cbv zeta. intros H. apply (f_equal str_len) in H. rewrite !str_app_length in H.
  change (str_len "-") with 1%nat in H. change (str_len "") with 0%nat in H. lia.
Qed.

Lemma wp_identityProperties h b existing backendName protocol :
  lock_held h = b ->
  cwp h (identityProperties existing rn backendName protocol) (fun r h' => lock_held h' = b /\
    forall idp, r = Ok idp -> carries protocol idp /\
      (existing.[propertyVolumeUUID] <> "" -> idp !! propertyVolumeUUID = Some existing.[propertyVolumeUUID])).
Proof.
  intros Hb. unfold identityProperties. cbv zeta.
  destruct key_facts as (_ & _ & _ & _ & _ & K5 & K6 & K7 & K8 & K9 & K10 & K11 & _).
  assert (forall u, u <> "" -> carries protocol
    {[ PropertyCSIVolumeName := backendName; PropertyProtocol := protocol; propertyCSIRequestName := rn;
       propertyVolumeUUID := u; propertyIdentityVersion := identityVersion2 ]}) as Hc.
  { intros u Hu. split; [..|exists u; split; [|done]];
      repeat (rewrite lookup_insert_eq || rewrite lookup_insert_ne by done || rewrite lookup_singleton_eq); done. }
  destruct (String.eqb_spec existing.[propertyVolumeUUID] "") as [E|E].
  - wp_step. unfold newVolumeUUID. wp_step. apply wp_do; [exact I|]. intros r _. cbv beta.
    destruct r as [v|e]; wp_step; cbv beta iota; wp_step; split; auto with csi; try done.
    intros idp [= <-]. split; [by apply Hc, uuid_nonempty|done].
  - wp_step. split; [done|]. intros idp [= <-]. split; [by apply Hc|]. intros _.
    by rewrite !lookup_insert_ne, lookup_insert_eq by done.
Qed.

Lemma wp_newVolumeIdentityDecision h b req backendName protocol :
  req_Name req = rn -> lock_held h = b ->
  cwp h (newVolumeIdentityDecision req backendName protocol) (fun r h' => lock_held h' = b /\
    forall d, r = Ok d -> good_decision protocol None d).
Proof.
  intros Hrn Hb. unfold newVolumeIdentityDecision. rewrite Hrn. wp_step.
  eapply wp_mono; [|by apply wp_identityProperties].
  intros [idp|e] h' [Hb' Hi]; wp_step; split; try done. intros d [= <-]. exists idp.
  split; [done|]. split; [by apply Hi|done].
Qed.

(** ** Existing volumes *)

Lemma wp_decideExisting h b req protocol backendName sv :
  req_Name req = rn -> lock_held h = b ->
  cwp h (decideExistingVolumeIdentity req protocol backendName sv) (fun r h' => lock_held h' = b /\
    forall d, r = Ok d -> good_decision protocol (Some sv) d).
Proof.
  intros Hrn Hb. unfold decideExistingVolumeIdentity. cbv zeta.
  assert (forall persist,
    (persist = false -> identifies rn protocol (sv_Properties sv)) ->
    cwp h (r <- identityProperties (sv_Properties sv) (req_Name req) backendName protocol;;
           match r with
           | Err err => Ret (Err (Status Internal ("failed to generate volume identity: " +:+ err_text err)))
           | Ok identity => Ret (Ok (mkDecision (Some identity) persist))
           end)
      (fun r h' => lock_held h' = b /\ forall d, r = Ok d -> good_decision protocol (Some sv) d)) as Hwith.
  { intros persist Hp. rewrite Hrn. wp_step. eapply wp_mono; [|by apply wp_identityProperties].
    intros [idp|e] h' [Hb' Hi]; wp_step; split; try done. intros d [= <-]. exists idp.
    split; [done|]. split; [by apply Hi|]. eauto. }
  destruct (String.eqb_spec (sv_Properties sv).[PropertyManagedBy] ManagedByValue) as [Em|Em]; cbn [andb].
  - destruct (String.eqb_spec (sv_Properties sv).[propertyIdentityVersion] identityVersion2) as [Ev|Ev].
    + destruct (String.eqb_spec (sv_Properties sv).[propertyCSIRequestName] (req_Name req)) as [Er|Er]; cbn [negb orb];
        [|by wp_step].
      destruct (String.eqb_spec (sv_Properties sv).[PropertyProtocol] protocol) as [Ep|Ep]; cbn [negb]; [|by wp_step].
      apply Hwith. intros H. bool_to_prop. split; congruence.
    + match goal with |- context [if ?c then _ else _] => destruct c end; [by wp_step|by apply Hwith].
  - match goal with |- context [if ?c then _ else _] => destruct c end; [by wp_step|by apply Hwith].
Qed.

Lemma wp_selectExisting h b req filesystem backendName protocol :
  req_Name req = rn -> lock_held h = b ->
  cwp h (selectExistingCreateSubvolume req filesystem backendName protocol) (fun r h' => lock_held h' = b /\
    forall sv name d, r = Ok (Some sv, name, d) -> shown h' sv /\ good_decision protocol (Some sv) d).
Proof.
  intros Hrn Hb. unfold selectExistingCreateSubvolume.
  destruct (ResolveLegacyVolumeName _ _) as [legacy|e]; [|by wp_step].
  assert (forall h0 sv name, shown h0 sv -> lock_held h0 = b ->
    cwp h0 (decision <-! decideExistingVolumeIdentity req protocol name sv;; Ret (Ok (Some sv, name, decision)))
      (fun r h' => lock_held h' = b /\
        forall sv name d, r = Ok (Some sv, name, d) -> shown h' sv /\ good_decision protocol (Some sv) d)) as Hdec.
  { intros h0 sv name Hs Hb0. eapply wp_call_spec; [by apply (wp_decideExisting h0 b)|].
    intros [d|e] t [Hb1 Hd]; wp_step; (split; [done|]); [|done]. intros ? ? ? [= <- <- <-]. auto with csi. }
  wp_step. apply wp_do; [exact I|]. intros [subvol err] _. cbv beta iota.
  destruct (query_failed err); [wp_step; split; [auto with csi|done]|]. cbv zeta.
  destruct subvol as [sv|].
  { apply Hdec; [|auto with csi]. apply shown_get. done. }
  destruct (String.eqb legacy backendName); [wp_step; split; [auto with csi|done]|].
  wp_step. apply wp_do; [exact I|]. intros [subvol' err'] _. cbv beta iota.
  destruct (query_failed err'); [wp_step; split; [auto with csi|done]|].
  destruct subvol' as [sv|]; [|wp_step; split; [auto with csi|done]].
  apply Hdec; [|auto with csi]. apply shown_get. done.
Qed.
(** ** Writing the identity and rolling back *)

Lemma identified_properties rn0 protocol props : identifies rn0 protocol props -> props <> None.
Proof. intros [H _ _ _ _] ->. unfold map_get in H. simpl in H. by apply managed_value. Qed.

(** A subvolume with an identity was shown with it. *)
Lemma shown_durable h sv protocol :
  shown h sv -> identifies rn protocol (sv_Properties sv) ->
  durable h (sv_Filesystem sv) (sv_Name sv) rn protocol.
Proof.
  intros (e & sv0 & He & Hsv & E1 & E2 & _ & _ & [E|E]) Hi; [|by apply identified_properties in Hi].
  right. exists e, sv0. by rewrite <- E.
Qed.

Lemma wp_with_identityMu {A} h (body : M A) (Q : A -> history -> Prop) :
  lock_held h = false ->
  (forall r0, cwp (h ++ [cev LockIdentity r0]) body
     (fun r h' => lock_held h' = true /\ forall r1, Q r (h' ++ [cev UnlockIdentity r1]))) ->
  cwp h (with_identityMu body) Q.
Proof.
  intros Hh Hbody. unfold with_identityMu. wp_step. apply wp_do; [exact Hh|]. intros r0 _.
  wp_step. eapply wp_mono; [|apply Hbody]. intros r h' [Hl HQ]. wp_step. apply wp_do; [exact Hl|].
  intros r1 _. wp_step. apply HQ.
Qed.

Lemma good_decision_persist protocol o d :
  good_decision protocol o d -> d_persist d = false -> exists sv, o = Some sv /\ identifies rn protocol (sv_Properties sv).
Proof. intros (idp & _ & _ & H). auto. Qed.

Lemma good_fresh protocol o d : good_decision protocol None d -> good_decision protocol o d.
Proof. intros (idp & H1 & H2 & H3). exists idp. split_and!; [done..|]. intros Hp. by destruct (H3 Hp) as (? & ? & _). Qed.

Lemma wp_persist h protocol sv base d :
  lock_held h = false -> shown h sv -> good_decision protocol (Some sv) d ->
  cwp h (persistVolumeIdentity sv base d) (fun r h' => lock_held h' = false /\ same_place sv r.2 /\
    (r.1 = None -> durable h' (sv_Filesystem sv) (sv_Name sv) rn protocol)).
Proof.
  intros Hl Hs Hd. unfold persistVolumeIdentity. apply wp_with_identityMu; [done|]. intros r0. cbv zeta.
  set (h1 := h ++ [cev LockIdentity r0]).
  assert (lock_held h1 = true) as Hl1 by (unfold h1; by rewrite lock_held_snoc).
  assert (shown h1 sv) as Hs1 by (unfold h1; auto with csi).
  assert (forall h2, lock_held h2 = true -> forall r1, lock_held (h2 ++ [cev UnlockIdentity r1]) = false) as Hunlock
    by (intros; by rewrite lock_held_snoc).
  destruct Hd as (idp & Ed & Hc & Hp). rewrite Ed.
  destruct (negb (d_persist d) && bool_decide (base = None)) eqn:E0.
  { wp_step. split; [done|]. intros r1. split_and!; [auto|apply same_place_refl|]. intros _.
    apply andb_true_iff in E0 as [E0 _]. apply negb_true_iff in E0.
    destruct (Hp E0) as (sv0 & [= <-] & Hi). apply durable_app, shown_durable; done. }
  destruct (propertiesContain (sv_Properties sv) _) eqn:E1.
  { wp_step. split; [done|]. intros r1. split_and!; [auto|apply same_place_refl|]. intros _.
    apply durable_app, shown_durable; [done|]. by eapply contain_identifies. }
  wp_step. apply wp_do; [split; [done|]; exists protocol; by apply intended_identifies|].
  intros [a err] _. cbv beta iota. destruct err as [e|].
  - wp_step. apply wp_do; [exact I|]. intros [refreshed readErr] _. cbv beta iota.
    assert (forall h2 (e' : error) sv', lock_held h2 = true -> same_place sv sv' ->
      cwp h2 (Ret (Some e', sv')) (fun r h' => lock_held h' = true /\ forall r1,
        lock_held (h' ++ [cev UnlockIdentity r1]) = false /\ same_place sv r.2 /\
        (r.1 = None -> durable (h' ++ [cev UnlockIdentity r1]) (sv_Filesystem sv) (sv_Name sv) rn protocol))) as Hfail.
    { intros h2 e' sv' Hl2 Hsv. apply wp_ret. split; [done|]. intros r1. split; [auto|]. split; [done|]. discriminate. }
    destruct readErr as [re|], refreshed as [current|]; [| | destruct (negb (propertiesContain (sv_Properties current) _)) |]; apply Hfail;
      try apply same_place_refl; try apply same_place_properties; by rewrite !lock_held_snoc.
  - wp_step. split; [by rewrite lock_held_snoc|]. intros r1. split_and!; [by rewrite !lock_held_snoc|apply same_place_properties|].
    intros _. apply durable_app. left. eexists _, a. split; [apply elem_of_hist_last|].
    by apply intended_identifies.
Qed.

Lemma wp_rollback h sv e :
  lock_held h = false -> created_here h (sv_Filesystem sv) (sv_Name sv) ->
  cwp h (rollbackCreatedSubvolume sv e) (fun _ h' => lock_held h' = false).
Proof.
  intros Hl Hc. unfold rollbackCreatedSubvolume. case_bool_decide; [by wp_step|].
  apply wp_with_identityMu; [done|]. intros r0. cbv zeta. wp_step. apply wp_do; [exact I|].
  intros [current readErr] _. cbv beta iota.
  assert (forall h2 r1, lock_held h2 = true -> lock_held (h2 ++ [cev UnlockIdentity r1]) = false) as Hunlock
    by (intros; by rewrite lock_held_snoc).
  match goal with |- wp _ ?h1 (if ?c then _ else _) _ => assert (lock_held h1 = true) as Hl1 by (by rewrite !lock_held_snoc);
    destruct c eqn:E1 end.
  { wp_step. auto. }
  destruct readErr as [re|].
  { destruct (query_failed (Some re)) eqn:E2; [wp_step; auto|].
    unfold query_failed in E2. destruct (isNotFoundError (Some re)); [|done]. cbn [orb]. wp_step. auto. }
  cbn [query_failed isNotFoundError orb]. case_bool_decide as E3; [wp_step; auto|].
  destruct current as [c|]; [|done]. wp_step. apply wp_do.
  { split_and!; [done|auto with csi|]. eexists _, c. split; [reflexivity|done]. }
  intros err _. cbv beta.
  destruct err; wp_step; (split; [|intros r1; apply Hunlock]); by rewrite lock_held_snoc.
Qed.
(** ** The shared steps of the creations *)

(** The lock is free, and a success satisfies [P]. *)
Definition free_ok {A} (P : A -> history -> Prop) (r : res A) (h : history) : Prop :=
  lock_held h = false /\ forall a, r = Ok a -> P a h.

(** ... is a created volume of this capacity. *)
Definition created_ok (capacity : Z) : res Volume -> history -> Prop :=
  free_ok (fun v h => created_volume h rn capacity v).

Lemma free_ok_err {A} (P : A -> history -> Prop) e h : lock_held h = false -> free_ok P (Err e) h.
Proof. by split. Qed.

Lemma free_ok_ok {A} (P : A -> history -> Prop) a h : lock_held h = false -> P a h -> free_ok P (Ok a) h.
Proof. intros Hl HP. split; [done|]. by intros ? [= <-]. Qed.

Lemma wp_free_fail {A} (P : A -> history -> Prop) t e h : lock_held h = false -> cwp h (fail t e) (free_ok P).
Proof. intros Hl. apply wp_fail; [exact I|]. intros r. apply free_ok_err. auto with csi. Qed.

Lemma wp_free_observed {A} (P : A -> history -> Prop) t (p : M (res A)) h :
  cwp h p (free_ok P) -> cwp h (observed t p) (free_ok P).
Proof.
  intros Hp. apply wp_observed; [done|]. eapply wp_mono; [|exact Hp]. intros [a|e] h' [Hl HP]; [by split|].
  intros r. apply free_ok_err. auto with csi.
Qed.

(** Sequencing with the early return. *)
Lemma wp_free_bind {A B} (P : A -> history -> Prop) (Q : B -> history -> Prop) (p : M (res A)) (k : A -> M (res B)) h :
  cwp h p (free_ok P) ->
  (forall a t, lock_held (h ++ t) = false -> P a (h ++ t) -> cwp (h ++ t) (k a) (free_ok Q)) ->
  cwp h (x <-! p;; k x) (free_ok Q).
Proof.
  intros Hp Hk. eapply wp_call_spec; [exact Hp|]. intros [a|e] t [Hl HP]; [by apply Hk; auto|].
  apply wp_ret. by apply free_ok_err.
Qed.

Lemma wp_rollback_if {A} (P : A -> history -> Prop) created sv e h :
  lock_held h = false -> (created = true -> created_here h (sv_Filesystem sv) (sv_Name sv)) ->
  cwp h (rollback_if created sv e) (free_ok P).
Proof.
  intros Hl Hc. unfold rollback_if. destruct created; [|apply wp_ret; by apply free_ok_err].
  wp_step. eapply wp_mono; [|apply wp_rollback; auto]. intros e' h' Hl'. wp_step. by apply free_ok_err.
Qed.

(** The decisions, with the lock free. *)
Lemma wp_fresh_decision h req name protocol :
  req_Name req = rn -> lock_held h = false ->
  cwp h (newVolumeIdentityDecision req name protocol) (free_ok (fun d _ => good_decision protocol None d)).
Proof. apply wp_newVolumeIdentityDecision. Qed.

Lemma wp_existing_decision h req protocol name sv :
  req_Name req = rn -> lock_held h = false ->
  cwp h (decideExistingVolumeIdentity req protocol name sv) (free_ok (fun d _ => good_decision protocol (Some sv) d)).
Proof. apply wp_decideExisting. Qed.

(** The identity an adoption writes. *)
Lemma wp_adopted_identity h sv req name protocol :
  req_Name req = rn -> lock_held h = false ->
  cwp h (identityProperties (sv_Properties sv) (req_Name req) name protocol)
    (free_ok (fun idp _ => good_decision protocol (Some sv) (mkDecision (Some idp) true))).
Proof.
  intros -> Hl. eapply wp_mono; [|by apply wp_identityProperties]. intros r h' [Hl' H]. split; [done|].
  intros idp Hr. destruct (H idp Hr) as [Hc _]. by exists idp.
Qed.

Definition good_selection (protocol : string) (sel : option Subvolume * string * volumeIdentityDecision)
    (h : history) : Prop :=
  match sel.1.1 with Some sv => shown h sv /\ good_decision protocol (Some sv) sel.2 | None => True end.

Lemma wp_selection h req fs name protocol :
  req_Name req = rn -> lock_held h = false ->
  cwp h (selectExistingCreateSubvolume req fs name protocol) (free_ok (good_selection protocol)).
Proof.
  intros Hrn Hl. eapply wp_mono; [|by apply wp_selectExisting]. intros r h' [Hl' H]. split; [done|].
  intros [[[sv|] n] d] ->; [|exact I]. by apply (H sv n d).
Qed.

(** The last step of a creation: an answer, whose metrics are recorded. *)
Lemma created_volume_answer h h' sv sv' protocol endpoint capacity v :
  shown h sv -> same_place sv sv' -> durable h (sv_Filesystem sv) (sv_Name sv) rn protocol ->
  exposed h sv protocol endpoint ->
  v_VolumeId v = sv_Filesystem sv' +:+ "/" +:+ sv_Name sv' -> v_CapacityBytes v = capacity -> routes v protocol endpoint ->
  created_volume (h ++ h') rn capacity v.
Proof.
  intros Hs [E1 E2 _ _] Hd He Ei Ec Hr. apply created_volume_app.
  exists sv, protocol, endpoint. rewrite Ei, Ec, E1, E2. rewrite E1, E2 in Hd. auto 10.
Qed.

Lemma created_answer h h' sv sv' protocol endpoint capacity v :
  shown h sv -> same_place sv sv' -> durable h (sv_Filesystem sv) (sv_Name sv) rn protocol ->
  exposed h sv protocol endpoint -> lock_held (h ++ h') = false ->
  v_VolumeId v = sv_Filesystem sv' +:+ "/" +:+ sv_Name sv' -> v_CapacityBytes v = capacity -> routes v protocol endpoint ->
  created_ok capacity (Ok v) (h ++ h').
Proof. intros. apply free_ok_ok; [done|]. by eapply created_volume_answer. Qed.

(** The check of the capacity recorded with a block volume. *)
Lemma existing_capacity_compatible sv requested :
  (0 <? existing_block_capacity sv requested) && negb (existing_block_capacity sv requested =? requested) = false ->
  existing_block_capacity sv requested = requested.
Proof.
  unfold existing_block_capacity. destruct (map_lookup _ _) as [c|]; [|done].
  destruct (0 <? StringToInt64 c) eqn:E; [|done]. rewrite E. cbn [andb].
  intros H. by apply negb_false_iff, Z.eqb_eq in H.
Qed.

Lemma wp_propertiesV1 h protocol params cluster :
  lock_held h = false -> cwp h (propertiesV1 protocol params cluster) (fun _ h' => lock_held h' = false).
Proof. intros Hl. unfold propertiesV1. wp_auto. auto with csi. Qed.

Lemma wp_adoptionProperties h protocol name capacity params cluster :
  lock_held h = false ->
  cwp h (adoptionProperties protocol name capacity params cluster) (fun _ h' => lock_held h' = false).
Proof. intros Hl. unfold adoptionProperties. wp_auto. auto with csi. Qed.

Lemma wp_apply_annotation h s req params :
  lock_held h = false ->
  cwp h (apply_annotation s req params) (fun p h' => lock_held h' = false /\
    requestedCapacity p = requestedCapacity params).
Proof.
  intros Hl. unfold apply_annotation, pvcHasAdoptableAnnotation. cbv zeta.
  wp_auto; (split; [auto with csi|]); try done; by case_match.
Qed.

Lemma wp_getOrCreateSubvolume h kind blockfs params t :
  lock_held h = false ->
  cwp h (getOrCreateSubvolume kind blockfs params t)
    (free_ok (fun got h' => shown h' got.1 /\
       (got.2 = true -> created_here h' (sv_Filesystem got.1) (sv_Name got.1)))).
Proof.
  intros Hl. unfold getOrCreateSubvolume. cbv zeta. wp_step. apply wp_do; [exact I|]. intros [existing err] _.
  cbv beta iota.
  assert (forall h', lock_held h' = false -> cwp h'
    (let! (subvol, err) := do_ (CreateSubvolume (subvolumeCreateParams (filesystem params) (subvolumeName params) kind blockfs params)) in
     match err with
     | Some e => fail t (create_failed (filesystem params) (subvolumeName params) (requestedCapacity params) e)
     | None => sv <- deref subvol;; Ret (Ok (sv, sv_Created sv))
     end)
    (free_ok (fun got h' => shown h' got.1 /\
       (got.2 = true -> created_here h' (sv_Filesystem got.1) (sv_Name got.1))))) as Hcreate.
  { intros h' Hl'. wp_step. apply wp_do; [exact I|]. intros [subvol e] _. cbv beta iota.
    destruct e as [e|]; [apply wp_free_fail; auto with csi|]. wp_step. apply wp_deref_ret; [done|]. intros sv ->.
    wp_step. apply free_ok_ok; [auto with csi|]. split; [by apply shown_get|].
    intros Hc. exists sv. split_and!; [done..|]. left. eexists _, _. apply elem_of_hist_last. }
  destruct err as [e|].
  - destruct (query_failed (Some e)); [apply wp_free_fail|apply Hcreate]; auto with csi.
  - destruct existing as [sv|]; [|apply Hcreate; auto with csi]. wp_step. apply free_ok_ok; [auto with csi|].
    split; [by apply shown_get|done].
Qed.
End Identity.

#[export] Hint Resolve free_ok_err free_ok_ok same_place_refl same_place_properties : csi.
