(* ===== verification/CreationFiles.v ===== *)
(** * Safety of the creation of file volumes

    NFS and SMB: every execution of the creation and adoption handlers under
    the policy of [Creation], and what their success means. *)

From S2P Require Import Prelude GoStrings Prog Errors Api Metadata Capacity Names Identity Capabilities Comment Common Nfs Smb Creation.

#[local] Set Default Proof Using "Type*".

Section Files.
Context {api : NastyAPI} {laws : NastyAPILaws} {tt_ : TextTemplate} (rn : string) (s : service).

Abbreviation cwp := (wp (create_policy rn)).
Abbreviation created_ok := (created_ok rn).

(** ** NFS *)

Lemma nfs_share_of_listed path shares share :
  nfs_share_of path shares = Some share -> share ∈ shares /\ nfs_Path share = path.
Proof. intros H. apply find_some_elem in H as [? H]. split; [done|]. by apply String.eqb_eq in H. Qed.

Lemma wp_createNFSShare h sv sv' params t :
  lock_held h = false -> shown h sv -> same_place sv sv' ->
  durable h (sv_Filesystem sv) (sv_Name sv) rn ProtocolNFS ->
  cwp h (createNFSShareForSubvolume sv' params t) (free_ok (fun _ h' => exposed h' sv ProtocolNFS (sv_Path sv))).
Proof.
  intros Hl Hs [_ _ E3 _] Hd. unfold createNFSShareForSubvolume. cbv zeta. wp_step. apply wp_do.
  { exists sv. auto. }
  intros [share err] _. cbv beta iota.
  destruct err as [e|]; [apply wp_free_fail; auto with csi|]. destruct share as [share|]; [|apply wp_free_fail; auto with csi].
  destruct (String.eqb_spec (nfs_Path share) (sv_Path sv')) as [E|E]; cbn [negb]; [|apply wp_free_fail; auto with csi].
  wp_step. apply free_ok_ok; [auto with csi|].
  eapply exposed_nfs; [apply elem_of_hist_last|]. congruence.
Qed.

(** The context of a share leads to it. *)
Lemma share_routes id capacity meta share source protocol :
  m_Protocol meta = protocol -> route_key protocol = VolumeContextKeyShare ->
  routes (mkVolume id capacity (<[VolumeContextKeyShare := share]> (buildVolumeContext meta)) source) protocol share.
Proof. intros <- Hk. split; cbn [v_VolumeContext]; [by rewrite get_insert_ne, built_protocol|by rewrite Hk, get_insert]. Qed.

Lemma wp_buildNFS h name server sv share capacity :
  lock_held h = false ->
  cwp h (buildNFSVolumeResponseFromSubvolume name server sv share capacity) (fun v h' => lock_held h' = false /\
    v_VolumeId v = sv_Filesystem sv +:+ "/" +:+ sv_Name sv /\ v_CapacityBytes v = capacity /\ routes v ProtocolNFS (sv_Path sv)).
Proof. intros Hl. unfold buildNFSVolumeResponseFromSubvolume. cbv zeta. wp_auto. auto using share_routes with csi. Qed.

Lemma wp_nfs_commit_and_share h params sv created d t :
  lock_held h = false -> shown h sv -> good_decision rn ProtocolNFS (Some sv) d ->
  (created = true -> created_here h (sv_Filesystem sv) (sv_Name sv)) ->
  cwp h (nfs_commit_and_share s params sv created d t) (created_ok (requestedCapacity params)).
Proof.
  intros Hl Hs Hd Hc. unfold nfs_commit_and_share.
  eapply wp_call_spec; [by apply wp_propertiesV1|]. intros props t1 Hl1.
  eapply wp_call_spec; [apply (wp_persist rn _ ProtocolNFS); auto with csi|]. intros [err sv'] t2 (Hl2 & Hsp & Hdur). cbn [fst snd] in *.
  destruct err as [e|].
  - wp_auto. apply wp_rollback_if; [auto with csi|]. destruct Hsp as [<- <- _ _]. auto with csi.
  - eapply wp_free_bind; [apply (wp_createNFSShare _ sv); auto with csi|]. intros share t3 Hl3 He. cbv beta in He.
    eapply wp_call_spec; [by apply wp_buildNFS|]. intros v t4 (Hl4 & Ei & Ec & Er). rewrite <- (same_path _ _ Hsp) in Er.
    apply wp_succeed; [exact I|]. intros r. eapply (created_answer rn); eauto 10 with csi.
Qed.

Lemma wp_handleExistingNFS h params sv d t :
  lock_held h = false -> shown h sv -> good_decision rn ProtocolNFS (Some sv) d ->
  cwp h (handleExistingNFSSubvolume s params sv d t)
    (free_ok (fun o h' => forall v, o = Some v -> created_volume h' rn (requestedCapacity params) v)).
Proof.
  intros Hl Hs Hd. unfold handleExistingNFSSubvolume. wp_step. apply wp_do; [exact I|]. intros [shares err] _.
  cbv beta iota. destruct err as [e|]; [apply wp_free_fail; auto with csi|].
  destruct (nfs_share_of (sv_Path sv) shares) as [share|] eqn:Eshare; [|wp_step; apply free_ok_ok; auto with csi; done].
  apply nfs_share_of_listed in Eshare as [Hin Epath]. cbv zeta.
  set (existing := match nfs_Comment share with Some c => parseCapacityFromComment c | None => 0 end).
  destruct ((0 <? existing) && negb (existing =? requestedCapacity params)) eqn:Ecap; [apply wp_free_fail; auto with csi|].
  eapply wp_call_spec; [apply wp_propertiesV1; auto with csi|]. intros props t1 Hl1.
  eapply wp_call_spec; [apply (wp_persist rn _ ProtocolNFS); auto with csi|]. intros [err sv'] t2 (Hl2 & Hsp & Hdur). cbn [fst snd] in *.
  destruct err as [e|]; [by apply wp_free_fail|].
  eapply wp_call_spec; [by apply wp_buildNFS|]. intros v t3 (Hl3 & Ei & Ec & Er). rewrite <- (same_path _ _ Hsp) in Er.
  apply wp_succeed; [exact I|]. intros r. split; [auto with csi|]. intros ? [= <-] ? [= <-].
  eapply (created_volume_answer rn _ _ sv sv' ProtocolNFS); [| | | |exact Ei| |]; eauto 10 with csi.
  - eapply exposed_nfs_listed; eauto 10 with csi.
  - rewrite Ec. destruct (0 <? existing); [|done]. cbn [andb] in Ecap. apply negb_false_iff, Z.eqb_eq in Ecap. done.
Qed.

Lemma validateParams_capacity req fs server strategy p :
  validateParams req fs server strategy = Ok p -> requestedCapacity p = requested_capacity req.
Proof.
  unfold validateParams. destruct (ResolveVolumeName _ _); [|done]. destruct (ResolveComment _ _); [|done].
  destruct (parseDataReplicas _); [|done]. by intros [= <-].
Qed.

Lemma validateNFSParams_capacity req p :
  validateNFSParams req = Ok p -> requestedCapacity p = requested_capacity req.
Proof.
  unfold validateNFSParams. destruct (String.eqb _ _); [done|].
  destruct (validateParams _ _ _ _) as [q|] eqn:E; [|done]. intros [= <-]. by apply validateParams_capacity in E.
Qed.

Lemma wp_createNFSVolume h req :
  req_Name req = rn -> lock_held h = false ->
  cwp h (createNFSVolume s req) (created_ok (requested_capacity req)).
Proof.
  intros Hrn Hl. unfold createNFSVolume. cbv zeta.
  eapply (wp_free_bind rn (fun (p : nfsVolumeParams) _ => requestedCapacity p = requested_capacity req)).
  { apply wp_free_observed, wp_ret. split; [done|]. intros p Hp. by apply validateNFSParams_capacity. }
  intros params t1 Hl1 Hcap. eapply wp_call_spec; [by apply wp_apply_annotation|]. intros common t2 [Hl2 Ecap].
  rewrite Hcap in Ecap.
  eapply (wp_free_bind rn); [by apply wp_free_observed, wp_selection|]. intros [[existing name] found] t3 Hl3 Hsel.
  destruct existing as [sv|].
  - destruct Hsel as [Hs Hd].
    eapply (wp_free_bind rn); [by apply wp_handleExistingNFS|]. intros [v|] t4 Hl4 Hv.
    + wp_step. apply free_ok_ok; [done|]. rewrite <- Ecap. by apply Hv.
    + rewrite <- Ecap. apply wp_nfs_commit_and_share; auto with csi. done.
  - eapply (wp_free_bind rn); [by apply wp_free_observed, wp_fresh_decision|]. intros identity t4 Hl4 Hd.
    wp_step. apply wp_do; [exact I|]. intros [created err] _. cbv beta iota.
    destruct err as [e|]; [apply wp_free_fail; auto with csi|]. wp_step. apply wp_deref_ret; [done|]. intros sv ->.
    rewrite <- Ecap. destruct (sv_Created sv) eqn:Ecr.
    + apply wp_nfs_commit_and_share; [auto with csi|by apply shown_get|by apply good_fresh|].
      intros _. exists sv. split_and!; [done..|]. left. eexists _, _. apply elem_of_hist_last.
    + eapply (wp_free_bind rn); [apply wp_free_observed, wp_existing_decision; auto with csi|].
      intros d t5 Hl5 Hd5. apply wp_nfs_commit_and_share; [done| |done|done]. by apply shown_app, shown_get.
Qed.

Lemma wp_adoptNFSVolume h req sv params :
  req_Name req = rn -> lock_held h = false -> shown h sv ->
  cwp h (adoptNFSVolume s req sv params) (created_ok (requested_capacity req)).
Proof.
  intros Hrn Hl Hs. unfold adoptNFSVolume. cbv zeta.
  destruct (String.eqb (sv_Path sv) ""); [by apply wp_free_fail|].
  eapply wp_call_spec; [by apply wp_adoptionProperties|]. intros props t1 Hl1.
  eapply wp_call_spec; [by apply wp_adopted_identity|]. intros [idp|e] t2 [Hl2 Hd]; [|by apply wp_ret, free_ok_err].
  specialize (Hd idp eq_refl). wp_step. apply wp_do; [exact I|]. intros [shares err] _. cbv beta iota.
  destruct err as [e|]; [apply wp_free_fail; auto with csi|].
  eapply wp_call_spec; [apply (wp_persist rn _ ProtocolNFS); auto with csi|].
  intros [err sv'] t3 (Hl3 & Hsp & Hdur). cbn [fst snd] in *. destruct err as [e|]; [by apply wp_free_fail|].
  specialize (Hdur eq_refl).
  eapply (wp_free_bind rn (fun _ h' => exposed h' sv ProtocolNFS (sv_Path sv))).
  - destruct (nfs_share_of (sv_Path sv) shares) as [share|] eqn:Eshare.
    + wp_step. apply free_ok_ok; [done|]. apply nfs_share_of_listed in Eshare as [Hin Epath].
      eapply exposed_nfs_listed; eauto 10 with csi.
    + wp_step. apply wp_do; [by exists sv; split; [auto 10 with csi|]; split; [apply Hsp|]|].
      intros [share err] _. cbv beta iota. destruct err as [e|]; [apply wp_free_fail; auto with csi|].
      destruct share as [share|]; [|apply wp_free_fail; auto with csi].
      destruct (String.eqb_spec (nfs_Path share) (sv_Path sv')) as [E|E]; [|apply wp_free_fail; auto with csi].
      wp_step. apply free_ok_ok; [auto with csi|]. eapply exposed_nfs; [apply elem_of_hist_last|].
      rewrite E. symmetry. apply Hsp.
  - intros share t4 Hl4 He. wp_step. apply wp_do; [exact I|]. intros r _. apply wp_succeed; [exact I|]. intros r'.
    rewrite <- app_assoc. eapply (created_answer rn _ _ sv sv' ProtocolNFS); try done; auto 10 with csi; [|by rewrite (same_path _ _ Hsp); apply share_routes].
    rewrite app_assoc. auto with csi.
Qed.

(** ** SMB *)

Lemma smb_share_of_listed path shares share :
  smb_share_of path shares = Some share -> share ∈ shares /\ smb_Path share = path.
Proof. intros H. apply find_some_elem in H as [? H]. split; [done|]. by apply String.eqb_eq in H. Qed.

Lemma smb_share_matches_some o path name share :
  smb_share_matches o path name = Some share -> o = Some share /\ smb_Path share = path.
Proof.
  unfold smb_share_matches. destruct o as [sh|]; [|done].
  destruct (String.eqb_spec (smb_Path sh) path) as [E|E]; [|done]. cbn [andb].
  destruct (String.eqb _ _); [|done]. by intros [= ->].
Qed.

(** The creation of the share once the identity is durable, as the creation
    and the adoption do it. *)
Lemma wp_smb_share h sv sv' (p : SMBShareCreateParams) (name : string) t (failed : error -> error) (mismatch : error) :
  lock_held h = false -> shown h sv -> same_place sv sv' ->
  durable h (sv_Filesystem sv) (sv_Name sv) rn ProtocolSMB -> smp_Path p = sv_Path sv' ->
  cwp h (let! (share, err) := do_ (CreateSMBShare p) in
         match err with
         | Some e => fail t (failed e)
         | None => match smb_share_matches share (sv_Path sv') name with
                   | Some share => Ret (Ok share)
                   | None => fail t mismatch
                   end
         end)
    (free_ok (fun share h' => exposed h' sv ProtocolSMB (smb_Name share))).
Proof.
  intros Hl Hs Hsp Hd Ep. wp_step. apply wp_do.
  { exists sv. rewrite Ep. split; [auto|]. split; [apply Hsp|done]. }
  intros [share err] _. cbv beta iota. destruct err as [e|]; [apply wp_free_fail; auto with csi|].
  destruct (smb_share_matches _ _ _) as [sh|] eqn:E; [|apply wp_free_fail; auto with csi].
  apply smb_share_matches_some in E as [-> E]. wp_step. apply free_ok_ok; [auto with csi|].
  eapply exposed_smb; [apply elem_of_hist_last|]. rewrite E. symmetry. apply Hsp.
Qed.

Lemma wp_buildSMB h name server sv share capacity :
  lock_held h = false ->
  cwp h (buildSMBVolumeResponse name server sv share capacity) (fun v h' => lock_held h' = false /\
    v_VolumeId v = sv_Filesystem sv +:+ "/" +:+ sv_Name sv /\ v_CapacityBytes v = capacity /\ routes v ProtocolSMB (smb_Name share)).
Proof. intros Hl. unfold buildSMBVolumeResponse. cbv zeta. wp_auto. auto using share_routes with csi. Qed.

Lemma wp_smb_commit_and_share h params sv created d t :
  lock_held h = false -> shown h sv -> good_decision rn ProtocolSMB (Some sv) d ->
  (created = true -> created_here h (sv_Filesystem sv) (sv_Name sv)) ->
  cwp h (smb_commit_and_share s params sv created d t) (created_ok (requestedCapacity params)).
Proof.
  intros Hl Hs Hd Hc. unfold smb_commit_and_share.
  eapply wp_call_spec; [by apply wp_propertiesV1|]. intros props t1 Hl1.
  eapply wp_call_spec; [apply (wp_persist rn _ ProtocolSMB); auto with csi|].
  intros [err sv'] t2 (Hl2 & Hsp & Hdur). cbn [fst snd] in *. destruct err as [e|].
  - wp_auto. apply wp_rollback_if; [auto with csi|]. destruct Hsp as [<- <- _ _]. auto with csi.
  - eapply wp_free_bind; [apply (wp_smb_share _ sv); auto with csi|]. intros share t3 Hl3 He. cbv beta in He.
    eapply wp_call_spec; [by apply wp_buildSMB|]. intros v t4 (Hl4 & Ei & Ec & Er).
    apply wp_succeed; [exact I|]. intros r. eapply (created_answer rn _ _ sv sv' ProtocolSMB); eauto 10 with csi.
Qed.

Lemma wp_handleExistingSMB h params sv d t :
  lock_held h = false -> shown h sv -> good_decision rn ProtocolSMB (Some sv) d ->
  cwp h (handleExistingSMBSubvolume s params sv d t)
    (free_ok (fun o h' => forall v, o = Some v -> created_volume h' rn (requestedCapacity params) v)).
Proof.
  intros Hl Hs Hd. unfold handleExistingSMBSubvolume. wp_step. apply wp_do; [exact I|]. intros [shares err] _.
  cbv beta iota. destruct err as [e|]; [apply wp_free_fail; auto with csi|].
  destruct (smb_share_of (sv_Path sv) shares) as [share|] eqn:Eshare; [|wp_step; apply free_ok_ok; auto with csi; done].
  apply smb_share_of_listed in Eshare as [Hin Epath]. cbv zeta.
  destruct (negb _); [apply wp_free_fail; auto with csi|].
  set (existing := match smb_Comment share with Some c => parseCapacityFromComment c | None => 0 end).
  destruct ((0 <? existing) && negb (existing =? requestedCapacity params)) eqn:Ecap; [apply wp_free_fail; auto with csi|].
  eapply wp_call_spec; [apply wp_propertiesV1; auto with csi|]. intros props t1 Hl1.
  eapply wp_call_spec; [apply (wp_persist rn _ ProtocolSMB); auto with csi|].
  intros [err sv'] t2 (Hl2 & Hsp & Hdur). cbn [fst snd] in *. destruct err as [e|]; [by apply wp_free_fail|].
  eapply wp_call_spec; [by apply wp_buildSMB|]. intros v t3 (Hl3 & Ei & Ec & Er).
  apply wp_succeed; [exact I|]. intros r. split; [auto with csi|]. intros ? [= <-] ? [= <-].
  eapply (created_volume_answer rn _ _ sv sv' ProtocolSMB); [| | | |exact Ei| |]; eauto 10 with csi.
  - eapply exposed_smb_listed; eauto 10 with csi.
  - rewrite Ec. destruct (0 <? existing); [|done]. cbn [andb] in Ecap. apply negb_false_iff, Z.eqb_eq in Ecap. done.
Qed.

Lemma validateSMBParams_capacity req p :
  validateSMBParams req = Ok p -> requestedCapacity p = requested_capacity req.
Proof.
  unfold validateSMBParams. destruct (String.eqb _ _); [done|].
  destruct (validateParams _ _ _ _) as [q|] eqn:E; [|done]. intros [= <-]. by apply validateParams_capacity in E.
Qed.

Lemma wp_createSMBVolume h req :
  req_Name req = rn -> lock_held h = false ->
  cwp h (createSMBVolume s req) (created_ok (requested_capacity req)).
Proof.
  intros Hrn Hl. unfold createSMBVolume. cbv zeta.
  eapply (wp_free_bind rn (fun (p : smbVolumeParams) _ => requestedCapacity p = requested_capacity req)).
  { apply wp_free_observed, wp_ret. split; [done|]. intros p Hp. by apply validateSMBParams_capacity. }
  intros params t1 Hl1 Hcap. eapply wp_call_spec; [by apply wp_apply_annotation|]. intros common t2 [Hl2 Ecap].
  rewrite Hcap in Ecap.
  eapply (wp_free_bind rn); [by apply wp_free_observed, wp_selection|]. intros [[existing name] found] t3 Hl3 Hsel.
  destruct existing as [sv|].
  - destruct Hsel as [Hs Hd].
    eapply (wp_free_bind rn); [by apply wp_handleExistingSMB|]. intros [v|] t4 Hl4 Hv.
    + wp_step. apply free_ok_ok; [done|]. rewrite <- Ecap. by apply Hv.
    + rewrite <- Ecap. apply wp_smb_commit_and_share; auto with csi. done.
  - eapply (wp_free_bind rn); [by apply wp_free_observed, wp_fresh_decision|]. intros fresh t4 Hl4 Hd.
    eapply (wp_free_bind rn); [by apply wp_getOrCreateSubvolume|]. intros [sv created] t5 Hl5 [Hs Hc]. cbn [fst snd] in *.
    rewrite <- Ecap. destruct created.
    + apply wp_smb_commit_and_share; auto. by apply good_fresh.
    + eapply (wp_free_bind rn); [apply wp_free_observed, wp_existing_decision; auto with csi|].
      intros d t6 Hl6 Hd6. apply wp_smb_commit_and_share; auto with csi.
Qed.

Lemma wp_adoptSMBVolume h req sv params :
  req_Name req = rn -> lock_held h = false -> shown h sv ->
  cwp h (adoptSMBVolume s req sv params) (created_ok (requested_capacity req)).
Proof.
  intros Hrn Hl Hs. unfold adoptSMBVolume. cbv zeta.
  destruct (String.eqb (sv_Path sv) ""); [by apply wp_free_fail|].
  eapply wp_call_spec; [by apply wp_adoptionProperties|]. intros props t1 Hl1.
  eapply wp_call_spec; [by apply wp_adopted_identity|]. intros [idp|e] t2 [Hl2 Hd]; [|by apply wp_ret, free_ok_err].
  specialize (Hd idp eq_refl). wp_step. apply wp_do; [exact I|]. intros [shares err] _. cbv beta iota.
  destruct err as [e|]; [apply wp_free_fail; auto with csi|].
  eapply wp_call_spec; [apply (wp_persist rn _ ProtocolSMB); auto with csi|].
  intros [err sv'] t3 (Hl3 & Hsp & Hdur). cbn [fst snd] in *. destruct err as [e|]; [by apply wp_free_fail|].
  specialize (Hdur eq_refl).
  eapply (wp_free_bind rn (fun share h' => exposed h' sv ProtocolSMB (smb_Name share))).
  - destruct (smb_share_of (sv_Path sv) shares) as [share|] eqn:Eshare; [|apply wp_smb_share; auto 10 with csi].
    wp_step. apply free_ok_ok; [done|]. apply smb_share_of_listed in Eshare as [Hin Epath].
    eapply exposed_smb_listed; eauto 10 with csi.
  - intros share t4 Hl4 He. wp_step. apply wp_do; [exact I|]. intros r _. apply wp_succeed; [exact I|]. intros r'.
    rewrite <- app_assoc. eapply (created_answer rn _ _ sv sv' ProtocolSMB); try done; auto 10 with csi; [|by apply share_routes].
    rewrite app_assoc. auto with csi.
Qed.
End Files.
