(* ===== verification/CreationBlocks.v ===== *)
(** * Safety of the creation of block volumes

    iSCSI and NVMe-oF: the shared creation, then the targets and subsystems,
    under the policy of [Creation]. *)

From S2P Require Import Prelude GoStrings Prog Errors Api Metadata Capacity Names Identity Capabilities Common Block Iscsi Nvmeof Creation CreationFiles.

#[local] Set Default Proof Using "Type*".

Section Blocks.
Context {api : NastyAPI} {laws : NastyAPILaws} {tt_ : TextTemplate} (rn : string).

Abbreviation cwp := (wp (create_policy rn)).
Abbreviation created_ok := (created_ok rn).

(** ** The shared creation *)

Lemma wp_abandon {A} (P : A -> history -> Prop) t created sv e h :
  lock_held h = false -> (created = true -> created_here h (sv_Filesystem sv) (sv_Name sv)) ->
  cwp h (abandon t created sv e) (free_ok P).
Proof.
  intros Hl Hc. unfold abandon. wp_step. apply wp_do; [exact I|]. intros r _.
  apply wp_rollback_if; auto with csi.
Qed.

(** What is required of the step that exposes a device. *)
Definition exposes (protocol : string) (capacity : Z) (expose : string -> Subvolume -> M (res Volume)) : Prop :=
  forall h device sv sv', lock_held h = false -> shown h sv -> same_place sv sv' -> block_device sv = Some device ->
    durable h (sv_Filesystem sv) (sv_Name sv) rn protocol -> cwp h (expose device sv') (created_ok capacity).

Definition keeps_lock (properties : M gomap) : Prop :=
  forall h, lock_held h = false -> cwp h properties (fun _ h' => lock_held h' = false).

Lemma wp_block_commit_and_expose h t created sv d properties protocol c device expose :
  keeps_lock properties -> exposes protocol c expose -> block_device sv = Some device ->
  lock_held h = false -> shown h sv -> good_decision rn protocol (Some sv) d ->
  (created = true -> created_here h (sv_Filesystem sv) (sv_Name sv)) ->
  cwp h (block_commit_and_expose t created sv d properties (expose device)) (created_ok c).
Proof.
  intros Hprops Hexp Hdev Hl Hs Hd Hc. unfold block_commit_and_expose.
  eapply wp_call_spec; [by apply Hprops|]. intros props t1 Hl1.
  eapply wp_call_spec; [apply (wp_persist rn _ protocol); auto with csi|].
  intros [err sv'] t2 (Hl2 & Hsp & Hdur). cbn [fst snd] in *. destruct err as [e|].
  - apply wp_abandon; [done|]. destruct Hsp as [<- <- _ _]. auto with csi.
  - apply (Hexp _ _ sv); auto with csi.
Qed.

Lemma wp_block_identity h req protocol name existed created d sv :
  req_Name req = rn -> lock_held h = false -> (existed = false -> good_decision rn protocol None d) ->
  cwp h (block_identity req protocol name existed created d sv)
    (free_ok (fun d' _ => good_decision rn protocol (Some sv) d')).
Proof.
  intros Hrn Hl Hd. unfold block_identity. destruct created; [|by apply wp_existing_decision].
  destruct existed; [|apply wp_ret, free_ok_ok; auto using good_fresh].
  eapply wp_mono; [|by apply wp_fresh_decision]. intros r h' [Hl' H]. split; [done|]. auto using good_fresh.
Qed.

Lemma wp_create_block_volume h req protocol t params blockfs existing found properties expose :
  req_Name req = rn -> lock_held h = false -> keeps_lock properties ->
  exposes protocol (requestedCapacity params) expose ->
  cwp h (create_block_volume req protocol t params blockfs existing found properties expose)
    (created_ok (requestedCapacity params)).
Proof.
  intros Hrn Hl Hprops Hexp. unfold create_block_volume. cbv zeta.
  eapply (wp_free_bind rn (fun d _ => bool_decide (is_Some existing) = false -> good_decision rn protocol None d)).
  { destruct existing as [sv0|]; [apply wp_ret, free_ok_ok; [done|]; by rewrite bool_decide_true|].
    apply wp_free_observed. eapply wp_mono; [|by apply wp_fresh_decision]. intros r h' [Hl' H]. split; auto. }
  intros decision t1 Hl1 Hfresh.
  eapply (wp_free_bind rn); [by apply wp_getOrCreateSubvolume|]. intros [sv created] t2 Hl2 [Hs Hc]. cbn [fst snd] in *.
  eapply wp_call_spec; [by apply wp_block_identity|]. intros [d|e] t3 [Hl3 Hd]; [|apply wp_abandon; auto with csi].
  specialize (Hd d eq_refl).
  destruct (block_device sv) as [device|] eqn:Edev; [|apply wp_abandon; auto with csi].
  destruct (validateInitializedBlockFilesystem _ _); [|apply wp_abandon; auto with csi].
  eapply wp_block_commit_and_expose; eauto with csi.
Qed.

Lemma wp_adopt_block_checks h t req sv params what :
  lock_held h = false ->
  cwp h (adopt_block_checks t req sv params what) (free_ok (fun device _ => block_device sv = Some device)).
Proof.
  intros Hl. unfold adopt_block_checks. destruct (String.eqb _ _); [by apply wp_free_fail|].
  destruct (requestedBlockFilesystem _); [|by apply wp_free_fail].
  destruct (validateKnownBlockFilesystem _ _); [|by apply wp_free_fail].
  destruct (block_device sv) as [d|]; [|by apply wp_free_fail]. wp_step. by apply free_ok_ok.
Qed.

Lemma same_block_device sv sv' : same_place sv sv' -> block_device sv' = block_device sv.
Proof. intros [_ _ _ E]. unfold block_device. by rewrite E. Qed.

(** ** iSCSI *)

Lemma iscsi_target_of_listed iqn targets tg : iscsi_target_of iqn targets = Some tg -> tg ∈ targets.
Proof. intros H. by apply find_some_elem in H as [? _]. Qed.

Lemma iscsi_target_matches_some o iqn device tg :
  iscsi_target_matches o iqn device = Some tg -> o = Some tg /\ iscsiTargetUsesDevice (Some tg) device = true.
Proof.
  unfold iscsi_target_matches. destruct o as [tg'|]; [|done].
  destruct (_ && _) eqn:E; [|done]. apply andb_true_iff in E as [_ E]. by intros [= <-].
Qed.

Lemma wp_buildISCSI h name server sv tg capacity :
  lock_held h = false ->
  cwp h (buildISCSIVolumeResponse name server sv tg capacity) (fun v h' => lock_held h' = false /\
    v_VolumeId v = sv_Filesystem sv +:+ "/" +:+ sv_Name sv /\ v_CapacityBytes v = capacity /\ routes v ProtocolISCSI (it_IQN tg)).
Proof.
  intros Hl. unfold buildISCSIVolumeResponse. cbv zeta. wp_auto. split_and!; auto with csi.
  split; cbn [v_VolumeContext]; rewrite get_insert_ne by done; [apply built_protocol|by apply built_key].
Qed.

Lemma iscsi_exposes (params : iscsiVolumeParams) t : exposes ProtocolISCSI (requestedCapacity params) (iscsi_expose params t).
Proof.
  intros h device sv sv' Hl Hs Hsp Hdev Hd. unfold iscsi_expose. wp_step. apply wp_do; [exists sv; auto|].
  intros [target err] _. cbv beta iota. destruct err as [e|]; [apply wp_free_fail; auto with csi|].
  destruct (iscsi_target_matches _ _ _) as [tg|] eqn:E; [|apply wp_free_fail; auto with csi].
  apply iscsi_target_matches_some in E as [-> Euses]. wp_step. apply wp_do; [exact I|]. intros r _.
  eapply wp_call_spec; [apply wp_buildISCSI; auto with csi|]. intros v t1 (Hl1 & Ei & Ec & Er). wp_step.
  eapply (created_answer rn _ _ sv sv' ProtocolISCSI (it_IQN tg)); auto with csi.
  apply exposed_app. eapply exposed_iscsi; [apply elem_of_hist_last|done..].
Qed.

Lemma wp_handleExistingISCSI s h (params : iscsiVolumeParams) sv d t :
  lock_held h = false -> shown h sv -> good_decision rn ProtocolISCSI (Some sv) d ->
  cwp h (handleExistingISCSISubvolume s params sv d t)
    (free_ok (fun o h' => forall v, o = Some v -> created_volume h' rn (requestedCapacity params) v)).
Proof.
  intros Hl Hs Hd. unfold handleExistingISCSISubvolume.
  destruct (validateKnownBlockFilesystem _ _); [|by apply wp_free_fail]. cbv zeta.
  set (existing := existing_block_capacity sv (requestedCapacity params)).
  assert ((0 <? existing) && negb (existing =? requestedCapacity params) = false -> existing = requestedCapacity params) as Hcap.
  { apply existing_capacity_compatible. }
  destruct ((0 <? existing) && negb (existing =? requestedCapacity params)) eqn:Ecap; [by apply wp_free_fail|].
  specialize (Hcap eq_refl). wp_step. apply wp_do; [exact I|]. intros [targets err] _. cbv beta iota.
  destruct err as [e|]; [apply wp_free_fail; auto with csi|].
  destruct (iscsi_target_of _ targets) as [tg|] eqn:Etg; [|wp_step; apply free_ok_ok; auto with csi; done].
  apply iscsi_target_of_listed in Etg.
  destruct (block_device sv) as [device|] eqn:Edev; [|apply wp_free_fail; auto with csi].
  destruct (iscsiTargetUsesDevice (Some tg) device) eqn:Euses; cbn [negb]; [|apply wp_free_fail; auto with csi].
  eapply wp_call_spec; [apply wp_propertiesV1; auto with csi|]. intros props t1 Hl1.
  eapply wp_call_spec; [apply (wp_persist rn _ ProtocolISCSI); auto with csi|].
  intros [err sv'] t2 (Hl2 & Hsp & Hdur). cbn [fst snd] in *. destruct err as [e|]; [by apply wp_free_fail|].
  eapply wp_call_spec; [by apply wp_buildISCSI|]. intros v t3 (Hl3 & Ei & Ec & Er).
  apply wp_succeed; [exact I|]. intros r. split; [auto with csi|]. intros ? [= <-] ? [= <-].
  eapply (created_volume_answer rn _ _ sv sv' ProtocolISCSI); [| | | |exact Ei|congruence|exact Er]; eauto 10 with csi.
  eapply exposed_iscsi_listed; eauto 10 with csi.
Qed.

Lemma validateISCSIParams_capacity req p :
  validateISCSIParams req = Ok p -> requestedCapacity p = requested_capacity req.
Proof.
  unfold validateISCSIParams. destruct (String.eqb _ _); [done|]. destruct (String.eqb _ _); [done|].
  destruct (validateParams _ _ _ _) as [q|] eqn:E; [|done].
  destruct (requestedBlockFilesystem _); [|done]. intros [= <-]. by apply validateParams_capacity in E.
Qed.

Lemma wp_createISCSIVolume s h req :
  req_Name req = rn -> lock_held h = false ->
  cwp h (createISCSIVolume s req) (created_ok (requested_capacity req)).
Proof.
  intros Hrn Hl. unfold createISCSIVolume. cbv zeta.
  eapply (wp_free_bind rn (fun (p : iscsiVolumeParams) _ => requestedCapacity p = requested_capacity req)).
  { apply wp_free_observed, wp_ret. split; [done|]. intros p Hp. by apply validateISCSIParams_capacity. }
  intros params t1 Hl1 Hcap. eapply wp_call_spec; [by apply wp_apply_annotation|]. intros common t2 [Hl2 Ecap].
  rewrite Hcap in Ecap. rewrite <- Ecap.
  eapply (wp_free_bind rn); [by apply wp_free_observed, wp_selection|]. intros [[existing name] found] t3 Hl3 Hsel.
  set (params' := iscsi_with_names name common params).
  change (requestedCapacity common) with (requestedCapacity params').
  assert (forall h', lock_held h' = false -> cwp h'
    (create_block_volume req ProtocolISCSI (iscsi_timer "create") params' (iscsi_blockFilesystem params') existing found
       (iscsiPropertiesV1 s params') (iscsi_expose params' (iscsi_timer "create")))
    (created_ok (requestedCapacity params'))) as Hcont.
  { intros h' Hl'. apply wp_create_block_volume; [done..| |apply iscsi_exposes].
    intros h0 Hl0. by apply wp_propertiesV1. }
  destruct existing as [sv|]; [|by apply Hcont]. destruct Hsel as [Hs Hd].
  eapply (wp_free_bind rn); [by apply wp_handleExistingISCSI|]. intros [v|] t4 Hl4 Hv; [|by apply Hcont].
  wp_step. apply free_ok_ok; [done|]. by apply Hv.
Qed.

(** The metrics and the answer of an adoption. *)
Lemma wp_adopted_iscsi_answer h sv sv' t name server tg capacity :
  lock_held h = false -> shown h sv -> same_place sv sv' ->
  durable h (sv_Filesystem sv) (sv_Name sv) rn ProtocolISCSI -> exposed h sv ProtocolISCSI (it_IQN tg) ->
  cwp h (do_ (ObserveSuccess t) ;;; do_ (SetVolumeCapacity name ProtocolISCSI capacity) ;;;
         (resp <- buildISCSIVolumeResponse name server sv' tg capacity;; Ret (Ok resp))) (created_ok capacity).
Proof.
  intros Hl Hs Hsp Hd He. wp_step. apply wp_do; [exact I|]. intros r _. wp_step. apply wp_do; [exact I|]. intros r' _.
  eapply wp_call_spec; [apply wp_buildISCSI; auto with csi|]. intros v t1 (Hl1 & Ei & Ec & Er). wp_step.
  eapply (created_answer rn _ _ sv sv' ProtocolISCSI (it_IQN tg)); auto with csi.
Qed.

Lemma wp_adoptISCSIVolume s h req sv params :
  req_Name req = rn -> lock_held h = false -> shown h sv ->
  cwp h (adoptISCSIVolume s req sv params) (created_ok (requested_capacity req)).
Proof.
  intros Hrn Hl Hs. unfold adoptISCSIVolume. cbv zeta.
  eapply (wp_free_bind rn); [by apply wp_adopt_block_checks|]. intros device t0 Hl0 Hdev.
  eapply wp_call_spec; [by apply wp_adoptionProperties|]. intros props t1 Hl1.
  eapply wp_call_spec; [by apply wp_adopted_identity|]. intros [idp|e] t2 [Hl2 Hd]; [|by apply wp_ret, free_ok_err].
  specialize (Hd idp eq_refl). wp_step. apply wp_do; [exact I|]. intros [targets err] _. cbv beta iota.
  destruct err as [e|]; [apply wp_free_fail; auto with csi|].
  destruct (iscsi_target_of _ targets) as [tg|] eqn:Etg; [destruct (iscsiTargetUsesDevice (Some tg) device) eqn:Euses|];
    cbn [negb]; [|apply wp_free_fail; auto with csi|].
  all: eapply wp_call_spec; [apply (wp_persist rn _ ProtocolISCSI); auto with csi|];
    intros [err sv'] t3 (Hl3 & Hsp & Hdur); cbn [fst snd] in *; destruct err as [e|]; [by apply wp_free_fail|];
    specialize (Hdur eq_refl).
  all: eapply (wp_free_bind rn (fun tg h' => exposed h' sv ProtocolISCSI (it_IQN tg))).
  - wp_step. apply free_ok_ok; [done|]. apply iscsi_target_of_listed in Etg.
    eapply exposed_iscsi_listed; eauto 10 with csi.
  - intros tg' t4 Hl4 He. by apply (wp_adopted_iscsi_answer _ sv); auto 10 with csi.
  - wp_step. apply wp_do; [exists sv; auto 10 with csi|]. intros [target err] _. cbv beta iota.
    destruct err as [e|]; [apply wp_free_fail; auto with csi|].
    destruct (iscsi_target_matches _ _ _) as [tg|] eqn:E; [|apply wp_free_fail; auto with csi].
    apply iscsi_target_matches_some in E as [-> Euses]. wp_step. apply free_ok_ok; [auto with csi|].
    eapply exposed_iscsi; [apply elem_of_hist_last|done..].
  - intros tg' t4 Hl4 He. by apply (wp_adopted_iscsi_answer _ sv); auto 10 with csi.
Qed.

(** ** NVMe-oF *)

Lemma selectNVMeSubsystem_some subsystems nqn name device ss :
  selectNVMeSubsystem subsystems nqn name device = Ok (Some ss) ->
  ss ∈ subsystems /\ nvmeSubsystemUsesDevice (Some ss) device = true.
Proof.
  unfold selectNVMeSubsystem. cbv zeta.
  set (candidates := match List.filter _ _ with [] => _ | _ :: _ => _ end).
  assert (forall x, x ∈ candidates -> x ∈ subsystems) as Hc.
  { intros x. unfold candidates. destruct (List.filter (fun ss => String.eqb (ns_NQN ss) nqn) subsystems) eqn:E;
      [|rewrite <- E]; intros Hx; apply list_elem_of_In in Hx; apply filter_In in Hx as [Hx _];
      by apply list_elem_of_In. }
  destruct candidates as [|c0 cs] eqn:E; [done|]. rewrite <- E. rewrite <- E in Hc.
  destruct (List.filter (fun ss => nvmeSubsystemUsesDevice (Some ss) device) candidates) as [|x [|y l]] eqn:Ef;
    [done| |done]. intros [= ->].
  assert (In ss (List.filter (fun ss => nvmeSubsystemUsesDevice (Some ss) device) candidates)) as Hin by (rewrite Ef; by left).
  apply filter_In in Hin as [Hin Hu]. split; [|done]. by apply Hc, list_elem_of_In.
Qed.

Lemma nvme_subsystem_matches_some o name device ss :
  nvme_subsystem_matches o name device = Some ss -> o = Some ss /\ nvmeSubsystemUsesDevice (Some ss) device = true.
Proof.
  unfold nvme_subsystem_matches. destruct (_ && _) eqn:E; [|done]. intros ->.
  by apply andb_true_iff in E as [_ E].
Qed.

Lemma wp_buildNVMeOF h name server sv ss capacity :
  lock_held h = false ->
  cwp h (buildNVMeOFVolumeResponse name server sv ss capacity) (fun v h' => lock_held h' = false /\
    v_VolumeId v = sv_Filesystem sv +:+ "/" +:+ sv_Name sv /\ v_CapacityBytes v = capacity /\ routes v ProtocolNVMeOF (ns_NQN ss)).
Proof.
  intros Hl. unfold buildNVMeOFVolumeResponse. cbv zeta. wp_auto. split_and!; auto with csi.
  split; cbn [v_VolumeContext]; rewrite !get_insert_ne by done; [apply built_protocol|by apply built_key].
Qed.

(** The queue parameters are other entries of the context. *)
Lemma queue_routes q z v endpoint : routes v ProtocolNVMeOF endpoint -> routes (with_queue_params q z v) ProtocolNVMeOF endpoint.
Proof. intros [Hp Hk]. split; cbn [v_VolumeContext with_queue_params]; unfold injectQueueParams; by rewrite !get_put_ne. Qed.

Lemma nvmeof_exposes (params : nvmeofVolumeParams) t :
  exposes ProtocolNVMeOF (requestedCapacity params) (nvmeof_expose params t).
Proof.
  intros h device sv sv' Hl Hs Hsp Hdev Hd. unfold nvmeof_expose. wp_step. apply wp_do; [exists sv; auto|].
  intros [subsystem err] _. cbv beta iota. destruct err as [e|]; [apply wp_free_fail; auto with csi|].
  destruct (nvme_subsystem_matches _ _ _) as [ss|] eqn:E; [|apply wp_free_fail; auto with csi].
  apply nvme_subsystem_matches_some in E as [-> Euses]. wp_step. apply wp_do; [exact I|]. intros r _.
  eapply wp_call_spec; [apply wp_buildNVMeOF; auto with csi|]. intros v t1 (Hl1 & Ei & Ec & Er).
  apply wp_succeed; [exact I|]. intros r'.
  eapply (created_answer rn _ _ sv sv' ProtocolNVMeOF (ns_NQN ss)); auto using queue_routes with csi.
  apply exposed_app, exposed_app. eapply exposed_nvmeof; [apply elem_of_hist_last|done..].
Qed.

Lemma wp_handleExistingNVMeOF s h (params : nvmeofVolumeParams) sv d t :
  lock_held h = false -> shown h sv -> good_decision rn ProtocolNVMeOF (Some sv) d ->
  cwp h (handleExistingNVMeOFSubvolume s params sv d t)
    (free_ok (fun o h' => forall v, o = Some v -> created_volume h' rn (requestedCapacity params) v)).
Proof.
  intros Hl Hs Hd. unfold handleExistingNVMeOFSubvolume.
  destruct (validateKnownBlockFilesystem _ _); [|by apply wp_free_fail]. cbv zeta.
  set (existing := existing_block_capacity sv (requestedCapacity params)).
  assert ((0 <? existing) && negb (existing =? requestedCapacity params) = false -> existing = requestedCapacity params) as Hcap.
  { apply existing_capacity_compatible. }
  destruct ((0 <? existing) && negb (existing =? requestedCapacity params)) eqn:Ecap; [by apply wp_free_fail|].
  specialize (Hcap eq_refl).
  destruct (block_device sv) as [device|] eqn:Edev; [|apply wp_free_fail; auto with csi].
  wp_step. apply wp_do; [exact I|]. intros [subsystems err] _. cbv beta iota.
  destruct err as [e|]; [apply wp_free_fail; auto with csi|].
  destruct (selectNVMeSubsystem _ _ _ _) as [[ss|]|e] eqn:Ess;
    [|wp_step; apply free_ok_ok; auto with csi; done|apply wp_free_fail; auto with csi].
  apply selectNVMeSubsystem_some in Ess as [Hin Euses].
  eapply wp_call_spec; [apply wp_propertiesV1; auto with csi|]. intros props t1 Hl1.
  eapply wp_call_spec; [apply (wp_persist rn _ ProtocolNVMeOF); auto with csi|].
  intros [err sv'] t2 (Hl2 & Hsp & Hdur). cbn [fst snd] in *. destruct err as [e|]; [by apply wp_free_fail|].
  eapply wp_call_spec; [by apply wp_buildNVMeOF|]. intros v t3 (Hl3 & Ei & Ec & Er).
  apply wp_succeed; [exact I|]. intros r. split; [auto with csi|]. intros ? [= <-] ? [= <-].
  eapply (created_volume_answer rn _ _ sv sv' ProtocolNVMeOF); [| | | |exact Ei|cbn; congruence|by apply queue_routes]; eauto 10 with csi.
  eapply exposed_nvmeof_listed; eauto 10 with csi.
Qed.

Lemma validateNVMeOFParams_capacity req p :
  validateNVMeOFParams req = Ok p -> requestedCapacity p = requested_capacity req.
Proof.
  unfold validateNVMeOFParams. destruct (String.eqb _ _); [done|]. destruct (String.eqb _ _); [done|].
  destruct (validateParams _ _ _ _) as [q|] eqn:E; [|done].
  destruct (requestedBlockFilesystem _); [|done]. intros [= <-]. by apply validateParams_capacity in E.
Qed.

Lemma wp_createNVMeOFVolume s h req :
  req_Name req = rn -> lock_held h = false ->
  cwp h (createNVMeOFVolume s req) (created_ok (requested_capacity req)).
Proof.
  intros Hrn Hl. unfold createNVMeOFVolume. cbv zeta.
  eapply (wp_free_bind rn (fun (p : nvmeofVolumeParams) _ => requestedCapacity p = requested_capacity req)).
  { apply wp_free_observed, wp_ret. split; [done|]. intros p Hp. by apply validateNVMeOFParams_capacity. }
  intros params t1 Hl1 Hcap. eapply wp_call_spec; [by apply wp_apply_annotation|]. intros common t2 [Hl2 Ecap].
  rewrite Hcap in Ecap. rewrite <- Ecap.
  eapply (wp_free_bind rn); [by apply wp_free_observed, wp_selection|]. intros [[existing name] found] t3 Hl3 Hsel.
  set (params' := nvmeof_with_names name req common params).
  change (requestedCapacity common) with (requestedCapacity params').
  assert (forall h', lock_held h' = false -> cwp h'
    (create_block_volume req ProtocolNVMeOF (nvmeof_timer "create") params' (nvmeof_blockFilesystem params') existing found
       (nvmeofPropertiesV1 s params') (nvmeof_expose params' (nvmeof_timer "create")))
    (created_ok (requestedCapacity params'))) as Hcont.
  { intros h' Hl'. apply wp_create_block_volume; [done..| |apply nvmeof_exposes].
    intros h0 Hl0. by apply wp_propertiesV1. }
  destruct existing as [sv|]; [|by apply Hcont]. destruct Hsel as [Hs Hd].
  eapply (wp_free_bind rn); [by apply wp_handleExistingNVMeOF|]. intros [v|] t4 Hl4 Hv; [|by apply Hcont].
  wp_step. apply free_ok_ok; [done|]. by apply Hv.
Qed.

Lemma wp_adoptNVMeOFVolume s h req sv params :
  req_Name req = rn -> lock_held h = false -> shown h sv ->
  cwp h (adoptNVMeOFVolume s req sv params) (created_ok (requested_capacity req)).
Proof.
  intros Hrn Hl Hs. unfold adoptNVMeOFVolume. cbv zeta.
  eapply (wp_free_bind rn); [by apply wp_adopt_block_checks|]. intros device t0 Hl0 Hdev.
  eapply wp_call_spec; [by apply wp_adoptionProperties|]. intros props t1 Hl1.
  eapply wp_call_spec; [by apply wp_adopted_identity|]. intros [idp|e] t2 [Hl2 Hd]; [|by apply wp_ret, free_ok_err].
  specialize (Hd idp eq_refl). wp_step. apply wp_do; [exact I|]. intros [subsystems err] _. cbv beta iota.
  destruct err as [e|]; [apply wp_free_fail; auto with csi|].
  destruct (selectNVMeSubsystem _ _ _ _) as [existing|e] eqn:Ess; [|apply wp_free_fail; auto with csi].
  eapply wp_call_spec; [apply (wp_persist rn _ ProtocolNVMeOF); auto with csi|];
    intros [err sv'] t3 (Hl3 & Hsp & Hdur); cbn [fst snd] in *. destruct err as [e|]; [by apply wp_free_fail|].
  specialize (Hdur eq_refl).
  eapply (wp_free_bind rn (fun ss h' => exposed h' sv ProtocolNVMeOF (ns_NQN ss))).
  - destruct existing as [ss|].
    + wp_step. apply free_ok_ok; [done|]. apply selectNVMeSubsystem_some in Ess as [Hin Euses].
      eapply exposed_nvmeof_listed; eauto 10 with csi.
    + wp_step. apply wp_do; [exists sv; auto 10 with csi|]. intros [subsystem err] _. cbv beta iota.
      destruct err as [e|]; [apply wp_free_fail; auto with csi|].
      destruct (nvme_subsystem_matches _ _ _) as [ss|] eqn:E; [|apply wp_free_fail; auto with csi].
      apply nvme_subsystem_matches_some in E as [-> Euses]. wp_step. apply free_ok_ok; [auto with csi|].
      eapply exposed_nvmeof; [apply elem_of_hist_last|done..].
  - intros ss t4 Hl4 He. wp_step. apply wp_do; [exact I|]. intros r _. wp_step. apply wp_do; [exact I|]. intros r' _.
    eapply wp_call_spec; [apply wp_buildNVMeOF; auto with csi|]. intros v t5 (Hl5 & Ei & Ec & Er). wp_step.
    eapply (created_answer rn _ _ sv sv' ProtocolNVMeOF (ns_NQN ss)); auto 10 using queue_routes with csi.
Qed.
End Blocks.
