(* ===== verification/CreationTheorems.v ===== *)
(** * Safety and success of CreateVolume

    Clones and restores, adoption and the whole of [Controller.CreateVolume]
    under the policy of [Creation], and the theorems about its executions. *)

From S2P Require Import Prelude GoStrings Prog Errors Api Metadata Capacity Names Identity Capabilities SnapshotId Common Nfs Smb Block Iscsi Nvmeof Clone Controller Backend Lifecycle Creation CreationFiles CreationBlocks.

#[local] Set Default Proof Using "Type*".

Section Clones.
Context {api : NastyAPI} {laws : NastyAPILaws} {tt_ : TextTemplate} (rn : string) (s : service).

Abbreviation cwp := (wp (create_policy rn)).

(** A capacity that fits the range of a request. *)
Definition fits (req : CreateVolumeRequest) (capacity : Z) : Prop :=
  GetRequiredBytes (req_CapacityRange req) <= capacity /\ MinVolumeSize <= capacity /\
  (0 < GetLimitBytes (req_CapacityRange req) -> capacity <= GetLimitBytes (req_CapacityRange req)).

(** What the success of a creation means for the request. *)
Definition fulfilled (req : CreateVolumeRequest) (v : Volume) (h : history) : Prop :=
  exists capacity, created_volume h rn capacity v /\ fits req capacity.

Lemma created_fulfilled req c r h : fits req c -> created_ok rn c r h -> free_ok (fulfilled req) r h.
Proof. intros Hf [Hl H]. split; [done|]. intros v Hv. exists c. auto. Qed.

Lemma wp_createVolumeByProtocol h req protocol :
  req_Name req = rn -> lock_held h = false ->
  cwp h (createVolumeByProtocol s req protocol) (created_ok rn (requested_capacity req)).
Proof.
  intros Hrn Hl. unfold createVolumeByProtocol.
  destruct (String.eqb protocol ProtocolNFS); [by apply wp_createNFSVolume|].
  destruct (String.eqb protocol ProtocolNVMeOF); [by apply wp_createNVMeOFVolume|].
  destruct (String.eqb protocol ProtocolISCSI); [by apply wp_createISCSIVolume|].
  destruct (String.eqb protocol ProtocolSMB); [by apply wp_createSMBVolume|]. by apply wp_ret, free_ok_err.
Qed.

(** The capacity of a clone fits the request and is written into it. *)
Lemma wp_ensureClonedVolumeCapacity h req fs name :
  lock_held h = false ->
  cwp h (ensureClonedVolumeCapacity req fs name)
    (free_ok (fun sized _ => GetRequiredBytes (req_CapacityRange req) <= sized.1 /\
       (0 < GetLimitBytes (req_CapacityRange req) -> sized.1 <= GetLimitBytes (req_CapacityRange req)) /\
       req_Name sized.2 = req_Name req /\ GetRequiredBytes (req_CapacityRange sized.2) = sized.1)).
Proof.
  intros Hl. unfold ensureClonedVolumeCapacity. cbv zeta. wp_step. apply wp_do; [exact I|]. intros [sv err] _.
  cbv beta iota. destruct err as [e|]; [wp_step; auto with csi|].
  destruct (authoritativeSubvolumeCapacity sv) as [current|]; [|wp_step; auto with csi].
  destruct (int64_max <? current); [wp_step; auto with csi|].
  destruct (_ && _); [wp_step; auto with csi|].
  wp_step. apply wp_do; [exact I|]. intros [resized err] _. cbv beta iota.
  destruct err as [e|]; [wp_step; auto with csi|].
  assert (forall h' z, lock_held h' = false -> cwp h'
    (if z <? GetRequiredBytes (req_CapacityRange req) then
       Ret (Err (Status Internal ("cloned subvolume " +:+ (fs +:+ "/" +:+ name) +:+ " remained below requested capacity")))
     else if (0 <? GetLimitBytes (req_CapacityRange req)) && (GetLimitBytes (req_CapacityRange req) <? z) then
       Ret (Err (Status OutOfRange ("Cloned volume capacity " +:+ FormatInt z +:+
              " exceeds requested limit " +:+ FormatInt (GetLimitBytes (req_CapacityRange req)))))
     else range <- deref (req_CapacityRange req);;
          Ret (Ok (z, set_CapacityRange (Some (mkCapacityRange z (LimitBytes range))) req)))
    (free_ok (fun sized _ => GetRequiredBytes (req_CapacityRange req) <= sized.1 /\
       (0 < GetLimitBytes (req_CapacityRange req) -> sized.1 <= GetLimitBytes (req_CapacityRange req)) /\
       req_Name sized.2 = req_Name req /\ GetRequiredBytes (req_CapacityRange sized.2) = sized.1))) as Hchecked.
  { intros h' z Hl'. destruct (Z.ltb_spec z (GetRequiredBytes (req_CapacityRange req))); [wp_step; auto with csi|].
    destruct (_ && _) eqn:Elim; [wp_step; auto with csi|]. wp_step. apply wp_deref_ret; [done|]. intros range Hrange.
    wp_step. apply free_ok_ok; [done|]. cbn. split_and!; [done| |done|done]. bool_to_prop. lia. }
  destruct (authoritativeSubvolumeCapacity resized) as [returned|]; [|apply Hchecked; auto with csi].
  destruct (int64_max <? returned); [wp_step; auto with csi|]. apply Hchecked; auto with csi.
Qed.

Lemma wp_classifyCloneIdentity h req protocol source name dest props exists_ created existed legacy fresh :
  req_Name req = rn -> lock_held h = false -> good_decision rn protocol None fresh ->
  cwp h (classifyCloneIdentity req protocol source name dest props exists_ created existed legacy fresh)
    (free_ok (fun d _ => good_decision rn protocol None d)).
Proof.
  intros Hrn Hl Hfresh. unfold classifyCloneIdentity. cbv zeta.
  destruct (created || negb existed); [wp_step; by apply free_ok_ok|].
  wp_step. apply wp_deref_ret; [done|]. intros sv ->.
  assert (forall what, cwp h
    (r <- identityProperties (sv_Properties sv) (req_Name req) name protocol;;
     match r with
     | Err err => Ret (Err (Status Internal (what +:+ err_text err)))
     | Ok identity => Ret (Ok (mkDecision (Some identity) true))
     end) (free_ok (fun d _ => good_decision rn protocol None d))) as Hpreserve.
  { intros what. rewrite Hrn. wp_step. eapply wp_mono; [|by apply wp_identityProperties].
    intros [idp|e] h' [Hl' Hi]; wp_step; [|by apply free_ok_err]. apply free_ok_ok; [done|].
    exists idp. split; [done|]. split; [by apply Hi|done]. }
  match goal with |- context [if ?c then _ else _] => destruct c end; [by apply Hpreserve|].
  match goal with |- context [if ?c then _ else _] => destruct c end; [wp_step; by apply free_ok_ok|].
  destruct legacy; [|by apply wp_ret, free_ok_err].
  match goal with |- context [if ?c then _ else _] => destruct c end; [by apply wp_ret, free_ok_err|].
  match goal with |- context [if ?c then _ else _] => destruct c end; [wp_step; by apply free_ok_ok|].
  by apply Hpreserve.
Qed.

Definition created_here_if (created : bool) (h : history) (fs name : string) : Prop :=
  created = true -> created_here h fs name.

(** Clearing the properties in memory keeps a subvolume shown. *)
Lemma shown_cleared h sv : shown h sv -> shown h (set_Properties None sv).
Proof.
  intros (e & sv0 & He & Hsv & E1 & E2 & E3 & E4 & _). exists e, sv0.
  repeat (split; [done|]). by right.
Qed.

(** What the backend answered to the clone call, named as it was asked for. *)
Definition cloned_as (h : history) (fs name : string) (clone : option Subvolume) : Prop :=
  forall c, clone = Some c -> sv_Filesystem c = fs /\ sv_Name c = name /\
    (sv_Created c = true -> created_here h fs name).

Lemma wp_persist_clone h protocol fs name clone base d :
  lock_held h = false -> (forall sv, clone = Some sv -> shown h sv /\ sv_Filesystem sv = fs /\ sv_Name sv = name) ->
  good_decision rn protocol None d ->
  cwp h (persist_clone clone base d) (fun r h' => lock_held h' = false /\
    sv_Filesystem r.2 = fs /\ sv_Name r.2 = name).
Proof.
  intros Hl Hs Hd. unfold persist_clone. destruct clone as [sv|].
  - destruct (Hs sv eq_refl) as (Hsv & <- & <-).
    eapply wp_mono; [|apply (wp_persist rn _ protocol); auto using good_fresh].
    intros [e sv'] h' (Hl' & [E1 E2 _ _] & _). auto.
  - wp_step. apply wp_do; [exact Hl|]. intros r _. wp_step. apply wp_do; [|intros r' _; exact I].
    cbn. by rewrite lock_held_snoc.
Qed.

Lemma wp_finish_clone h req protocol fs source name props exists_ selection fresh created :
  req_Name req = rn -> lock_held h = false -> MinVolumeSize <= GetRequiredBytes (req_CapacityRange req) ->
  keeps_lock rn props -> good_decision rn protocol None fresh -> cloned_as h fs name created ->
  cwp h (finish_clone s req protocol fs source name props exists_ selection fresh created)
    (free_ok (fulfilled req)).
Proof.
  intros Hrn Hl Hmin Hprops Hfresh Hclone. unfold finish_clone. cbv zeta.
  set (backendCreated := match created with Some c => sv_Created c | None => false end).
  assert (forall t e, lock_held (h ++ t) = false -> cwp (h ++ t)
    (match created with Some c => rollback_if (sv_Created c) c e | None => Ret (Err e) end) (free_ok (fulfilled req))) as Habandon.
  { intros t e Hl'. destruct created as [c|]; [|by apply wp_ret, free_ok_err].
    destruct (Hclone c eq_refl) as (E1 & E2 & Hc). apply wp_rollback_if; [done|]. rewrite E1, E2. auto with csi. }
  assert (backendCreated = true -> created_here h fs name) as Hcreated.
  { unfold backendCreated. destruct created as [c|]; [|done]. by destruct (Hclone c eq_refl) as (_ & _ & Hc). }
  eapply wp_call_spec; [by apply wp_ensureClonedVolumeCapacity|]. intros [[capacity req']|e] t1 [Hl1 Hsized]; [|by apply Habandon].
  specialize (Hsized _ eq_refl) as (Hmin' & Hlim & Hname & Hreq'). cbn [fst snd] in *.
  wp_step. apply wp_do; [exact I|]. intros [clone err] Hnamed. cbv beta iota.
  destruct err as [e|]; [rewrite <- app_assoc; apply Habandon; rewrite app_assoc; auto with csi|].
  eapply wp_call_spec; [apply Hprops; auto with csi|]. intros sourceProps t2 Hl2.
  eapply wp_call_spec; [apply (wp_classifyCloneIdentity _ _ protocol); [by rewrite Hname|done|done]|].
  intros [d|e] t3 [Hl3 Hd]; [specialize (Hd d eq_refl)|by rewrite <- !app_assoc in *; apply Habandon].
  eapply (wp_call_spec _ _ _ _ (fun c h' => lock_held h' = false /\ created_here_if backendCreated h' fs name /\
    forall sv, c = Some sv -> shown h' sv /\ sv_Filesystem sv = fs /\ sv_Name sv = name)).
  { assert (forall sv, clone = Some sv -> shown ((((h ++ t1) ++ [cev (GetSubvolume fs name) (clone, None)]) ++ t2) ++ t3) sv) as Hshown.
    { intros sv ->. do 2 apply shown_app. by apply shown_get. }
    destruct backendCreated.
    - wp_step. apply wp_deref_ret; [done|]. intros sv ->. wp_step.
      split_and!; [done|unfold created_here_if; auto 10 with csi|]. intros ? [= <-].
      destruct (Hnamed sv eq_refl) as [E1 E2]. split; [|done]. by apply shown_cleared, Hshown.
    - wp_step. split_and!; [done|done|]. intros sv ->. split; [by apply Hshown|]. by apply (Hnamed sv). }
  intros clone' t4 (Hl4 & Hc4 & Hs4).
  eapply wp_call_spec; [by apply (wp_persist_clone _ protocol fs name)|]. intros [propErr sv'] t5 (Hl5 & E1 & E2).
  cbn [fst snd] in *. destruct propErr as [e|].
  - apply wp_rollback_if; [done|]. rewrite E1, E2. unfold created_here_if in Hc4. auto with csi.
  - assert (requested_capacity req' = capacity) as Ecap.
    { unfold requested_capacity. rewrite Hreq'. unfold MinVolumeSize in Hmin. destruct (Z.eqb_spec capacity 0); [lia|done]. }
    eapply wp_mono; [|apply wp_createVolumeByProtocol; [by rewrite Hname|done]].
    intros r h'. rewrite Ecap. apply created_fulfilled. split; [done|]. split; [lia|done].
Qed.

Lemma wp_selectCloneDestination h req fs name protocol :
  lock_held h = false ->
  cwp h (selectCloneDestination req fs name protocol) (free_ok (fun _ _ => True)).
Proof.
  intros Hl. unfold selectCloneDestination. wp_auto; split; auto with csi.
Qed.

Lemma with_source_fulfilled h req source p :
  cwp h p (free_ok (fulfilled req)) -> cwp h (with_source source p) (free_ok (fulfilled req)).
Proof.
  intros Hp. unfold with_source. eapply wp_call_spec; [exact Hp|]. intros [v|e] t [Hl Hv]; [|by apply wp_ret, free_ok_err].
  apply wp_ret, free_ok_ok; [done|]. destruct (Hv v eq_refl) as (c & (sv & protocol & endpoint & ?) & Hf).
  exists c. split; [|done]. by exists sv, protocol, endpoint.
Qed.

Lemma wp_clone_into h req protocol fs source props exists_ clone what :
  req_Name req = rn -> lock_held h = false -> MinVolumeSize <= GetRequiredBytes (req_CapacityRange req) ->
  keeps_lock rn props ->
  (forall h name, lock_held h = false -> cwp h (clone name) (fun r h' => lock_held h' = false /\
     cloned_as h' fs name r.1)) ->
  cwp h (clone_into s req protocol fs source props exists_ clone what) (free_ok (fulfilled req)).
Proof.
  intros Hrn Hl Hmin Hprops Hclone. unfold clone_into. destruct (ResolveVolumeName _ _) as [name|]; [|by apply wp_ret, free_ok_err].
  eapply (wp_free_bind rn); [by apply wp_selectCloneDestination|]. intros selection t1 Hl1 _. cbv zeta.
  eapply (wp_free_bind rn); [by apply wp_fresh_decision|]. intros fresh t2 Hl2 Hfresh.
  eapply wp_call_spec; [by apply Hclone|]. intros [created err] t3 [Hl3 Hc]. cbn [fst snd] in *.
  destruct err as [e|]; [by apply wp_ret, free_ok_err|]. by apply wp_finish_clone.
Qed.

(** Both clone calls answer with a clone of the name. *)
Lemma wp_CloneSubvolume h fs source name :
  lock_held h = false ->
  cwp h (do_ (CloneSubvolume fs source name)) (fun r h' => lock_held h' = false /\ cloned_as h' fs name r.1).
Proof.
  intros Hl. apply wp_do; [exact I|]. intros [c err] Hn. split; [auto with csi|]. intros sv Hsv.
  destruct (Hn sv Hsv) as [E1 E2]. cbn in Hsv. subst c. split_and!; [done..|]. intros Hc. exists sv.
  split_and!; [done..|]. right. right. eexists _, _, _, _. apply elem_of_hist_last.
Qed.

Lemma wp_CloneSnapshot h fs source snapshot name :
  lock_held h = false ->
  cwp h (do_ (CloneSnapshot (mkSnapshotCloneParams fs source snapshot name)))
    (fun r h' => lock_held h' = false /\ cloned_as h' fs name r.1).
Proof.
  intros Hl. apply wp_do; [exact I|]. intros [c err] Hn. split; [auto with csi|]. intros sv Hsv.
  destruct (Hn sv Hsv) as [E1 E2]. cbn in Hsv. subst c. split_and!; [done..|]. intros Hc. exists sv.
  split_and!; [done..|]. right. left. eexists _, _. apply elem_of_hist_last.
Qed.

Lemma normalized_fits req protocol req' c :
  normalizeCreateCapacity req protocol = Ok req' ->
  req_Name req' = req_Name req /\ MinVolumeSize <= GetRequiredBytes (req_CapacityRange req') /\
  (fits req' c -> fits req c) /\ fits req (GetRequiredBytes (req_CapacityRange req')) /\
  req_Parameters req' = req_Parameters req.
Proof.
  intros H. destruct (normalizeCreateCapacity_ok _ _ _ H) as (a & t & _ & (Hl & Hb & Hlim) & _ & ->).
  destruct Hl as (Hge & _). unfold fits. cbn. split_and!; try done; lia.
Qed.

Lemma fulfilled_normalized req protocol req' h p :
  normalizeCreateCapacity req protocol = Ok req' ->
  cwp h p (free_ok (fulfilled req')) -> cwp h p (free_ok (fulfilled req)).
Proof.
  intros Hn Hp. eapply wp_mono; [|exact Hp]. intros r h' [Hl Hr]. split; [done|]. intros v Hv.
  destruct (Hr v Hv) as (c & ? & Hf). exists c. split; [done|].
  by apply (normalized_fits req protocol req' c Hn).
Qed.

Lemma wp_lookupVolumeByCSIName h id :
  lock_held h = false -> cwp h (lookupVolumeByCSIName id) (fun _ h' => lock_held h' = false).
Proof.
  intros Hl. unfold lookupVolumeByCSIName, lookupVolumeBySubvolumePath, lookupVolumeByPropertyScan.
  wp_auto; auto with csi.
Qed.

Lemma wp_createVolumeFromVolume h req id :
  req_Name req = rn -> lock_held h = false ->
  cwp h (createVolumeFromVolume s req id) (free_ok (fulfilled req)).
Proof.
  intros Hrn Hl. unfold createVolumeFromVolume.
  eapply wp_call_spec; [by apply wp_lookupVolumeByCSIName|]. intros [[meta|]|e] t1 Hl1; [|by apply wp_ret, free_ok_err..].
  destruct (splitSubvolumeID _) as [[fs source]|]; [|by apply wp_ret, free_ok_err].
  wp_step. apply wp_do; [exact I|]. intros [src err] _. cbv beta iota zeta.
  destruct err as [e|]; [apply wp_ret, free_ok_err; auto with csi|].
  destruct (normalizeCreateCapacity req _) as [req'|e] eqn:En; [|apply wp_ret, free_ok_err; auto with csi].
  destruct (check_clone_params _ _ _ _); [|apply wp_ret, free_ok_err; auto with csi].
  eapply fulfilled_normalized; [exact En|]. apply with_source_fulfilled.
  destruct (normalized_fits req _ req' 0 En) as (En1 & En2 & _).
  apply wp_clone_into; [congruence|auto with csi|done| |].
  - intros h0 Hl0. wp_step. apply wp_deref_ret; [done|]. intros sv _. by wp_step.
  - intros h0 name Hl0. by apply wp_CloneSubvolume.
Qed.

Lemma wp_createVolumeFromSnapshot h req id :
  req_Name req = rn -> lock_held h = false ->
  cwp h (createVolumeFromSnapshot s req id) (free_ok (fulfilled req)).
Proof.
  intros Hrn Hl. unfold createVolumeFromSnapshot. destruct (decodeSnapshotID id) as [meta|]; [|by apply wp_ret, free_ok_err].
  destruct (splitSubvolumeID _) as [[fs source]|]; [|by apply wp_ret, free_ok_err]. cbv zeta.
  destruct (normalizeCreateCapacity req _) as [req'|e] eqn:En; [|by apply wp_ret, free_ok_err].
  destruct (check_clone_params _ _ _ _); [|by apply wp_ret, free_ok_err].
  eapply fulfilled_normalized; [exact En|]. destruct (normalized_fits req _ req' 0 En) as (En1 & En2 & _).
  eapply (wp_free_bind rn (fun _ _ => True)).
  { unfold snapshotSourceProperties. wp_auto; split; auto with csi. }
  intros [props exists_] t1 Hl1 _. apply with_source_fulfilled.
  apply wp_clone_into; [congruence|done|done| |].
  - intros h0 Hl0. by wp_step.
  - intros h0 name Hl0. by apply wp_CloneSnapshot.
Qed.

(** ** Adoption and the whole call *)

Lemma unique_pvc_match_elem name ns fs l acc sv :
  unique_pvc_match name ns fs l acc = Ok (Some sv) -> acc = Some sv \/ sv ∈ l.
Proof.
  revert acc. induction l as [|c l IH]; intros acc H; simpl in H; [injection H; auto|].
  destruct (sv_Properties c); [destruct (String.eqb _ _); [destruct acc; [done|]|]|];
    apply IH in H as [H|H]; [injection H as ->|..]; set_solver.
Qed.

Lemma wp_found_adoptable h params fs :
  lock_held h = false ->
  cwp h (findSubvolumeByPVCIdentity params fs) (free_ok (fun o h' => forall sv, o = Some sv -> shown h' sv)).
Proof.
  intros Hl. unfold findSubvolumeByPVCIdentity. cbv zeta. destruct (_ || _); [apply wp_ret, free_ok_ok; done|].
  wp_step. apply wp_do; [exact I|]. intros [candidates err] _. cbv beta iota.
  destruct err as [e|]; [apply wp_ret, free_ok_err; auto with csi|]. apply wp_ret. split; [auto with csi|].
  intros o Ho sv ->. apply unique_pvc_match_elem in Ho as [?|Hin]; [done|]. by apply shown_answer.
Qed.

Lemma wp_checkAndAdoptVolume h req params protocol :
  req_Name req = rn -> lock_held h = false ->
  cwp h (checkAndAdoptVolume s req params protocol)
    (free_ok (fun o h' => forall v, o = Some v -> created_volume h' rn (requested_capacity req) v)).
Proof.
  intros Hrn Hl. unfold checkAndAdoptVolume. cbv zeta. wp_step. apply wp_do; [exact I|]. intros [found err] _. cbv beta iota.
  eapply (wp_free_bind rn (fun o h' => forall sv, o = Some sv -> shown h' sv)).
  { destruct err as [e|]; [apply wp_found_adoptable; auto with csi|].
    destruct found as [sv|]; [|apply wp_found_adoptable; auto with csi].
    apply wp_ret, free_ok_ok; [auto with csi|]. intros ? [= <-]. by apply shown_get. }
  intros [sv|] t1 Hl1 Hs; [|by apply wp_ret, free_ok_ok]. specialize (Hs sv eq_refl).
  destruct (sv_Properties sv); [|by apply wp_ret, free_ok_ok].
  destruct (negb _); [by apply wp_ret, free_ok_ok|]. destruct (_ && _); [by apply wp_ret, free_ok_ok|].
  destruct (negb _); [by apply wp_ret, free_ok_err|].
  eapply (wp_free_bind rn (fun v h' => created_volume h' rn (requested_capacity req) v)).
  - destruct (String.eqb protocol ProtocolNFS); [by apply wp_adoptNFSVolume|].
    destruct (String.eqb protocol ProtocolNVMeOF); [by apply wp_adoptNVMeOFVolume|].
    destruct (String.eqb protocol ProtocolISCSI); [by apply wp_adoptISCSIVolume|].
    destruct (String.eqb protocol ProtocolSMB); [by apply wp_adoptSMBVolume|]. by apply wp_ret, free_ok_err.
  - intros v t2 Hl2 Hv. apply wp_ret, free_ok_ok; [done|]. by intros ? [= <-].
Qed.

Lemma wp_create_fresh h req protocol :
  req_Name req = rn -> lock_held h = false ->
  cwp h (create_fresh s req protocol) (created_ok rn (requested_capacity req)).
Proof.
  intros Hrn Hl. unfold create_fresh. cbv zeta.
  eapply (wp_free_bind rn); [by apply wp_checkAndAdoptVolume|]. intros [v|] t1 Hl1 Hv.
  { apply wp_ret, free_ok_ok; auto. }
  eapply (wp_free_bind rn (fun _ _ => True)); [|by intros; apply wp_createVolumeByProtocol].
  unfold check_encryption. wp_auto; split; auto with csi.
Qed.

Lemma wp_CreateVolume req :
  req_Name req = rn -> cwp [] (CreateVolume s req) (free_ok (fulfilled req)).
Proof.
  intros Hrn. unfold CreateVolume. destruct (validate_create req) as [[protocol req']|e] eqn:Ev; [|by apply wp_ret, free_ok_err].
  cbn [checkExistingVolume]. rewrite errors_Is_new. cbn [negb].
  assert (exists protocol0, normalizeCreateCapacity req protocol0 = Ok req') as [protocol0 En].
  { revert Ev. unfold validate_create. destruct (validateCreateVolumeRequest req); [|done]. cbv zeta.
    destruct (normalizeCreateCapacity req _) as [r|] eqn:E; [|done].
    destruct (validateAccessModeForProtocol _ _); [|done]. destruct (is_block_protocol _);
      [destruct (requestedBlockFilesystem _); [|done]|]; intros [= _ <-]; eauto. }
  destruct (normalized_fits req _ req' 0 En) as (En1 & Emin & _ & Efit & _).
  eapply fulfilled_normalized; [exact En|].
  assert (cwp [] (create_fresh s req' protocol) (free_ok (fulfilled req'))) as Hfresh.
  { eapply wp_mono; [|apply wp_create_fresh; [congruence|done]]. intros r h'. apply created_fulfilled.
    unfold requested_capacity. unfold MinVolumeSize in Emin. destruct (Z.eqb_spec (GetRequiredBytes (req_CapacityRange req')) 0); [lia|].
    split; [lia|]. split; [unfold MinVolumeSize; lia|].
    destruct (normalizeCreateCapacity_ok _ _ _ En) as (a & t & _ & (_ & _ & Hlim) & _ & ->). done. }
  unfold handleVolumeContentSource. destruct (req_ContentSource req') as [[id|id|]|]; try done.
  - apply wp_createVolumeFromSnapshot; [congruence|done].
  - apply wp_createVolumeFromVolume; [congruence|done].
Qed.
End Clones.


(** ** Theorems *)

(** Every answer names what it was asked for. *)
Definition well_named (tr : history) : Prop := Forall (fun e => answer_named (projT1 e) (projT2 e)) tr.

Section Theorems.
Context {api : NastyAPI} {laws : NastyAPILaws} {tt_ : TextTemplate} (s : service).

Lemma well_named_env rn h tr : well_named tr -> env_trace (create_policy rn) h tr.
Proof.
  intros H. revert h. induction H as [|[o r] tr Hn _ IH]; intros h; simpl; [done|]. by split.
Qed.

Lemma create_allowed req tr out t1 o r t2 :
  exec (CreateVolume s req) tr out -> well_named tr -> tr = t1 ++ cev o r :: t2 -> create_allow (req_Name req) t1 o.
Proof.
  intros He Hn E. eapply (wp_sound_allow (create_policy (req_Name req)) []); [by apply wp_CreateVolume|exact He| |exact E].
  by apply well_named_env.
Qed.

(** What an exposure needs: the backend showed a subvolume with this storage
    whose owner is durably the request.  Existing presentations and volumes'
    snapshots are never touched. *)
Definition exposure_owned (h : history) (rn : string) (o : cop) : Prop :=
  match o with
  | CreateNFSShare p => owned_storage h rn ProtocolNFS (fun sv => sv_Path sv = nfp_Path p)
  | CreateSMBShare p => owned_storage h rn ProtocolSMB (fun sv => sv_Path sv = smp_Path p)
  | CreateISCSITarget p => owned_storage h rn ProtocolISCSI (fun sv => block_device sv = Some (bcp_DevicePath p))
  | CreateNVMeOFSubsystem p => owned_storage h rn ProtocolNVMeOF (fun sv => block_device sv = Some (bcp_DevicePath p))
  | DeleteNFSShare _ | DeleteSMBShare _ | DeleteISCSITarget _ | DeleteNVMeOFSubsystem _
  | api_CreateSnapshot _ | api_DeleteSnapshot _ _ _ => False
  | _ => True
  end.

(** C1: ownership before exposure.  In every execution of CreateVolume, for
    every protocol, source and backend behaviour, a share, target or subsystem
    is created only for storage of a subvolume that the backend showed and on
    which the complete identity of this request is durable: an identity write
    was accepted, or the backend returned the identity.  No presentation is
    removed and no snapshot is touched. *)
Theorem CreateVolume_exposes_owned req tr out t1 o r t2 :
  exec (CreateVolume s req) tr out -> well_named tr -> tr = t1 ++ cev o r :: t2 ->
  exposure_owned t1 (req_Name req) o.
Proof.
  intros He Hn E. pose proof (create_allowed _ _ _ _ _ _ _ He Hn E) as H. by destruct o.
Qed.

(** C2: what a rollback may destroy.  CreateVolume deletes a subvolume only
    under the identity lock, only if the backend said that a call of this very
    request created it, and only if the last interaction read it and found no
    complete identity on it. *)
Theorem CreateVolume_rollback_safe req tr out t1 fs name r t2 :
  exec (CreateVolume s req) tr out -> well_named tr -> tr = t1 ++ cev (DeleteSubvolume fs name) r :: t2 ->
  lock_held t1 = true /\ created_here t1 fs name /\ just_read_incomplete t1 fs name.
Proof. intros He Hn E. exact (create_allowed _ _ _ _ _ _ _ He Hn E). Qed.

(** C3: the identity lock.  It is taken only when free and released only when
    held; every property write happens while it is held and writes a complete
    identity of this request; and it is free when CreateVolume returns. *)
Theorem CreateVolume_lock_discipline req tr out :
  exec (CreateVolume s req) tr out -> well_named tr ->
  (forall t1 o r t2, tr = t1 ++ cev o r :: t2 ->
     match o with
     | LockIdentity => lock_held t1 = false
     | UnlockIdentity => lock_held t1 = true
     | SetSubvolumeProperties fs name props =>
         lock_held t1 = true /\ exists protocol, identifies (req_Name req) protocol (Some props)
     | _ => True
     end) /\
  match out with Done _ => lock_held tr = false | Panicked => True end.
Proof.
  intros He Hn. split.
  - intros t1 o r t2 E. pose proof (create_allowed _ _ _ _ _ _ _ He Hn E) as H. by destruct o.
  - pose proof (wp_sound_post (create_policy (req_Name req)) [] _ _ _ _ (wp_CreateVolume (req_Name req) s req eq_refl) He
      (well_named_env _ _ _ Hn)) as H.
    destruct out as [r|]; [|done]. apply H.
Qed.

(** C4: what success means.  A volume that CreateVolume answers is named by a
    subvolume that the backend showed, that durably carries the identity of
    this request, and whose share, target or subsystem the backend listed or
    created; its context names the protocol and that very share path, share name,
    IQN or NQN; its capacity is at least the requested one and 1 GiB, and within
    the limit. *)
Theorem CreateVolume_success req tr v :
  exec (CreateVolume s req) tr (Done (Ok v)) -> well_named tr ->
  exists capacity, created_volume tr (req_Name req) capacity v /\ fits req capacity.
Proof.
  intros He Hn.
  destruct (wp_sound_post (create_policy (req_Name req)) [] _ _ _ _ (wp_CreateVolume (req_Name req) s req eq_refl) He
    (well_named_env _ _ _ Hn)) as [_ H]. by apply H.
Qed.
End Theorems.

(** ** Concrete executions *)

#[local] Existing Instance doc_api.
#[local] Existing Instance field_templates.

Definition named_okb (e : event csig) : bool :=
  match e with
  | existT o r =>
      match o return cans o -> bool with
      | GetSubvolume fs name | CloneSubvolume fs _ name =>
          fun r => match r.1 with Some sv => String.eqb (sv_Filesystem sv) fs && String.eqb (sv_Name sv) name | None => true end
      | CloneSnapshot p =>
          fun r => match r.1 with
                   | Some sv => String.eqb (sv_Filesystem sv) (snk_Filesystem p) && String.eqb (sv_Name sv) (snk_NewName p)
                   | None => true
                   end
      | _ => fun _ => true
      end r
  end.

Lemma named_okb_spec tr : forallb named_okb tr = true -> well_named tr.
Proof.
  rewrite forallb_forall. intros H. apply Forall_forall. intros [o r] Hin. apply list_elem_of_In, H in Hin.
  destruct o; try exact I; cbn in *; intros sv Hsv; rewrite Hsv in Hin; by bool_to_prop.
Qed.

Definition exposes_op (o : cop) : bool :=
  match o with
  | CreateNFSShare _ | CreateSMBShare _ | CreateISCSITarget _ | CreateNVMeOFSubsystem _ => true
  | _ => false
  end.
Definition deletes_op (o : cop) : bool := match o with DeleteSubvolume _ _ => true | _ => false end.

(** The clone of an iSCSI volume, and an NFS creation whose identity cannot be
    written. *)
Definition clone_req : CreateVolumeRequest := demo_clone "iscsi" "pvc-2" "tank/pvc-1".
Definition clone_trace : history := trace_of (CreateVolume demo_service clone_req) (created_world "iscsi" "pvc-1").
Definition failed_req : CreateVolumeRequest := demo_request "nfs" "pvc-1".
Definition failed_run : outcome (res Volume) * world * history :=
  run (Sg := csig) unwritable (CreateVolume demo_service failed_req) empty_world.

Lemma CreateVolume_exposes_owned_witness :
  owned_storage (cut_before exposes_op clone_trace) "pvc-2" ProtocolISCSI
    (fun sv => block_device sv = Some "/dev/loop-pvc-2").
Proof.
  apply (CreateVolume_exposes_owned demo_service clone_req clone_trace _ (cut_before exposes_op clone_trace)
           (CreateISCSITarget (mkBlockCreateParams "pvc-2" "/dev/loop-pvc-2"))
           (Some (mkISCSITarget "id-2" "iqn.2137-04.storage.nasty:pvc-2" ["/dev/loop-pvc-2"]), None)
           (cut_after exposes_op clone_trace)
           (play_exec _ _)).
  - apply named_okb_spec. vm_compute. reflexivity.
  - vm_compute. reflexivity.
Defined.

Lemma CreateVolume_rollback_safe_witness :
  created_here (cut_before deletes_op failed_run.2) "tank" "pvc-1" /\
  just_read_incomplete (cut_before deletes_op failed_run.2) "tank" "pvc-1".
Proof.
  apply (CreateVolume_rollback_safe demo_service failed_req failed_run.2 failed_run.1.1
           (cut_before deletes_op failed_run.2) "tank" "pvc-1" None (cut_after deletes_op failed_run.2)
           (run_exec _ _ _)).
  - apply named_okb_spec. vm_compute. reflexivity.
  - vm_compute. reflexivity.
Defined.

Lemma CreateVolume_lock_discipline_witness : lock_held clone_trace = false.
Proof.
  assert (answer_of (CreateVolume demo_service clone_req) (created_world "iscsi" "pvc-1") <> Panicked) as Hd
    by (vm_compute; discriminate).
  destruct (CreateVolume_lock_discipline demo_service clone_req clone_trace _ (play_exec _ _)) as [_ H].
  - apply named_okb_spec. vm_compute. reflexivity.
  - destruct (answer_of (CreateVolume demo_service clone_req) (created_world "iscsi" "pvc-1")); [exact H|done].
Defined.

Lemma CreateVolume_success_witness :
  exists v capacity, answer_of (CreateVolume demo_service clone_req) (created_world "iscsi" "pvc-1") = Done (Ok v) /\
    created_volume clone_trace "pvc-2" capacity v /\ fits clone_req capacity.
Proof.
  destruct (answer_of (CreateVolume demo_service clone_req) (created_world "iscsi" "pvc-1")) as [[v|e]|] eqn:E;
    [|vm_compute in E; discriminate E..].
  destruct (CreateVolume_success demo_service clone_req clone_trace v) as (capacity & H).
  - rewrite <- E. apply play_exec.
  - apply named_okb_spec. vm_compute. reflexivity.
  - exists v, capacity. split; [reflexivity|exact H].
Defined.
