(* ===== verification/Expansion.v ===== *)
(** * Correctness of ControllerExpandVolume

    What every execution of [Controller.ControllerExpandVolume] may do and what
    its success means, whatever the backend answers: the size never shrinks,
    covers the request, stays within its limit, and is recorded only after the
    backend accepted it. *)

From S2P Require Import Prelude GoStrings Prog Errors Api Metadata Capacity Names Capabilities Common Nfs Smb Iscsi Nvmeof Controller Backend Lifecycle.

#[local] Set Default Proof Using "Type*".

Section Facts.
Context {api : NastyAPI}.

(** The lookup of this volume ID answered this subvolume. *)
Inductive volume_shown (h : history) (volumeID : string) (sv : Subvolume) : Prop :=
| shown_by_path fs name :
    splitSubvolumeID volumeID = Ok (fs, name) ->
    cev (GetSubvolume fs name) (Some sv, None) ∈ h -> volume_shown h volumeID sv
| shown_by_name :
    isDatasetPathVolumeID volumeID = false ->
    cev (FindSubvolumeByCSIVolumeName "" volumeID) (Some sv, None) ∈ h -> volume_shown h volumeID sv.

(** A managed subvolume found for this volume. *)
Definition managed_volume (h : history) (volumeID : string) (sv : Subvolume) : Prop :=
  volume_shown h volumeID sv /\ (sv_Properties sv).[PropertyManagedBy] = ManagedByValue.

(** The sizes a backend answers are [uint64] values. *)
Definition sizes_typed (sv : Subvolume) : Prop :=
  forall z, sv_QuotaBytes sv = Some z \/ sv_VolsizeBytes sv = Some z -> is_uint64 z.

Definition answer_typed (o : cop) : cans o -> Prop :=
  match o return cans o -> Prop with
  | GetSubvolume _ _ | FindSubvolumeByCSIVolumeName _ _ =>
      fun r => forall sv, r.1 = Some sv -> sizes_typed sv
  | _ => fun _ => True
  end.

(** A size this request may give the volume: it covers the request, respects
    the limit and is not below what the volume has. *)
Definition growth (req : ExpandVolumeRequest) (sv : Subvolume) (z : Z) : Prop :=
  GetRequiredBytes (er_CapacityRange req) <= z /\
  (0 < GetLimitBytes (er_CapacityRange req) -> z <= GetLimitBytes (er_CapacityRange req)) /\
  (forall c, authoritativeSubvolumeCapacity (Some sv) = Some c -> c <= z) /\
  is_int64 z.

(** The volumes whose file system or session is on the node: iSCSI always, and
    NVMe-oF unless the orchestrator says that the volume is a raw block device. *)
Inductive node_expands : string -> option VolumeCapability -> Prop :=
| expands_iscsi capability : node_expands ProtocolISCSI capability
| expands_nvmeof_unknown : node_expands ProtocolNVMeOF None
| expands_nvmeof_mount c fsType : cap_type c = Mount fsType -> node_expands ProtocolNVMeOF (Some c)
| expands_nvmeof_untyped c : cap_type c = NoAccessType -> node_expands ProtocolNVMeOF (Some c).

Lemma requires_expands protocol capability : requiresNodeExpansion protocol capability = true <-> node_expands protocol capability.
Proof.
  unfold requiresNodeExpansion. split.
  - destruct (String.eqb_spec protocol ProtocolISCSI) as [->|_]; [intros _; constructor|].
    destruct (String.eqb_spec protocol ProtocolNVMeOF) as [->|_]; [|done]. destruct capability as [c|]; [|intros _; constructor].
    destruct (cap_type c) eqn:E; intros H; try done; econstructor; exact E.
  - by intros [?| |c fsType E|c E]; rewrite ?E.
Qed.

(** The path of a subvolume, as volume IDs spell it. *)
Definition path_of (sv : Subvolume) : string := sv_Filesystem sv +:+ "/" +:+ sv_Name sv.

Definition expand_allow (req : ExpandVolumeRequest) (h : history) (o : cop) : Prop :=
  match o with
  | GetSubvolume _ _ | FindSubvolumeByCSIVolumeName _ _ | ObserveSuccess _ | ObserveError _ => True
  | ResizeSubvolume fs name z =>
      exists sv, managed_volume h (er_VolumeId req) sv /\ path_of sv = fs +:+ "/" +:+ name /\ growth req sv z
  | SetSubvolumeProperties fs name props =>
      exists z sv, cev (ResizeSubvolume fs name z) (sv, None) ∈ h /\ props = {[ PropertyCapacityBytes := FormatInt z ]}
  | SetVolumeCapacity _ _ z =>
      exists fs name sv, cev (SetSubvolumeProperties fs name {[ PropertyCapacityBytes := FormatInt z ]}) (sv, None) ∈ h
  | _ => False
  end.

Definition expand_policy (req : ExpandVolumeRequest) : policy csig :=
  {| allow := expand_allow req; env := fun _ o r => answer_typed o r; crash := False |}.

Lemma volume_shown_app h t id sv : volume_shown h id sv -> volume_shown (h ++ t) id sv.
Proof. intros [fs name Hs H|Hp H]; [eapply shown_by_path|apply shown_by_name]; eauto with csi. Qed.

Lemma managed_volume_app h t id sv : managed_volume h id sv -> managed_volume (h ++ t) id sv.
Proof. intros [? ?]. split; [by apply volume_shown_app|done]. Qed.
End Facts.

#[export] Hint Resolve volume_shown_app managed_volume_app : csi.

Section Specs.
Context {api : NastyAPI} (req : ExpandVolumeRequest).

Abbreviation ewp := (wp (expand_policy req)).

(** What success promises. *)
Definition expanded (h : history) (r : res expansion) : Prop :=
  match r with
  | Ok (cap, node) =>
      exists sv, managed_volume h (er_VolumeId req) sv /\ growth req sv cap /\
        (node = true <-> node_expands (sv_Properties sv).[PropertyProtocol] (er_VolumeCapability req)) /\
        (authoritativeSubvolumeCapacity (Some sv) = Some cap \/
         exists fs name sv', path_of sv = fs +:+ "/" +:+ name /\
           cev (ResizeSubvolume fs name cap) (sv', None) ∈ h /\ MinVolumeSize <= cap <= MaxVolumeSize)
  | Err _ => True
  end.

(** The lookup of the volume. *)
Lemma wp_lookup :
  ewp [] (lookupVolumeByCSIName (er_VolumeId req)) (fun r h =>
    match r with
    | Ok (Some meta) => exists sv, managed_volume h (er_VolumeId req) sv /\ sizes_typed sv /\
        m_DatasetID meta = path_of sv /\ m_Protocol meta = (sv_Properties sv).[PropertyProtocol] /\
        m_CurrentCapacityBytes meta = authoritativeSubvolumeCapacity (Some sv)
    | _ => True
    end).
Proof.
  assert (forall h volumeID sv, volume_shown h (er_VolumeId req) sv -> sizes_typed sv ->
    match extractVolumeMetadataFromSubvolume volumeID sv with
    | Some meta => exists sv, managed_volume h (er_VolumeId req) sv /\ sizes_typed sv /\
        m_DatasetID meta = path_of sv /\ m_Protocol meta = (sv_Properties sv).[PropertyProtocol] /\
        m_CurrentCapacityBytes meta = authoritativeSubvolumeCapacity (Some sv)
    | None => True
    end) as Hmeta.
  { intros h volumeID sv Hs Ht. destruct (extractVolumeMetadataFromSubvolume volumeID sv) as [meta|] eqn:E; [|done].
    apply extract_managed in E as (Hm & Hid & _ & _ & Hp & Hc & _).
    exists sv. split_and!; try done. split; [done|]. unfold map_get. by rewrite Hm. }
  unfold lookupVolumeByCSIName. destruct (isDatasetPathVolumeID (er_VolumeId req)) eqn:Ep.
  - unfold lookupVolumeBySubvolumePath. destruct (splitSubvolumeID (er_VolumeId req)) as [[fs name]|e] eqn:Es; [|by apply wp_ret].
    apply wp_bind, wp_do; [done|]. intros [osv [e|]] Ht; [by wp_auto|]. destruct osv as [sv|]; [|by apply wp_ret].
    apply wp_ret. apply Hmeta; [|by apply Ht]. eapply shown_by_path; [done|]. auto with csi.
  - unfold lookupVolumeByPropertyScan. apply wp_bind, wp_do; [done|].
    intros [osv [e|]] Ht; [by wp_auto|]. destruct osv as [sv|]; [|by apply wp_ret].
    apply wp_ret. apply Hmeta; [|by apply Ht]. apply shown_by_name; [done|]. auto with csi.
Qed.

(** The resize of the four protocols. *)
Lemma wp_expand_volume h t protocol meta z node bad_id prop_failed sv :
  managed_volume h (er_VolumeId req) sv -> m_DatasetID meta = path_of sv -> growth req sv z ->
  MinVolumeSize <= z <= MaxVolumeSize ->
  (node = true <-> node_expands (sv_Properties sv).[PropertyProtocol] (er_VolumeCapability req)) ->
  ewp h (expand_volume t protocol meta z node bad_id prop_failed) (fun r h' => expanded h' r).
Proof.
  intros Hm Hid Hg Hz Hnode. unfold expand_volume.
  destruct (String.eqb (m_DatasetID meta) ""); [by wp_auto|].
  destruct (splitSubvolumeID (m_DatasetID meta)) as [[fs name]|e] eqn:Es; [|by wp_auto].
  apply splitSubvolumeID_ok in Es as [Es _]. rewrite Hid in Es.
  assert (to_uint64 z = z) as ->.
  { apply to_uint64_id. unfold is_uint64, uint64_max. assert (MinVolumeSize = 1073741824 /\ MaxVolumeSize = 281474976710656) as [Hmin Hmax] by done. lia. }
  apply wp_bind, wp_do; [by exists sv|]. intros [sv' [e|]] _; [by wp_auto|].
  apply wp_bind, wp_do; [exists z, sv'; auto with csi|]. intros [sv'' [e|]] _; [by wp_auto|].
  apply wp_bind, wp_do; [exists fs, name, sv''; auto with csi|]. intros r1 _.
  apply wp_succeed; [done|]. intros r2. exists sv. split; [auto with csi|]. split; [done|]. split; [done|].
  right. exists fs, name, sv'. split; [done|]. split; [auto with csi|done].
Qed.

(** The record of an already sufficient size is brought up to date. *)
Lemma wp_reconcile h meta c sv :
  managed_volume h (er_VolumeId req) sv -> m_DatasetID meta = path_of sv -> growth req sv c ->
  ewp h (reconcileCapacityProperty meta c) (fun _ h' => managed_volume h' (er_VolumeId req) sv).
Proof.
  intros Hm Hid Hg. unfold reconcileCapacityProperty.
  destruct (match m_RecordedCapacityBytes meta with Some r => r =? c | None => false end); [by apply wp_ret|].
  destruct (splitSubvolumeID (m_DatasetID meta)) as [[fs name]|e] eqn:Es; [|by apply wp_ret].
  apply splitSubvolumeID_ok in Es as [Es _]. rewrite Hid in Es.
  apply wp_bind, wp_do; [by exists sv|]. intros [sv' [e|]] _; [apply wp_ret; auto with csi|].
  apply wp_bind, wp_do; [exists c, sv'; auto with csi|]. intros [sv'' [e|]] _; apply wp_ret; auto with csi.
Qed.

(** A plan gives an allowed size. *)
Lemma plan_growth range meta plan sv :
  er_CapacityRange req = Some range -> 0 <= RequiredBytes range ->
  m_CurrentCapacityBytes meta = authoritativeSubvolumeCapacity (Some sv) -> sizes_typed sv ->
  planExpansion meta (RequiredBytes range) (LimitBytes range) = Ok plan ->
  growth req sv (p_targetBytes plan) /\
  if p_alreadySatisfied plan then
    p_currentBytes plan = p_targetBytes plan /\ authoritativeSubvolumeCapacity (Some sv) = Some (p_targetBytes plan)
  else MinVolumeSize <= p_targetBytes plan <= MaxVolumeSize.
Proof.
  intros Er H0 Hc Ht Hplan. unfold growth. rewrite Er. cbn [GetRequiredBytes GetLimitBytes].
  assert (forall c, m_CurrentCapacityBytes meta = Some c -> is_uint64 c) as Hu.
  { intros c E. rewrite Hc in E. apply Ht. unfold authoritativeSubvolumeCapacity in E.
    destruct (String.eqb _ _); [destruct (sv_QuotaBytes sv); auto|destruct (String.eqb _ _); [auto|done]]. }
  destruct (planExpansion_ok meta _ _ plan Hu Hplan) as (_ & _ & Hok).
  assert (MinVolumeSize = 1073741824 /\ MaxVolumeSize = 281474976710656) as [Hmin Hmax] by done.
  destruct (p_alreadySatisfied plan).
  - destruct Hok as (E & Ep & Hr & Hl). split; [|split; congruence]. split_and!; [lia|done| |unfold is_int64, int64_min; lia].
    intros c Ec. assert (p_targetBytes plan = c) by congruence. lia.
  - destruct Hok as ((_ & (a & _ & Hlm) & Hb & Hl) & Hgt). pose proof (proj1 Hlm).
    split; [|lia]. split_and!; [lia|done| |unfold is_int64, int64_min, int64_max; lia].
    intros c Ec. rewrite <- Hc in Ec. specialize (Hgt c Ec). lia.
Qed.

Lemma known_protocol_cases protocol :
  known_protocol protocol = true ->
  protocol = ProtocolNFS \/ protocol = ProtocolNVMeOF \/ protocol = ProtocolISCSI \/ protocol = ProtocolSMB.
Proof. unfold known_protocol. rewrite !orb_true_iff, !String.eqb_eq. tauto. Qed.

Lemma wp_ControllerExpandVolume :
  ewp [] (ControllerExpandVolume req) (fun r h => expanded h r).
Proof.
  unfold ControllerExpandVolume. cbv zeta. destruct (String.eqb (er_VolumeId req) ""); [by apply wp_ret|].
  destruct (er_CapacityRange req) as [range|] eqn:Er; [|by apply wp_ret].
  destruct (validateExpansionRange _ _) as [[]|e] eqn:Ev; [|by apply wp_ret].
  apply wp_bind. eapply wp_mono; [|apply wp_lookup]. intros [[meta|]|e] h; try (intros; by apply wp_ret).
  intros (sv & Hm & Ht & Hid & Hp & Hc).
  destruct (planExpansion meta _ _) as [plan|e] eqn:Epl; [|by apply wp_ret].
  assert (0 <= RequiredBytes range) as H0.
  { unfold validateExpansionRange in Ev. destruct ((RequiredBytes range <? 0) || _) eqn:E; [done|]. by bool_to_prop. }
  destruct (plan_growth range meta plan sv Er H0 Hc Ht Epl) as [Hg Hcase].
  destruct (p_alreadySatisfied plan) eqn:Es.
  - destruct Hcase as [Ec Ea]. apply wp_bind. eapply wp_mono; [|by eapply wp_reconcile; [exact Hm|exact Hid|rewrite Ec]].
    intros [[]|e] h' Hm'; [|by apply wp_ret]. apply wp_ret. exists sv. rewrite <- Hp. auto using requires_expands.
  - pose proof (requires_expands (sv_Properties sv).[PropertyProtocol] (er_VolumeCapability req)) as Hn. rewrite <- Hp in Hn.
    destruct (String.eqb_spec (m_Protocol meta) ProtocolNFS) as [E|_].
    { apply wp_expand_volume with sv; auto. rewrite <- Hp, <- Hn, E. done. }
    destruct (String.eqb_spec (m_Protocol meta) ProtocolNVMeOF) as [E|_].
    { apply wp_expand_volume with sv; auto. by rewrite <- Hp. }
    destruct (String.eqb_spec (m_Protocol meta) ProtocolISCSI) as [E|_].
    { apply wp_expand_volume with sv; auto. rewrite <- Hp, <- Hn, E. done. }
    destruct (String.eqb_spec (m_Protocol meta) ProtocolSMB) as [E|_]; [|by apply wp_ret].
    apply wp_expand_volume with sv; auto. rewrite <- Hp, <- Hn, E. done.
Qed.
End Specs.

(** ** Theorems *)

(** The sizes in the answers are [uint64] values. *)
Definition well_typed (tr : history) : Prop := Forall (fun e => answer_typed (projT1 e) (projT2 e)) tr.

Section Theorems.
Context {api : NastyAPI}.

Lemma well_typed_env req h tr : well_typed tr -> env_trace (expand_policy req) h tr.
Proof. intros H. revert h. induction H as [|[o r] tr Ht _ IH]; intros h; simpl; [done|]. by split. Qed.

(** C22: expansion only grows the volume that was named.  Every resize goes to
    the managed subvolume the lookup answered, with a size that covers the
    request, is within its limit and is not below the size the backend showed;
    the size is recorded in the properties and in the metrics only after the
    backend accepted it; nothing else is changed. *)
Theorem ControllerExpandVolume_grows req tr out t1 o r t2 :
  exec (ControllerExpandVolume req) tr out -> well_typed tr -> tr = t1 ++ cev o r :: t2 ->
  expand_allow req t1 o.
Proof.
  intros He Ht E. eapply (wp_sound_allow (expand_policy req) []);
    [apply wp_ControllerExpandVolume|exact He|by apply well_typed_env|exact E].
Qed.

(** C23: what an expansion answers.  It never panics, and a successful answer
    is the size the volume now has: either it already had it, or the backend
    accepted it and it lies between 1 GiB and 256 TiB; the node is asked to
    expand exactly for iSCSI volumes and for NVMe-oF volumes whose capability in the
    request is absent or not a raw block device, and never for NFS and SMB. *)
Theorem ControllerExpandVolume_success req tr out :
  exec (ControllerExpandVolume req) tr out -> well_typed tr ->
  match out with Done r => expanded req tr r | Panicked => False end.
Proof.
  intros He Ht.
  pose proof (wp_sound_post (expand_policy req) [] _ _ _ _ (wp_ControllerExpandVolume req) He (well_typed_env _ _ _ Ht)) as H.
  by destruct out.
Qed.
End Theorems.

(** ** Concrete executions *)

#[local] Existing Instance doc_api.
#[local] Existing Instance field_templates.

Definition sizes_okb (sv : Subvolume) : bool :=
  let ok (z : option Z) := match z with Some z => (0 <=? z) && (z <=? uint64_max) | None => true end in
  ok (sv_QuotaBytes sv) && ok (sv_VolsizeBytes sv).

Definition typed_okb (e : event csig) : bool :=
  match e with
  | existT o r =>
      match o return cans o -> bool with
      | GetSubvolume _ _ | FindSubvolumeByCSIVolumeName _ _ =>
          fun r => match r.1 with Some sv => sizes_okb sv | None => true end
      | _ => fun _ => true
      end r
  end.

Lemma sizes_okb_spec sv : sizes_okb sv = true -> sizes_typed sv.
Proof. unfold sizes_okb. intros H z [E|E]; rewrite E in H; bool_to_prop; by split. Qed.

Lemma typed_okb_spec tr : forallb typed_okb tr = true -> well_typed tr.
Proof.
  rewrite forallb_forall. intros H. apply Forall_forall. intros [o r] Hin. apply list_elem_of_In, H in Hin.
  destruct o; try exact I; cbn in *; intros sv Hsv; rewrite Hsv in Hin; by apply sizes_okb_spec.
Qed.

(** A volume of 1 GiB asked to have 2 GiB and one byte. *)
Definition expand_req : ExpandVolumeRequest :=
  mkExpandRequest "tank/pvc-1" (Some (mkCapacityRange 2147483649 4294967296)) None.
Definition expand_world : world := created_world "iscsi" "pvc-1".
Definition expand_trace : history := trace_of (ControllerExpandVolume expand_req) expand_world.
Definition resizes_op (o : cop) : bool := match o with ResizeSubvolume _ _ _ => true | _ => false end.

Lemma ControllerExpandVolume_grows_witness :
  exists sv, managed_volume (cut_before resizes_op expand_trace) "tank/pvc-1" sv /\ growth expand_req sv 2147484160.
Proof.
  destruct (ControllerExpandVolume_grows expand_req expand_trace _ (cut_before resizes_op expand_trace)
              (ResizeSubvolume "tank" "pvc-1" 2147484160)
              (Some (with_size 2147484160 (default (new_subvol "" "" "" None "" true) (w_subvols expand_world !! ("tank", "pvc-1")))), None)
              (cut_after resizes_op expand_trace) (play_exec _ _)) as (sv & Hm & _ & Hg).
  - apply typed_okb_spec. vm_compute. reflexivity.
  - vm_compute. reflexivity.
  - exists sv. split; [exact Hm|exact Hg].
Defined.

Lemma ControllerExpandVolume_success_witness :
  answer_of (ControllerExpandVolume expand_req) expand_world = Done (Ok (2147484160, true)) /\
  expanded expand_req expand_trace (Ok (2147484160, true)).
Proof.
  assert (answer_of (ControllerExpandVolume expand_req) expand_world = Done (Ok (2147484160, true))) as E
    by (vm_compute; reflexivity).
  split; [exact E|].
  apply (ControllerExpandVolume_success expand_req expand_trace (Done (Ok (2147484160, true)))).
  - rewrite <- E. apply play_exec.
  - apply typed_okb_spec. vm_compute. reflexivity.
Defined.
