(* ===== verification/Listing.v ===== *)
(** * Pagination

    A client that follows the tokens of [ListVolumes] or [ListSnapshots] while
    the backend does not change sees every entry exactly once, in order. *)

From S2P Require Import Prelude GoStrings Prog Errors Api Metadata Capacity Names Capabilities SnapshotId Common Controller Snapshots Backend Lifecycle.

#[local] Set Default Proof Using "Type*".

(** ** Traces determine outcomes *)

#[export] Instance cop_eq_dec : EqDecision cop.
Proof.
  assert (EqDecision SubvolumeCreateParams) by solve_decision.
  assert (EqDecision SnapshotCreateParams) by solve_decision.
  assert (EqDecision SnapshotCloneParams) by solve_decision.
  assert (EqDecision NFSClient) by solve_decision.
  assert (EqDecision NFSShareCreateParams) by solve_decision.
  assert (EqDecision SMBShareCreateParams) by solve_decision.
  assert (EqDecision BlockCreateParams) by solve_decision.
  assert (EqDecision timer) by solve_decision.
  solve_decision.
Qed.

Lemma cev_inj (o : cop) (r r' : cans o) : cev o r = cev o r' -> r = r'.
Proof. intros H. apply (Eqdep_dec.inj_pair2_eq_dec cop cop_eq_dec) in H. done. Qed.

Lemma exec_vis_inv {A : Type} (o : cop) (k : cans o -> M A) r tr out :
  exec (Sg := csig) (Vis (Sg := csig) o k) (cev o r :: tr) out -> exec (k r) tr out.
Proof.
  intros H. apply exec_inv in H as (r' & tr' & E & H). injection E as E1 E2. subst tr'.
  assert (r' = r) as ->; [|done]. symmetry. apply cev_inj. exact E1.
Qed.

(** A trace determines the outcome, and how it splits at a call. *)
Lemma exec_prefix {A : Type} (p : M A) t1 s1 o1 t2 s2 o2 :
  exec p t1 o1 -> exec p t2 o2 -> t1 ++ s1 = t2 ++ s2 -> t1 = t2 /\ s1 = s2 /\ o1 = o2.
Proof.
  intros He. revert t2. induction He as [a| |o k r tr out He IH]; intros t2 H2 E.
  - by apply exec_inv in H2 as [-> ->].
  - by apply exec_inv in H2 as [-> ->].
  - pose proof (exec_inv _ _ _ H2) as (r' & t' & -> & _). simpl in E. injection E as E1 E.
    assert (r = r') as <- by by apply cev_inj. apply exec_vis_inv in H2.
    by destruct (IH _ H2 E) as (-> & -> & ->).
Qed.

Lemma exec_det {A : Type} (p : M A) tr o1 o2 : exec p tr o1 -> exec p tr o2 -> o1 = o2.
Proof. intros H1 H2. by destruct (exec_prefix p tr [] o1 tr [] o2 H1 H2 eq_refl) as (_ & _ & ?). Qed.

Lemma exec_bind_after {A B : Type} (p : M A) (f : A -> M B) t1 t2 a out :
  exec p t1 (Done a) -> exec (bind p f) (t1 ++ t2) out -> exec (f a) t2 out.
Proof.
  intros H1 H. apply exec_bind in H as [(b & u1 & u2 & Hu1 & Hu2 & E)|[Hp _]].
  - destruct (exec_prefix p _ _ _ _ _ _ H1 Hu1 E) as (_ & -> & [= ->]). done.
  - destruct (exec_prefix p t1 t2 (Done a) (t1 ++ t2) [] Panicked H1 Hp) as (_ & _ & [=]). by rewrite app_nil_r.
Qed.

(** ** Walking through the pages *)

Section Walk.
Context {A : Type} (page : string -> res (list_response A) -> Prop).

(** The entries a client collects from a token on. *)
Inductive walks : string -> list A -> Prop :=
| walk_last token r : page token (Ok r) -> lr_NextToken r = "" -> walks token (lr_Entries r)
| walk_next token r rest :
    page token (Ok r) -> lr_NextToken r <> "" -> walks (lr_NextToken r) rest -> walks token (lr_Entries r ++ rest).

(** Pages that cut a list at offsets: [at_ token i] says that the token stands
    for the offset [i]. *)
Lemma walks_slices (entries : list A) (size : nat) (at_ : string -> nat -> Prop) :
  (0 < size)%nat ->
  (forall token i r, at_ token i -> (i < length entries \/ i = 0)%nat -> page token r <->
     exists resp, r = Ok resp /\ lr_Entries resp = slice entries i (i + size) /\
       if (i + size <? length entries)%nat
       then lr_NextToken resp <> "" /\ at_ (lr_NextToken resp) (i + size)%nat else lr_NextToken resp = "") ->
  (forall token i, at_ token i -> (i < length entries \/ i = 0)%nat -> exists r, page token r) ->
  forall token i l, at_ token i -> (i < length entries \/ i = 0)%nat ->
  walks token l <-> l = drop i entries.
Proof.
  intros Hsize Hpage Hex.
  assert (forall i, (length entries <= i + size)%nat -> slice entries i (i + size) = drop i entries) as Hlast.
  { intros i Hi. unfold slice. apply take_ge. rewrite length_drop. lia. }
  assert (forall i, slice entries i (i + size) ++ drop (i + size) entries = drop i entries) as Hcut.
  { intros i. unfold slice. replace (i + size - i)%nat with size by lia.
    rewrite <- drop_drop. apply take_drop. }
  assert (forall n token i l, (length entries - i <= n)%nat -> at_ token i -> (i < length entries \/ i = 0)%nat ->
            walks token l <-> l = drop i entries) as Hgo.
  { induction n as [n IH] using lt_wf_ind. intros token i l Hn Hat Hi. split.
    - intros Hw. destruct Hw as [token r Hr E|token r rest Hr E Hw];
        apply (Hpage _ i) in Hr as (resp & [= <-] & He & Hcase); try done; rewrite He;
        destruct (Nat.ltb_spec (i + size) (length entries)) as [Hlt|Hge].
      + by destruct Hcase.
      + by apply Hlast.
      + destruct Hcase as [_ Hat']. apply (IH (n - 1)%nat) with (i := (i + size)%nat) in Hw as ->; try lia; [|done].
        apply Hcut.
      + by rewrite Hcase in E.
    - intros ->. destruct (Hex token i Hat Hi) as [r Hr]. pose proof Hr as Hr'.
      apply (Hpage _ i) in Hr' as (resp & -> & He & Hcase); [|done..].
      destruct (Nat.ltb_spec (i + size) (length entries)) as [Hlt|Hge].
      + destruct Hcase as [Hne Hat']. rewrite <- Hcut, <- He. apply walk_next; [done|done|].
        apply (IH (n - 1)%nat) with (i := (i + size)%nat); [lia|lia|exact Hat'|by left|done].
      + rewrite <- Hlast, <- He by done. by apply walk_last. }
  intros token i l. by apply Hgo with (length entries - i)%nat.
Qed.
End Walk.

Lemma walks_ext {A : Type} (page page' : string -> res (list_response A) -> Prop) token l :
  (forall token r, page token r <-> page' token r) -> walks page token l <-> walks page' token l.
Proof.
  intros H. split; induction 1; econstructor; try apply H; eauto.
Qed.

(** ** ListVolumes *)

Section Volumes.
Context (entries : list Volume).
Hypothesis entries_distinct : NoDup (v_VolumeId <$> entries).
Hypothesis entries_named : Forall (fun v => v_VolumeId v <> "") entries.

(** The offset a token stands for: 0, or that after the entry it names. *)
Definition volume_token (token : string) (i : nat) : Prop :=
  token = "" /\ i = 0%nat \/ exists j v, i = S j /\ entries !! j = Some v /\ token = v_VolumeId v.

Lemma token_index_found l j v k :
  NoDup (v_VolumeId <$> l) -> l !! j = Some v -> token_index l (v_VolumeId v) k = Some (k + S j)%nat.
Proof.
  revert j k. induction l as [|w l IH]; intros j k Hd Hj; [done|]. simpl. rewrite fmap_cons in Hd.
  apply NoDup_cons in Hd as [Hn Hd]. destruct j as [|j]; simpl in Hj.
  - injection Hj as ->. rewrite String.eqb_refl. f_equal. lia.
  - destruct (String.eqb_spec (v_VolumeId w) (v_VolumeId v)) as [E|_].
    + destruct Hn. rewrite E. apply list_elem_of_fmap_2. by eapply list_elem_of_lookup_2.
    + rewrite (IH j (S k)) by done. f_equal. lia.
Qed.

Lemma volumes_page_shape max i :
  0 < max -> (i < length entries \/ i = 0)%nat ->
  let resp := volumes_page entries max i in
  lr_Entries resp = slice entries i (i + Z.to_nat max) /\
  if (i + Z.to_nat max <? length entries)%nat
  then lr_NextToken resp <> "" /\ volume_token (lr_NextToken resp) (i + Z.to_nat max)%nat
  else lr_NextToken resp = "".
Proof.
  intros Hmax Hi. unfold volumes_page. cbv zeta. destruct (Z.ltb_spec 0 max); [|lia]. cbn [andb].
  destruct (Nat.ltb_spec (i + Z.to_nat max) (length entries)) as [Hlt|Hge];
    destruct (Z.ltb_spec (Z.of_nat i + max) (Z.of_nat (length entries))); try lia; cbn [lr_Entries lr_NextToken].
  - split; [done|]. destruct (lookup_lt_is_Some_2 entries (i + Z.to_nat max - 1)) as [v Hv]; [lia|].
    rewrite Hv. split; [by apply (Forall_lookup_1 _ _ _ _ entries_named Hv)|].
    right. exists (i + Z.to_nat max - 1)%nat, v. split; [lia|done].
  - split; [|done]. unfold slice. rewrite !take_ge; [done|rewrite length_drop; lia..].
Qed.

Lemma paginate_volumes_page max token i :
  0 < max -> volume_token token i -> (i < length entries \/ i = 0)%nat ->
  exists resp, paginate_volumes entries (mkListRequest max token) = Ok resp /\
    lr_Entries resp = slice entries i (i + Z.to_nat max) /\
    if (i + Z.to_nat max <? length entries)%nat
    then lr_NextToken resp <> "" /\ volume_token (lr_NextToken resp) (i + Z.to_nat max)%nat
    else lr_NextToken resp = "".
Proof.
  intros Hmax Ht Hi. unfold paginate_volumes. cbn [lr_MaxEntries lr_StartingToken].
  destruct Ht as [[-> ->]|(j & v & -> & Hv & ->)]; [eexists; split; [done|by apply volumes_page_shape]|].
  destruct (String.eqb_spec (v_VolumeId v) "") as [E|_]; [by destruct (Forall_lookup_1 _ _ _ _ entries_named Hv)|].
  rewrite (token_index_found entries j v 0) by done. eexists. split; [done|]. apply volumes_page_shape; [done|lia].
Qed.

Lemma paginate_volumes_walk max l :
  0 < max ->
  walks (fun token r => r = paginate_volumes entries (mkListRequest max token)) "" l <-> l = entries.
Proof.
  intros Hmax. rewrite (walks_slices _ entries (Z.to_nat max) volume_token) with (i := 0%nat); [done|lia| | |by left|by right].
  - intros token i r Ht Hi. destruct (paginate_volumes_page max token i Hmax Ht Hi) as (resp & -> & Hr). split.
    + intros ->. by exists resp.
    + intros (resp' & -> & Hr'). destruct Hr as [E Hr], Hr' as [E' Hr'].
      destruct resp as [en tok], resp' as [en' tok']. simpl in *. subst en en'. do 2 f_equal.
      destruct (Nat.ltb _ _); [|congruence].
      (* the token of a page is determined by its last entry *)
      destruct Hr as [Hne [[? _]|(j & v & Ej & Hv & ->)]]; [done|].
      destruct Hr' as [Hne' [[? _]|(j' & v' & Ej' & Hv' & ->)]]; [done|].
      assert (j' = j) as -> by lia. congruence.
  - intros token i Ht Hi. destruct (paginate_volumes_page max token i Hmax Ht Hi) as (resp & E & _). by exists (Ok resp).
Qed.
End Volumes.

Lemma slice_length {A : Type} (l : list A) i j : (length (slice l i j) <= j - i)%nat.
Proof. unfold slice. rewrite length_take. lia. Qed.

Lemma paginate_volumes_bound entries max token resp :
  0 < max -> paginate_volumes entries (mkListRequest max token) = Ok resp ->
  Z.of_nat (length (lr_Entries resp)) <= max.
Proof.
  intros Hmax H. assert (exists i, resp = volumes_page entries max i) as [i ->].
  { unfold paginate_volumes in H. destruct (String.eqb _ _); [|destruct (token_index _ _ _)]; inv_res; eauto. }
  unfold volumes_page. cbv zeta. destruct (Z.ltb_spec 0 max); [|lia]. cbn [andb lr_Entries].
  destruct (Z.ltb_spec (Z.of_nat i + max) (Z.of_nat (length entries))).
  - pose proof (slice_length entries i (i + Z.to_nat max)). lia.
  - pose proof (slice_length entries i (length entries)). lia.
Qed.

Section ListVolumes.
Context {api : NastyAPI}.

(** What [ListVolumes] answers when the backend answers these subvolumes. *)
Lemma exec_ListVolumes subvols req r :
  exec (ListVolumes req) [cev (FindManagedSubvolumes "") (subvols, None)] (Done r) <->
  r = paginate_volumes (omap managed_entry subvols) req.
Proof.
  assert (exec (ListVolumes req) [cev (FindManagedSubvolumes "") (subvols, None)]
            (Done (paginate_volumes (omap managed_entry subvols) req))) as Hex.
  { unfold ListVolumes, listManagedVolumes, do_, call. cbn [bind]. constructor. cbn [bind]. constructor. }
  split; [|by intros ->]. intros H. by injection (exec_det _ _ _ _ H Hex).
Qed.

Lemma managed_entry_named sv v : managed_entry sv = Some v -> v_VolumeId v <> "".
Proof.
  unfold managed_entry. destruct (sv_Properties sv); [|done].
  destruct (extractVolumeMetadataFromSubvolume _ sv); [|done]. intros [= <-]. simpl.
  intros E. apply (f_equal str_len) in E. rewrite !str_app_length in E. unfold str_len in E. simpl in E. lia.
Qed.

(** C31: pagination of volumes.  While the backend answers the same
    subvolumes with distinct paths, a client that starts without a token and
    follows the tokens collects exactly the managed volumes, each once and in
    order, and no page has more entries than asked for. *)
Theorem ListVolumes_pages subvols max l :
  0 < max -> NoDup (v_VolumeId <$> omap managed_entry subvols) ->
  (walks (fun token r => exec (ListVolumes (mkListRequest max token))
            [cev (FindManagedSubvolumes "") (subvols, None)] (Done r)) "" l <->
   l = omap managed_entry subvols) /\
  forall token resp,
    exec (ListVolumes (mkListRequest max token)) [cev (FindManagedSubvolumes "") (subvols, None)] (Done (Ok resp)) ->
    Z.of_nat (length (lr_Entries resp)) <= max.
Proof.
  intros Hmax Hd. split.
  - assert (Forall (fun v => v_VolumeId v <> "") (omap managed_entry subvols)) as Hn.
    { apply Forall_forall. intros v Hv. apply list_elem_of_omap in Hv as (sv & _ & Hv). by eapply managed_entry_named. }
    rewrite <- (paginate_volumes_walk _ Hd Hn max l Hmax). apply walks_ext. intros token r. apply exec_ListVolumes.
  - intros token resp H. apply exec_ListVolumes in H. by eapply paginate_volumes_bound.
Qed.
End ListVolumes.

(** ** ListSnapshots *)

Section Offsets.
Context {A : Type}.

(** Offset tokens: the empty one stands for 0. *)
Definition offset_token (len : nat) (token : string) (i : nat) : Prop :=
  token = "" /\ i = 0%nat \/ token = encodeSnapshotToken (Z.of_nat i) /\ (i < len)%nat.

Lemma encodeSnapshotToken_nonempty z : 0 <= z -> encodeSnapshotToken z <> "".
Proof.
  intros Hz. unfold encodeSnapshotToken, FormatInt. destruct (Z.ltb_spec z 0); [lia|].
  destruct (FormatN_head (Z.to_N z)) as (c & t & -> & _). done.
Qed.

Lemma start_index_offset len token i what :
  Z.of_nat len <= int64_max -> offset_token len token i -> start_index token what = Ok (Z.of_nat i).
Proof.
  intros Hlen [[-> ->]|[-> Hi]]; [done|]. unfold start_index.
  destruct (String.eqb_spec (encodeSnapshotToken (Z.of_nat i)) "") as [E|_].
  { exfalso. apply (encodeSnapshotToken_nonempty (Z.of_nat i)); [lia|done]. }
  assert (parseSnapshotToken (encodeSnapshotToken (Z.of_nat i)) = Ok (Z.of_nat i)) as ->; [|done].
  apply parseSnapshotToken_encode; unfold is_int64, int64_min; lia.
Qed.

(** The pages of one list cut at offsets, walked from the start. *)
Lemma offset_walk (entries : list A) (size : Z) (page : string -> res (list_response A) -> Prop) l :
  0 < size -> Z.of_nat (length entries) <= int64_max ->
  (forall token i r, offset_token (length entries) token i -> page token r <->
     r = Ok (mkListResponse (slice entries i (i + Z.to_nat size))
               (next_token (Z.min (Z.of_nat i + size) (Z.of_nat (length entries))) (Z.of_nat (length entries))))) ->
  walks page "" l <-> l = entries.
Proof.
  intros Hsize Hlen Hpage.
  rewrite (walks_slices page entries (Z.to_nat size) (offset_token (length entries))) with (i := 0%nat);
    [done|lia| | |by left|by right].
  - intros token i r Ht Hi. rewrite (Hpage token i r Ht). unfold next_token.
    destruct (Nat.ltb_spec (i + Z.to_nat size) (length entries)) as [Hlt|Hge].
    + rewrite Z.min_l by lia. destruct (Z.ltb_spec (Z.of_nat i + size) (Z.of_nat (length entries))); [|lia].
      replace (Z.of_nat i + size) with (Z.of_nat (i + Z.to_nat size)) by lia. split.
      * intros ->. eexists. split; [done|]. simpl. split; [done|]. split; [apply encodeSnapshotToken_nonempty; lia|right; split; [done|lia]].
      * intros (resp & -> & E & _ & [[_ ?]|[Et _]]); [lia|]. destruct resp. simpl in *. congruence.
    + destruct (Z.ltb_spec (Z.min (Z.of_nat i + size) (Z.of_nat (length entries))) (Z.of_nat (length entries))); [lia|]. split.
      * intros ->. eexists. done.
      * intros (resp & -> & E & Et). destruct resp. simpl in *. congruence.
  - intros token i Ht Hi. eexists. by apply (Hpage token i _ Ht).
Qed.
End Offsets.

Section ListSnapshots.
Context {api : NastyAPI} {ts : Timestamppb}.

Lemma paginate_snapshots_page (entries : list CSISnapshot) i max :
  0 < max -> (i < length entries \/ i = 0)%nat ->
  paginate_snapshots entries (Z.of_nat i) max =
  mkListResponse (slice entries i (i + Z.to_nat max))
    (next_token (Z.min (Z.of_nat i + max) (Z.of_nat (length entries))) (Z.of_nat (length entries))).
Proof.
  intros Hmax Hi. unfold paginate_snapshots. cbv zeta.
  destruct (Z.leb_spec (Z.of_nat (length entries)) (Z.of_nat i)) as [Hle|Hlt].
  - destruct entries as [|e entries]; [|simpl in *; lia]. unfold empty_list, slice, next_token. rewrite drop_nil, take_nil.
    cbn [length]. change (Z.of_nat 0) with 0. destruct (Z.ltb_spec (Z.min (Z.of_nat i + max) 0) 0); [lia|done].
  - destruct (Z.ltb_spec 0 max); [|lia]. cbn [andb].
    destruct (Z.ltb_spec (Z.of_nat i + max) (Z.of_nat (length entries))).
    + rewrite Z.min_l by lia. f_equal. f_equal; lia.
    + rewrite Z.min_r by lia. f_equal. rewrite !Nat2Z.id. unfold slice. rewrite !take_ge; [done|rewrite length_drop; lia..].
Qed.

(** What [ListSnapshots] answers when the backend lists these subvolumes and
    the collection of their snapshots succeeds. *)
Lemma exec_ListSnapshots_all subvols tr collected max token i r :
  0 < max -> Z.of_nat (length collected) <= int64_max ->
  exec (all_entries subvols ∅ []) tr (Done (Ok collected)) ->
  offset_token (length (sort_by cs_SnapshotId collected)) token i ->
  exec (ListSnapshots (mkListSnapshotsRequest max token "" ""))
    (cev (FindManagedSubvolumes "") (subvols, None) :: tr) (Done r) <->
  r = Ok (paginate_snapshots (sort_by cs_SnapshotId collected) (Z.of_nat i) max).
Proof.
  intros Hmax Hlen Hc Ht. rewrite sort_by_length in Ht.
  pose proof (start_index_offset _ _ _ "invalid starting_token" Hlen Ht) as Hs.
  assert (exec (ListSnapshots (mkListSnapshotsRequest max token "" ""))
    (cev (FindManagedSubvolumes "") (subvols, None) :: tr)
    (Done (Ok (paginate_snapshots (sort_by cs_SnapshotId collected) (Z.of_nat i) max)))) as Hex.
  { unfold ListSnapshots. cbn [ls_MaxEntries ls_StartingToken ls_SnapshotId ls_SourceVolumeId].
    destruct (Z.ltb_spec max 0); [lia|]. rewrite Hs. cbn [String.eqb negb]. unfold listAllSnapshots, do_, call.
    cbn [bind ls_MaxEntries ls_StartingToken]. apply exec_vis. cbn [bind]. rewrite <- (app_nil_r tr).
    eapply exec_bind_intro; [exact Hc|]. cbv beta iota zeta. rewrite Hs. constructor. }
  split; [|by intros ->]. intros H. by injection (exec_det _ _ _ _ H Hex).
Qed.

(** C32: pagination of snapshots.  While the backend answers the same, a
    client that follows the tokens of [ListSnapshots] collects exactly the
    snapshots of the managed volumes, each as often as the backend lists it,
    in the order of their IDs. *)
Theorem ListSnapshots_pages subvols tr collected max l :
  0 < max -> Z.of_nat (length collected) <= int64_max ->
  exec (all_entries subvols ∅ []) tr (Done (Ok collected)) ->
  walks (fun token r => exec (ListSnapshots (mkListSnapshotsRequest max token "" ""))
           (cev (FindManagedSubvolumes "") (subvols, None) :: tr) (Done r)) "" l <->
  l = sort_by cs_SnapshotId collected.
Proof.
  intros Hmax Hlen Hc. apply offset_walk with max; [done|by rewrite sort_by_length|].
  intros token i r Ht. rewrite (exec_ListSnapshots_all subvols tr collected max token i r Hmax Hlen Hc Ht).
  rewrite paginate_snapshots_page; [done|done|]. destruct Ht as [[_ ->]|[_ ?]]; [by right|by left].
Qed.
End ListSnapshots.

(** ** Concrete executions *)

#[local] Existing Instance doc_api.
#[local] Existing Instance field_templates.
#[local] Existing Instance proto_timestamps.

(** Two volumes, and two snapshots of the first. *)
Definition two_volumes : world :=
  after (CreateVolume demo_service (demo_request "smb" "pvc-2")) (created_world "nfs" "pvc-1").
Definition two_snapshots : world :=
  after (CreateSnapshot "snap-1" "tank/pvc-1") (after (CreateSnapshot "snap-2" "tank/pvc-1") two_volumes).
Definition managed_of (w : world) : list Subvolume := with_prop PropertyManagedBy ManagedByValue w.
Definition collected_of (w : world) : list CSISnapshot :=
  match answer_of (all_entries (managed_of w) ∅ []) w with Done (Ok l) => l | _ => [] end.

Lemma ListVolumes_pages_witness :
  length (omap managed_entry (managed_of two_volumes)) = 2%nat /\
  walks (fun token r => exec (ListVolumes (mkListRequest 1 token))
           [cev (FindManagedSubvolumes "") (managed_of two_volumes, None)] (Done r)) ""
    (omap managed_entry (managed_of two_volumes)).
Proof.
  split; [vm_compute; reflexivity|].
  apply (ListVolumes_pages (managed_of two_volumes) 1 (omap managed_entry (managed_of two_volumes))); [lia| |reflexivity].
  apply (bool_decide_unpack _). vm_compute. exact I.
Defined.

Lemma ListSnapshots_pages_witness :
  length (collected_of two_snapshots) = 2%nat /\
  walks (fun token r => exec (ListSnapshots (mkListSnapshotsRequest 1 token "" ""))
           (cev (FindManagedSubvolumes "") (managed_of two_snapshots, None)
            :: trace_of (all_entries (managed_of two_snapshots) ∅ []) two_snapshots) (Done r)) ""
    (sort_by cs_SnapshotId (collected_of two_snapshots)).
Proof.
  split; [vm_compute; reflexivity|].
  apply (ListSnapshots_pages (managed_of two_snapshots) _ (collected_of two_snapshots) 1); [lia| | |reflexivity].
  - assert (length (collected_of two_snapshots) = 2%nat) as -> by (vm_compute; reflexivity). unfold int64_max. lia.
  - assert (answer_of (all_entries (managed_of two_snapshots) ∅ []) two_snapshots = Done (Ok (collected_of two_snapshots)))
      as <- by (vm_compute; reflexivity). apply play_exec.
Defined.
