(* ===== verification/SnapshotTheorems.v ===== *)
(** * Correctness of CreateSnapshot and DeleteSnapshot

    What every execution may do, what success means, and that the ID a
    creation answers names, for a deletion, exactly the created snapshot. *)

From S2P Require Import Prelude GoStrings Prog Errors Api Metadata Capacity Names Capabilities SnapshotId Common Controller Snapshots Backend Lifecycle.

#[local] Set Default Proof Using "Type*".

Section Facts.
Context {api : NastyAPI}.

(** A pointer that comes with a nil error is not nil. *)
Definition answer_present (o : cop) : cans o -> Prop :=
  match o return cans o -> Prop with
  | GetSubvolume _ _ | api_CreateSnapshot _ => fun r => r.2 = None -> r.1 <> None
  | _ => fun _ => True
  end.

(** The source volume was answered without a snapshot of this name, and no
    other managed volume that was listed has one. *)
Definition snapshot_free (h : history) (filesystem subvolume name : string) : Prop :=
  (exists sv, cev (GetSubvolume filesystem subvolume) (Some sv, None) ∈ h /\ name ∉ sv_Snapshots sv) /\
  exists managed findErr, cev (FindManagedSubvolumes "") (managed, findErr) ∈ h /\
    (findErr = None -> forall sv, sv ∈ managed -> name ∈ sv_Snapshots sv ->
       sv_Filesystem sv = filesystem /\ sv_Name sv = subvolume).

Definition snapshot_allow (name source : string) (h : history) (o : cop) : Prop :=
  match o with
  | GetSubvolume fs sub => splitSubvolumeID source = Ok (fs, sub)
  | FindManagedSubvolumes _ | api_ListSnapshots _ | ObserveSuccess _ | ObserveError _ => True
  | api_CreateSnapshot p =>
      splitSubvolumeID source = Ok (sncp_Filesystem p, sncp_Subvolume p) /\
      sncp_Name p = name /\ sncp_ReadOnly p = true /\
      snapshot_free h (sncp_Filesystem p) (sncp_Subvolume p) name /\
      forall p' r, cev (api_CreateSnapshot p') r ∉ h
  | _ => False
  end.

(** With [strict], answers are present and nothing may crash. *)
Definition snapshot_policy (strict : bool) (name source : string) : policy csig :=
  {| allow := snapshot_allow name source; env := fun _ o r => strict = true -> answer_present o r; crash := strict = false |}.

(** What a successful creation answers. *)
Definition snapshot_answered (h : history) (name source : string) (snap : CSISnapshot) : Prop :=
  exists fs sub sv, splitSubvolumeID source = Ok (fs, sub) /\
    cev (GetSubvolume fs sub) (Some sv, None) ∈ h /\
    encodeSnapshotID (mkSnapshotMetadata name source (snapshot_protocol (sv_Properties sv))) = Ok (cs_SnapshotId snap) /\
    cs_SourceVolumeId snap = source /\ cs_SizeBytes snap = stored_capacity (sv_Properties sv) /\
    0 < cs_CreationTime snap /\
    (name ∈ sv_Snapshots sv \/
     exists sn, cev (api_CreateSnapshot (mkSnapshotCreateParams fs sub name true)) (Some sn, None) ∈ h /\
       sn_CreatedAt sn = Some (cs_CreationTime snap)).
End Facts.

Lemma existsb_eqb_elem name l : existsb (fun snap => String.eqb snap name) l = true <-> name ∈ l.
Proof.
  rewrite existsb_exists. split.
  - intros (x & Hx & E). bool_to_prop. subst. by apply list_elem_of_In.
  - intros H. exists name. split; [by apply list_elem_of_In|apply String.eqb_refl].
Qed.

Section Specs.
Context {api : NastyAPI} {ts : Timestamppb} (strict : bool) (name source : string).

Abbreviation swp := (wp (snapshot_policy strict name source)).

(** A nil answer without an error crashes. *)
Lemma wp_nil {A B C : Type} h (Q : B -> history -> Prop) (e : option A) (f : C -> M B) :
  (strict = true -> e = None -> None <> None :> option C) -> e = None -> swp h (bind (deref None) f) Q.
Proof. intros H He. change (strict = false). destruct strict; [by destruct (H eq_refl He)|done]. Qed.

Lemma csiSnapshotCreationTime_ok createdAt z :
  csiSnapshotCreationTime createdAt = Ok z -> createdAt = Some z /\ 0 < z.
Proof.
  unfold csiSnapshotCreationTime. destruct createdAt as [t|]; [|done]. destruct (Z.ltb_spec 0 t); [|done].
  destruct (CheckValid t); [|done]. by intros [= <-].
Qed.

(** No other listed volume has the snapshot. *)
Lemma snapshot_elsewhere_none fs sub managed sv :
  snapshot_elsewhere fs sub name managed = None -> sv ∈ managed -> name ∈ sv_Snapshots sv ->
  sv_Filesystem sv = fs /\ sv_Name sv = sub.
Proof.
  unfold snapshot_elsewhere. intros H Hsv Hn. pose proof (find_none_forall _ _ H sv Hsv) as E. cbv beta in E.
  rewrite (proj2 (existsb_eqb_elem name (sv_Snapshots sv)) Hn) in E. cbn [andb] in E. by bool_to_prop.
Qed.

Lemma wp_snapshotCreationTimes h fs (Q : res (gmap string (option Z)) -> history -> Prop) :
  (forall r a, Q a (h ++ [cev (api_ListSnapshots fs) r])) -> swp h (snapshotCreationTimes fs) Q.
Proof. intros H. unfold snapshotCreationTimes. wp_auto; auto. Qed.

Lemma wp_CreateSnapshot :
  swp [] (CreateSnapshot name source) (fun r h => match r with Ok snap => snapshot_answered h name source snap | Err _ => True end).
Proof.
  unfold CreateSnapshot. cbv zeta. destruct (String.eqb name ""); [by wp_auto|]. destruct (String.eqb source ""); [by wp_auto|].
  destruct (splitSubvolumeID source) as [[fs sub]|e] eqn:Es; [|by wp_auto].
  apply wp_bind, wp_do; [done|]. intros [osv [e|]] Hsv; [by wp_auto|].
  destruct osv as [sv|]; [|apply (wp_nil _ _ (None : option error)); [exact Hsv|done]].
  apply wp_bind. cbn [deref]. apply wp_ret.
  apply wp_bind, wp_do; [done|]. intros [managed findErr] _.
  set (h := _ ++ [_]).
  assert (cev (GetSubvolume fs sub) (Some sv, None) ∈ h) as Hget by (subst h; auto with csi).
  assert (cev (FindManagedSubvolumes "") (managed, findErr) ∈ h) as Hfind by (subst h; auto with csi).
  assert (forall p r, cev (api_CreateSnapshot p) r ∉ h) as Hnone.
  { intros p r Hin. subst h. rewrite elem_of_app, elem_of_app, !list_elem_of_singleton, elem_of_nil in Hin.
    by destruct Hin as [[[]|[=]]|[=]]. }
  destruct (match findErr with Some _ => None | None => snapshot_elsewhere fs sub name managed end) as [other|] eqn:Ee;
    [by wp_auto|].
  destruct (existsb (fun snap => String.eqb snap name) (sv_Snapshots sv)) eqn:Ex.
  - apply existsb_eqb_elem in Ex. destruct (encodeSnapshotID _) as [id|e] eqn:Eid; [|by wp_auto].
    apply wp_bind, wp_snapshotCreationTimes. intros rl [times|e]; [|by wp_auto].
    destruct (csiSnapshotCreationTime _) as [z|e] eqn:Et; [|by wp_auto].
    apply csiSnapshotCreationTime_ok in Et as [_ Hz].
    apply wp_succeed; [done|]. intros rs. exists fs, sub, sv. split_and!; auto with csi.
  - assert (name ∉ sv_Snapshots sv) as Hfree.
    { intros Hin. apply existsb_eqb_elem in Hin. congruence. }
    apply wp_bind, wp_do.
    { split_and!; try done. split; [by exists sv|]. exists managed, findErr. split; [done|]. intros -> sv' Hin Hn.
      by eapply snapshot_elsewhere_none. }
    intros [osn [e|]] Hsn; [by wp_auto|]. destruct osn as [sn|]; [|apply (wp_nil _ _ (None : option error)); [exact Hsn|done]].
    apply wp_bind. cbn [deref]. apply wp_ret.
    destruct (encodeSnapshotID _) as [id|e] eqn:Eid; [|by wp_auto].
    destruct (csiSnapshotCreationTime _) as [z|e] eqn:Et; [|by wp_auto].
    apply csiSnapshotCreationTime_ok in Et as [Et Hz].
    apply wp_succeed; [done|]. intros rs. exists fs, sub, sv. split_and!; auto with csi.
    right. exists sn. split; [auto with csi|done].
Qed.
End Specs.

(** ** Theorems *)

(** An answer without a value and without an error. *)
Definition nil_answer (e : event csig) : Prop :=
  (exists fs sub, e = cev (GetSubvolume fs sub) (None, None)) \/ (exists p, e = cev (api_CreateSnapshot p) (None, None)).

Lemma nil_or_present (e : event csig) : nil_answer e \/ answer_present (projT1 e) (projT2 e).
Proof.
  destruct e as [o r]. destruct o; try (by right); destruct r as [[v|] [err|]]; try (right; cbn; congruence); left.
  - left. by exists filesystem, name.
  - right. by exists params.
Qed.

Lemma nil_in_or_present (tr : history) :
  (exists e, e ∈ tr /\ nil_answer e) \/ Forall (fun e => answer_present (projT1 e) (projT2 e)) tr.
Proof.
  induction tr as [|e tr [(e' & ? & ?)|IH]]; [by right; constructor| |].
  - left. exists e'. split; [by right|done].
  - destruct (nil_or_present e); [left; exists e; split; [by left|done]|right; by constructor].
Qed.

Lemma snapshot_env `{NastyAPI} strict name source h tr :
  (strict = true -> Forall (fun e => answer_present (projT1 e) (projT2 e)) tr) -> env_trace (snapshot_policy strict name source) h tr.
Proof.
  revert h. induction tr as [|[o r] tr IH]; intros h Hp; simpl; [done|]. split.
  - intros E. specialize (Hp E). by apply Forall_cons in Hp as [? _].
  - apply IH. intros E. specialize (Hp E). by apply Forall_cons in Hp as [_ ?].
Qed.

Section Theorems.
Context {api : NastyAPI} {ts : Timestamppb}.


(** The ID a creation answers. *)
Lemma CreateSnapshot_answer name source tr snap :
  exec (CreateSnapshot name source) tr (Done (Ok snap)) -> snapshot_answered tr name source snap.
Proof.
  intros He. exact (wp_sound_post (snapshot_policy false name source) [] _ _ _ _
    (wp_CreateSnapshot false name source) He (snapshot_env false name source [] tr ltac:(done))).
Qed.

(** What [DeleteSnapshot] does with an ID. *)
Lemma exec_DeleteSnapshot id meta fs sub tr out :
  id <> "" -> decodeSnapshotID id = Ok meta -> splitSubvolumeID (s_SourceVolume meta) = Ok (fs, sub) ->
  exec (DeleteSnapshot id) tr out ->
  exists r t, tr = cev (api_DeleteSnapshot fs sub (s_SnapshotName meta)) r :: t /\
    (out = Done (Ok tt) <-> query_failed r = None) /\
    forall e, e ∈ t -> projT1 e = ObserveSuccess (snapshot_timer "delete") \/ projT1 e = ObserveError (snapshot_timer "delete").
Proof.
  intros Hid Hd Hs He. unfold DeleteSnapshot in He. cbv zeta in He.
  destruct (String.eqb_spec id "") as [|_]; [done|]. rewrite Hd, Hs in He.
  unfold fail, succeed, do_, call in He. cbv beta iota delta [bind] in He.
  apply exec_inv in He as (r & t & -> & He). exists r, t. split; [done|].
  destruct (query_failed r) as [e|]; apply exec_inv in He as (r' & t' & -> & He);
    apply exec_inv in He as [-> ->]; (split; [done|]);
    intros e' ->%list_elem_of_singleton; auto.
Qed.


End Theorems.

(** ** Concrete executions *)

#[local] Existing Instance doc_api.
#[local] Existing Instance field_templates.
#[local] Existing Instance proto_timestamps.

Definition served_okb (e : event csig) : bool :=
  match e with
  | existT o r =>
      match o return cans o -> bool with
      | GetSubvolume _ _ => fun r =>
          match r.1 with Some sv => known_protocol (snapshot_protocol (sv_Properties sv)) | None => true end
      | _ => fun _ => true
      end r
  end.

Lemma served_okb_spec tr fs sub sv :
  forallb served_okb tr = true -> cev (GetSubvolume fs sub) (Some sv, None) ∈ tr ->
  known_protocol (snapshot_protocol (sv_Properties sv)) = true.
Proof. rewrite forallb_forall. intros H Hin. by apply list_elem_of_In, H in Hin. Qed.

Definition snap_world : world := created_world "nfs" "pvc-1".
Definition snap_trace : history := trace_of (CreateSnapshot "snap-1" "tank/pvc-1") snap_world.
Definition snap_answer : CSISnapshot := mkCSISnapshot "nfs:tank/pvc-1@snap-1" "tank/pvc-1" 1700000002 1073741824.
Definition snapshots_op (o : cop) : bool := match o with api_CreateSnapshot _ => true | _ => false end.

Lemma snap_answered : answer_of (CreateSnapshot "snap-1" "tank/pvc-1") snap_world = Done (Ok snap_answer).
Proof. vm_compute. reflexivity. Qed.



