(* ===== verification/IdentityTheorems.v ===== *)
(** * Correctness of the identity protocol

    The UUID of a new volume, and the decision whether an existing subvolume
    may be taken for a request: what is claimed, and with which identity. *)

From S2P Require Import Prelude GoStrings Prog Errors Api Metadata Names Identity Common Controller Creation Backend Lifecycle.

#[local] Set Default Proof Using "Type*".

(** ** UUIDs *)

(** Matching a text against a pattern: [x] stands for a lower-case hexadecimal
    digit, [y] for one of the RFC 4122 variant, anything else for itself. *)
Definition one_of (c : ascii) (s : string) : bool := str_mem c s.

Definition matches_char (p c : ascii) : bool :=
  if Ascii.eqb p "x" then one_of c "0123456789abcdef"
  else if Ascii.eqb p "y" then one_of c "89ab"
  else Ascii.eqb p c.

Fixpoint matches (pattern s : string) : bool :=
  match pattern, s with
  | "", "" => true
  | String p pattern', String c s' => matches_char p c && matches pattern' s'
  | _, _ => false
  end.

Definition uuid_v4 : string := "xxxxxxxx-xxxx-4xxx-yxxx-xxxxxxxxxxxx".

(** The 16 bytes the random source draws. *)
Definition drawn (v : list Z) : Prop := length v = 16%nat /\ Forall (fun b => 0 <= b < 256) v.

Lemma nibble_range b : 0 <= Z.land b 15 < 16.
Proof. change 15 with (Z.ones 4). rewrite Z.land_ones by lia. apply Z.mod_pos_bound. lia. Qed.

Lemma digit_cases d : 0 <= d < 16 -> d ∈ map Z.of_nat (seq 0 16).
Proof. intros H. apply list_elem_of_In, in_map_iff. exists (Z.to_nat d). split; [lia|]. apply in_seq. lia. Qed.

Lemma hex_digit_ok d : 0 <= d < 16 -> matches_char "x" (uuid_hex_digit d) = true.
Proof.
  intros H%digit_cases. assert (forallb (fun d => matches_char "x" (uuid_hex_digit d)) (map Z.of_nat (seq 0 16)) = true)
    as Hall by (vm_compute; reflexivity).
  rewrite forallb_forall in Hall. by apply Hall, list_elem_of_In.
Qed.

Lemma hex_digit_inj d e : 0 <= d < 16 -> 0 <= e < 16 -> uuid_hex_digit d = uuid_hex_digit e -> d = e.
Proof.
  intros Hd%digit_cases He%digit_cases E.
  assert (forallb (fun d => forallb (fun e => negb (Ascii.eqb (uuid_hex_digit d) (uuid_hex_digit e)) || (d =? e))
            (map Z.of_nat (seq 0 16))) (map Z.of_nat (seq 0 16)) = true) as Hall by (vm_compute; reflexivity).
  rewrite forallb_forall in Hall. specialize (Hall d ltac:(by apply list_elem_of_In)). cbv beta in Hall.
  rewrite forallb_forall in Hall. specialize (Hall e ltac:(by apply list_elem_of_In)). cbv beta in Hall.
  rewrite E, Ascii.eqb_refl in Hall. simpl in Hall. by apply Z.eqb_eq in Hall.
Qed.

Lemma byte_nibbles b : 0 <= b < 256 -> b = 16 * Z.land (Z.shiftr b 4) 15 + Z.land b 15.
Proof.
  intros Hb. change 15 with (Z.ones 4). rewrite !Z.land_ones, Z.shiftr_div_pow2 by lia. change (2 ^ 4) with 16.
  rewrite (Z.mod_small (b / 16)). 2: { split; [apply Z.div_pos; lia|apply Z.div_lt_upper_bound; lia]. }
  apply Z.div_mod. lia.
Qed.

(** The text of a byte determines it. *)
Lemma hex_byte_inj a b s t :
  0 <= a < 256 -> 0 <= b < 256 -> hex_byte a +:+ s = hex_byte b +:+ t -> a = b /\ s = t.
Proof.
  intros Ha Hb E. injection E as E1 E2 E. split; [|done].
  rewrite (byte_nibbles a Ha), (byte_nibbles b Hb).
  rewrite (hex_digit_inj _ _ (nibble_range _) (nibble_range _) E1).
  by rewrite (hex_digit_inj _ _ (nibble_range _) (nibble_range _) E2).
Qed.

Lemma byte_cases b : 0 <= b < 256 -> b ∈ map Z.of_nat (seq 0 256).
Proof. intros H. apply list_elem_of_In, in_map_iff. exists (Z.to_nat b). split; [lia|]. apply in_seq. lia. Qed.

(** A fact of all bytes that can be computed. *)
Lemma all_bytes (f : Z -> bool) b :
  forallb f (map Z.of_nat (seq 0 256)) = true -> 0 <= b < 256 -> f b = true.
Proof. rewrite forallb_forall. intros H Hb%byte_cases. by apply H, list_elem_of_In. Qed.

Definition version_byte (b : Z) : Z := Z.lor (Z.land b 15) 64.
Definition variant_byte (b : Z) : Z := Z.lor (Z.land b 63) 128.

Lemma byte_texts b :
  0 <= b < 256 ->
  matches "xx" (hex_byte b) = true /\ matches "4x" (hex_byte (version_byte b)) = true /\
  matches "yx" (hex_byte (variant_byte b)) = true /\
  0 <= version_byte b < 256 /\ 0 <= variant_byte b < 256.
Proof.
  intros Hb.
  pose proof (all_bytes (fun b => matches "xx" (hex_byte b) && matches "4x" (hex_byte (version_byte b)) &&
    matches "yx" (hex_byte (variant_byte b)) && (0 <=? version_byte b) && (version_byte b <? 256) &&
    (0 <=? variant_byte b) && (variant_byte b <? 256)) b ltac:(vm_compute; reflexivity) Hb) as H.
  cbv beta in H. bool_to_prop. repeat split; auto.
Qed.

Lemma matches_app p q s t : matches p s = true -> matches q t = true -> matches (p +:+ q) (s +:+ t) = true.
Proof.
  revert s. induction p as [|c p IH]; intros [|d s] H Hq; try done.
  rewrite !str_cons_app. cbn [matches] in *. apply andb_true_iff in H as [H1 H2]. rewrite H1. by apply IH.
Qed.

(** The text of 16 bytes, spelled out. *)
Definition uuid_layout (b : list string) : string :=
  match b with
  | [b0; b1; b2; b3; b4; b5; b6; b7; b8; b9; b10; b11; b12; b13; b14; b15] =>
      b0 +:+ b1 +:+ b2 +:+ b3 +:+ "-" +:+ b4 +:+ b5 +:+ "-" +:+ b6 +:+ b7 +:+ "-" +:+ b8 +:+ b9 +:+ "-" +:+
      b10 +:+ b11 +:+ b12 +:+ b13 +:+ b14 +:+ b15
  | _ => ""
  end.

Lemma uuid_text_layout v : length v = 16%nat -> uuid_text v = uuid_layout (map hex_byte v).
Proof.
  intros H. do 16 (destruct v as [|? v]; [done|]). destruct v; [|done]. clear H.
  unfold uuid_text, uuid_layout, hex_bytes. cbn [take drop Nat.sub foldr map]. by rewrite !str_app_nil_r, !str_app_assoc.
Qed.

Lemma drawn_bytes v :
  drawn v -> exists b0 b1 b2 b3 b4 b5 b6 b7 b8 b9 b10 b11 b12 b13 b14 b15,
    v = [b0; b1; b2; b3; b4; b5; b6; b7; b8; b9; b10; b11; b12; b13; b14; b15] /\
    uuid_bytes v = [b0; b1; b2; b3; b4; b5; version_byte b6; b7; variant_byte b8; b9; b10; b11; b12; b13; b14; b15].
Proof.
  intros [H _]. do 16 (destruct v as [|? v]; [done|]). destruct v; [|done]. repeat eexists.
Qed.

Lemma uuid_bytes_drawn v : drawn v -> drawn (uuid_bytes v).
Proof.
  intros H. destruct H as [Hl Hv]. do 16 (destruct v as [|? v]; [done|]). destruct v; [|done].
  split; [done|]. rewrite !Forall_cons in Hv. cbn. unfold drawn in *.
  rewrite !Forall_cons. destruct_and! Hv. split_and!; try done; by apply byte_texts.
Qed.

Lemma uuid_text_matches v : drawn v -> matches uuid_v4 (uuid_text (uuid_bytes v)) = true.
Proof.
  intros H. rewrite uuid_text_layout by apply (uuid_bytes_drawn v H).
  destruct (drawn_bytes v H) as (b0 & b1 & b2 & b3 & b4 & b5 & b6 & b7 & b8 & b9 & b10 & b11 & b12 & b13 & b14 & b15 & -> & ->).
  destruct H as [_ H]. rewrite !Forall_cons in H. destruct_and! H.
  unfold uuid_layout, map.
  change uuid_v4 with ("xx" +:+ "xx" +:+ "xx" +:+ "xx" +:+ "-" +:+ "xx" +:+ "xx" +:+ "-" +:+ "4x" +:+ "xx" +:+ "-" +:+
    "yx" +:+ "xx" +:+ "-" +:+ "xx" +:+ "xx" +:+ "xx" +:+ "xx" +:+ "xx" +:+ "xx").
  repeat (apply matches_app; [first [reflexivity|by apply byte_texts]|]). by apply byte_texts.
Qed.

(** The text determines the bytes. *)
Lemma uuid_text_inj v w : drawn v -> drawn w -> uuid_text v = uuid_text w -> v = w.
Proof.
  intros [Hv Fv] [Hw Fw]. rewrite !uuid_text_layout by done.
  do 16 (destruct v as [|? v]; [done|]). destruct v; [|done]. do 16 (destruct w as [|? w]; [done|]). destruct w; [|done].
  rewrite !Forall_cons in Fv, Fw. destruct_and! Fv. destruct_and! Fw. clear Hv Hw. unfold uuid_layout, map. intros E.
  repeat match type of E with
  | hex_byte ?a +:+ _ = hex_byte ?b +:+ _ => apply hex_byte_inj in E as [-> E]; [|by split..]
  | hex_byte ?a = hex_byte ?b =>
      rewrite <- (str_app_nil_r (hex_byte a)), <- (str_app_nil_r (hex_byte b)) in E
  | "-" +:+ _ = "-" +:+ _ => apply str_app_inj_l in E
  end.
  done.
Qed.

(** The random source fills the buffer with bytes. *)
Definition fills_buffer (e : event csig) : Prop :=
  match e with
  | existT o r =>
      match o return cans o -> Prop with
      | RandRead n => fun r => match r with Ok v => length v = n /\ Forall (fun b => 0 <= b < 256) v | Err _ => True end
      | _ => fun _ => True
      end r
  end.

(** C38: UUIDs of volumes.  [newVolumeUUID] draws 16 random bytes once; when
    the random source works, its text has the form of an RFC 4122 version 4
    UUID, and two draws give the same text only if they agree on all bits that
    are not fixed; otherwise it is an error. *)
Theorem newVolumeUUID_v4 tr out :
  exec newVolumeUUID tr out -> Forall fills_buffer tr ->
  match out with
  | Done (Ok u) => exists v, tr = [cev (RandRead 16) (Ok v)] /\ matches uuid_v4 u = true /\
      forall w, drawn w -> uuid_text (uuid_bytes w) = u -> uuid_bytes w = uuid_bytes v
  | Done (Err _) => exists e, tr = [cev (RandRead 16) (Err e)]
  | Panicked => False
  end.
Proof.
  unfold newVolumeUUID, do_, call. cbv beta iota delta [bind].
  intros He Hf. apply exec_inv in He as (r & t & -> & He). apply Forall_inv in Hf. cbn in Hf.
  destruct r as [v|e]; apply exec_inv in He as [-> ->]; [|by exists e].
  exists v. split; [done|]. split; [by apply uuid_text_matches|].
  intros w Hw E. apply uuid_text_inj in E; [done|by apply uuid_bytes_drawn..].
Qed.

Definition sixteen : list Z := [18; 52; 86; 120; 154; 188; 222; 240; 1; 35; 69; 103; 137; 171; 205; 239].

Lemma newVolumeUUID_v4_witness :
  uuid_text (uuid_bytes sixteen) = "12345678-9abc-4ef0-8123-456789abcdef" /\
  matches uuid_v4 "12345678-9abc-4ef0-8123-456789abcdef" = true.
Proof.
  split; [vm_compute; reflexivity|].
  destruct (newVolumeUUID_v4 [cev (RandRead 16) (Ok sixteen)] (Done (Ok (uuid_text (uuid_bytes sixteen)))))
    as (v & _ & H & _).
  - apply exec_vis. apply exec_ret.
  - repeat constructor; vm_compute; congruence.
  - exact H.
Defined.

(** ** Existing subvolumes *)

Section Decisions.
Context {api : NastyAPI}.

(** The subvolume may be taken for the request: it is recorded under this very
    request and protocol; or it predates the identity records and is provably
    the request's; or it has no foreign identity and the storage class asks
    for adoption. *)
Definition claimable (req : CreateVolumeRequest) (protocol backendName : string) (sv : Subvolume) : Prop :=
  let props := sv_Properties sv in
  if bool_decide (props.[PropertyManagedBy] = ManagedByValue /\ props.[propertyIdentityVersion] = identityVersion2)
  then props.[propertyCSIRequestName] = req_Name req /\ props.[PropertyProtocol] = protocol
  else (props.[PropertyManagedBy] = ManagedByValue /\ sv_Name sv = backendName /\ props.[PropertyProtocol] = protocol /\
        legacyPVCIdentityMatches (req_Name req) (req_Parameters req) props = true) \/
       (req_Parameters req).["adoptExisting"] = VolumeContextValueTrue.

(** The identity of a request, with this UUID. *)
Definition identity_of (req : CreateVolumeRequest) (backendName protocol uuid : string) : smap :=
  {[ PropertyCSIVolumeName := backendName; PropertyProtocol := protocol; propertyCSIRequestName := req_Name req;
     propertyVolumeUUID := uuid; propertyIdentityVersion := identityVersion2 ]}.

Definition only_random (tr : history) : Prop := Forall (fun e => projT1 e = RandRead 16) tr.

Lemma exec_identityProperties existing req backendName protocol tr out :
  exec (identityProperties existing (req_Name req) backendName protocol) tr out ->
  only_random tr /\
  match out with
  | Done (Ok idp) => exists u, idp = identity_of req backendName protocol u /\ u <> "" /\
      (existing.[propertyVolumeUUID] <> "" -> u = existing.[propertyVolumeUUID])
  | Done (Err _) => existing.[propertyVolumeUUID] = ""
  | Panicked => False
  end.
Proof.
  unfold identityProperties, newVolumeUUID, do_, call, only_random. cbv zeta.
  destruct (String.eqb_spec existing.[propertyVolumeUUID] "") as [E|E].
  - cbv beta iota delta [bind]. intros He. apply exec_inv in He as (r & t & -> & He).
    destruct r as [v|e]; apply exec_inv in He as [-> ->]; (split; [by repeat constructor|]); [|done].
    exists (uuid_text (uuid_bytes v)). split; [done|]. split; [apply uuid_nonempty|done].
  - intros He. apply exec_inv in He as [-> ->]. split; [constructor|]. by exists existing.[propertyVolumeUUID].
Qed.

(** What [decideExistingVolumeIdentity] answers. *)
Definition decision_spec (req : CreateVolumeRequest) (protocol backendName : string) (sv : Subvolume)
    (r : res volumeIdentityDecision) : Prop :=
  let props := sv_Properties sv in
  match r with
  | Ok d => claimable req protocol backendName sv /\
      exists u, d_properties d = Some (identity_of req backendName protocol u) /\ u <> "" /\
        (props.[propertyVolumeUUID] <> "" -> u = props.[propertyVolumeUUID]) /\
        (d_persist d = false -> propertiesContain props (identity_of req backendName protocol u) = true)
  | Err e =>
      (claimable req protocol backendName sv -> props.[propertyVolumeUUID] = "" /\ err_code e = Internal) /\
      (~ claimable req protocol backendName sv -> err_code e =
         if bool_decide (props.[PropertyManagedBy] = ManagedByValue /\ props.[propertyIdentityVersion] = identityVersion2)
         then FailedPrecondition else AlreadyExists)
  end.

(** The identity that is kept or completed, whatever the decision's flag. *)
Lemma exec_with_identity req protocol backendName sv persist tr out :
  claimable req protocol backendName sv ->
  (forall u, persist = false -> sv.(sv_Properties).[propertyVolumeUUID] = u -> u <> "" ->
     propertiesContain (sv_Properties sv) (identity_of req backendName protocol u) = true) ->
  (persist = false -> (sv_Properties sv).[propertyVolumeUUID] <> "") ->
  exec (r <- identityProperties (sv_Properties sv) (req_Name req) backendName protocol;;
        match r with
        | Err err => Ret (Err (Status Internal ("failed to generate volume identity: " +:+ err_text err)))
        | Ok identity => Ret (Ok (mkDecision (Some identity) persist))
        end) tr out ->
  only_random tr /\
  match out with Done r => decision_spec req protocol backendName sv r | Panicked => False end.
Proof.
  intros Hc Hp Hu He. apply exec_bind in He as [(r & t1 & t2 & H1 & H2 & ->)|[H1 ->]];
    apply exec_identityProperties in H1 as [Hr H1]; [|done].
  destruct r as [idp|e]; apply exec_inv in H2 as [-> ->]; rewrite app_nil_r; (split; [done|]).
  - destruct H1 as (u & -> & Hne & Hkeep). split; [done|]. exists u. simpl. split; [done|]. split; [done|].
    split; [done|]. intros Hf. apply Hp; [done| |done]. by rewrite Hkeep by auto.
  - by split.
Qed.

Lemma identity_contained req protocol backendName props u :
  props.[PropertyCSIVolumeName] = backendName -> props.[PropertyProtocol] = protocol ->
  props.[propertyCSIRequestName] = req_Name req -> props.[propertyVolumeUUID] = u ->
  props.[propertyIdentityVersion] = identityVersion2 ->
  propertiesContain props (identity_of req backendName protocol u) = true.
Proof.
  intros H1 H2 H3 H4 H5. unfold propertiesContain. apply forallb_forall. intros [k v] Hin.
  apply list_elem_of_In, elem_of_map_to_list in Hin. apply String.eqb_eq. simpl.
  unfold identity_of in Hin.
  repeat (apply lookup_insert_Some in Hin as [[<- <-]|[_ Hin]]; [done|]).
  by apply lookup_singleton_Some in Hin as [<- <-].
Qed.

Lemma exec_refused req protocol backendName sv c msg tr out :
  exec (Ret (Err (Status c msg)) : M (res volumeIdentityDecision)) tr out ->
  ~ claimable req protocol backendName sv ->
  c = (if bool_decide ((sv_Properties sv).[PropertyManagedBy] = ManagedByValue /\
                       (sv_Properties sv).[propertyIdentityVersion] = identityVersion2)
       then FailedPrecondition else AlreadyExists) ->
  only_random tr /\
  match out with Done r => decision_spec req protocol backendName sv r | Panicked => False end.
Proof.
  intros He Hn Hc. apply exec_inv in He as [-> ->]. split; [constructor|]. split; [done|]. by intros _.
Qed.

(** A subvolume without the driver's mark. *)
Lemma unmanaged_case req protocol backendName sv msg tr out :
  (sv_Properties sv).[PropertyManagedBy] <> ManagedByValue ->
  exec (if negb (String.eqb (req_Parameters req).["adoptExisting"] VolumeContextValueTrue)
        then Ret (Err (Status AlreadyExists msg))
        else r <- identityProperties (sv_Properties sv) (req_Name req) backendName protocol;;
             match r with
             | Err err => Ret (Err (Status Internal ("failed to generate volume identity: " +:+ err_text err)))
             | Ok identity => Ret (Ok (mkDecision (Some identity) true))
             end) tr out ->
  only_random tr /\
  match out with Done r => decision_spec req protocol backendName sv r | Panicked => False end.
Proof.
  intros Em. destruct (String.eqb_spec (req_Parameters req).["adoptExisting"] VolumeContextValueTrue) as [Ea|Ea];
    cbn [negb]; intros He.
  - eapply exec_with_identity; [| | |exact He]; try done. unfold claimable. rewrite bool_decide_false by tauto. auto.
  - eapply exec_refused; [exact He| |]; [unfold claimable|]; rewrite bool_decide_false by tauto; [|done].
    intros [(? & _)|?]; done.
Qed.

(** C21: which existing subvolumes a request may take.  The decision touches
    nothing but the random source; it accepts exactly the claimable
    subvolumes (or fails to draw a UUID); an accepted one keeps its UUID, its
    decision carries the identity of the request, and the write is skipped
    only where that identity is already complete; a refused one is reported
    as another request's or as not provably ours. *)
Theorem decideExistingVolumeIdentity_correct req protocol backendName sv tr out :
  exec (decideExistingVolumeIdentity req protocol backendName sv) tr out ->
  only_random tr /\
  match out with Done r => decision_spec req protocol backendName sv r | Panicked => False end.
Proof.
  unfold decideExistingVolumeIdentity. cbv zeta. set (props := sv_Properties sv).
  destruct (String.eqb_spec props.[PropertyManagedBy] ManagedByValue) as [Em|Em];
    destruct (String.eqb_spec props.[propertyIdentityVersion] identityVersion2) as [Ev|Ev]; cbn [andb].
  - destruct (String.eqb_spec props.[propertyCSIRequestName] (req_Name req)) as [Er|Er];
      [destruct (String.eqb_spec props.[PropertyProtocol] protocol) as [Ep|Ep]|]; cbn [negb orb]; intros He.
    + eapply exec_with_identity; [| | |exact He]; fold props.
      * unfold claimable. fold props. by rewrite bool_decide_true.
      * intros u Hf Hu _. bool_to_prop.
        by apply identity_contained.
      * intros Hf. by bool_to_prop.
    + eapply exec_refused; [exact He| |]; fold props; [unfold claimable; fold props|]; rewrite bool_decide_true by done; tauto.
    + eapply exec_refused; [exact He| |]; fold props; [unfold claimable; fold props|]; rewrite bool_decide_true by done; tauto.
  - destruct ((String.eqb (sv_Name sv) backendName && String.eqb props.[PropertyProtocol] protocol) &&
              legacyPVCIdentityMatches (req_Name req) (req_Parameters req) props) eqn:El;
      destruct (String.eqb_spec (req_Parameters req).["adoptExisting"] VolumeContextValueTrue) as [Ea|Ea]; cbn [negb andb]; intros He.
    1-3: eapply exec_with_identity; [| | |exact He]; try done; unfold claimable; fold props;
      rewrite bool_decide_false by tauto; bool_to_prop; auto.
    eapply exec_refused; [exact He| |]; fold props; [unfold claimable; fold props|]; rewrite bool_decide_false by tauto; [|done].
    intros [(_ & H1 & H2 & H3)|H]; [|done]. rewrite H1, H2, H3, !String.eqb_refl in El. done.
  - apply unmanaged_case. tauto.
  - apply unmanaged_case. tauto.
Qed.
End Decisions.

(** ** A concrete decision: the repetition of a creation *)

#[local] Existing Instance doc_api.
#[local] Existing Instance field_templates.

Definition repeated : Subvolume :=
  default (new_subvol "" "" "" None "" true) (w_subvols (created_world "nfs" "pvc-1") !! ("tank", "pvc-1")).
Definition repeat_decision : M (res volumeIdentityDecision) :=
  decideExistingVolumeIdentity (demo_request "nfs" "pvc-1") "nfs" "pvc-1" repeated.

Lemma decideExistingVolumeIdentity_correct_witness :
  exists d, answer_of repeat_decision empty_world = Done (Ok d) /\ d_persist d = false /\
    decision_spec (demo_request "nfs" "pvc-1") "nfs" "pvc-1" repeated (Ok d).
Proof.
  assert (match answer_of repeat_decision empty_world with Done (Ok d) => negb (d_persist d) | _ => false end = true) as Hd
    by (vm_compute; reflexivity).
  destruct (decideExistingVolumeIdentity_correct (demo_request "nfs" "pvc-1") "nfs" "pvc-1" repeated _ _
              (play_exec repeat_decision empty_world)) as [_ H].
  destruct (answer_of repeat_decision empty_world) as [[d|e]|]; [|discriminate Hd..].
  exists d. split; [reflexivity|]. split; [|exact H]. destruct (d_persist d); [discriminate Hd|reflexivity].
Defined.
