(* ===== verification/AdoptionTheorems.v ===== *)
(** * Correctness of adoption

    Which existing volume [Controller.checkAndAdoptVolume] takes over, and
    that nothing is changed before such a volume was found. *)

From S2P Require Import Prelude GoStrings Prog Errors Api Metadata Names Identity Capabilities Common Nfs Smb Iscsi Nvmeof Controller Creation Backend Lifecycle.

#[local] Set Default Proof Using "Type*".

(** A program is free to act once a lasting fact permits everything. *)
Lemma wp_permitted {Sg : signature} {A : Type} (P : policy Sg) (F : list (event Sg) -> Prop) h (p : prog Sg A) :
  (forall h o, F h -> allow P h o) -> (forall h t, F h -> F (h ++ t)) -> crash P -> F h ->
  wp P h p (fun _ h' => F h').
Proof.
  intros Ha Hm Hc. revert h. induction p as [a| |o k IH]; intros h HF; [by apply wp_ret|done|].
  split; [by apply Ha|]. intros r _. apply IH. by apply Hm.
Qed.

(** ** The volume of a claim *)

Section Claim.
Context {api : NastyAPI}.

(** The candidates in the claim's namespace. *)
Definition in_namespace (pvcNamespace : string) (sv : Subvolume) : bool :=
  match sv_Properties sv with
  | None => false
  | Some props => String.eqb (Some props).[PropertyPVCNamespace] pvcNamespace
  end.

Lemma unique_pvc_match_found pvcName ns fs candidates found :
  match List.filter (in_namespace ns) candidates with
  | [] => unique_pvc_match pvcName ns fs candidates (Some found) = Ok (Some found)
  | _ => exists e, unique_pvc_match pvcName ns fs candidates (Some found) = Err e /\ err_code e = FailedPrecondition
  end.
Proof.
  induction candidates as [|sv l IH]; [done|]. simpl. unfold in_namespace at 1.
  destruct (sv_Properties sv) as [props|]; [|exact IH].
  destruct (String.eqb _ ns); [|exact IH]. by eexists.
Qed.

Lemma unique_pvc_match_none pvcName ns fs candidates :
  match List.filter (in_namespace ns) candidates with
  | [] => unique_pvc_match pvcName ns fs candidates None = Ok None
  | [sv] => unique_pvc_match pvcName ns fs candidates None = Ok (Some sv)
  | _ => exists e, unique_pvc_match pvcName ns fs candidates None = Err e /\ err_code e = FailedPrecondition
  end.
Proof.
  induction candidates as [|sv l IH]; [done|]. simpl. unfold in_namespace at 1.
  destruct (sv_Properties sv) as [props|]; [|exact IH].
  destruct (String.eqb _ ns); [|exact IH]. pose proof (unique_pvc_match_found pvcName ns fs l sv) as H.
  by destruct (List.filter (in_namespace ns) l).
Qed.

(** The volume of a claim is unambiguous.  The search asks the backend
    once, for the claim's name, and answers the one candidate in the claim's
    namespace: none if there is none, and an error if there are several; a
    request that does not name its claim asks nothing and finds nothing. *)
Theorem findSubvolumeByPVCIdentity_unique params fs tr out :
  exec (findSubvolumeByPVCIdentity params fs) tr out ->
  if bool_decide (params.[CSIPVCName] = "" \/ params.[CSIPVCNamespace] = "") then tr = [] /\ out = Done (Ok None)
  else exists candidates err,
    tr = [cev (FindSubvolumesByProperty PropertyPVCName params.[CSIPVCName] fs) (candidates, err)] /\
    match err, List.filter (in_namespace params.[CSIPVCNamespace]) candidates with
    | None, [] => out = Done (Ok None)
    | None, [sv] => out = Done (Ok (Some sv))
    | None, _ => exists e, out = Done (Err e) /\ err_code e = FailedPrecondition
    | Some _, _ => exists e, out = Done (Err e) /\ err_code e = Internal
    end.
Proof.
  unfold findSubvolumeByPVCIdentity, do_, call. cbv zeta.
  destruct (String.eqb_spec params.[CSIPVCName] "") as [E1|E1];
    destruct (String.eqb_spec params.[CSIPVCNamespace] "") as [E2|E2]; cbn [orb].
  1-3: intros He; apply exec_inv in He; rewrite bool_decide_true by tauto; exact He.
  rewrite bool_decide_false by tauto. cbv beta iota delta [bind]. intros He.
  apply exec_inv in He as ([candidates err] & t & -> & He). exists candidates, err.
  destruct err as [e|]; apply exec_inv in He as [-> ->]; (split; [done|]); [by eexists|].
  pose proof (unique_pvc_match_none params.[CSIPVCName] params.[CSIPVCNamespace] fs candidates) as H.
  destruct (List.filter _ candidates) as [|sv [|sv' l]]; [by rewrite H..|].
  destruct H as (e & -> & Hc). by exists e.
Qed.

(** ** Adoption *)

(** A volume that may be adopted: managed, of the requested protocol, and
    marked for adoption by itself or by the storage class. *)
Definition adoptable (params : gomap) (protocol : string) (sv : Subvolume) : Prop :=
  (sv_Properties sv).[PropertyManagedBy] = ManagedByValue /\
  (sv_Properties sv).[PropertyProtocol] = protocol /\
  ((sv_Properties sv).[PropertyAdoptable] = VolumeContextValueTrue \/
   params.["adoptExisting"] = VolumeContextValueTrue).

(** The backend found it by the volume's name or by its claim. *)
Definition found (h : history) (filesystem volumeName : string) (params : gomap) (sv : Subvolume) : Prop :=
  cev (FindSubvolumeByCSIVolumeName filesystem volumeName) (Some sv, None) ∈ h \/
  exists candidates, cev (FindSubvolumesByProperty PropertyPVCName params.[CSIPVCName] filesystem) (candidates, None) ∈ h /\
    List.filter (in_namespace params.[CSIPVCNamespace]) candidates = [sv].

Definition adoptable_found (volumeName : string) (params : gomap) (protocol : string) (h : history) : Prop :=
  exists sv, found h params.[paramFilesystem] volumeName params sv /\ adoptable params protocol sv.

Definition adopt_allow (volumeName : string) (params : gomap) (protocol : string) (h : history) (o : cop) : Prop :=
  match o with
  | FindSubvolumeByCSIVolumeName _ _ | FindSubvolumesByProperty _ _ _ => True
  | _ => adoptable_found volumeName params protocol h
  end.

Definition adopt_policy (volumeName : string) (params : gomap) (protocol : string) : policy csig :=
  {| allow := adopt_allow volumeName params protocol; env := any_env; crash := True |}.

Lemma found_app h t fs name params sv : found h fs name params sv -> found (h ++ t) fs name params sv.
Proof. intros [H|(c & H & E)]; [left|right; exists c]; auto with csi. Qed.

Lemma IsVolumeAdoptable_spec props :
  IsVolumeAdoptable props = true ->
  props.[PropertyManagedBy] = ManagedByValue.
Proof.
  unfold IsVolumeAdoptable, map_get. destruct (map_lookup props PropertyManagedBy) as [m|]; [|done].
  destruct (String.eqb_spec m ManagedByValue) as [->|]; done.
Qed.
End Claim.

Section Adopt.
Context {api : NastyAPI} {tt_ : TextTemplate} (s : service).

Lemma wp_checkAndAdoptVolume_policy req params protocol :
  wp (adopt_policy (req_Name req) params protocol) [] (checkAndAdoptVolume s req params protocol) (fun r h =>
    match r with Ok (Some _) => adoptable_found (req_Name req) params protocol h | _ => True end).
Proof.
  set (P := adopt_policy (req_Name req) params protocol). unfold checkAndAdoptVolume. cbv zeta.
  apply wp_bind, wp_do; [done|]. intros [subvol err] _. cbn [app]. set (h := [_]).
  apply wp_bind.
  assert (wp P h (match (match err with Some _ => None | None => subvol end) with
                  | Some sv => Ret (Ok (Some sv))
                  | None => findSubvolumeByPVCIdentity params params.[paramFilesystem]
                  end)
    (fun r h' => forall sv, r = Ok (Some sv) -> found h' params.[paramFilesystem] (req_Name req) params sv)) as Hfound.
  { assert (wp P h (findSubvolumeByPVCIdentity params params.[paramFilesystem])
      (fun r h' => forall sv, r = Ok (Some sv) -> found h' params.[paramFilesystem] (req_Name req) params sv)) as Hclaim.
    { unfold findSubvolumeByPVCIdentity. cbv zeta. destruct (_ || _); [by apply wp_ret|].
      apply wp_bind, wp_do; [done|]. intros [candidates [e|]] _; [by apply wp_ret|]. apply wp_ret. intros sv E.
      right. exists candidates. split; [auto with csi|].
      pose proof (unique_pvc_match_none params.[CSIPVCName] params.[CSIPVCNamespace] params.[paramFilesystem] candidates) as H.
      destruct (List.filter _ candidates) as [|x [|y l]]; [congruence|congruence|]. destruct H as (e & H & _). congruence. }
    destruct err as [e|]; [exact Hclaim|]. destruct subvol as [sv|]; [|exact Hclaim].
    apply wp_ret. intros sv' [= <-]. left. by left. }
  eapply wp_mono; [|exact Hfound]. intros [[sv|]|e] h' Hsv; [|by apply wp_ret..]. specialize (Hsv sv eq_refl).
  destruct (sv_Properties sv) as [props|] eqn:Ep; [|by apply wp_ret].
  destruct (IsVolumeAdoptable (Some props)) eqn:Ea; cbn [negb]; [|by apply wp_ret].
  apply IsVolumeAdoptable_spec in Ea.
  destruct (negb (String.eqb (Some props).[PropertyAdoptable] VolumeContextValueTrue) &&
            negb (String.eqb params.["adoptExisting"] VolumeContextValueTrue)) eqn:Em; [by apply wp_ret|].
  destruct (String.eqb_spec (Some props).[PropertyProtocol] protocol) as [Epr|]; cbn [negb]; [|by apply wp_ret].
  assert (adoptable_found (req_Name req) params protocol h') as HF.
  { exists sv. split; [done|]. unfold adoptable. rewrite Ep. split; [done|]. split; [done|].
    apply andb_false_iff in Em as [Em|Em]; bool_to_prop; auto. }
  apply wp_bind. eapply wp_mono; [|apply (wp_permitted P (adoptable_found (req_Name req) params protocol))].
  - intros [v|e] h'' H''; by apply wp_ret.
  - intros h0 o H0. by destruct o.
  - intros h0 t (sv0 & H0 & H1). exists sv0. split; [by apply found_app|done].
  - done.
  - exact HF.
Qed.

(** C20: only marked volumes are adopted.  In every execution of the adoption
    step, whatever the backend answers, nothing but lookups happens before the
    backend has found, by the volume's name or unambiguously by its claim, a
    managed volume of the requested protocol that is marked adoptable or whose
    storage class asks for adoption; and only then a volume is answered. *)
Theorem checkAndAdoptVolume_marked req params protocol tr out :
  exec (checkAndAdoptVolume s req params protocol) tr out ->
  (forall t1 o r t2, tr = t1 ++ cev o r :: t2 ->
     adopt_allow (req_Name req) params protocol t1 o) /\
  (forall v, out = Done (Ok (Some v)) -> adoptable_found (req_Name req) params protocol tr).
Proof.
  set (P := adopt_policy (req_Name req) params protocol). intros He.
  pose proof (env_trace_any P [] tr eq_refl) as Henv.
  pose proof (wp_checkAndAdoptVolume_policy req params protocol) as Hwp. split.
  - intros t1 o r t2 E. exact (wp_sound_allow P [] _ _ _ _ Hwp He Henv _ _ _ _ E).
  - intros v ->. exact (wp_sound_post P [] _ _ _ _ Hwp He Henv).
Qed.
End Adopt.

(** ** Concrete executions *)

#[local] Existing Instance doc_api.
#[local] Existing Instance field_templates.

(** A volume left behind by another cluster, marked for adoption, with the
    name of its claim. *)
Definition left_behind : world :=
  let w := created_world "nfs" "pvc-1" in
  set_subvols (set_Properties (Some (<["nasty-csi:adoptable" := "true"]>
      (<["nasty-csi:pvc_name" := "data"]> (<["nasty-csi:pvc_namespace" := "prod"]>
      (default ∅ (w_subvols w !! ("tank", "pvc-1") ≫= sv_Properties)))))) <$> w_subvols w) w.

Definition claim_params : gomap :=
  Some {[ "protocol" := "nfs"; "filesystem" := "tank"; "server" := "10.0.0.1"; CSIPVCName := "data"; CSIPVCNamespace := "prod" ]}.

Definition claim_request : CreateVolumeRequest :=
  mkCreateVolumeRequest "pvc-9" (Some (mkCapacityRange 1073741824 0)) mount_rw claim_params None.

Definition claim_search : M (res (option Subvolume)) := findSubvolumeByPVCIdentity claim_params "tank".
Definition claim_adoption : M (res (option Volume)) :=
  checkAndAdoptVolume demo_service claim_request claim_params "nfs".

Lemma findSubvolumeByPVCIdentity_unique_witness :
  exists candidates err,
    trace_of claim_search left_behind = [cev (FindSubvolumesByProperty PropertyPVCName "data" "tank") (candidates, err)].
Proof.
  pose proof (findSubvolumeByPVCIdentity_unique claim_params "tank" _ _ (play_exec claim_search left_behind)) as H.
  rewrite bool_decide_false in H by (vm_compute; intros [E|E]; discriminate E).
  destruct H as (candidates & err & H & _). exists candidates, err. exact H.
Defined.

Lemma checkAndAdoptVolume_marked_witness :
  adoptable_found "pvc-9" claim_params "nfs" (trace_of claim_adoption left_behind).
Proof.
  assert (match answer_of claim_adoption left_behind with Done (Ok (Some _)) => true | _ => false end = true) as Ha
    by (vm_compute; reflexivity).
  destruct (checkAndAdoptVolume_marked demo_service claim_request claim_params "nfs" _ _
              (play_exec claim_adoption left_behind)) as [_ H].
  destruct (answer_of claim_adoption left_behind) as [[[v|]|e]|]; try discriminate Ha.
  apply (H v). reflexivity.
Defined.
