(* ===== verification/NodeHost.v ===== *)
(** * The host of the node service

    What the node side of the driver uses of its host: files of /proc and
    /sys, commands, the clock; and the parts of packages strings and
    path/filepath that only the node side uses.  The time limits of commands
    are not modelled: a command may answer any output and error. *)

From S2P Require Import Prelude GoStrings Prog Errors Api Retry.

(** ** Effects *)

(** What the code asks of an [os.FileInfo]; devices have their number. *)
Inductive file_kind : Set :=
| Directory | BlockDevice (major minor : Z) | CharDevice | OtherFile.

Definition IsDir (k : file_kind) : bool := match k with Directory => true | _ => false end.

(** An opened file that is read to its end: the bytes, the error that ended the
    reading, and the error of [Close]. *)
Record opened : Type := mkOpened { o_content : string; o_readErr : option error; o_closeErr : option error }.

Record dirent : Type := mkDirent { de_Name : string; de_IsDir : bool }.

(** The unsigned 64-bit fields of [syscall.Statfs_t] and its signed block size. *)
Record Statfs_t : Type := mkStatfs {
  Bsize : Z; Blocks : Z; Bfree : Z; Bavail : Z; Files : Z; Ffree : Z
}.

(** How the race of [checkDirectoryReadable] ends: the goroutine's errors of
    [os.Open], [Readdirnames(1)] and [Close], its time limit, or the context. *)
Inductive dir_probe : Type :=
| OpenFailed (e : error)
| ReadDone (readErr closeErr : option error)
| ProbeTimeout
| ProbeCancelled (e : error).

Inductive nop : Type :=
(* package os and filepath.Glob *)
| Stat (path : string)
| Lstat (path : string)
| Readlink (path : string)
| EvalSymlinks (path : string)
| Getwd
| ReadDir (path : string)
| ReadFile (path : string)
| OpenRead (path : string)
| WriteFile (path data : string)
| Glob (pattern : string)
| MkdirAll (path : string)
(* os.OpenFile with O_CREATE and O_EXCL, and Close *)
| CreateExclusive (path : string)
| Remove (path : string)
| Symlink (oldname newname : string)
| CreateTemp (pattern : string)
| Chmod (path : string) (mode : Z)
| WriteString (path data : string)
| CloseFile (path : string)
| ReadDirOne (path : string)
| Statfs (path : string)
(* exec.CommandContext(ctx, name, args...).CombinedOutput() *)
| Command (name : string) (args : list string)
(* time.Now in nanoseconds, time.Sleep, ctx.Err() where a context is polled,
   and the select between time.After and ctx.Done *)
| Now
| NodeSleep (nanoseconds : Z)
| CtxDone
| SleepOrDone (nanoseconds : Z)
(* the backend client *)
| NodeGetSubvolume (filesystem name : string)
(* the per-volume locks, the connect semaphore and the test publications *)
| LockVolume (volumeID : string)
| UnlockVolume (volumeID : string)
| AcquireConnect
| ReleaseConnect
| LoadPublications (volumeID : string)
| AddPublication (volumeID target : string)
| RemovePublication (volumeID target : string)
(* package metrics and the node registry *)
| NodeMetric (name : string)
| RegisterNode (nodeID : string).

Definition nans (o : nop) : Type :=
  match o with
  | Stat _ => res_of error file_kind
  | Lstat _ => res_of error bool
  | Readlink _ | EvalSymlinks _ | Getwd | ReadFile _ | CreateTemp _ => res_of error string
  | ReadDir _ => res_of error (list dirent)
  | OpenRead _ => res_of error opened
  | Glob _ => res_of error (list string)
  | WriteFile _ _ | MkdirAll _ | CreateExclusive _ | Remove _ | Symlink _ _ | Chmod _ _ | WriteString _ _
  | CloseFile _ | CtxDone | SleepOrDone _ | LockVolume _ | AcquireConnect => option error
  | ReadDirOne _ => dir_probe
  | Statfs _ => res_of error Statfs_t
  | Command _ _ => (string * option error)%type
  | Now => Z
  | NodeGetSubvolume _ _ => ptr_err Subvolume
  | LoadPublications _ => option (list string)
  | NodeSleep _ | UnlockVolume _ | ReleaseConnect | AddPublication _ _ | RemovePublication _ _ | NodeMetric _
  | RegisterNode _ => unit
  end.

Definition nsig : signature := {| op := nop; ans := nans |}.

(** Programs of the node service. *)
Abbreviation Host := (prog nsig).
Definition host (o : nop) : Host (nans o) := call (Sg := nsig) o.

Abbreviation nhistory := (list (event nsig)).
Definition nev (o : nop) (r : nans o) : event nsig := ev (Sg := nsig) o r.

(** The error of [os.Stat], its answer unused. *)
Definition stat_err (path : string) : Host (option error) :=
  info <- host (Stat path);; Ret (match info with Ok _ => None | Err e => Some e end).

(** A host for witnesses, on which nothing is there and nothing works but what
    [answers] says; its clock advances in pauses. *)
Definition absent (o : nop) : nans o :=
  match o return nans o with
  | Stat _ | Lstat _ | Readlink _ | EvalSymlinks _ | Getwd | ReadFile _ | CreateTemp _ | ReadDir _ | OpenRead _ | Glob _ | Statfs _ =>
      Err (err_new os_ErrNotExist)
  | WriteFile _ _ | MkdirAll _ | CreateExclusive _ | Remove _ | Symlink _ _ | Chmod _ _ | WriteString _ _ | CloseFile _ =>
      Some (err_new os_ErrNotExist)
  | CtxDone | SleepOrDone _ | LockVolume _ | AcquireConnect => None
  | ReadDirOne _ => ProbeTimeout
  | Command _ _ => ("", Some (err_new os_ErrNotExist))
  | Now => 0
  | NodeGetSubvolume _ _ => (None, Some (err_new os_ErrNotExist))
  | LoadPublications _ => None
  | NodeSleep _ | UnlockVolume _ | ReleaseConnect | AddPublication _ _ | RemovePublication _ _ | NodeMetric _ | RegisterNode _ => tt
  end.

Definition fake_host (answers : forall o, option (nans o)) (o : nop) (clock : Z) : nans o * Z :=
  match o return nans o -> nans o * Z with
  | Now => fun _ => (clock, clock)
  | NodeSleep d => fun r => (r, clock + d)
  | SleepOrDone d => fun r => (r, clock + d)
  | _ => fun r => (r, clock)
  end (default (absent o) (answers o)).

Definition run_host {A : Type} (h : forall o : nop, Z -> nans o * Z) (p : Host A) : outcome A * Z * nhistory :=
  run (Sg := nsig) h p 0.

Lemma run_host_exec {A : Type} h (p : Host A) : exec p (run_host h p).2 (run_host h p).1.1.
Proof. apply run_exec. Qed.

(** The retry loop on the host. *)
#[export] Instance host_retry_env : RetryEnv nsig := {|
  ctx_err := host CtxDone; wait_or_done d := host (SleepOrDone d)
|}.

(** ** Strings *)

Definition TrimPrefix (s prefix : string) : string := if HasPrefix s prefix then str_drop (str_len prefix) s else s.

(** [strings.Replace(s, old, new, 1)] for a non-empty [old]. *)
Definition ReplaceFirst (s old new : string) : string :=
  match Index s old with
  | Some i => str_take i s +:+ new +:+ str_drop (i + str_len old) s
  | None => s
  end.

Definition newline : ascii := chr 10.

(** ** Paths *)

(** [filepath.Base] *)
Definition Base (path : string) : string :=
  if String.eqb path "" then "."
  else
    let path := TrimRight path "/" in
    if String.eqb path "" then "/"
    else match LastIndex path "/" with Some i => str_drop (i + 1) path | None => path end.

Fixpoint clean_components (rooted : bool) (components stack : list string) : list string :=
  match components with
  | [] => rev stack
  | c :: rest =>
      if String.eqb c "" || String.eqb c "." then clean_components rooted rest stack
      else if String.eqb c ".." then
        match stack with
        | top :: below =>
            if String.eqb top ".." then clean_components rooted rest (c :: stack) else clean_components rooted rest below
        | [] => clean_components rooted rest (if rooted then [] else [c])
        end
      else clean_components rooted rest (c :: stack)
  end.

(** [filepath.Clean]: lexical, it removes a component with the [..] after it. *)
Definition Clean (path : string) : string :=
  if String.eqb path "" then "."
  else
    let rooted := HasPrefix path "/" in
    let body := Join (clean_components rooted (Split path "/") []) "/" in
    if rooted then "/" +:+ body else if String.eqb body "" then "." else body.

(** [filepath.Join] of two elements. *)
Definition JoinPath (a b : string) : string :=
  if String.eqb a "" && String.eqb b "" then ""
  else if String.eqb a "" then Clean b else if String.eqb b "" then Clean a else Clean (a +:+ "/" +:+ b).

(** [filepath.Join] of a list of elements. *)
Fixpoint JoinPaths (elem : list string) : string :=
  match elem with
  | [] => ""
  | e :: rest => if String.eqb e "" then JoinPaths rest else Clean (Join elem "/")
  end.

Definition IsAbs (path : string) : bool := HasPrefix path "/".

(** [filepath.Abs] *)
Definition Abs (path : string) : Host (res string) :=
  if IsAbs path then Ret (Ok (Clean path)) else wd <-! host Getwd;; Ret (Ok (JoinPath wd path)).

(** [filepath.Dir] *)
Definition Dir (path : string) : string :=
  Clean (match LastIndex path "/" with Some i => str_take (S i) path | None => "" end).

(** The components of a cleaned absolute path. *)
Definition components (path : string) : list string := filter (fun c => c <> "") (Split path "/").

Fixpoint drop_common (a b : list string) : list string * list string :=
  match a, b with
  | x :: a', y :: b' => if String.eqb x y then drop_common a' b' else (a, b)
  | _, _ => (a, b)
  end.

(** [filepath.Rel] of two absolute paths, where it cannot fail. *)
Definition Rel (base targ : string) : string :=
  let '(up, down) := drop_common (components (Clean base)) (components (Clean targ)) in
  match up, down with
  | [], [] => "."
  | _, _ => Join (map (fun _ => "..") up ++ down) "/"
  end.

(** [strings.Cut] *)
Definition Cut (s sep : string) : option (string * string) :=
  match Index s sep with
  | Some i => Some (str_take i s, str_drop (i + str_len sep) s)
  | None => None
  end.

(** [strings.TrimSuffix] *)
Definition TrimSuffix (s suffix : string) : string :=
  if HasSuffix s suffix then str_take (str_len s - str_len suffix) s else s.

Example path_more_examples :
  Dir "/a/b/c" = "/a/b" /\ Dir "/a" = "/" /\ Rel "/a" "/a/b/c" = "b/c" /\ Rel "/a/b" "/a" = ".." /\ Rel "/" "/" = "." /\
  Cut "a - b - c" " - " = Some ("a", "b - c") /\ TrimSuffix "/a/" "/" = "/a".
Proof. vm_compute. repeat split. Qed.

Example path_examples :
  Base "/dev/sda" = "sda" /\ Base "/sys/class/nvme/nvme0/" = "nvme0" /\ Clean "/a/./b//../c/" = "/a/c" /\
  Clean "../x/.." = ".." /\ Fields " a  b c " = ["a"; "b"; "c"].
Proof. vm_compute. repeat split. Qed.

(** ** iscsiadm *)

(** [iscsiadmCmd(ctx, args...).CombinedOutput()]: through nsenter where the
    mount namespace of the host is visible. *)
Definition iscsiadm (args : list string) : Host (string * option error) :=
  info <- host (Stat "/proc/1/ns/mnt");;
  match info with
  | Ok _ => host (Command "nsenter" (["--mount=/proc/1/ns/mnt"; "--ipc=/proc/1/ns/ipc"; "--"; "iscsiadm"] ++ args))
  | Err _ => host (Command "iscsiadm" args)
  end.

(** The arguments an operation passes to iscsiadm. *)
Definition iscsiadm_args (o : nop) : option (list string) :=
  match o with
  | Command name args =>
      if String.eqb name "iscsiadm" then Some args
      else if String.eqb name "nsenter" then
        match args with
        | _ :: _ :: _ :: tool :: rest => if String.eqb tool "iscsiadm" then Some rest else None
        | _ => None
        end
      else None
  | _ => None
  end.

(** ** Proof rules *)

Lemma wp_host P h (o : nop) (post : nans o -> nhistory -> Prop) :
  allow (Sg := nsig) P h o -> (forall r, env (Sg := nsig) P h o r -> post r (h ++ [nev o r])) -> wp P h (host o) post.
Proof. by split. Qed.

(** ** What is assumed of the host

    [ctx.Err()] is context.Canceled or context.DeadlineExceeded.
    [time.Sleep] and [time.After] pause for at least their argument and the
    monotonic clock never runs back: the least that the next reading can be. *)

Definition clock_step (floor : option Z) (e : event nsig) : option Z :=
  match e with
  | existT o r =>
      match o return nans o -> option Z with
      | Now => fun now => Some now
      | NodeSleep d => fun _ => (fun f => f + Z.max 0 d) <$> floor
      | SleepOrDone d => fun r => match r with None => (fun f => f + Z.max 0 d) <$> floor | Some _ => floor end
      | _ => fun _ => floor
      end r
  end.
Definition clock_floor (h : nhistory) : option Z := foldl clock_step None h.

Definition context_error (r : option error) : Prop :=
  match r with Some e => e = err_new context_Canceled \/ e = err_new context_DeadlineExceeded | None => True end.

Definition host_env (h : nhistory) (o : nop) : nans o -> Prop :=
  match o return nans o -> Prop with
  | Now => fun now => match clock_floor h with Some f => f <= now | None => True end
  | CtxDone => fun r => context_error r
  | _ => fun _ => True
  end.

Lemma clock_floor_snoc h e : clock_floor (h ++ [e]) = clock_step (clock_floor h) e.
Proof. apply foldl_snoc. Qed.

(** The floor of the clock only rises. *)
Definition floor_le (a b : option Z) : Prop :=
  match a, b with Some x, Some y => x <= y | Some _, None => False | None, _ => True end.

#[export] Instance floor_le_preorder : PreOrder floor_le.
Proof. split; [intros [x|]; simpl; lia || done|]. intros [x|] [y|] [z|]; simpl; lia || done. Qed.

Lemma clock_step_le h (o : nop) (r : nans o) : host_env h o r -> floor_le (clock_floor h) (clock_step (clock_floor h) (nev o r)).
Proof. unfold host_env. destruct (clock_floor h) as [f|]; [|done]. destruct o; simpl; try lia. destruct r; simpl; lia. Qed.

Lemma wp_clock {A : Type} (P : policy nsig) h (p : Host A) Q :
  (forall h (o : nop) (r : nans o), env P h o r -> host_env h o r) ->
  wp P h p Q -> wp P h p (fun a h' => Q a h' /\ floor_le (clock_floor h) (clock_floor h')).
Proof.
  intros HP. revert h. induction p as [a| |o k IH]; intros h; [|done|].
  - intros H. by apply wp_ret.
  - intros [Ha Hk]. split; [done|]. intros r Hr. eapply wp_mono; [|exact (IH r _ (Hk r Hr))].
    intros a h' [HQ Hf]. split; [done|]. apply HP in Hr. etransitivity; [|exact Hf].
    rewrite clock_floor_snoc. by apply clock_step_le.
Qed.

(** The policy that allows everything, and the traces whose answers are as assumed. *)
Definition host_policy : policy nsig := {| allow _ _ := True; env := host_env; crash := False |}.
Definition sane_host (tr : nhistory) : Prop := env_trace host_policy [] tr.

Lemma sane_host_trace (P : policy nsig) tr : env P = host_env -> sane_host tr -> env_trace P [] tr.
Proof.
  intros E. unfold sane_host. generalize ([] : nhistory). induction tr as [|[o r] tr IH]; intros h; [done|].
  intros [Hr Ht]. split; [by rewrite E|by apply IH].
Qed.

