(* ===== verification/MountInfo.v ===== *)
(** * Mount information (src/pkg/mount)

    The parser of the kernel's mountinfo table, the questions the node asks of
    it (is a path mounted, is a device mounted, which other mounts share a
    source), and unmounting.  Files: mountinfo.go, mount_refs_linux.go,
    mount_linux.go, mount.go. *)

From S2P Require Import Prelude GoStrings Prog Errors Api Retry NodeHost.

(** ** bufio.Scanner over lines, with a buffer of at most one MiB *)

Definition maxToken : Z := 1024 * 1024.

Definition drop_cr (line : string) : string := TrimSuffix line (String (chr 13) "").

(** The lines before the first that does not fit, and whether there is one. *)
Fixpoint fitting_lines (l : list string) : list string * bool :=
  match l with
  | [] => ([], true)
  | line :: rest =>
      if Z.of_nat (str_len line) <? maxToken then
        let '(ls, fits) := fitting_lines rest in (drop_cr line :: ls, fits)
      else ([], false)
  end.

(** The newline at the end of the input starts no further line. *)
Definition raw_lines (content : string) : list string :=
  let l := Split content newline in
  match last l with Some "" => removelast l | _ => l end.

(** What [Scan] delivers, and [Err] after it. *)
Definition scan_lines (file : opened) : list string * option error :=
  let '(ls, fits) := fitting_lines (raw_lines (o_content file)) in
  (ls, if fits : bool then o_readErr file else Some (err_new bufio_ErrTooLong)).

(** ** mountinfo.go *)

Definition malformed (msg : string) : error :=
  Errorf (sentinel_text errMalformedMountInfo +:+ msg) [err_new errMalformedMountInfo].

Definition octal_digit (c : ascii) : option nat :=
  let n := nat_of_ascii c in if in_range 48 55 n then Some (n - 48)%nat else None.

(** [strconv.ParseUint(s, 8, 8)] of three bytes. *)
Definition parse_octal3 (a b c : ascii) : option nat :=
  match octal_digit a, octal_digit b, octal_digit c with
  | Some x, Some y, Some z => let v := (64 * x + 8 * y + z)%nat in if (v <? 256)%nat then Some v else None
  | _, _, _ => None
  end.

(** The characters the kernel escapes: blank, tab, newline, backslash. *)
Definition escaped_byte (v : nat) : bool :=
  (v =? 32)%nat || (v =? 9)%nat || (v =? 10)%nat || (v =? 92)%nat.

Fixpoint decodeMountInfoPath (value : string) : res string :=
  match value with
  | EmptyString => Ok ""
  | String c rest =>
      if negb (Ascii.eqb c "\") then res_map (String c) (decodeMountInfoPath rest)
      else
        match rest with
        | String x (String y (String z rest)) =>
            match parse_octal3 x y z with
            | Some v => if escaped_byte v then res_map (String (chr v)) (decodeMountInfoPath rest)
                        else Err (malformed ": invalid mount escape")
            | None => Err (malformed ": invalid mount escape")
            end
        | _ => Err (malformed ": truncated mount escape")
        end
  end.

Definition valid_number (s : string) : bool := match ParseUint s 32 with Some _ => true | None => false end.

(** The mount point that a line names. *)
Definition line_mount_point (line : string) : res string :=
  match Cut line " - " with
  | None => Err (err_new errMalformedMountInfo)
  | Some (before, after) =>
      match Fields before with
      | _ :: _ :: device :: _ :: target :: _ :: _ =>
          if (length (Fields after) <? 3)%nat then Err (err_new errMalformedMountInfo)
          else
            match Split device ":" with
            | [major; minor] =>
                if negb (valid_number major && valid_number minor) then Err (err_new errMalformedMountInfo)
                else
                  match decodeMountInfoPath target with
                  | Ok point => if IsAbs point then Ok point else Err (malformed (": invalid mount point " +:+ Quote target))
                  | Err _ => Err (malformed (": invalid mount point " +:+ Quote target))
                  end
            | _ => Err (err_new errMalformedMountInfo)
            end
      | _ => Err (err_new errMalformedMountInfo)
      end
  end.

Fixpoint mounted_in_lines (target : string) (l : list string) (mounted : bool) : res bool :=
  match l with
  | [] => Ok mounted
  | line :: rest =>
      point <-? line_mount_point line;;
      mounted_in_lines target rest (if String.eqb (Clean point) target then true else mounted)
  end.

(** The whole table is parsed; [target] is absolute and clean. *)
Definition path_in_table (target : string) (file : opened) : res bool :=
  let '(ls, err) := scan_lines file in
  mounted <-? mounted_in_lines target ls false;;
  match err with
  | Some e => Err (Errorf ("failed to read mount information: " +:+ err_text e) [e])
  | None => match ls with [] => Err (malformed ": empty table") | _ => Ok mounted end
  end.

Definition isPathInMountInfo (target : string) (file : opened) : Host (res bool) :=
  if String.eqb target "" then Ret (Err (malformed ": empty mount target"))
  else target <-! Abs target;; Ret (path_in_table target file).

(** ** mount_linux.go *)

Definition close_failed (e : error) : error := Errorf ("failed to close mount information: " +:+ err_text e) [e].

Definition IsMounted (targetPath : string) : Host (res bool) :=
  ctx <- host CtxDone;;
  match ctx with
  | Some e => Ret (Err e)
  | None =>
      file <- host (OpenRead "/proc/self/mountinfo");;
      match file with
      | Err e => Ret (Err (Errorf ("failed to open mount information: " +:+ err_text e) [e]))
      | Ok file =>
          mounted <-! isPathInMountInfo targetPath file;;
          match o_closeErr file with
          | Some e => Ret (Err (close_failed e))
          | None =>
              ctx <- host CtxDone;;
              match ctx with
              | Some e => Ret (Err e)
              | None => Ret (Ok mounted)
              end
          end
      end
  end.

Definition IsDeviceMounted (targetPath : string) : Host (res bool) := IsMounted targetPath.

(** The device number that a line names. *)
Definition line_device (line : string) : res (Z * Z) :=
  match Index line " - " with
  | None => Err (malformed ": missing separator")
  | Some separator =>
      match Fields (str_take separator line) with
      | _ :: _ :: device :: _ :: _ :: _ :: _ =>
          match Split device ":" with
          | [major; minor] =>
              match ParseUint major 32, ParseUint minor 32 with
              | Some major, Some minor => Ok (major, minor)
              | _, _ => Err (malformed (": invalid device number " +:+ Quote device))
              end
          | _ => Err (malformed (": invalid device number " +:+ Quote device))
          end
      | _ => Err (malformed ": missing mount fields")
      end
  end.

(** [Ok None]: no line names the device. *)
Fixpoint device_in_lines (deviceMajor deviceMinor : Z) (l : list string) : res (option unit) :=
  match l with
  | [] => Ok None
  | line :: rest =>
      number <-? line_device line;;
      if (number.1 =? deviceMajor) && (number.2 =? deviceMinor) then Ok (Some tt)
      else device_in_lines deviceMajor deviceMinor rest
  end.

Definition isDeviceInMountInfo (deviceMajor deviceMinor : Z) (file : opened) : res bool :=
  let '(ls, err) := scan_lines file in
  found <-? device_in_lines deviceMajor deviceMinor ls;;
  match found with
  | Some _ => Ok true
  | None =>
      match err with
      | Some e => Err (Errorf ("failed to scan host mount information: " +:+ err_text e) [e])
      | None => Ok false
      end
  end.

Definition IsSourceMounted (sourcePath : string) : Host (res bool) :=
  ctx <- host CtxDone;;
  match ctx with
  | Some e => Ret (Err e)
  | None =>
      info <- host (Stat sourcePath);;
      match info with
      | Err e => Ret (Err (Errorf ("failed to stat source device: " +:+ err_text e) [e]))
      | Ok (BlockDevice major minor) =>
          file <- host (OpenRead "/proc/1/mountinfo");;
          match file with
          | Err e => Ret (Err (Errorf ("failed to read host mount information: " +:+ err_text e) [e]))
          | Ok file =>
              match isDeviceInMountInfo major minor file with
              | Err e => Ret (Err e)
              | Ok mounted =>
                  match o_closeErr file with
                  | Some e => Ret (Err (Errorf ("failed to close host mount information: " +:+ err_text e) [e]))
                  | None => Ret (Ok mounted)
                  end
              end
          end
      | Ok _ => Ret (Err (malformed (": " +:+ sourcePath +:+ " is not a block device")))
      end
  end.

(** A normal unmount, and a lazy one where it fails. *)
Definition Unmount (targetPath : string) : Host (option error) :=
  let! (output, normalErr) := host (Command "umount" [targetPath]) in
  match normalErr with
  | None => Ret None
  | Some normalErr =>
      let! (lazyOutput, lazyErr) := host (Command "umount" ["-l"; targetPath]) in
      match lazyErr with
      | Some e => Ret (Some (Errorf ("failed to unmount: " +:+ err_text e +:+ " (normal unmount: " +:+
                                     err_text normalErr +:+ ", output: " +:+ lazyOutput +:+ ")") [e]))
      | None => Ret None
      end
  end.

(** ** mount.go *)

Definition JoinMountOptions (options : list string) : string :=
  match options with
  | [] => ""
  | first :: rest => foldl (fun builder option => builder +:+ "," +:+ option) first rest
  end.

(** ** mount_refs_linux.go *)

Record entry : Type := mkEntry { e_device : string; e_root : string; e_target : string }.

(** The replacer of the four escapes. *)
Fixpoint unescape (s : string) : string :=
  match s with
  | EmptyString => EmptyString
  | String c rest =>
      match rest with
      | String x (String y (String z rest')) =>
          if Ascii.eqb c "\" then
            match parse_octal3 x y z with
            | Some v => if escaped_byte v then String (chr v) (unescape rest') else String c (unescape rest)
            | None => String c (unescape rest)
            end
          else String c (unescape rest)
      | _ => String c (unescape rest)
      end
  end.

Definition parse_entry (line : string) : res entry :=
  match Cut line " - " with
  | None => Err (err_new errMalformedMountInfo)
  | Some (before, after) =>
      match Fields after, Fields before with
      | fstype :: _ :: _ :: _, _ :: _ :: device :: root :: target :: _ :: _ =>
          match Split device ":" with
          | [major; minor] =>
              if negb (valid_number major && valid_number minor) then Err (err_new errMalformedMountInfo)
              else
                let e := mkEntry device (unescape root) (unescape target) in
                if negb (IsAbs (e_target e)) || (negb (IsAbs (e_root e)) && negb (String.eqb fstype "nsfs"))
                then Err (err_new errMalformedMountInfo)
                else Ok e
          | _ => Err (err_new errMalformedMountInfo)
          end
      | _, _ => Err (err_new errMalformedMountInfo)
      end
  end.

Fixpoint parse_entries (l : list string) : res (list entry) :=
  match l with
  | [] => Ok []
  | line :: rest => e <-? parse_entry line;; es <-? parse_entries rest;; Ok (e :: es)
  end.

(** Whether a mount contains the source, and the deepest, last one that does. *)
Definition contains_source (source : string) (e : entry) : bool :=
  String.eqb source (e_target e) || HasPrefix source (TrimSuffix (e_target e) "/" +:+ "/").

Definition containing_step (source : string) (containing : option entry) (e : entry) : option entry :=
  if contains_source source e then
    match containing with
    | None => Some e
    | Some c => if (str_len (e_target c) <=? str_len (e_target e))%nat then Some e else containing
    end
  else containing.

Definition same_mount (source root device : string) (e : entry) : bool :=
  String.eqb (e_device e) device && String.eqb (e_root e) root && negb (String.eqb (e_target e) source).

Definition bindMountRefs (source : string) (file : opened) : res (list string) :=
  let '(ls, err) := scan_lines file in
  entries <-? parse_entries ls;;
  match err with
  | Some e => Err (Errorf ("failed to scan host mount information: " +:+ err_text e) [e])
  | None =>
      match foldl (containing_step source) None entries with
      | None => Err (malformed ": no mount contains staged source")
      | Some c =>
          if negb (IsAbs (e_root c)) then Err (malformed ": staged source is a namespace handle, not a storage volume")
          else
            let root := JoinPath (e_root c) (Rel (e_target c) source) in
            Ok (map e_target (List.filter (same_mount source root (e_device c)) entries))
      end
  end.

Definition GetBindMountRefs (sourcePath : string) : Host (res (list string)) :=
  ctx <- host CtxDone;;
  match ctx with
  | Some e => Ret (Err e)
  | None =>
      source <- host (EvalSymlinks sourcePath);;
      match source with
      | Err e => Ret (Err (Errorf ("failed to resolve staged source: " +:+ err_text e) [e]))
      | Ok source =>
          file <- host (OpenRead "/proc/1/mountinfo");;
          match file with
          | Err e => Ret (Err (Errorf ("failed to read host mount information: " +:+ err_text e) [e]))
          | Ok file =>
              match bindMountRefs (Clean source) file with
              | Err e => Ret (Err e)
              | Ok refs =>
                  match o_closeErr file with
                  | Some e => Ret (Err (Errorf ("failed to close host mount information: " +:+ err_text e) [e]))
                  | None => Ret (Ok refs)
                  end
              end
          end
      end
  end.

(** The tables of mountinfo_test.go and mount_refs_linux_test.go in small. *)
Definition demo_table : string :=
  "29 1 0:26 / / rw,relatime shared:1 - ext4 /dev/root rw" +:+ String newline "" +:+
  "36 29 8:16 / /var/lib/kubelet/stage\040a rw,relatime - ext4 /dev/sdb rw" +:+ String newline "" +:+
  "37 29 8:16 / /pods/b rw,relatime shared:3 master:1 - ext4 /dev/sdb rw" +:+ String newline "".

Definition demo_file (content : string) : opened := mkOpened content None None.

Example table_examples :
  path_in_table "/var/lib/kubelet/stage a" (demo_file demo_table) = Ok true /\
  path_in_table "/var/lib/kubelet" (demo_file demo_table) = Ok false /\
  isDeviceInMountInfo 8 16 (demo_file demo_table) = Ok true /\
  bindMountRefs "/var/lib/kubelet/stage a" (demo_file demo_table) = Ok ["/pods/b"] /\
  is_ok (path_in_table "/" (demo_file "")) = false /\
  JoinMountOptions ["bind"; "ro"] = "bind,ro".
Proof. vm_compute. repeat split. Qed.
