(* ===== verification/MountTheorems.v ===== *)
(** * The mount table as the kernel writes it

    What the three parsers of [MountInfo] read from a mountinfo table in the
    kernel's format: the escapes of a path, a line, and the answers to the
    questions that the node asks of a table. *)

From S2P Require Import Prelude GoStrings Prog Errors Api Names Comment Retry NodeHost MountInfo.

#[local] Set Default Proof Using "Type*".

(** ** Words *)

Definition no_space (c : ascii) : bool := negb (str_mem c ascii_spaces).
Definition word (w : string) : Prop := w <> "" /\ spaceless w = true.

(** The words with one blank before each. *)
Fixpoint spaced (ws : list string) : string :=
  match ws with [] => "" | w :: rest => String " " (w +:+ spaced rest) end.
Definition words (ws : list string) : string := match ws with [] => "" | w :: rest => w +:+ spaced rest end.

Lemma no_space_blank c : no_space c = true -> Ascii.eqb " " c = false /\ c <> newline /\ c <> chr 13.
Proof.
  unfold no_space. intros H. split_and!; [apply not_true_iff_false; intros <-%Ascii.eqb_eq| intros -> |intros ->]; done.
Qed.

Lemma word_no_space w : word w -> str_forall no_space w = true.
Proof. intros [_ Hw]. by apply spaceless_no_space. Qed.

Lemma fields_word w s cur :
  spaceless w = true -> ascii_start s = true -> fields_from (w +:+ s) cur 0 = fields_from s (cur +:+ w) 0.
Proof.
  revert cur. induction w as [|c w IH]; intros cur Hw Hs; [by rewrite str_app_nil_r|]. rewrite str_cons_app. cbn [fields_from].
  rewrite (spaceless_head c w s Hw Hs). cbn [spaceless] in Hw. apply andb_true_iff in Hw as [_ Hw].
  rewrite (IH _ Hw Hs). by rewrite str_app_assoc.
Qed.

Lemma spaced_start ws : ascii_start (spaced ws) = true.
Proof. by destruct ws. Qed.

Lemma fields_spaced ws cur :
  Forall word ws -> fields_from (spaced ws) cur 0 = (if String.eqb cur "" then [] else [cur]) ++ ws.
Proof.
  intros H. revert cur. induction H as [|w ws [Hn Hw] Hws IH]; intros cur; cbn [spaced]; [by rewrite app_nil_r|].
  cbn [fields_from]. replace (space_width (String " " (w +:+ spaced ws))) with 1%nat by reflexivity. f_equal.
  rewrite (fields_word _ _ _ Hw (spaced_start ws)), str_nil_app, IH. by apply String.eqb_neq in Hn as ->.
Qed.

Lemma Fields_words ws : Forall word ws -> Fields (words ws) = ws.
Proof.
  intros H. destruct H as [|w ws [Hn Hw] Hws]; [done|]. unfold Fields, words.
  rewrite (fields_word _ _ _ Hw (spaced_start ws)), fields_spaced, str_nil_app by done. by apply String.eqb_neq in Hn as ->.
Qed.

(** ** The separator *)

Definition separator : string := " - ".

Lemma prefix_blank_word c w s :
  word (String c w) -> String c w <> "-" -> (exists s', s = String " " s') ->
  String.prefix separator (String " " (String c w +:+ s)) = false.
Proof.
  intros Hw%word_no_space Hd [s' ->]. cbn [str_forall] in Hw. apply andb_true_iff in Hw as [_ Hw].
  apply not_true_iff_false. intros Hp. apply HasPrefix_split in Hp as [t Ht]. unfold separator in Ht. rewrite !str_cons_app in Ht.
  injection Ht as -> Ht. destruct w as [|d w]; [done|]. rewrite str_cons_app in Ht. injection Ht as -> _. by cbn in Hw.
Qed.

Lemma Index_word w s : str_forall no_space w = true -> Index (w +:+ s) separator = option_map (Nat.add (str_len w)) (Index s separator).
Proof.
  induction w as [|c w IH]; intros H; [rewrite str_nil_app; by destruct (Index s separator)|]. cbn [str_forall] in H. apply andb_true_iff in H as [Hc Hw].
  rewrite str_cons_app. unfold Index; fold Index. replace (String.prefix separator _) with false.
  - rewrite (IH Hw). by destruct (Index s separator).
  - symmetry. apply not_true_iff_false. intros Hp. apply HasPrefix_split in Hp as [t Ht]. unfold separator in Ht.
    rewrite str_cons_app in Ht. injection Ht as -> _. by cbn in Hc.
Qed.

Lemma Index_spaced ws s :
  Forall (fun w => word w /\ w <> "-") ws -> Index (spaced ws +:+ separator +:+ s) separator = Some (str_len (spaced ws)).
Proof.
  intros H. induction H as [|w ws [Hw Hd] Hws IH]; [by destruct s|]. cbn [spaced]. rewrite str_cons_app, str_app_assoc.
  destruct w as [|c w]; [by destruct Hw|]. unfold Index; fold Index. rewrite prefix_blank_word; [|done..|].
  - rewrite Index_word by (by apply word_no_space). rewrite IH. cbn [option_map]. f_equal. cbn. by rewrite str_app_length.
  - destruct ws; cbn [spaced]; by eexists.
Qed.

Lemma Cut_words ws s :
  ws <> [] -> Forall (fun w => word w /\ w <> "-") ws ->
  Index (words ws +:+ separator +:+ s) separator = Some (str_len (words ws)) /\
  Cut (words ws +:+ separator +:+ s) separator = Some (words ws, s).
Proof.
  intros Hne H. assert (Index (words ws +:+ separator +:+ s) separator = Some (str_len (words ws))) as E.
  { destruct H as [|w ws [Hw%word_no_space Hd] Hws]; [done|]. unfold words. rewrite str_app_assoc, (Index_word _ _ Hw), Index_spaced by done.
    cbn [option_map]. by rewrite str_app_length. }
  split; [exact E|]. unfold Cut. rewrite E, str_take_app. do 2 f_equal.
  rewrite <- str_app_assoc, <- str_app_length. apply str_drop_app.
Qed.

(** ** The escapes of the kernel *)

(** show_mountinfo escapes blank, tab, newline and the backslash in octal. *)
Definition kernel_escapes : string := String " " (String (chr 9) (String newline (String "\" ""))).

Fixpoint mangle (path : string) : string :=
  match path with
  | EmptyString => EmptyString
  | String c rest =>
      if Ascii.eqb c " " then "\040" +:+ mangle rest
      else if Ascii.eqb c (chr 9) then "\011" +:+ mangle rest
      else if Ascii.eqb c newline then "\012" +:+ mangle rest
      else if Ascii.eqb c "\" then "\134" +:+ mangle rest
      else String c (mangle rest)
  end.

Lemma decode_escape x y z v s :
  parse_octal3 x y z = Some v -> escaped_byte v = true ->
  decodeMountInfoPath (String "\" (String x (String y (String z s)))) = res_map (String (chr v)) (decodeMountInfoPath s).
Proof. intros Hv Hb. cbn. by rewrite Hv, Hb. Qed.

Lemma unescape_escape x y z v s :
  parse_octal3 x y z = Some v -> escaped_byte v = true ->
  unescape (String "\" (String x (String y (String z s)))) = String (chr v) (unescape s).
Proof. intros Hv Hb. cbn. by rewrite Hv, Hb. Qed.

Lemma unescape_plain c s : c <> "\"%char -> unescape (String c s) = String c (unescape s).
Proof.
  intros Hc%Ascii.eqb_neq. cbn [unescape]. destruct s as [|x [|y [|z s]]]; [done..|]. by rewrite Hc.
Qed.

(** The character as it is, or its escape. *)
Lemma mangle_cons c path :
  c <> "\"%char /\ str_mem c kernel_escapes = false /\ mangle (String c path) = String c (mangle path) \/
  exists x y z v, parse_octal3 x y z = Some v /\ escaped_byte v = true /\ c = chr v /\
    str_forall plain_ascii (String "\" (String x (String y (String z "")))) = true /\
    mangle (String c path) = String "\" (String x (String y (String z (mangle path)))).
Proof.
  cbn [mangle]. destruct (Ascii.eqb_spec c " ") as [->|N1]; [right; exists "0"%char, "4"%char, "0"%char, 32%nat; by repeat split|].
  destruct (Ascii.eqb_spec c (chr 9)) as [->|N2]; [right; exists "0"%char, "1"%char, "1"%char, 9%nat; by repeat split|].
  destruct (Ascii.eqb_spec c newline) as [->|N3]; [right; exists "0"%char, "1"%char, "2"%char, 10%nat; by repeat split|].
  destruct (Ascii.eqb_spec c "\") as [->|N4]; [right; exists "1"%char, "3"%char, "4"%char, 92%nat; by repeat split|].
  left. split_and!; [done| |done]. unfold kernel_escapes. cbn [str_mem].
  apply Ascii.eqb_neq in N1, N2, N3, N4. by rewrite N1, N2, N3, N4.
Qed.

Lemma decode_mangle path : decodeMountInfoPath (mangle path) = Ok path.
Proof.
  induction path as [|c path IH]; [done|].
  destruct (mangle_cons c path) as [(Hc & _ & ->)|(x & y & z & v & Hv & Hb & -> & _ & ->)].
  { apply Ascii.eqb_neq in Hc; cbn [decodeMountInfoPath]; by rewrite Hc, IH. }
  by rewrite (decode_escape _ _ _ _ _ Hv Hb), IH.
Qed.

(** The strict and the lenient reading agree where the strict one reads. *)
Lemma decode_unescape value path : decodeMountInfoPath value = Ok path -> unescape value = path.
Proof.
  remember (str_len value) as n eqn:En. revert value path En.
  induction (lt_wf n) as [n _ IH]. intros [|c value] path En H; [by injection H as <-|].
  destruct (Ascii.eqb_spec c "\") as [->|Hc].
  - destruct value as [|x [|y [|z value]]]; [done..|]. cbn [decodeMountInfoPath Ascii.eqb] in H. cbn in H.
    destruct (parse_octal3 x y z) as [v|] eqn:Hv; [|done]. destruct (escaped_byte v) eqn:Hb; [|done].
    rewrite (unescape_escape _ _ _ _ _ Hv Hb). destruct (decodeMountInfoPath value) as [p|] eqn:Ep; [|done]. injection H as <-.
    f_equal. eapply IH; [|reflexivity|exact Ep]. subst n. unfold str_len. simpl. lia.
  - rewrite unescape_plain by done. apply Ascii.eqb_neq in Hc. cbn [decodeMountInfoPath] in H. rewrite Hc in H. cbn [negb] in H.
    destruct (decodeMountInfoPath value) as [p|] eqn:Ep; [|done]. injection H as <-.
    f_equal. eapply IH; [|reflexivity|exact Ep]. subst n. unfold str_len. simpl. lia.
Qed.

(** C36: a path survives the mount table. Both readers of an escaped path, the strict one
    of the mount check and the lenient one of the publication check, give back every path
    that the kernel escaped; and they agree on every text that the strict one accepts. *)
Theorem mount_path_roundtrip :
  (forall path, decodeMountInfoPath (mangle path) = Ok path /\ unescape (mangle path) = path) /\
  (forall value path, decodeMountInfoPath value = Ok path -> unescape value = path).
Proof.
  split; [|exact decode_unescape]. intros path. split; [apply decode_mangle|apply decode_unescape, decode_mangle].
Qed.

(** ** Lines *)

(** A mount as the kernel knows it. *)
Record kernel_mount : Type := mkKernelMount {
  km_ids : string * string; km_major : Z; km_minor : Z; km_root : string; km_point : string;
  km_options : string; km_tags : list string; km_fstype : string; km_source : string; km_super : list string
}.

Definition device_number (m : kernel_mount) : string := FormatInt (km_major m) +:+ ":" +:+ FormatInt (km_minor m).

Definition mount_words (m : kernel_mount) : list string :=
  [(km_ids m).1; (km_ids m).2; device_number m; mangle (km_root m); mangle (km_point m); km_options m] ++ km_tags m.
Definition kernel_line (m : kernel_mount) : string :=
  words (mount_words m) +:+ separator +:+ words (km_fstype m :: km_source m :: km_super m).

(** No white space but blanks, tabs and newlines, which the kernel escapes. *)
Fixpoint escapable (path : string) : bool :=
  match path with
  | EmptyString => true
  | String c rest => ((space_width path =? 0)%nat || str_mem c kernel_escapes) && escapable rest
  end.
Definition plain_path (path : string) : Prop := path <> "" /\ escapable path = true.

Definition separate (w : string) : Prop := word w /\ w <> "-".

Record well_formed (m : kernel_mount) : Prop := {
  wf_ids : separate (km_ids m).1 /\ separate (km_ids m).2;
  wf_major : 0 <= km_major m < 2 ^ 32;
  wf_minor : 0 <= km_minor m < 2 ^ 32;
  wf_root : plain_path (km_root m) /\ km_root m <> "-" /\ (IsAbs (km_root m) = true \/ km_fstype m = "nsfs");
  wf_point : plain_path (km_point m) /\ IsAbs (km_point m) = true;
  wf_options : separate (km_options m) /\ Forall separate (km_tags m);
  wf_after : word (km_fstype m) /\ word (km_source m) /\ km_super m <> [] /\ Forall word (km_super m);
  wf_fits : Z.of_nat (str_len (kernel_line m)) < maxToken
}.

(** The head of an escaped path: the character itself, or a backslash. *)
Lemma mangle_head path :
  ascii_start (mangle path) = true \/ exists c rest, path = String c rest /\ mangle path = String c (mangle rest).
Proof.
  destruct path as [|c path]; [by left|]. destruct (mangle_cons c path) as [(_ & _ & E)|(x & y & z & v & _ & _ & _ & _ & ->)]; [|by left].
  right. by exists c, path.
Qed.

Lemma mangle_width c path : str_mem c ascii_spaces = false ->
  space_width (String c path) = 0%nat -> space_width (String c (mangle path)) = 0%nat.
Proof.
  unfold space_width. intros ->. destruct (mangle_head path) as [Ha|(d & rest & -> & ->)].
  { intros _. destruct (mangle path) as [|d s]; [done|]. cbn [ascii_start] in Ha. rewrite space2_second by done. destruct s; [done|]. by rewrite space3_second. }
  destruct (space2 c d); [done|]. destruct (mangle_head rest) as [Ha|(e & rest' & -> & ->)]; [|done].
  intros _. destruct (mangle rest) as [|e s]; [done|]. by rewrite space3_third.
Qed.

Lemma mangle_spaceless path : escapable path = true -> spaceless (mangle path) = true.
Proof.
  induction path as [|c path IH]; [done|]. cbn [escapable]. intros [Hc Hp]%andb_true_iff.
  destruct (mangle_cons c path) as [(_ & He & ->)|(x & y & z & v & _ & _ & _ & Hs & ->)].
  - rewrite He, orb_false_r in Hc. apply Nat.eqb_eq in Hc. cbn [spaceless]. rewrite (IH Hp), andb_true_r. apply Nat.eqb_eq.
    apply mangle_width; [|done]. unfold space_width in Hc. by destruct (str_mem c ascii_spaces).
  - change (String "\" (String x (String y (String z (mangle path))))) with (String "\" (String x (String y (String z ""))) +:+ mangle path).
    by apply plain_spaceless, IH.
Qed.

Lemma mangle_empty path : path <> "" -> mangle path <> "".
Proof. destruct path as [|c path]; [done|]. intros _ E. cbn [mangle] in E. by repeat case_match. Qed.

Lemma mangle_dash path : path <> "-" -> mangle path <> "-".
Proof.
  intros Hd E. apply Hd. pose proof (decode_mangle path) as H. rewrite E in H. by injection H as <-.
Qed.

Lemma separate_path path : plain_path path -> path <> "-" -> separate (mangle path).
Proof. intros [Hn Hc] Hd. split; [split; [by apply mangle_empty|by apply mangle_spaceless]|by apply mangle_dash]. Qed.

Lemma digits_no_space s : str_forall is_digit s = true -> str_forall (fun c => plain_ascii c && negb (Ascii.eqb c ":")) s = true.
Proof.
  induction s as [|c s IH]; [done|]. cbn [str_forall]. intros [Hc Hs]%andb_true_iff. rewrite (IH Hs), andb_true_r.
  clear -Hc. destruct c as [[] [] [] [] [] [] [] []]; try done; discriminate.
Qed.

Lemma FormatInt_digits z : 0 <= z -> str_forall is_digit (FormatInt z) = true /\ FormatInt z <> "".
Proof. intros H. unfold FormatInt. destruct (Z.ltb_spec z 0); [lia|]. apply FormatN_digits. Qed.

Lemma str_forall_and f g s : str_forall (fun c => f c && g c) s = str_forall f s && str_forall g s.
Proof. induction s as [|c s IH]; [done|]. cbn [str_forall]. rewrite IH. by destruct (f c), (g c), (str_forall f s), (str_forall g s). Qed.

Lemma Split_word w sep : str_forall (fun c => negb (Ascii.eqb c sep)) w = true -> Split w sep = [w].
Proof.
  induction w as [|c w IH]; [done|]. cbn [str_forall Split]. intros [Hc%negb_true_iff Hw]%andb_true_iff. by rewrite Hc, IH.
Qed.

Lemma Split_cons w sep s : str_forall (fun c => negb (Ascii.eqb c sep)) w = true -> Split (w +:+ String sep s) sep = w :: Split s sep.
Proof.
  induction w as [|c w IH]; cbn [str_forall]; [intros _; rewrite str_nil_app; cbn [Split]; by rewrite Ascii.eqb_refl|].
  intros [Hc%negb_true_iff Hw]%andb_true_iff. rewrite str_cons_app. cbn [Split]. by rewrite Hc, IH.
Qed.

Section Line.
Context (m : kernel_mount) (Hm : well_formed m).

Lemma device_number_spec :
  Split (device_number m) ":" = [FormatInt (km_major m); FormatInt (km_minor m)] /\ separate (device_number m).
Proof.
  destruct (FormatInt_digits (km_major m)) as [Hd1 Hn1]; [apply Hm|]. destruct (FormatInt_digits (km_minor m)) as [Hd2 Hn2]; [apply Hm|].
  apply digits_no_space in Hd1, Hd2. rewrite str_forall_and in Hd1, Hd2.
  apply andb_true_iff in Hd1 as [Hs1 Hc1], Hd2 as [Hs2 Hc2]. unfold device_number. split.
  - change (":" +:+ FormatInt (km_minor m)) with (String ":" (FormatInt (km_minor m))). by rewrite Split_cons, Split_word.
  - split; [split|].
    + by destruct (FormatInt (km_major m)).
    + apply ascii_spaceless. by rewrite !str_forall_app, Hs1, Hs2.
    + destruct (FormatInt (km_major m)) as [|c [|d s]]; [done|by destruct (FormatInt (km_minor m))|done].
Qed.

Lemma mount_words_separate : Forall separate (mount_words m).
Proof.
  destruct (device_number_spec) as [_ Hd]. destruct Hm as [[H1 H2] _ _ (Hr & Hd' & _) [Hp Ha] [Ho Ht] _ _].
  unfold mount_words. apply Forall_app. split; [|exact Ht].
  repeat (apply Forall_cons; split); [exact H1|exact H2|exact Hd|by apply separate_path| |exact Ho|by apply Forall_nil].
  apply separate_path; [done|]. intros E. by rewrite E in Ha.
Qed.

(** A line falls into its words. *)
Lemma kernel_line_words :
  Index (kernel_line m) separator = Some (str_len (words (mount_words m))) /\
  Cut (kernel_line m) separator = Some (words (mount_words m), words (km_fstype m :: km_source m :: km_super m)) /\
  Fields (words (mount_words m)) = mount_words m /\
  Fields (words (km_fstype m :: km_source m :: km_super m)) = km_fstype m :: km_source m :: km_super m.
Proof.
  pose proof mount_words_separate as Hw.
  destruct (Cut_words (mount_words m) (words (km_fstype m :: km_source m :: km_super m)) ltac:(done) Hw) as [Hi Hc].
  split; [exact Hi|]. split; [exact Hc|]. split.
  - apply Fields_words. eapply Forall_impl; [exact Hw|]. by intros w [? _].
  - apply Fields_words. destruct (wf_after m Hm) as (? & ? & _ & ?). by repeat (apply Forall_cons_2; [done|]).
Qed.

Lemma device_numbers_valid :
  ParseUint (FormatInt (km_major m)) 32 = Some (km_major m) /\ ParseUint (FormatInt (km_minor m)) 32 = Some (km_minor m).
Proof. split; apply ParseUint_FormatInt, Hm. Qed.

Lemma line_mount_point_kernel : line_mount_point (kernel_line m) = Ok (km_point m).
Proof.
  destruct kernel_line_words as (_ & Hc & Hf & Ha). unfold line_mount_point. change " - " with separator. rewrite Hc, Hf, Ha.
  destruct device_number_spec as [Hs _], device_numbers_valid as [V1 V2]. cbn [mount_words app].
  destruct (wf_after m Hm) as (_ & _ & Hn & _). destruct (km_super m) as [|x l]; [done|]. cbn [length Nat.ltb Nat.leb].
  rewrite Hs. unfold valid_number. rewrite V1, V2, decode_mangle. by rewrite (proj2 (wf_point m Hm)).
Qed.

Lemma line_device_kernel : line_device (kernel_line m) = Ok (km_major m, km_minor m).
Proof.
  destruct kernel_line_words as (Hi & _ & Hf & _). unfold line_device. change " - " with separator. rewrite Hi.
  unfold kernel_line at 1. rewrite str_take_app, Hf. destruct device_number_spec as [Hs _], device_numbers_valid as [V1 V2].
  cbn [mount_words app]. by rewrite Hs, V1, V2.
Qed.

Definition entry_of (k : kernel_mount) : entry := mkEntry (device_number k) (km_root k) (km_point k).

Lemma parse_entry_kernel : parse_entry (kernel_line m) = Ok (entry_of m).
Proof.
  destruct kernel_line_words as (_ & Hc & Hf & Ha). unfold parse_entry. change " - " with separator. rewrite Hc, Hf, Ha.
  destruct device_number_spec as [Hs _], device_numbers_valid as [V1 V2]. cbn [mount_words app].
  destruct (wf_after m Hm) as (_ & _ & Hn & _). destruct (km_super m) as [|x l]; [done|].
  rewrite Hs. unfold valid_number. rewrite V1, V2. cbn [negb andb e_target e_root].
  rewrite (decode_unescape _ _ (decode_mangle (km_root m))), (decode_unescape _ _ (decode_mangle (km_point m))).
  destruct (wf_root m Hm) as (_ & _ & Hr), (wf_point m Hm) as [_ Hp]. rewrite Hp. destruct Hr as [-> | ->]; [done|].
  by rewrite String.eqb_refl, andb_false_r.
Qed.
End Line.

(** ** Tables *)

Fixpoint kernel_table (ms : list kernel_mount) : string :=
  match ms with [] => "" | m :: rest => kernel_line m +:+ String newline (kernel_table rest) end.
Definition kernel_file (ms : list kernel_mount) : opened := mkOpened (kernel_table ms) None None.

Lemma words_no_newline ws : Forall word ws -> str_forall (fun c => negb (Ascii.eqb c newline)) (words ws) = true.
Proof.
  assert (forall w, str_forall no_space w = true -> str_forall (fun c => negb (Ascii.eqb c newline)) w = true) as Hone.
  { induction w as [|c w IH]; [done|]. cbn [str_forall]. intros [Hc Hw]%andb_true_iff. rewrite (IH Hw), andb_true_r.
    apply negb_true_iff, Ascii.eqb_neq. by apply no_space_blank in Hc as (_ & ? & _). }
  intros H. destruct H as [|w ws Hw%word_no_space Hws]; [done|]. unfold words. rewrite str_forall_app, (Hone _ Hw). cbn [andb].
  induction Hws as [|w' ws Hw'%word_no_space Hws IH]; [done|]. cbn [spaced str_forall]. by rewrite str_forall_app, (Hone _ Hw').
Qed.

Lemma HasSuffix_split s suf : HasSuffix s suf = true -> exists t, s = t +:+ suf.
Proof.
  unfold HasSuffix. intros [_ E%String.eqb_eq]%andb_true_iff. exists (str_take (str_len s - str_len suf) s).
  rewrite <- E at 2. by rewrite str_take_drop.
Qed.

(** The last character of a text that ends in a word. *)
Lemma word_no_cr t w : word w -> drop_cr (t +:+ w) = t +:+ w.
Proof.
  intros Hword. pose proof (word_no_space w Hword) as Hw. destruct Hword as [Hn _]. unfold drop_cr, TrimSuffix. destruct (HasSuffix _ _) eqn:E; [|done]. exfalso.
  apply HasSuffix_split in E as [u E].
  assert (forall a b c, str_forall no_space w = true -> w <> "" -> a +:+ w = b +:+ String c "" -> no_space c = true) as H.
  { clear. intros a. induction a as [|x a IH]; intros b c Hw Hn E.
    - rewrite str_nil_app in E. subst w. rewrite str_forall_app in Hw. apply andb_true_iff in Hw as [_ Hw]. cbn in Hw.
      by rewrite andb_true_r in Hw.
    - destruct b as [|y b]; [|rewrite !str_cons_app in E; injection E as _ E; by eapply IH].
      rewrite str_cons_app, str_nil_app in E. injection E as _ E. destruct a; [|done]. by destruct w. }
  by apply (H t u (chr 13)) in E.
Qed.

Lemma words_last w ws : exists t u, words (w :: ws) = t +:+ u /\ u ∈ w :: ws.
Proof.
  unfold words. revert w. induction ws as [|v ws IH]; intros w; [exists "", w; split; [by rewrite str_app_nil_r|by left]|].
  destruct (IH v) as (t & u & E & Hu). exists (w +:+ String " " t), u. cbn [spaced]. rewrite E. split; [|by right].
  by rewrite str_app_assoc, str_cons_app.
Qed.

Section Table.
Context (ms : list kernel_mount) (Hms : Forall well_formed ms).

Lemma kernel_line_plain m :
  well_formed m -> str_forall (fun c => negb (Ascii.eqb c newline)) (kernel_line m) = true /\ drop_cr (kernel_line m) = kernel_line m.
Proof using Type.
  intros Hm. assert (Forall word (mount_words m)) as Hb.
  { eapply Forall_impl; [exact (mount_words_separate m Hm)|]. by intros w [? _]. }
  assert (Forall word (km_fstype m :: km_source m :: km_super m)) as Ha.
  { destruct (wf_after m Hm) as (? & ? & _ & ?). by repeat (apply Forall_cons_2; [done|]). }
  unfold kernel_line. split.
  - rewrite !str_forall_app, (words_no_newline _ Hb), (words_no_newline _ Ha). reflexivity.
  - destruct (words_last (km_fstype m) (km_source m :: km_super m)) as (t & u & E & Hu). rewrite E.
    rewrite <- !str_app_assoc. apply word_no_cr. rewrite Forall_forall in Ha. by apply Ha.
Qed.

Lemma scan_kernel_table : scan_lines (kernel_file ms) = (map kernel_line ms, None).
Proof.
  assert (Split (kernel_table ms) newline = map kernel_line ms ++ [""]) as E.
  { induction Hms as [|m l Hm _ IH]; [done|]. cbn [kernel_table map]. rewrite Split_cons by apply kernel_line_plain, Hm. by rewrite IH by (by inversion Hms). }
  assert (fitting_lines (map kernel_line ms) = (map kernel_line ms, true)) as F.
  { clear E. induction Hms as [|m l Hm _ IH]; [done|]. cbn [map fitting_lines].
    rewrite (proj2 (Z.ltb_lt _ _) (wf_fits m Hm)), IH by (by inversion Hms). by rewrite (proj2 (kernel_line_plain m Hm)). }
  unfold scan_lines, raw_lines. cbn [o_content kernel_file]. rewrite E, last_snoc, removelast_last, F. done.
Qed.

Lemma mounted_in_kernel_lines target b :
  mounted_in_lines target (map kernel_line ms) b = Ok (existsb (fun m => String.eqb (Clean (km_point m)) target) ms || b).
Proof.
  revert b. induction Hms as [|m l Hm _ IH]; intros b; [done|]. cbn [map mounted_in_lines existsb].
  rewrite (line_mount_point_kernel m Hm), IH by (by inversion Hms).
  by destruct (String.eqb _ target), (existsb _ l), b.
Qed.

Lemma device_in_kernel_lines major minor :
  device_in_lines major minor (map kernel_line ms) =
  Ok (if existsb (fun m => (km_major m =? major) && (km_minor m =? minor)) ms then Some tt else None).
Proof.
  induction Hms as [|m l Hm _ IH]; [done|]. cbn [map device_in_lines existsb].
  rewrite (line_device_kernel m Hm). cbn [fst snd]. destruct (_ && _); [done|]. apply IH. by inversion Hms.
Qed.

Lemma parse_kernel_entries : parse_entries (map kernel_line ms) = Ok (map entry_of ms).
Proof.
  induction Hms as [|m l Hm _ IH]; [done|]. cbn [map parse_entries]. rewrite (parse_entry_kernel m Hm).
  by rewrite IH by (by inversion Hms).
Qed.
End Table.

(** ** The mount that holds a path *)

Definition covers (source : string) (m : kernel_mount) : Prop :=
  source = km_point m \/ exists rest, source = TrimSuffix (km_point m) "/" +:+ "/" +:+ rest.

(** The deepest mount that covers the path, and the latest of them. *)
Definition holds (source : string) (ms : list kernel_mount) (c : kernel_mount) : Prop :=
  exists before after, ms = before ++ c :: after /\ covers source c /\
    (forall m, m ∈ before -> covers source m -> (str_len (km_point m) <= str_len (km_point c))%nat) /\
    (forall m, m ∈ after -> covers source m -> (str_len (km_point m) < str_len (km_point c))%nat).

Lemma contains_source_spec source m : contains_source source (entry_of m) = true <-> covers source m.
Proof.
  unfold contains_source, covers. cbn [e_target entry_of]. rewrite orb_true_iff, String.eqb_eq, HasPrefix_split.
  split; (intros [?|[rest E]]; [by left|right; exists rest]); by rewrite <- E, ?str_app_assoc || rewrite E, str_app_assoc.
Qed.

Lemma containing_before source c before :
  (forall m, m ∈ before -> covers source m -> (str_len (km_point m) <= str_len (km_point c))%nat) ->
  forall acc, (forall e, acc = Some e -> (str_len (e_target e) <= str_len (km_point c))%nat) ->
  forall e, foldl (containing_step source) acc (map entry_of before) = Some e -> (str_len (e_target e) <= str_len (km_point c))%nat.
Proof.
  induction before as [|m before IH]; intros Hb acc Hacc; [exact Hacc|]. cbn [map foldl]. apply IH; [set_solver|].
  unfold containing_step. destruct (contains_source source (entry_of m)) eqn:E; [|exact Hacc].
  apply contains_source_spec in E. pose proof (Hb m (list_elem_of_here m before) E) as Hle.
  destruct acc as [a|]; [destruct (_ <=? _)%nat|]; first [intros e [= <-]; exact Hle|apply Hacc].
Qed.

Lemma containing_after source c after :
  (forall m, m ∈ after -> covers source m -> (str_len (km_point m) < str_len (km_point c))%nat) ->
  foldl (containing_step source) (Some (entry_of c)) (map entry_of after) = Some (entry_of c).
Proof.
  induction after as [|m after IH]; intros Ha; [done|]. cbn [map foldl].
  assert (containing_step source (Some (entry_of c)) (entry_of m) = Some (entry_of c)) as ->; [|apply IH; set_solver].
  unfold containing_step. destruct (contains_source source (entry_of m)) eqn:E; [|done]. apply contains_source_spec in E.
  cbn [e_target entry_of]. by rewrite (proj2 (Nat.leb_gt _ _) (Ha m (list_elem_of_here m after) E)).
Qed.

Lemma containing_holds source ms c :
  holds source ms c -> foldl (containing_step source) None (map entry_of ms) = Some (entry_of c).
Proof.
  intros (before & after & -> & Hc & Hb & Ha). rewrite map_app, foldl_app. cbn [map foldl].
  rewrite <- (containing_after source c after Ha). f_equal.
  pose proof (containing_before source c before Hb None ltac:(done)) as Hle.
  unfold containing_step at 1. rewrite (proj2 (contains_source_spec source c) Hc).
  destruct (foldl _ _ (map entry_of before)) as [e|]; [|done]. cbn [e_target entry_of].
  by rewrite (proj2 (Nat.leb_le _ _) (Hle e eq_refl)).
Qed.

(** ** The questions *)

(** Another mount of the same object: of the same device, with the path that the
    source has within it. *)
Definition same_object (source : string) (c m : kernel_mount) : bool :=
  (km_major m =? km_major c) && (km_minor m =? km_minor c) &&
  String.eqb (km_root m) (JoinPath (km_root c) (Rel (km_point c) source)) && negb (String.eqb (km_point m) source).

Lemma device_number_eqb m c :
  well_formed m -> well_formed c ->
  String.eqb (device_number m) (device_number c) = (km_major m =? km_major c) && (km_minor m =? km_minor c).
Proof.
  intros Hm Hc. destruct (String.eqb_spec (device_number m) (device_number c)) as [E|Hne].
  - destruct (device_number_spec m Hm) as [S1 _], (device_number_spec c Hc) as [S2 _]. rewrite E, S2 in S1. injection S1 as E1 E2.
    destruct (device_numbers_valid m Hm) as [A1 A2], (device_numbers_valid c Hc) as [B1 B2].
    rewrite <- E1, B1 in A1. rewrite <- E2, B2 in A2. injection A1 as ->. injection A2 as ->. by rewrite !Z.eqb_refl.
  - symmetry. apply not_true_iff_false. intros [E1%Z.eqb_eq E2%Z.eqb_eq]%andb_true_iff. apply Hne.
    unfold device_number. by rewrite E1, E2.
Qed.

Lemma path_in_kernel_table ms target :
  Forall well_formed ms -> ms <> [] ->
  path_in_table target (kernel_file ms) = Ok (existsb (fun m => String.eqb (Clean (km_point m)) target) ms).
Proof.
  intros Hms Hne. unfold path_in_table. rewrite scan_kernel_table, mounted_in_kernel_lines, orb_false_r by done. by destruct ms.
Qed.

Lemma bindMountRefs_kernel ms source c :
  Forall well_formed ms -> holds source ms c -> IsAbs (km_root c) = true ->
  bindMountRefs source (kernel_file ms) = Ok (map km_point (List.filter (same_object source c) ms)).
Proof.
  intros Hms Hh Ha. unfold bindMountRefs. rewrite scan_kernel_table, parse_kernel_entries by done.
  rewrite (containing_holds _ _ _ Hh). change (e_root (entry_of c)) with (km_root c). rewrite Ha. cbn [negb].
  change (e_target (entry_of c)) with (km_point c). change (e_device (entry_of c)) with (device_number c).
  assert (well_formed c) as Hc by (destruct Hh as (b & a & -> & _); by apply Forall_app in Hms as [_ [? _]%Forall_cons]).
  f_equal. clear Hh. induction Hms as [|m l Hm _ IH]; [done|]. cbn [map List.filter].
  unfold same_mount at 1, same_object at 1. cbn [e_device e_root e_target entry_of]. rewrite device_number_eqb by done.
  destruct (_ && _); cbn [map]; by rewrite IH.
Qed.


(** ** A table of three mounts *)

Definition root_mount : kernel_mount :=
  mkKernelMount ("29", "1") 0 26 "/" "/" "rw,relatime" ["shared:1"] "ext4" "/dev/root" ["rw"].
Definition staged_mount : kernel_mount :=
  mkKernelMount ("36", "29") 8 16 "/" "/var/lib/kubelet/stage a" "rw,relatime" [] "ext4" "/dev/sdb" ["rw"].
Definition pod_mount : kernel_mount :=
  mkKernelMount ("37", "29") 8 16 "/" "/pods/b" "rw,relatime" ["shared:3"; "master:1"] "ext4" "/dev/sdb" ["rw"].
Definition three_mounts : list kernel_mount := [root_mount; staged_mount; pod_mount].

Ltac well_formed_mount :=
  constructor; vm_compute; repeat split; try discriminate; try (by left); repeat constructor; discriminate.

Lemma three_mounts_well_formed : Forall well_formed three_mounts.
Proof. repeat (apply Forall_cons_2; [well_formed_mount|]). by apply Forall_nil. Qed.

Lemma staged_mount_holds : holds "/var/lib/kubelet/stage a" three_mounts staged_mount.
Proof.
  exists [root_mount], [pod_mount]. split; [done|]. split; [by left|]. split; intros m Hm%list_elem_of_singleton; subst.
  - intros _. vm_compute. lia.
  - intros [E|[rest E]]; discriminate E.
Qed.


(** White space that the kernel leaves as it is ends the mount point early. *)
Definition vertical_tab_mount : kernel_mount :=
  mkKernelMount ("36", "29") 8 16 "/" ("/stage" +:+ String (chr 11) "a") "rw,relatime" [] "ext4" "/dev/sdb" ["rw"].

Lemma unescaped_space_splits :
  path_in_table (km_point vertical_tab_mount) (kernel_file [vertical_tab_mount]) = Ok false /\
  path_in_table "/stage" (kernel_file [vertical_tab_mount]) = Ok true.
Proof. vm_compute. by split. Qed.

(** So does a no-break space, which Go takes for white space too. *)
Definition no_break_space_mount : kernel_mount :=
  mkKernelMount ("36", "29") 8 16 "/" ("/stage" +:+ String (chr 194) (String (chr 160) "a")) "rw,relatime" [] "ext4" "/dev/sdb" ["rw"].

Lemma unicode_space_splits :
  path_in_table (km_point no_break_space_mount) (kernel_file [no_break_space_mount]) = Ok false /\
  path_in_table "/stage" (kernel_file [no_break_space_mount]) = Ok true.
Proof. vm_compute. by split. Qed.

Lemma mount_path_roundtrip_witness :
  decodeMountInfoPath "/stage\040a\134b" = Ok "/stage a\b" /\ unescape "/stage\040a\134b" = "/stage a\b".
Proof.
  destruct mount_path_roundtrip as [Hm Hd]. split; [exact (proj1 (Hm "/stage a\b"))|].
  apply Hd. vm_compute. reflexivity.
Defined.
