(* ===== verification/NodeLocks.v ===== *)
(** * The per-volume locks of the node (driver/node_lifecycle.go)

    [volumeLifecycleLocks] as a transition system: the shared table of entries,
    each a one-token channel with a count of its users, and any number of
    callers, each at some point of [lock], of the returned unlock function or of
    [release].  The critical sections of [l.mu] are single steps.  A caller may
    be interrupted between any two steps, and its context may end at any time. *)

From S2P Require Import Prelude.

#[local] Set Default Proof Using "Type*".

(** [entry.token] holds its token or not; [entry.refs] is a Go int. *)
Record lock_entry : Type := mkLockEntry { token : bool; refs : Z }.

(** Where a caller is: in the [select], past the receive and before the check
    of the context, owner of the lock, or about to call [release]. *)
Inductive caller : Type :=
| Waiting (volumeID : string) (p : nat)
| Received (volumeID : string) (p : nat)
| Holding (volumeID : string) (p : nat)
| Leaving (volumeID : string) (p : nat).

(** [entries] maps volumes to pointers into [heap]. *)
Record locks : Type := mkLocks {
  entries : gmap string nat;
  heap : gmap nat lock_entry;
  callers : gmap nat caller
}.

Definition no_locks : locks := mkLocks ∅ ∅ ∅.

(** ** The code of a step *)

Definition set_entry (p : nat) (e : lock_entry) (l : locks) : locks :=
  mkLocks (entries l) (<[p := e]> (heap l)) (callers l).
Definition set_caller (c : nat) (pc : caller) (l : locks) : locks :=
  mkLocks (entries l) (heap l) (<[c := pc]> (callers l)).

(** The first critical section of [lock]: find or create the entry, count the
    new user. *)
Definition enter (volumeID : string) (l : locks) : locks * nat :=
  match entries l !! volumeID with
  | Some p =>
      let e := default (mkLockEntry true 0) (heap l !! p) in
      (set_entry p (mkLockEntry (token e) (refs e + 1)) l, p)
  | None =>
      let p := fresh (dom (heap l)) in
      (mkLocks (<[volumeID := p]> (entries l)) (<[p := mkLockEntry true 1]> (heap l)) (callers l), p)
  end.

(** [entry.token <- struct{}{}] and [<-entry.token]. *)
Definition set_token (p : nat) (t : bool) (l : locks) : locks :=
  match heap l !! p with
  | Some e => set_entry p (mkLockEntry t (refs e)) l
  | None => l
  end.

Definition release (volumeID : string) (p : nat) (l : locks) : locks :=
  match heap l !! p with
  | Some e =>
      let n := refs e - 1 in
      mkLocks (if n =? 0 then delete volumeID (entries l) else entries l)
        (<[p := mkLockEntry (token e) n]> (heap l)) (callers l)
  | None => l
  end.

Definition has_token (p : nat) (l : locks) : bool :=
  match heap l !! p with Some e => token e | None => false end.

(** ** The transition system *)

Inductive lock_step : locks -> locks -> Prop :=
| step_enter l c v l' p :
    callers l !! c = None -> enter v l = (l', p) -> lock_step l (set_caller c (Waiting v p) l')
| step_receive l c v p :
    callers l !! c = Some (Waiting v p) -> has_token p l = true ->
    lock_step l (set_caller c (Received v p) (set_token p false l))
| step_cancel l c v p :
    callers l !! c = Some (Waiting v p) -> lock_step l (set_caller c (Leaving v p) l)
| step_hold l c v p :
    callers l !! c = Some (Received v p) -> lock_step l (set_caller c (Holding v p) l)
| step_abandon l c v p :
    callers l !! c = Some (Received v p) -> has_token p l = false ->
    lock_step l (set_caller c (Leaving v p) (set_token p true l))
| step_unlock l c v p :
    callers l !! c = Some (Holding v p) -> has_token p l = false ->
    lock_step l (set_caller c (Leaving v p) (set_token p true l))
| step_release l c v p l' :
    callers l !! c = Some (Leaving v p) -> release v p l = l' ->
    lock_step l (mkLocks (entries l') (heap l') (delete c (callers l'))).

Definition reachable : locks -> Prop := rtc lock_step no_locks.

(** ** The invariant *)

Definition caller_at (pc : caller) : string * nat :=
  match pc with Waiting v p | Received v p | Holding v p | Leaving v p => (v, p) end.

Definition owns (pc : caller) : bool :=
  match pc with Received _ _ | Holding _ _ => true | _ => false end.

(** The callers that use, and that own the token of, an entry. *)
Definition users (p : nat) (cs : gmap nat caller) : gmap nat caller := filter (fun kv => (caller_at kv.2).2 = p) cs.
Definition owners (p : nat) (cs : gmap nat caller) : gmap nat caller :=
  filter (fun kv => (caller_at kv.2).2 = p /\ owns kv.2 = true) cs.

Record lock_inv (l : locks) : Prop := {
  inv_in_table c pc : callers l !! c = Some pc -> entries l !! (caller_at pc).1 = Some (caller_at pc).2;
  inv_distinct v v' p : entries l !! v = Some p -> entries l !! v' = Some p -> v = v';
  inv_entry v p : entries l !! v = Some p ->
    exists e, heap l !! p = Some e /\ refs e = Z.of_nat (size (users p (callers l))) /\ 0 < refs e /\
      (size (owners p (callers l)) + (if token e then 1 else 0) = 1)%nat
}.

(** Counting after a caller moved. *)
Lemma size_filter_insert {A : Type} (P : nat * A -> Prop) `{Pdec : !forall x, Decision (P x)} (m : gmap nat A) c x :
  size (filter P (<[c := x]> m)) =
    (size (filter P (delete c m)) + (if decide (P (c, x)) then 1 else 0))%nat.
Proof.
  rewrite <- insert_delete_eq. destruct (decide (P (c, x))) as [HP|HP].
  - rewrite map_filter_insert_True by done. rewrite map_size_insert_None; [lia|].
    apply map_lookup_filter_None. left. apply lookup_delete_eq.
  - rewrite map_filter_insert_False by done. rewrite delete_delete_eq. lia.
Qed.

Lemma map_empty_filter {A : Type} (P : nat * A -> Prop) `{Pdec : !forall x, Decision (P x)} (m : gmap nat A) :
  (forall c x, m !! c = Some x -> ~ P (c, x)) -> filter P m = ∅.
Proof. intros H. apply map_eq. intros c. rewrite lookup_empty. apply map_lookup_filter_None. right. eauto. Qed.

Lemma size_filter_delete {A : Type} (P : nat * A -> Prop) `{Pdec : !forall x, Decision (P x)} (m : gmap nat A) c x :
  m !! c = Some x -> size (filter P m) = (size (filter P (delete c m)) + (if decide (P (c, x)) then 1 else 0))%nat.
Proof. intros H. rewrite <- size_filter_insert. by rewrite insert_id. Qed.

(** What a caller contributes to the counts of an entry. *)
Definition uses_of (p : nat) (pc : option caller) : nat :=
  match pc with Some pc => if decide ((caller_at pc).2 = p) then 1 else 0 | None => 0 end.
Definition owns_of (p : nat) (pc : option caller) : nat :=
  match pc with Some pc => if decide ((caller_at pc).2 = p /\ owns pc = true) then 1 else 0 | None => 0 end.

Lemma users_move cs c pc p :
  (size (users p (<[c := pc]> cs)) + uses_of p (cs !! c) = size (users p cs) + uses_of p (Some pc))%nat.
Proof.
  unfold users, uses_of. rewrite size_filter_insert. destruct (cs !! c) as [old|] eqn:E.
  - rewrite (size_filter_delete _ cs c old E). simpl. repeat case_decide; lia.
  - rewrite delete_id by done. simpl. repeat case_decide; lia.
Qed.

Lemma owners_move cs c pc p :
  (size (owners p (<[c := pc]> cs)) + owns_of p (cs !! c) = size (owners p cs) + owns_of p (Some pc))%nat.
Proof.
  unfold owners, owns_of. rewrite size_filter_insert. destruct (cs !! c) as [old|] eqn:E.
  - rewrite (size_filter_delete _ cs c old E). simpl. repeat case_decide; lia.
  - rewrite delete_id by done. simpl. repeat case_decide; lia.
Qed.

Lemma users_leave cs c p : (size (users p (delete c cs)) + uses_of p (cs !! c) = size (users p cs))%nat.
Proof.
  unfold users, uses_of. destruct (cs !! c) as [old|] eqn:E; [|rewrite delete_id by done; lia].
  rewrite (size_filter_delete _ cs c old E). simpl. repeat case_decide; lia.
Qed.

Lemma owners_leave cs c p : (size (owners p (delete c cs)) + owns_of p (cs !! c) = size (owners p cs))%nat.
Proof.
  unfold owners, owns_of. destruct (cs !! c) as [old|] eqn:E; [|rewrite delete_id by done; lia].
  rewrite (size_filter_delete _ cs c old E). simpl. repeat case_decide; lia.
Qed.

Lemma lock_inv_start : lock_inv no_locks.
Proof. constructor; simpl; intros *; rewrite lookup_empty; discriminate. Qed.

(** A caller that stays at its entry: the token is conserved. *)
Lemma lock_inv_stay l c pc pc' e e' v p :
  lock_inv l -> callers l !! c = Some pc -> caller_at pc = (v, p) -> caller_at pc' = (v, p) ->
  heap l !! p = Some e -> refs e' = refs e ->
  (owns_of p (Some pc') + (if token e' then 1 else 0) = owns_of p (Some pc) + (if token e then 1 else 0))%nat ->
  lock_inv (mkLocks (entries l) (<[p := e']> (heap l)) (<[c := pc']> (callers l))).
Proof.
  intros [Ht Hd He] Hc Hat Hat' Hp Hr Htok. constructor; simpl.
  - intros c0 pc0 H. apply lookup_insert_Some in H as [[<- <-]|[Hne H]]; [|by eapply Ht].
    rewrite Hat'. specialize (Ht c pc Hc). by rewrite Hat in Ht.
  - exact Hd.
  - intros w q Hq. destruct (He w q Hq) as (e0 & H0 & Hn & Hpos & Hone).
    pose proof (users_move (callers l) c pc' q) as Hu. pose proof (owners_move (callers l) c pc' q) as Ho.
    rewrite Hc in Hu, Ho. simpl in Hu. rewrite Hat, Hat' in Hu. simpl in Hu.
    destruct (decide (p = q)) as [->|Hne].
    + exists e'. rewrite lookup_insert_eq. simplify_eq. split_and!; [done|rewrite Hr, Hn; f_equal; lia|lia|lia].
    + exists e0. rewrite lookup_insert_ne by done. split_and!; [done|rewrite Hn; f_equal; lia|done|].
      simpl in Ho. rewrite Hat, Hat' in Ho. simpl in Ho. rewrite !decide_False in Ho by naive_solver. lia.
Qed.

(** The entry that a caller is at. *)
Lemma lock_inv_entry l c pc v p : lock_inv l -> callers l !! c = Some pc -> caller_at pc = (v, p) ->
  entries l !! v = Some p /\ exists e, heap l !! p = Some e.
Proof.
  intros [Ht Hd He] Hc Hat. pose proof (Ht c pc Hc) as H. rewrite Hat in H. simpl in H. split; [done|].
  destruct (He v p H) as (e & ? & _). by exists e.
Qed.

Lemma lock_inv_enter l c v l' p :
  lock_inv l -> callers l !! c = None -> enter v l = (l', p) -> lock_inv (set_caller c (Waiting v p) l').
Proof.
  intros [Ht Hd He] Hc. unfold enter. destruct (entries l !! v) as [q|] eqn:Ev; intros [= <- <-].
  - destruct (He v q Ev) as (e & Hp & Hn & Hpos & Hone). rewrite Hp. simpl. constructor; simpl.
    + intros c0 pc0 H. apply lookup_insert_Some in H as [[<- <-]|[Hne H]]; [done|by eapply Ht].
    + exact Hd.
    + intros w r Hr. destruct (He w r Hr) as (e0 & H0 & Hn0 & Hpos0 & Hone0).
      pose proof (users_move (callers l) c (Waiting v q) r) as Hu. pose proof (owners_move (callers l) c (Waiting v q) r) as Ho.
      rewrite Hc in Hu, Ho. simpl in Hu, Ho.
      rewrite decide_False in Ho by naive_solver.
      assert (q = r \/ q <> r) as [<-|Hne] by lia;
        [rewrite decide_True in Hu by done|rewrite decide_False in Hu by done].
      * simplify_eq. eexists. rewrite lookup_insert_eq. split; [done|]. simpl. split_and!; lia.
      * exists e0. rewrite lookup_insert_ne by done. split_and!; [done|lia|done|lia].
  - set (q := fresh (dom (heap l))).
    assert (heap l !! q = None) as Hq by (apply not_elem_of_dom, is_fresh). clearbody q.
    assert (forall w r, entries l !! w = Some r -> r <> q) as Hold.
    { intros w r Hr ->. destruct (He w q Hr) as (e & ? & _). congruence. }
    assert (forall c0 pc0, callers l !! c0 = Some pc0 -> (caller_at pc0).2 <> q) as Hnone.
    { intros c0 pc0 H. eapply Hold, Ht, H. }
    constructor; simpl.
    + intros c0 pc0 H. apply lookup_insert_Some in H as [[<- <-]|[Hne H]]; simpl; [apply lookup_insert_eq|].
      specialize (Ht c0 pc0 H). rewrite lookup_insert_ne; [done|]. congruence.
    + intros w w' r H H'. apply lookup_insert_Some in H as [[<- <-]|[Hne H]], H' as [[<- Hr]|[Hne' H']];
        [done|exfalso; by eapply Hold|exfalso; subst; by eapply Hold|by eapply Hd].
    + intros w r H. pose proof (users_move (callers l) c (Waiting v q) r) as Hu.
      pose proof (owners_move (callers l) c (Waiting v q) r) as Ho.
      rewrite Hc in Hu, Ho. simpl in Hu, Ho. rewrite decide_False in Ho by naive_solver.
      apply lookup_insert_Some in H as [[<- <-]|[Hne H]].
      * rewrite decide_True in Hu by done. eexists. rewrite lookup_insert_eq. split; [done|]. simpl.
        assert (users q (callers l) = ∅) as Hu0.
        { apply map_empty_filter. intros c0 pc0 H0. by apply (Hnone c0 pc0). }
        assert (owners q (callers l) = ∅) as Ho0.
        { apply map_empty_filter. intros c0 pc0 H0 [? _]. by apply (Hnone c0 pc0). }
        rewrite Hu0, map_size_empty in Hu. rewrite Ho0, map_size_empty in Ho. split_and!; lia.
      * destruct (He w r H) as (e & Hp & Hn & Hpos & Hone). specialize (Hold w r H).
        rewrite decide_False in Hu by done. exists e. rewrite lookup_insert_ne by done. split_and!; [done|lia|done|lia].
Qed.

Lemma lock_inv_release l c v p :
  lock_inv l -> callers l !! c = Some (Leaving v p) ->
  lock_inv (let l' := release v p l in mkLocks (entries l') (heap l') (delete c (callers l'))).
Proof.
  intros Hinv Hc. destruct (lock_inv_entry l c _ v p Hinv Hc eq_refl) as [Hv [e Hp]].
  destruct Hinv as [Ht Hd He]. unfold release. rewrite Hp. cbv zeta. simpl.
  destruct (He v p Hv) as (e0 & Hp0 & Hn & Hpos & Hone). rewrite Hp in Hp0. injection Hp0 as <-.
  pose proof (users_leave (callers l) c p) as Hu. pose proof (owners_leave (callers l) c p) as Ho.
  rewrite Hc in Hu, Ho. simpl in Hu, Ho. rewrite decide_True in Hu by done. rewrite decide_False in Ho by naive_solver.
  constructor; simpl.
  - intros c0 pc0 H. apply lookup_delete_Some in H as [Hne H]. specialize (Ht c0 pc0 H) as Hpc.
    destruct (refs e - 1 =? 0) eqn:E0; [|done]. rewrite lookup_delete_ne; [done|]. intros Heq.
    rewrite <- Heq, Hv in Hpc. injection Hpc as Hpc.
    assert (users p (delete c (callers l)) = ∅) as Hempty by (apply map_size_empty_iff; lia).
    refine (map_filter_empty_not_lookup _ _ c0 pc0 Hempty _ _); [done|by rewrite lookup_delete_ne].
  - intros w w' r H H'. destruct (refs e - 1 =? 0); [|by eapply Hd].
    apply lookup_delete_Some in H as [_ H], H' as [_ H']. by eapply Hd.
  - intros w r Hr.
    assert (entries l !! w = Some r /\ (refs e - 1 = 0 -> w <> v)) as [Hr0 Hw].
    { destruct (Z.eqb_spec (refs e - 1) 0); [apply lookup_delete_Some in Hr as [? ?]; auto|auto]. }
    destruct (decide (r = p)) as [->|Hne].
    + assert (w = v) as -> by by eapply Hd. eexists. rewrite lookup_insert_eq. split; [done|]. simpl.
      split_and!; [lia| |lia]. destruct (decide (refs e - 1 = 0)); [exfalso; by apply Hw|lia].
    + destruct (He w r Hr0) as (e0 & ? & Hn0 & Hpos0 & Hone0). exists e0. rewrite lookup_insert_ne by done.
      pose proof (users_leave (callers l) c r) as Hu0. pose proof (owners_leave (callers l) c r) as Ho0.
      rewrite Hc in Hu0, Ho0. simpl in Hu0, Ho0. rewrite decide_False in Hu0 by done. rewrite decide_False in Ho0 by naive_solver.
      split_and!; [done|lia|done|lia].
Qed.

Lemma lock_step_inv l l' : lock_inv l -> lock_step l l' -> lock_inv l'.
Proof.
  intros Hinv Hstep. destruct Hstep as [l c v l' p Hc He|l c v p Hc Htok|l c v p Hc|l c v p Hc|l c v p Hc Htok|l c v p Hc Htok|l c v p l' Hc <-].
  - by eapply lock_inv_enter.
  - destruct (lock_inv_entry l c _ v p Hinv Hc eq_refl) as [_ [e Hp]]. unfold has_token, set_token in *. rewrite Hp in *.
    eapply (lock_inv_stay l c); eauto; simpl; rewrite ?Htok; repeat case_decide; naive_solver.
  - destruct (lock_inv_entry l c _ v p Hinv Hc eq_refl) as [_ [e Hp]].
    replace (set_caller c _ l) with (mkLocks (entries l) (<[p := e]> (heap l)) (<[c := Leaving v p]> (callers l)))
      by (unfold set_caller; by rewrite insert_id).
    eapply (lock_inv_stay l c); eauto; simpl; repeat case_decide; naive_solver.
  - destruct (lock_inv_entry l c _ v p Hinv Hc eq_refl) as [_ [e Hp]].
    replace (set_caller c _ l) with (mkLocks (entries l) (<[p := e]> (heap l)) (<[c := Holding v p]> (callers l)))
      by (unfold set_caller; by rewrite insert_id).
    eapply (lock_inv_stay l c); eauto.
  - destruct (lock_inv_entry l c _ v p Hinv Hc eq_refl) as [_ [e Hp]]. unfold has_token, set_token in *. rewrite Hp in *.
    eapply (lock_inv_stay l c); eauto; simpl; rewrite ?Htok; repeat case_decide; naive_solver.
  - destruct (lock_inv_entry l c _ v p Hinv Hc eq_refl) as [_ [e Hp]]. unfold has_token, set_token in *. rewrite Hp in *.
    eapply (lock_inv_stay l c); eauto; simpl; rewrite ?Htok; repeat case_decide; naive_solver.
  - by apply lock_inv_release.
Qed.

Lemma reachable_inv l : reachable l -> lock_inv l.
Proof.
  intros H. assert (lock_inv no_locks) as H0 by apply lock_inv_start. revert H0. unfold reachable in H.
  induction H as [|l1 l2 l3 Hs _ IH]; [done|]. intros H1. by eapply IH, lock_step_inv.
Qed.

(** ** Theorems *)

Lemma owner_elem l c pc p : callers l !! c = Some pc -> (caller_at pc).2 = p -> owns pc = true -> owners p (callers l) !! c = Some pc.
Proof. intros Hc Hp Ho. by apply map_lookup_filter_Some. Qed.

(** At most one caller owns the token of an entry, and then the channel is empty. *)
Lemma owner_unique l c c' pc pc' v p :
  lock_inv l -> callers l !! c = Some pc -> callers l !! c' = Some pc' -> caller_at pc = (v, p) -> caller_at pc' = (v, p) ->
  owns pc = true -> owns pc' = true -> c = c' /\ has_token p l = false.
Proof.
  intros Hinv Hc Hc' Hat Hat' Ho Ho'. destruct (lock_inv_entry l c pc v p Hinv Hc Hat) as [Hv _].
  destruct Hinv as [_ _ He]. destruct (He v p Hv) as (e & Hp & _ & _ & Hone).
  pose proof (owner_elem l c pc p Hc ltac:(by rewrite Hat) Ho) as H1.
  pose proof (owner_elem l c' pc' p Hc' ltac:(by rewrite Hat') Ho') as H2.
  assert (size (owners p (callers l)) <> 0%nat) as Hne by (eapply map_size_ne_0_lookup_2; eauto).
  split; [|unfold has_token; rewrite Hp; destruct (token e); lia].
  destruct (decide (c = c')) as [|Hcc]; [done|]. exfalso.
  assert (size (delete c (owners p (callers l))) <> 0%nat) as Hne2.
  { apply map_size_ne_0_lookup_2 with c'. rewrite lookup_delete_ne by done. eauto. }
  rewrite map_size_delete, H1 in Hne2. destruct (token e); lia.
Qed.

(** The callers of a volume. *)
Definition callers_of (v : string) (cs : gmap nat caller) : gmap nat caller := filter (fun kv => (caller_at kv.2).1 = v) cs.

(** They are the users of its entry. *)
Lemma callers_of_users l v p : lock_inv l -> entries l !! v = Some p -> callers_of v (callers l) = users p (callers l).
Proof.
  intros Hinv Hv. unfold callers_of, users. apply map_filter_ext. intros c pc Hc. cbn [snd].
  pose proof (inv_in_table l Hinv c pc Hc) as H. split; [intros E; rewrite E, Hv in H; by injection H|].
  intros E. rewrite E in H. by apply (inv_distinct l Hinv _ _ p).
Qed.

(** C17: the per-volume locks exclude.  In every reachable state of any number
    of callers, whatever the interleaving and the cancellations: at most one
    caller is between a successful [lock] and its unlock for a volume; a send on
    the token channel never blocks, since the channel is empty while the token
    is owned; the table holds exactly the volumes that have a caller, so
    that it never leaks an entry; and the count [refs] of an entry is the number
    of callers of its volume. *)
Theorem lifecycle_locks_exclusive l :
  reachable l ->
  (forall c c' v p p', callers l !! c = Some (Holding v p) -> callers l !! c' = Some (Holding v p') -> c = c') /\
  (forall c pc, callers l !! c = Some pc -> owns pc = true -> has_token (caller_at pc).2 l = false) /\
  (forall v, is_Some (entries l !! v) <-> exists c pc, callers l !! c = Some pc /\ (caller_at pc).1 = v) /\
  (forall v p, entries l !! v = Some p ->
     exists e, heap l !! p = Some e /\ refs e = Z.of_nat (size (callers_of v (callers l)))).
Proof.
  intros Hinv%reachable_inv. split_and!.
  - intros c c' v p p' Hc Hc'.
    pose proof (inv_in_table l Hinv c _ Hc) as H. pose proof (inv_in_table l Hinv c' _ Hc') as H'. simpl in H, H'.
    rewrite H in H'. injection H' as <-. by eapply (owner_unique l c c').
  - intros c pc Hc Ho. destruct (caller_at pc) as [v p] eqn:Hat. by eapply (owner_unique l c c).
  - intros v. split.
    + intros [p Hp]. destruct (inv_entry l Hinv v p Hp) as (e & _ & Hn & Hpos & _).
      rewrite <- (callers_of_users l v p Hinv Hp) in Hn. assert (size (callers_of v (callers l)) <> 0%nat) as Hne by lia.
      apply map_size_ne_0_lookup_1 in Hne as (c & pc & [Hc Hat]%map_lookup_filter_Some). by exists c, pc.
    + intros (c & pc & Hc & <-). eexists. by apply (inv_in_table l Hinv c).
  - intros v p Hp. destruct (inv_entry l Hinv v p Hp) as (e & He & Hn & _). exists e. by rewrite (callers_of_users l v p Hinv Hp).
Qed.

(** C18: a waiting caller is not forgotten.  From every reachable state in which
    a caller waits for a volume, it obtains the lock after at most four steps,
    none of which is its own cancellation: when the token is in the channel it
    receives it, and otherwise there is an owner, whose unlock puts it back. *)
Theorem lifecycle_lock_progress l c v p :
  reachable l -> callers l !! c = Some (Waiting v p) ->
  exists n l', nsteps lock_step n l l' /\ (n <= 4)%nat /\ callers l' !! c = Some (Holding v p).
Proof.
  intros Hreach Hc. pose proof (reachable_inv l Hreach) as Hinv.
  assert (forall l1, callers l1 !! c = Some (Waiting v p) -> has_token p l1 = true ->
    exists l', nsteps lock_step 2 l1 l' /\ callers l' !! c = Some (Holding v p)) as Htake.
  { intros l1 Hc1 Htok. exists (set_caller c (Holding v p) (set_caller c (Received v p) (set_token p false l1))).
    split; [|apply lookup_insert_eq]. econstructor; [by eapply step_receive|].
    econstructor; [apply step_hold, lookup_insert_eq|constructor]. }
  destruct (has_token p l) eqn:Htok.
  { destruct (Htake l Hc Htok) as (l' & Hs & Hh). exists 2%nat, l'. split_and!; [done|lia|done]. }
  assert (forall l1 c1 n, nsteps lock_step n l l1 -> (n <= 1)%nat -> c1 <> c ->
    callers l1 !! c1 = Some (Holding v p) -> callers l1 !! c = Some (Waiting v p) -> lock_inv l1 ->
    exists n l', nsteps lock_step n l l' /\ (n <= 4)%nat /\ callers l' !! c = Some (Holding v p)) as Hunlock.
  { intros l1 c1 n Hs Hn Hne H1 H2 Hinv1.
    destruct (owner_unique l1 c1 c1 _ _ v p Hinv1 H1 H1 eq_refl eq_refl eq_refl eq_refl) as [_ Hempty].
    destruct (lock_inv_entry l1 c1 _ v p Hinv1 H1 eq_refl) as [_ [e Hp]].
    destruct (Htake (set_caller c1 (Leaving v p) (set_token p true l1))) as (l' & Hs' & Hh).
    - unfold set_token. rewrite Hp. simpl. by rewrite lookup_insert_ne.
    - unfold has_token, set_token. rewrite Hp. simpl. by rewrite lookup_insert_eq.
    - exists (n + (1 + 2))%nat, l'. split_and!; [|lia|done]. eapply nsteps_trans; [exact Hs|].
      econstructor; [by apply step_unlock|exact Hs']. }
  destruct (lock_inv_entry l c _ v p Hinv Hc eq_refl) as [Hv _].
  destruct (inv_entry l Hinv v p Hv) as (e & Hp & _ & _ & Hone). unfold has_token in Htok. rewrite Hp in Htok.
  rewrite Htok in Hone. assert (size (owners p (callers l)) <> 0%nat) as Hne by lia.
  apply map_size_ne_0_lookup_1 in Hne as (c1 & pc & [Hc1 [Hat Ho]]%map_lookup_filter_Some). simpl in Hat, Ho.
  assert (c1 <> c) as Hcc by (intros ->; rewrite Hc in Hc1; by injection Hc1 as <-).
  pose proof (inv_in_table l Hinv c1 pc Hc1) as Htab. rewrite Hat in Htab.
  pose proof (inv_distinct l Hinv _ _ _ Hv Htab) as Hveq.
  destruct pc as [w q|w q|w q|w q]; simpl in *; subst; try discriminate.
  - eapply (Hunlock _ c1 1%nat); [econstructor; [by apply step_hold|constructor]|lia|done|apply lookup_insert_eq| |].
    + simpl. by rewrite lookup_insert_ne.
    + eapply lock_step_inv; [exact Hinv|by apply step_hold].
  - by eapply (Hunlock l c1 0%nat); [constructor|lia|..].
Qed.

(** A caller that owns the lock of a volume while another waits for it. *)
Definition demo_p : nat := (enter "v" no_locks).2.
Definition demo_held : locks :=
  set_caller 1 (Holding "v" demo_p) (set_caller 1 (Received "v" demo_p)
    (set_token demo_p false (set_caller 1 (Waiting "v" demo_p) (enter "v" no_locks).1))).
Definition demo_contended : locks := set_caller 2 (Waiting "v" demo_p) (enter "v" demo_held).1.

Lemma demo_reachable : reachable demo_contended.
Proof.
  unfold reachable, demo_contended, demo_held.
  eapply rtc_l; [eapply (step_enter no_locks 1 "v"); [reflexivity|apply surjective_pairing]|].
  eapply rtc_l; [eapply (step_receive _ 1 "v" demo_p); [apply lookup_insert_eq|vm_compute; reflexivity]|].
  eapply rtc_l; [eapply (step_hold _ 1 "v" demo_p), lookup_insert_eq|].
  eapply rtc_l; [|apply rtc_refl]. apply step_enter; [vm_compute; reflexivity|vm_compute; reflexivity].
Qed.

Lemma lifecycle_locks_exclusive_witness :
  callers demo_contended !! 1%nat = Some (Holding "v" demo_p) /\ callers demo_contended !! 2%nat = Some (Waiting "v" demo_p) /\
  has_token demo_p demo_contended = false /\
  exists e, heap demo_contended !! demo_p = Some e /\ refs e = 2.
Proof.
  destruct (lifecycle_locks_exclusive demo_contended demo_reachable) as (_ & H & _ & Hn).
  split_and!; [vm_compute; reflexivity..| |].
  - apply (H 1%nat (Holding "v" demo_p)); vm_compute; reflexivity.
  - destruct (Hn "v" demo_p) as (e & He & Hr); [vm_compute; reflexivity|]. exists e. split; [exact He|].
    rewrite Hr. vm_compute. reflexivity.
Defined.

Lemma lifecycle_lock_progress_witness :
  exists n l', nsteps lock_step n demo_contended l' /\ (n <= 4)%nat /\ callers l' !! 2%nat = Some (Holding "v" demo_p).
Proof. apply (lifecycle_lock_progress demo_contended 2 "v" demo_p demo_reachable). vm_compute. reflexivity. Defined.
