(* ===== verification/NodeRecovery.v ===== *)
(** * Recovery of storage sessions on a node (driver/node_recovery.go)

    The background pass that repairs iSCSI sessions and NVMe-oF controllers,
    remounts file systems the kernel made read-only, and unmounts staging paths
    whose device is gone.  [getISCSISessionState] is in node_health.go. *)

From S2P Require Import Prelude GoStrings Prog Errors NodeHost.

Definition second_ns : Z := 1000000000.

Definition iscsiSessionStateLoggedIn : string := "LOGGED_IN".
Definition nvmeSubsystemStateLive : string := "live".
Definition unmountCooldown : Z := 5 * 60 * second_ns.
Definition stagingPathMarker : string := "/plugins/kubernetes.io/csi/nasty.csi.io/".

Definition lines (output : string) : list string := Split output newline.

(** ** The state of an iSCSI session *)

(** The value of the first line that names a session state. *)
Fixpoint session_state_line (l : list string) : option string :=
  match l with
  | [] => None
  | line :: rest =>
      if Contains line "iSCSI Session State:" then
        match SplitN2 line ":" with
        | (_, Some value) => Some (TrimSpace value)
        | (_, None) => session_state_line rest
        end
      else session_state_line rest
  end.

Definition getISCSISessionState (devicePath : string) : Host (res string) :=
  let base := Base devicePath in
  data <- host (ReadFile ("/sys/block/" +:+ base +:+ "/device/state"));;
  match data with
  | Ok data =>
      let state := TrimSpace data in
      Ret (Ok (if String.eqb state "running" then iscsiSessionStateLoggedIn else state))
  | Err _ =>
      let! (output, cmdErr) := iscsiadm ["-m"; "session"; "-P"; "1"] in
      match cmdErr with
      | Some e => Ret (Err (Errorf ("iscsiadm failed: " +:+ err_text e) [e]))
      | None =>
          match session_state_line (lines output) with
          | Some state => Ret (Ok state)
          | None => Ret (Err (err_new errISCSIStateUnknown))
          end
      end
  end.

(** The kernel is still reconnecting: hands off. *)
Definition iscsiSessionRecovering (state : string) : bool :=
  String.eqb state "blocked" || String.eqb state "transport-offline" || String.eqb state "quiesce".

Definition nvmeRecovering (state : string) : bool := String.eqb state "connecting" || String.eqb state "resetting".

Definition isISCSIDeviceRecovering (devicePath : string) : Host bool :=
  info <- host (Stat ("/sys/block/" +:+ Base devicePath +:+ "/device/../../iscsi_session"));;
  match info with
  | Err _ => Ret false
  | Ok _ =>
      state <- getISCSISessionState devicePath;;
      match state with
      | Err _ => Ret false
      | Ok state => Ret (iscsiSessionRecovering state)
      end
  end.

(** The controller in the name of a namespace: [nvme0] of [nvme0n1]; the first
    [n] after the fifth byte ends it. *)
Fixpoint find_n (s : string) (i : nat) : option nat :=
  match s with
  | EmptyString => None
  | String c s' => if Ascii.eqb c "n" && (4 <? i)%nat then Some i else find_n s' (S i)
  end.

Definition controller_name (base : string) : string :=
  match find_n base 0 with Some i => str_take i base | None => "" end.

Definition isNVMeDeviceRecovering (devicePath : string) : Host bool :=
  let ctrlName := controller_name (Base devicePath) in
  if String.eqb ctrlName "" then Ret false
  else
    transport <- host (ReadFile ("/sys/class/nvme/" +:+ ctrlName +:+ "/transport"));;
    match transport with
    | Err _ => Ret false
    | Ok transport =>
        if String.eqb (TrimSpace transport) "" then Ret false
        else
          stateData <- host (ReadFile ("/sys/class/nvme/" +:+ ctrlName +:+ "/state"));;
          match stateData with
          | Err _ => Ret false
          | Ok stateData => Ret (nvmeRecovering (TrimSpace stateData))
          end
    end.

(** The output of blockdev names a positive size. *)
Definition reports_size (answer : string * option error) : bool :=
  match answer.2 with
  | Some _ => false
  | None => let size := TrimSpace answer.1 in negb (String.eqb size "") && negb (String.eqb size "0")
  end.

Definition isDeviceAccessible (devicePath : string) : Host bool :=
  answer <- host (Command "blockdev" ["--getsize64"; devicePath]);; Ret (reports_size answer).

(** ** Unmounting broken staging paths *)

(** The three ways to look at a device: [true] when its mount must be left. *)
Definition device_kept (source : string) : Host bool :=
  info <- host (Stat source);;
  accessible <- (match info with Ok _ => isDeviceAccessible source | Err _ => Ret false end);;
  if accessible then Ret true
  else
    iscsi <- isISCSIDeviceRecovering source;;
    if iscsi then Ret true else isNVMeDeviceRecovering source.

(** The lines of findmnt; [recent] is [s.recentUnmounts]. *)
Fixpoint unmount_lines (l : list string) (now : Z) (recent : gmap string Z) : Host (gmap string Z) :=
  match l with
  | [] => Ret recent
  | line :: rest =>
      if negb (Contains line stagingPathMarker) then unmount_lines rest now recent
      else
        match Fields line with
        | source :: target :: _ =>
            match recent !! target with
            | Some _ => unmount_lines rest now recent
            | None =>
                kept <- device_kept source;;
                if kept then unmount_lines rest now recent
                else
                  host (Command "umount" ["-l"; target]) ;;;
                  unmount_lines rest now (<[target := now]> recent)
            end
        | _ => unmount_lines rest now recent
        end
  end.

Definition unmountBrokenStagingPaths (recent : gmap string Z) : Host (gmap string Z) :=
  let! (output, err) := host (Command "findmnt" ["-n"; "-o"; "SOURCE,TARGET"; "-t"; "ext4,xfs"; "--raw"]) in
  match err with
  | Some _ => Ret recent
  | None =>
      now <- host Now;;
      unmount_lines (lines output) now (filter (fun kv => now - kv.2 <= unmountCooldown) recent)
  end.

(** ** Remounting *)

Definition is_read_only (options : string) : bool := existsb (fun opt => String.eqb opt "ro") (Split options ",").

Definition remount_line (line : string) : Host (option unit) :=
  if negb (Contains line stagingPathMarker) then Ret None
  else
    match Fields line with
    | source :: target :: options :: _ =>
        if negb (is_read_only options) then Ret None
        else
          accessible <- isDeviceAccessible source;;
          if negb accessible then Ret None
          else host (Command "mount" ["-o"; "remount,rw"; target]) ;;; Ret None
    | _ => Ret None
    end.

Definition remountReadOnlyVolumes : Host unit :=
  let! (output, err) := host (Command "findmnt" ["-n"; "-o"; "SOURCE,TARGET,OPTIONS"; "-t"; "ext4,xfs"; "--raw"]) in
  match err with
  | Some _ => Ret tt
  | None => for_range (lines output) remount_line ;;; Ret tt
  end.

(** ** iSCSI sessions *)

(** [disk] followed by the device among the words of a line. *)
Fixpoint names_disk (parts : list string) (devName : string) : bool :=
  match parts with
  | part :: ((next :: _) as rest) => (String.eqb part "disk" && String.eqb next devName) || names_disk rest devName
  | _ => false
  end.

(** The sections of [iscsiadm -m session -P 3]. *)
Fixpoint session_sections (l : list string) (devName currentIQN currentPortal : string) : string * string :=
  match l with
  | [] => ("", "")
  | line :: rest =>
      let trimmed := TrimSpace line in
      if HasPrefix trimmed "Target:" then
        let currentIQN := match Fields (TrimSpace (TrimPrefix trimmed "Target:")) with
                          | iqn :: _ => iqn | [] => currentIQN end in
        session_sections rest devName currentIQN ""
      else if HasPrefix trimmed "Current Portal:" then
        let portalLine := TrimSpace (TrimPrefix trimmed "Current Portal:") in
        let currentPortal := match LastIndex portalLine "," with
                             | Some idx => str_take idx portalLine | None => portalLine end in
        session_sections rest devName currentIQN currentPortal
      else if Contains trimmed "Attached scsi disk" && names_disk (Fields trimmed) devName then
        (currentIQN, currentPortal)
      else session_sections rest devName currentIQN currentPortal
  end.

Definition parseISCSISessionInfo (output devName : string) : string * string :=
  session_sections (lines output) devName "" "".

Definition getISCSISessionInfoFromIscsiadm (devName : string) : Host (string * string) :=
  let! (output, err) := iscsiadm ["-m"; "session"; "-P"; "3"] in
  match err with
  | Some _ => Ret ("", "")
  | None => Ret (parseISCSISessionInfo output devName)
  end.

(** The sysfs entries of the sessions: the first with a target name wins. *)
Fixpoint sysfs_session (sessions : list string) (portal : string) : Host (option (string * string)) :=
  match sessions with
  | [] => Ret None
  | sess :: rest =>
      targetData <- host (ReadFile (JoinPath sess "targetname"));;
      let iqn := match targetData with Ok d => TrimSpace d | Err _ => "" end in
      let connGlob := ReplaceFirst sess "iscsi_session" "iscsi_connection" in
      let connGlob := ReplaceFirst connGlob "session" "connection" +:+ "*/persistent_address" in
      conns <- host (Glob connGlob);;
      portal <- (match conns with
                 | Ok (conn :: _) =>
                     addr <- host (ReadFile conn);;
                     Ret (match addr with Ok d => TrimSpace d +:+ ":3260" | Err _ => portal end)
                 | _ => Ret portal
                 end);;
      if negb (String.eqb iqn "") then Ret (Some (iqn, portal)) else sysfs_session rest portal
  end.

Definition getISCSISessionInfo (sysBlockPath : string) : Host (string * string) :=
  found <- host (Glob (sysBlockPath +:+ "/device/../../iscsi_session/session*"));;
  sessions <- (match found with
               | Ok ((_ :: _) as l) => Ret l
               | _ =>
                   again <- host (Glob (sysBlockPath +:+ "/device/../../../iscsi_session/session*"));;
                   Ret (match again with Ok l => l | Err _ => [] end)
               end);;
  info <- sysfs_session sessions "";;
  match info with
  | Some p => Ret p
  | None => getISCSISessionInfoFromIscsiadm (Base sysBlockPath)
  end.

(** A rescan, and where no session is logged in after it, logout and login. *)
Definition recoverISCSISession (iqn portal : string) : Host (option error) :=
  iscsiadm (if negb (String.eqb portal "") then ["-m"; "session"; "-r"; iqn; "--rescan"]
            else ["-m"; "session"; "--rescan"]) ;;;
  host (NodeSleep (3 * second_ns)) ;;;
  let! (checkOutput, checkErr) := iscsiadm ["-m"; "session"; "-P"; "1"] in
  if match checkErr with None => Contains checkOutput iscsiSessionStateLoggedIn | Some _ => false end then Ret None
  else
    iscsiadm ["-m"; "node"; "-T"; iqn; "--logout"] ;;;
    host (NodeSleep (2 * second_ns)) ;;;
    let! (output, err) := iscsiadm (if negb (String.eqb portal "") then ["-m"; "node"; "-T"; iqn; "-p"; portal; "--login"]
                                    else ["-m"; "node"; "-T"; iqn; "--login"]) in
    match err with
    | Some e =>
        if Contains output "already present" || Contains output "session exists" then Ret None
        else Ret (Some (Errorf ("re-login failed: " +:+ err_text e +:+ ": " +:+ output) [e]))
    | None => Ret None
    end.

(** One block device: whether its session was recovered. *)
Definition recover_device (sysPath : string) : Host bool :=
  let devicePath := "/dev/" +:+ Base sysPath in
  info <- host (Stat (sysPath +:+ "/device/../../iscsi_session"));;
  match info with
  | Err _ => Ret false
  | Ok _ =>
      state <- getISCSISessionState devicePath;;
      match state with
      | Err _ => Ret false
      | Ok state =>
          if String.eqb state iscsiSessionStateLoggedIn then Ret false
          else if iscsiSessionRecovering state then Ret false
          else
            let! (iqn, portal) := getISCSISessionInfo sysPath in
            if String.eqb iqn "" then Ret false
            else
              err <- recoverISCSISession iqn portal;;
              Ret (match err with Some _ => false | None => true end)
      end
  end.

(** [recovered++] over the entries. *)
Fixpoint count_recovered (recover : string -> Host bool) (l : list string) : Host Z :=
  match l with
  | [] => Ret 0
  | x :: rest =>
      ok <- recover x;;
      n <- count_recovered recover rest;;
      Ret (if (ok : bool) then n + 1 else n)
  end.

Definition recoverISCSISessions : Host Z :=
  matches <- host (Glob "/sys/block/sd*");;
  match matches with
  | Ok l => count_recovered recover_device l
  | Err _ => Ret 0
  end.

(** ** NVMe-oF controllers *)

Definition resetNVMeController (ctrlName : string) : Host (option error) :=
  let! (output, err) := host (Command "nvme" ["reset"; "/dev/" +:+ ctrlName]) in
  match err with
  | Some e => Ret (Some (Errorf ("nvme reset failed: " +:+ err_text e +:+ ": " +:+ output) [e]))
  | None => Ret None
  end.

(** The polling loop; [Panic] stands for running out of fuel, which
    [RecoveryTheorems.wait_terminates] excludes for a clock that advances. *)
Fixpoint poll_controller (fuel : nat) (statePath : string) (deadline : Z) : Host (option error) :=
  match fuel with
  | O => Panic
  | S fuel =>
      now <- host Now;;
      if now <? deadline then
        done <- host CtxDone;;
        match done with
        | Some e => Ret (Some e)
        | None =>
            data <- host (ReadFile statePath);;
            if match data with Ok d => String.eqb (TrimSpace d) nvmeSubsystemStateLive | Err _ => false end then Ret None
            else host (NodeSleep (2 * second_ns)) ;;; poll_controller fuel statePath deadline
        end
      else Ret (Some (Errorf (sentinel_text errControllerRecoveryTimeout +:+ ": 30s") [err_new errControllerRecoveryTimeout]))
  end.

(** 30 seconds in steps of 2. *)
Definition poll_fuel : nat := 16.

Definition waitForNVMeControllerRecovery (ctrlPath : string) : Host (option error) :=
  now <- host Now;;
  poll_controller poll_fuel (ctrlPath +:+ "/state") (now + 30 * second_ns).

Definition recover_controller (ctrlPath : string) : Host bool :=
  let ctrlName := Base ctrlPath in
  transport <- host (ReadFile (ctrlPath +:+ "/transport"));;
  match transport with
  | Err _ => Ret false
  | Ok transport =>
      if String.eqb (TrimSpace transport) "" then Ret false
      else
        stateData <- host (ReadFile (ctrlPath +:+ "/state"));;
        match stateData with
        | Err _ => Ret false
        | Ok stateData =>
            let state := TrimSpace stateData in
            if String.eqb state nvmeSubsystemStateLive then Ret false
            else if nvmeRecovering state then Ret false
            else
              writeErr <- host (WriteFile (ctrlPath +:+ "/reset_controller") "1");;
              resetErr <- (match writeErr with
                           | Some _ => resetNVMeController ctrlName
                           | None => Ret None
                           end);;
              match resetErr with
              | Some _ => Ret false
              | None =>
                  err <- waitForNVMeControllerRecovery ctrlPath;;
                  Ret (match err with Some _ => false | None => true end)
              end
        end
  end.

Definition recoverNVMeOFConnections : Host Z :=
  matches <- host (Glob "/sys/class/nvme/nvme*");;
  match matches with
  | Ok l => count_recovered recover_controller l
  | Err _ => Ret 0
  end.

(** ** The two entry points *)

Definition runHealthCheck (recent : gmap string Z) : Host (gmap string Z) :=
  recoverISCSISessions ;;;
  recoverNVMeOFConnections ;;;
  remountReadOnlyVolumes ;;;
  unmountBrokenStagingPaths recent.

Definition recoverVolumes : Host unit :=
  recoverISCSISessions ;;; recoverNVMeOFConnections ;;; Ret tt.
