(* ===== verification/NodeSysfs.v ===== *)
(** * NVMe namespaces in sysfs (driver/node_nvmeof_sysfs.go)

    Which namespace of the node belongs to a subsystem, and which controller
    serves a namespace, read from the kernel's own records. *)

From S2P Require Import Prelude GoStrings Prog Errors Api Retry NodeHost NodeRecovery.

Definition sysBlockPath : string := "/sys/block".

(** ** The names of namespaces, partitions and controllers *)

Definition is_digit (c : ascii) : bool := in_range 48 57 (nat_of_ascii c).

Fixpoint skip_digits (s : string) : string :=
  match s with
  | String c s' => if is_digit c then skip_digits s' else s
  | EmptyString => s
  end.

(** What follows [\d+] at the start, and a literal. *)
Definition digits (s : string) : option string :=
  match s with
  | String c _ => if is_digit c then Some (skip_digits s) else None
  | EmptyString => None
  end.
Definition literal (p s : string) : option string := if HasPrefix s p then Some (str_drop (str_len p) s) else None.

(** [^nvme\d+] and [^nvme\d+n\d+] *)
Definition controller_rest (s : string) : option string := literal "nvme" s ≫= digits.
Definition namespace_rest (s : string) : option string := (controller_rest s ≫= literal "n") ≫= digits.

Definition ends (rest : option string) : bool := match rest with Some "" => true | _ => false end.

Definition nvmeControllerName (s : string) : bool := ends (controller_rest s).
Definition nvmeNamespaceName (s : string) : bool := ends (namespace_rest s).

(** The submatch of [^(nvme\d+n\d+)p\d+$]. *)
Definition nvmeNamespacePartition (s : string) : option string :=
  match namespace_rest s with
  | Some rest => if ends (literal "p" rest ≫= digits) then Some (str_take (str_len s - str_len rest) s) else None
  | None => None
  end.

Example name_examples :
  nvmeNamespaceName "nvme0n1" = true /\ nvmeNamespaceName "nvme0c1n1" = false /\ nvmeNamespaceName "nvme0n1p2" = false /\
  nvmeNamespacePartition "nvme10n12p3" = Some "nvme10n12" /\ nvmeControllerName "nvme3" = true /\ nvmeControllerName "nvme" = false.
Proof. vm_compute. repeat split. Qed.

(** ** Reading *)

(** The trimmed value, also with an error. *)
Definition readNVMeSysfsValue (path : string) : Host (res string) :=
  data <- host (ReadFile path);; Ret (res_map TrimSpace data).

(** The namespaces whose subsystem is [nqn], in the order of the directory. *)
Fixpoint owned_namespaces (root nqn : string) (entries : list dirent) : Host (list string) :=
  match entries with
  | [] => Ret []
  | e :: rest =>
      let name := de_Name e in
      if negb (nvmeNamespaceName name) then owned_namespaces root nqn rest
      else
        owner <- readNVMeSysfsValue (JoinPaths [root; name; "device"; "subsysnqn"]);;
        names <- owned_namespaces root nqn rest;;
        Ret (match owner with
             | Ok owner => if String.eqb owner nqn && negb (String.eqb nqn "") then name :: names else names
             | Err _ => names
             end)
  end.

Fixpoint first_namespaces (root : string) (names : list string) : Host (list string) :=
  match names with
  | [] => Ret []
  | name :: rest =>
      nsid <- readNVMeSysfsValue (JoinPaths [root; name; "nsid"]);;
      found <- first_namespaces root rest;;
      Ret (match nsid with Ok nsid => if String.eqb nsid "1" then name :: found else found | Err _ => found end)
  end.

Definition nvmeNamespaceDeviceForNQN (root nqn : string) : Host (res string) :=
  entries <- host (ReadDir root);;
  match entries with
  | Err e => Ret (Err (Errorf ("read NVMe block devices: " +:+ err_text e) [e]))
  | Ok entries =>
      matches <- owned_namespaces root nqn entries;;
      match matches with
      | [] => Ret (Err (Errorf (sentinel_text ErrNVMeDeviceNotFound +:+ " for NQN " +:+ nqn) [err_new ErrNVMeDeviceNotFound]))
      | [name] => Ret (Ok ("/dev/" +:+ name))
      | _ =>
          nsidOne <- first_namespaces root matches;;
          match nsidOne with
          | [name] => Ret (Ok ("/dev/" +:+ name))
          | _ => Ret (Err (Errorf (sentinel_text errNVMeAmbiguousNamespace +:+ " for NQN " +:+ nqn +:+ ": [" +:+
                                   Join matches " " +:+ "]") [err_new errNVMeAmbiguousNamespace]))
          end
      end
  end.

Definition nvmeNamespaceBase (device : string) : res string :=
  let name := Base device in
  let name := default name (nvmeNamespacePartition name) in
  if negb (nvmeNamespaceName name)
  then Err (Errorf (device +:+ ": " +:+ sentinel_text ErrNVMeNotNVMeDevice) [err_new ErrNVMeNotNVMeDevice])
  else Ok name.

Definition nvmeNQNForDevice (root device : string) : Host (res string) :=
  match nvmeNamespaceBase device with
  | Err e => Ret (Err e)
  | Ok name =>
      nqn <- readNVMeSysfsValue (JoinPaths [root; name; "device"; "subsysnqn"]);;
      match nqn with
      | Err e => Ret (Err (Errorf ("read namespace NQN: " +:+ err_text e) [e]))
      | Ok nqn => if String.eqb nqn "" then Ret (Err (err_new ErrNVMeEmptyNQN)) else Ret (Ok nqn)
      end
  end.

(** The controllers beneath a multipath subsystem: a live one, or the first
    whose state can be read; [first] is empty until there is one. *)
Fixpoint subsystem_controller (owner : string) (entries : list dirent) (first firstState : string)
    : Host (string * string) :=
  match entries with
  | [] => Ret (first, firstState)
  | e :: rest =>
      if negb (nvmeControllerName (de_Name e)) then subsystem_controller owner rest first firstState
      else
        ctrlState <- readNVMeSysfsValue (JoinPaths [owner; de_Name e; "state"]);;
        match ctrlState with
        | Err _ => subsystem_controller owner rest first firstState
        | Ok ctrlState =>
            let ctrlPath := "/dev/" +:+ de_Name e in
            if String.eqb ctrlState "live" then Ret (ctrlPath, ctrlState)
            else if String.eqb first "" then subsystem_controller owner rest ctrlPath ctrlState
            else subsystem_controller owner rest first firstState
        end
  end.

Definition nvmeControllerForNamespace (root device : string) : Host (res (string * string)) :=
  match nvmeNamespaceBase device with
  | Err e => Ret (Err e)
  | Ok name =>
      owner <- host (EvalSymlinks (JoinPaths [root; name; "device"]));;
      match owner with
      | Err e => Ret (Err (Errorf ("resolve namespace owner: " +:+ err_text e) [e]))
      | Ok owner =>
          if nvmeControllerName (Base owner) then
            ctrlState <- readNVMeSysfsValue (JoinPaths [owner; "state"]);;
            Ret (res_map (fun st => ("/dev/" +:+ Base owner, st)) ctrlState)
          else
            entries <- host (ReadDir owner);;
            match entries with
            | Err e => Ret (Err (Errorf ("read namespace controllers: " +:+ err_text e) [e]))
            | Ok entries =>
                let! (first, firstState) := subsystem_controller owner entries "" "" in
                if String.eqb first ""
                then Ret (Err (Errorf (sentinel_text ErrNVMeControllerNotFound +:+ ": " +:+ device) [err_new ErrNVMeControllerNotFound]))
                else Ret (Ok (first, firstState))
            end
      end
  end.

(** node_health.go *)
Definition getNVMeControllerState (devicePath : string) : Host (res string) :=
  r <- nvmeControllerForNamespace sysBlockPath devicePath;; Ret (res_map snd r).

(** node_nvmeof_device.go *)
Definition extractNVMeController (devicePath : string) : Host string :=
  r <- nvmeControllerForNamespace sysBlockPath devicePath;;
  Ret (match r with Ok (controller, _) => controller | Err _ => "" end).
