(* ===== verification/NodeFiles.v ===== *)
(** * Requests of the node service, and its NFS and SMB volumes

    node_nfs.go, node_nfs_linux.go, node_smb.go, node_smb_linux.go and the types
    of node.go.  Capabilities carry their mount flags here. *)

From S2P Require Import Prelude GoStrings Prog Errors Api Retry NodeHost MountInfo.

(** ** Requests *)

(** A capability with the mount flags of its mount, if it is one. *)
Record NodeCapability : Type := mkNodeCapability { nc_cap : VolumeCapability; nc_MountFlags : list string }.

(** [GetBlock() != nil] *)
Definition is_block (c : option NodeCapability) : bool :=
  match c with Some c => match cap_type (nc_cap c) with Block => true | _ => false end | None => false end.

(** [GetMount()]: the file system type and the flags. *)
Definition get_mount (c : option NodeCapability) : option (string * list string) :=
  match c with
  | Some c => match cap_type (nc_cap c) with Mount fsType => Some (fsType, nc_MountFlags c) | _ => None end
  | None => None
  end.

Definition user_flags (c : option NodeCapability) : list string :=
  match get_mount c with Some (_, flags) => flags | None => [] end.

Record NodeStageVolumeRequest : Type := mkNodeStage {
  st_VolumeId : string; st_StagingTargetPath : string; st_VolumeCapability : option NodeCapability;
  st_VolumeContext : gomap; st_Secrets : gomap
}.

Record NodeUnstageVolumeRequest : Type := mkNodeUnstage { us_VolumeId : string; us_StagingTargetPath : string }.

Record NodePublishVolumeRequest : Type := mkNodePublish {
  pb_VolumeId : string; pb_TargetPath : string; pb_StagingTargetPath : string;
  pb_VolumeCapability : option NodeCapability; pb_VolumeContext : gomap; pb_Readonly : bool
}.

(** The fields of the service that do not change; [nodeRegistry] and
    [apiClient] may be nil.  The test hooks [isSourceMountedFn], [isMountedFn]
    and [getMountRefsFn] are nil, as [NewNodeService] leaves them. *)
Record NodeService : Type := mkNodeService {
  nodeID : string; testMode : bool; enableDiscovery : bool; has_registry : bool; has_client : bool; connectCapacity : Z
}.

(** Responses of stage, unstage, publish and unpublish are empty messages. *)
Abbreviation node_result := (res unit).

(** ** Mount options *)

Definition mountOptBind : string := "bind".
Definition mountOptNetdev : string := "_netdev".
Definition mountOptNolock : string := "nolock".
Definition mountOptVers3_0 : string := "vers=3.0".
Definition mountOptNoatime : string := "noatime".
Definition mountOptErrorsContinue : string := "errors=continue".
Definition fsTypeExt2 : string := "ext2".
Definition fsTypeCIFS : string := "cifs".

Definition defaultNFSMountOptions : list string := ["vers=4.2"; mountOptNolock].
Definition defaultSMBMountOptions : list string := [mountOptVers3_0; "nosharesock"; "file_mode=0777"; "dir_mode=0777"].

Definition extractOptionKey (option : string) : string :=
  match Index option "=" with Some i => str_take i option | None => option end.

(** The user's options, and the defaults whose key the user did not set. *)
Definition merge_mount_options (defaults userOptions : list string) : list string :=
  match userOptions with
  | [] => defaults
  | _ =>
      let userOptionKeys := map extractOptionKey userOptions in
      userOptions ++
      List.filter (fun defaultOpt => negb (existsb (String.eqb (extractOptionKey defaultOpt)) userOptionKeys)) defaults
  end.

Definition getNFSMountOptions (userOptions : list string) : list string := merge_mount_options defaultNFSMountOptions userOptions.
Definition getSMBMountOptions (userOptions : list string) : list string := merge_mount_options defaultSMBMountOptions userOptions.

Definition isSMBKerberosAuth (mountOptions : list string) : bool :=
  existsb (fun opt => HasPrefix opt "sec=krb5") mountOptions.

(** ** Shared steps *)

(** [os.Stat], and [os.MkdirAll] where nothing is there. *)
Definition create_missing (what path : string) : Host (option error) :=
  err <- stat_err path;;
  match err with
  | Some e =>
      if IsNotExist e then
        err <- host (MkdirAll path);;
        Ret (match err with
             | Some e => Some (Status Internal ("Failed to create " +:+ what +:+ ": " +:+ err_text e))
             | None => None
             end)
      else Ret None
  | None => Ret None
  end.

(** A mount command; its failure is Internal. *)
Definition mount_command (args : list string) (failure : string) : Host node_result :=
  let! (output, err) := host (Command "mount" args) in
  match err with
  | Some e => Ret (Err (Status Internal (failure +:+ ": " +:+ err_text e +:+ ", output: " +:+ output)))
  | None => Ret (Ok tt)
  end.

(** Runs [k] where [path] is not mounted. *)
Definition unless_mounted (path failure : string) (k : Host node_result) : Host node_result :=
  mounted <- IsMounted path;;
  match mounted with
  | Err e => Ret (Err (Status Internal (failure +:+ ": " +:+ err_text e)))
  | Ok true => Ret (Ok tt)
  | Ok false => k
  end.

Definition bind_options (readonly : bool) : list string := if readonly then [mountOptBind; "ro"] else [mountOptBind].

Definition bind_mount (staging target : string) (readonly : bool) (failure : string) : Host node_result :=
  mount_command ["-o"; JoinMountOptions (bind_options readonly); staging; target] failure.

Section Service.
Context (s : NodeService).

(** Unstaging of a network share: never removes recursively. *)
Definition unstage_share (protocol path : string) : Host node_result :=
  if testMode s then host (Remove path) ;;; Ret (Ok tt)
  else
    mounted <- IsMounted path;;
    match mounted with
    | Err e => Ret (Err (Status Internal ("Failed to check if staging path is mounted: " +:+ err_text e)))
    | Ok mounted =>
        err <- (if mounted then Unmount path else Ret None);;
        match err with
        | Some e => Ret (Err (Status Internal ("Failed to unmount " +:+ protocol +:+ " staging path: " +:+ err_text e)))
        | None =>
            err <- host (Remove path);;
            match err with
            | Some e =>
                if IsNotExist e then Ret (Ok tt)
                else Ret (Err (Status Internal ("Failed to remove staging target path " +:+ path +:+ ": " +:+ err_text e)))
            | None => Ret (Ok tt)
            end
        end
    end.

Definition publish_share (protocol : string) (req : NodePublishVolumeRequest) : Host node_result :=
  err <- create_missing "target path" (pb_TargetPath req);;
  match err with
  | Some e => Ret (Err e)
  | None =>
      if testMode s then Ret (Ok tt)
      else
        unless_mounted (pb_TargetPath req) "Failed to check if path is mounted"
          (bind_mount (pb_StagingTargetPath req) (pb_TargetPath req) (pb_Readonly req)
             ("Failed to bind mount " +:+ protocol +:+ " volume"))
  end.

(** ** NFS *)

Definition stageNFSVolume (req : NodeStageVolumeRequest) (volumeContext : gomap) : Host node_result :=
  let staging := st_StagingTargetPath req in
  let server := volumeContext.["server"] in
  let share := volumeContext.["share"] in
  if String.eqb server "" || String.eqb share "" then
    Ret (Err (Status InvalidArgument "server and share must be provided in volume context for NFS volumes"))
  else
    err <- create_missing "staging target path" staging;;
    match err with
    | Some e => Ret (Err e)
    | None =>
        if testMode s then Ret (Ok tt)
        else
          unless_mounted staging "Failed to check if staging path is mounted"
            (mount_command ["-t"; ProtocolNFS; "-o"; JoinMountOptions (getNFSMountOptions (user_flags (st_VolumeCapability req)));
                            server +:+ ":" +:+ share; staging] "Failed to mount NFS share for staging")
    end.

Definition unstageNFSVolume (req : NodeUnstageVolumeRequest) : Host node_result :=
  unstage_share "NFS" (us_StagingTargetPath req).

Definition publishNFSVolume (req : NodePublishVolumeRequest) : Host node_result := publish_share "NFS" req.

(** ** SMB *)

(** The lines of a credentials file. *)
Definition credential_lines (secrets : gomap) : list string :=
  let line (key value : string) := key +:+ "=" +:+ value +:+ String newline "" in
  [line "username" secrets.["username"]] ++
  match map_lookup secrets "password" with Some password => [line "password" password] | None => [] end ++
  match map_lookup secrets "domain" with
  | Some domain => if String.eqb domain "" then [] else [line "domain" domain]
  | None => []
  end.

Definition writeSMBCredentialsFile (secrets : gomap) : Host (res string) :=
  if String.eqb secrets.["username"] "" then Ret (Err (err_new errSMBUsernameRequired))
  else
    f <- host (CreateTemp "smb-credentials-*");;
    match f with
    | Err e => Ret (Err (Errorf ("failed to create credentials temp file: " +:+ err_text e) [e]))
    | Ok path =>
        let clean_up e : Host (res string) := host (CloseFile path) ;;; host (Remove path) ;;; Ret (Err e) in
        err <- host (Chmod path 384);;
        match err with
        | Some e => clean_up (Errorf ("failed to set credentials file permissions: " +:+ err_text e) [e])
        | None =>
            failed <- for_range (credential_lines secrets) (fun line => host (WriteString path line));;
            match failed with
            | Some e => clean_up (Errorf ("failed to write credentials: " +:+ err_text e) [e])
            | None =>
                err <- host (CloseFile path);;
                match err with
                | Some e => clean_up (Errorf ("failed to close credentials file: " +:+ err_text e) [e])
                | None => Ret (Ok path)
                end
            end
        end
    end.

(** How the mount authenticates: its options and the file to remove after it. *)
Definition smb_credentials (secrets : gomap) (mountOptions : list string) : Host (res (list string * option string)) :=
  if negb (String.eqb secrets.["username"] "") && negb (isSMBKerberosAuth mountOptions) then
    credFile <- writeSMBCredentialsFile secrets;;
    match credFile with
    | Err e => Ret (Err (Status Internal ("Failed to write SMB credentials file: " +:+ err_text e)))
    | Ok credFile => Ret (Ok (mountOptions ++ ["credentials=" +:+ credFile], Some credFile))
    end
  else if negb (isSMBKerberosAuth mountOptions) then Ret (Ok (mountOptions ++ ["guest"], None))
  else Ret (Ok (mountOptions, None)).

Definition stageSMBVolume (req : NodeStageVolumeRequest) (volumeContext : gomap) : Host node_result :=
  let staging := st_StagingTargetPath req in
  let server := volumeContext.["server"] in
  let share := volumeContext.["share"] in
  if String.eqb server "" || String.eqb share "" then
    Ret (Err (Status InvalidArgument "server and share must be provided in volume context for SMB volumes"))
  else
    err <- create_missing "staging target path" staging;;
    match err with
    | Some e => Ret (Err e)
    | None =>
        if testMode s then Ret (Ok tt)
        else
          unless_mounted staging "Failed to check if staging path is mounted"
            (auth <- smb_credentials (st_Secrets req) (getSMBMountOptions (user_flags (st_VolumeCapability req)));;
             match auth with
             | Err e => Ret (Err e)
             | Ok (mountOptions, credFile) =>
                 r <- mount_command ["-t"; fsTypeCIFS; "-o"; JoinMountOptions mountOptions; "//" +:+ server +:+ "/" +:+ share; staging]
                        "Failed to mount SMB share for staging";;
                 match credFile with
                 | Some credFile => host (Remove credFile) ;;; Ret r
                 | None => Ret r
                 end
             end)
    end.

Definition unstageSMBVolume (req : NodeUnstageVolumeRequest) : Host node_result :=
  unstage_share "SMB" (us_StagingTargetPath req).

Definition publishSMBVolume (req : NodePublishVolumeRequest) : Host node_result := publish_share "SMB" req.
End Service.

Example option_examples :
  getNFSMountOptions [] = ["vers=4.2"; "nolock"] /\ getNFSMountOptions ["vers=3"; "ro"] = ["vers=3"; "ro"; "nolock"] /\
  isSMBKerberosAuth ["ro"; "sec=krb5i"] = true.
Proof. vm_compute. repeat split. Qed.
