(* ===== verification/NodeDevice.v ===== *)
(** * Block devices on the node

    Publishing and staging of devices (node_device.go), the single-writer check
    (node_publish.go), and the verification of a device before it is mounted
    (the second half of node_nvmeof_device.go, which iSCSI and NVMe-oF share). *)

From S2P Require Import Prelude GoStrings Prog Errors Api Retry NodeHost MountInfo NodeRecovery NodeFiles.

Definition millisecond_ns : Z := 1000000.

(** ** node_publish.go *)

Section Publish.
Context (s : NodeService).

Definition published_targets (req : NodePublishVolumeRequest) : Host (res (list string)) :=
  if testMode s then
    targets <- host (LoadPublications (pb_VolumeId req));; Ret (Ok (default [] targets))
  else if String.eqb (pb_StagingTargetPath req) "" then
    Ret (Err (Status InvalidArgument "Staging target path is required"))
  else
    refs <- GetBindMountRefs (pb_StagingTargetPath req);;
    match refs with
    | Err e => Ret (Err (Status Internal ("Failed to check existing volume publications: " +:+ err_text e)))
    | Ok refs => Ret (Ok refs)
    end.

Definition single_writer (c : option NodeCapability) : bool :=
  match c with
  | Some c => match cap_mode (nc_cap c) with SINGLE_NODE_SINGLE_WRITER => true | _ => false end
  | None => false
  end.

Definition checkSingleWriterPublication (req : NodePublishVolumeRequest) : Host (option error) :=
  if negb (single_writer (pb_VolumeCapability req)) then Ret None
  else
    refs <- published_targets req;;
    match refs with
    | Err e => Ret (Some e)
    | Ok refs =>
        if existsb (fun ref => negb (String.eqb (Clean ref) (Clean (pb_TargetPath req)))) refs
        then Ret (Some (Status FailedPrecondition
                          "Single-node-single-writer volume is already published at a different target path"))
        else Ret None
    end.
End Publish.

(** ** node_device.go *)

Definition publishBlockVolume (stagingTargetPath targetPath : string) (readonly : bool) : Host node_result :=
  stagingInfo <- host (Stat stagingTargetPath);;
  match stagingInfo with
  | Err e => Ret (Err (Status Internal ("Staging path " +:+ stagingTargetPath +:+ " not found: " +:+ err_text e)))
  | Ok Directory =>
      Ret (Err (Status Internal ("Staging path " +:+ stagingTargetPath +:+ " is a directory, expected block device or symlink")))
  | Ok _ =>
      let targetDir := Dir targetPath in
      mkdirErr <- host (MkdirAll targetDir);;
      match mkdirErr with
      | Some e => Ret (Err (Status Internal ("Failed to create target directory " +:+ targetDir +:+ ": " +:+ err_text e)))
      | None =>
          fileErr <- host (CreateExclusive targetPath);;
          if match fileErr with Some e => negb (IsExist e) | None => false end then
            Ret (Err (Status Internal ("Failed to create target file " +:+ targetPath +:+ ": " +:+ opt_err_text fileErr)))
          else
            unless_mounted targetPath "Failed to check if device is mounted"
              (r <- bind_mount stagingTargetPath targetPath readonly "Failed to bind mount block device";;
               match r with
               | Err e => host (Remove targetPath) ;;; Ret (Err e)
               | Ok _ => Ret (Ok tt)
               end)
      end
  end.

Definition publishFilesystemVolume (stagingTargetPath targetPath : string) (readonly : bool) : Host node_result :=
  stagingInfo <- host (Stat stagingTargetPath);;
  match stagingInfo with
  | Err e => Ret (Err (Status Internal ("Staging path " +:+ stagingTargetPath +:+ " not found: " +:+ err_text e)))
  | Ok kind =>
      if negb (IsDir kind) then Ret (Err (Status Internal ("Staging path " +:+ stagingTargetPath +:+ " is not a directory")))
      else
        mkdirErr <- host (MkdirAll targetPath);;
        match mkdirErr with
        | Some e => Ret (Err (Status Internal ("Failed to create target directory " +:+ targetPath +:+ ": " +:+ err_text e)))
        | None =>
            unless_mounted targetPath "Failed to check if target path is mounted"
              (bind_mount stagingTargetPath targetPath readonly "Failed to bind mount filesystem")
        end
  end.

(** Staged: the path is a symlink or a mount point, or that cannot be told. *)
Definition refuseTeardownWhileStaged (stagingTargetPath : string) : Host (option error) :=
  info <- host (Lstat stagingTargetPath);;
  let unreadable := match info with
                    | Ok true => Some (Status Unavailable ("block volume is still staged at " +:+ stagingTargetPath +:+
                                                           "; refusing to disconnect its session"))
                    | Ok false => None
                    | Err e => if IsNotExist e then None
                               else Some (Status Unavailable ("cannot inspect staging path " +:+ stagingTargetPath +:+
                                                              "; refusing to disconnect its session: " +:+ err_text e))
                    end in
  match unreadable with
  | Some e => Ret (Some e)
  | None =>
      mounted <- IsMounted stagingTargetPath;;
      Ret (match mounted with
           | Err e => Some (Status Unavailable ("cannot tell whether " +:+ stagingTargetPath +:+
                                                " is mounted; refusing to disconnect its session: " +:+ err_text e))
           | Ok true => Some (Status Unavailable ("volume is still mounted at " +:+ stagingTargetPath +:+
                                                  "; refusing to disconnect its session"))
           | Ok false => None
           end)
  end.

Definition link_device (devicePath stagingTargetPath : string) : Host node_result :=
  err <- host (MkdirAll (Dir stagingTargetPath));;
  match err with
  | Some e => Ret (Err (Status Internal ("Failed to create staging directory: " +:+ err_text e)))
  | None =>
      err <- host (Symlink devicePath stagingTargetPath);;
      match err with
      | Some e => Ret (Err (Status Internal ("Failed to create symlink from " +:+ stagingTargetPath +:+ " to " +:+
                                             devicePath +:+ ": " +:+ err_text e)))
      | None => Ret (Ok tt)
      end
  end.

Definition stageBlockDevice (devicePath stagingTargetPath : string) : Host node_result :=
  err <- stat_err devicePath;;
  match err with
  | Some e => Ret (Err (Status Internal ("Device path " +:+ devicePath +:+ " not found: " +:+ err_text e)))
  | None =>
      err <- stat_err stagingTargetPath;;
      match err with
      | Some _ => link_device devicePath stagingTargetPath
      | None =>
          targetDevice <- host (EvalSymlinks stagingTargetPath);;
          if match targetDevice with Ok d => String.eqb d devicePath | Err _ => false end then Ret (Ok tt)
          else
            removeErr <- host (Remove stagingTargetPath);;
            match removeErr with
            | Some e => Ret (Err (Status Internal ("Failed to remove incorrect staging path: " +:+ err_text e)))
            | None => link_device devicePath stagingTargetPath
            end
      end
  end.

(** ** node_nvmeof_device.go: is the device ready *)

(** A positive decimal size. *)
Definition positive_size (answer : string * option error) : bool :=
  match answer.2 with
  | Some _ => false
  | None => match ParseInt (TrimSpace answer.1) with Some size => 0 <? size | None => false end
  end.

Definition initialization_cancelled (devicePath : string) (e : error) : error :=
  Errorf (sentinel_text ErrDeviceInitializationTimeout +:+ " for device " +:+ devicePath +:+ ": " +:+ err_text e)
    [err_new ErrDeviceInitializationTimeout; e].

(** [n] attempts are left. *)
Fixpoint initialization_loop (n : nat) (devicePath : string) : Host (option error) :=
  match n with
  | O => Ret (Some (err_new ErrDeviceInitializationTimeout))
  | S n' =>
      cancelled <- host CtxDone;;
      match cancelled with
      | Some e => Ret (Some (initialization_cancelled devicePath e))
      | None =>
          answer <- host (Command "blockdev" ["--getsize64"; devicePath]);;
          if positive_size answer then Ret None
          else
            match n' with
            | O => initialization_loop n' devicePath
            | S _ =>
                cancelled <- host (SleepOrDone second_ns);;
                match cancelled with
                | Some e => Ret (Some (initialization_cancelled devicePath e))
                | None => initialization_loop n' devicePath
                end
            end
      end
  end.

Definition waitForDeviceInitialization (devicePath : string) : Host (option error) := initialization_loop 60 devicePath.

(** Never fails. *)
Definition forceDeviceRescan (devicePath : string) : Host unit :=
  host (Command "blockdev" ["--flushbufs"; devicePath]) ;;;
  host (Command "udevadm" ["trigger"; "--action=change"; devicePath]) ;;;
  host (Command "udevadm" ["settle"; "--timeout=5"]) ;;; Ret tt.

(** Looks that are only logged. *)
Definition logDeviceInfo (devicePath : string) : Host unit :=
  err <- stat_err devicePath;;
  match err with
  | Some _ => Ret tt
  | None =>
      host (Command "blockdev" ["--getsize64"; devicePath]) ;;;
      host (Command "blkid" ["-p"; "-s"; "UUID"; "-o"; "value"; devicePath]) ;;;
      host (Command "blkid" ["-p"; "-s"; "TYPE"; "-o"; "value"; devicePath]) ;;; Ret tt
  end.

(** ** Is it the device of the volume *)

(** The error of [strconv.ParseInt] where it fails. *)
Definition ParseInt_error (text : string) : error :=
  let digits := match text with
                | String c t => if Ascii.eqb c "-" || Ascii.eqb c "+" then t else text
                | EmptyString => text
                end in
  let what msg := "strconv.ParseInt: parsing " +:+ Quote text +:+ ": " +:+ msg in
  match parse_digits digits with
  | Some _ => Errorf (what "value out of range") []
  | None => Errorf (what "invalid syntax") [err_new strconv_ErrSyntax]
  end.

Definition getBlockDeviceSize (devicePath : string) : Host (res Z) :=
  let! (sizeOutput, err) := host (Command "blockdev" ["--getsize64"; devicePath]) in
  match err with
  | Some e => Ret (Err (Errorf ("failed to get device size: " +:+ err_text e) [e]))
  | None =>
      match ParseInt (TrimSpace sizeOutput) with
      | Some size => Ret (Ok size)
      | None => Ret (Err (Errorf ("failed to parse device size: " +:+ err_text (ParseInt_error (TrimSpace sizeOutput)))
                            [ParseInt_error (TrimSpace sizeOutput)]))
      end
  end.

(** The closure that splits [filesystem/name]. *)
Definition split_dataset (name : string) : option (string * string) :=
  match Index name "/" with
  | Some idx => if (idx =? str_len name - 1)%nat then None else Some (str_take idx name, str_drop (S idx) name)
  | None => None
  end.

Section Verify.
Context (s : NodeService).

Definition getExpectedCapacity (datasetName : string) (volumeContext : gomap) : Host Z :=
  match ParseInt volumeContext.["expectedCapacity"] with
  | Some capacity => Ret capacity
  | None =>
      if String.eqb datasetName "" || negb (has_client s) then Ret 0
      else
        match split_dataset datasetName with
        | None => Ret 0
        | Some (filesystem, name) =>
            let! (subvol, err) := host (NodeGetSubvolume filesystem name) in
            match err with
            | Some _ => Ret 0
            | None =>
                Ret (match subvol with
                     | Some sv => match sv_VolsizeBytes sv with Some v => to_int64 v | None => 0 end
                     | None => 0
                     end)
            end
        end
  end.

Definition minTolerance : Z := 100 * 1024 * 1024.

Definition size_tolerance (expectedCapacity : Z) : Z :=
  let tolerance := div64 expectedCapacity 10 in if tolerance <? minTolerance then minTolerance else tolerance.

Definition verifySizeMatch (actualSize expectedCapacity : Z) : option error :=
  if expectedCapacity <=? actualSize then None
  else
    let sizeDiff := sub64 expectedCapacity actualSize in
    if size_tolerance expectedCapacity <? sizeDiff then
      Some (Errorf (sentinel_text ErrDeviceSizeMismatch +:+ ": expected " +:+ FormatInt expectedCapacity +:+ " bytes, got " +:+
                    FormatInt actualSize +:+ " bytes (diff: " +:+ FormatInt sizeDiff +:+ " bytes)") [err_new ErrDeviceSizeMismatch])
    else None.

Definition verifyDeviceSize (devicePath : string) (volumeContext : gomap) : Host (option error) :=
  let datasetName := volumeContext.["datasetName"] in
  size <- getBlockDeviceSize devicePath;;
  match size with
  | Err e =>
      statErr <- stat_err devicePath;;
      Ret (match statErr with
           | Some _ => Some (Status Unavailable ("device " +:+ devicePath +:+ " became unavailable: " +:+ err_text e))
           | None => Some e
           end)
  | Ok actualSize =>
      expectedCapacity <- getExpectedCapacity datasetName volumeContext;;
      Ret (if expectedCapacity =? 0 then None else verifySizeMatch actualSize expectedCapacity)
  end.

(** ** Is there the file system that the backend created *)

Definition maxProbeAttempts : nat := 3.

(** The error that ends the probing, or the last failure, empty when the file
    system was found, and whether it was a missing signature.  [n] attempts are
    left, the next is number [attempt]. *)
Fixpoint probe_loop (n : nat) (attempt : Z) (devicePath fsType lastFailure : string) (lastNoSignature : bool)
    : Host (res (string * bool)) :=
  match n with
  | O => Ret (Ok (lastFailure, lastNoSignature))
  | S n' =>
      let! (output, err) := host (Command "blkid" ["-p"; "-s"; "TYPE"; "-o"; "value"; devicePath]) in
      probeErr <- host CtxDone;;
      ctx <- host CtxDone;;
      match ctx with
      | Some e => Ret (Err (FromContextError e))
      | None =>
          let detected := TrimSpace output in
          let clean := match probeErr, err with None, None => negb (String.eqb detected "") | _, _ => false end in
          if clean then
            if negb (String.eqb detected fsType) then
              Ret (Err (Status FailedPrecondition ("filesystem type mismatch for " +:+ devicePath +:+ ": expected " +:+ fsType +:+
                                                   ", detected " +:+ detected)))
            else Ret (Ok ("", lastNoSignature))
          else
            let '(lastFailure, lastNoSignature) :=
              match probeErr, err with
              | Some e, _ => (err_text e, false)
              | None, Some e => (err_text e +:+ " (output: " +:+ output +:+ ")",
                                 bool_decide (exit_code e = Some 2) && String.eqb detected "")
              | None, None => ("probe returned no filesystem type", true)
              end in
            match n' with
            | O => probe_loop n' (attempt + 1) devicePath fsType lastFailure lastNoSignature
            | S _ =>
                cancelled <- host (SleepOrDone (attempt * 500 * millisecond_ns));;
                match cancelled with
                | Some e => Ret (Err (FromContextError e))
                | None => probe_loop n' (attempt + 1) devicePath fsType lastFailure lastNoSignature
                end
            end
      end
  end.

Definition is_ext (fsType : string) : bool :=
  String.eqb fsType fsTypeExt2 || String.eqb fsType fsTypeExt3 || String.eqb fsType fsTypeExt4.

Definition repairFilesystem (devicePath fsType : string) : Host (option error) :=
  if negb (is_ext fsType) then Ret None
  else
    ctx <- host CtxDone;;
    match ctx with
    | Some e => Ret (Some e)
    | None =>
        let! (output, err) := host (Command "e2fsck" ["-p"; "-f"; devicePath]) in
        Ret (match err with
             | Some e =>
                 if bool_decide (exit_code e = Some 1) then None
                 else Some (Errorf (sentinel_text errFsckFailed +:+ ": " +:+ err_text e +:+ ": " +:+ output) [err_new errFsckFailed; e])
             | None => None
             end)
    end.

(** An ext file system is only repaired on a device that is not mounted. *)
Definition check_not_mounted (devicePath fsType : string) : Host (option error) :=
  if negb (is_ext fsType) then Ret None
  else
    mounted <- IsSourceMounted devicePath;;
    Ret (match mounted with
         | Err e => Some (Status Unavailable ("cannot verify whether device " +:+ devicePath +:+ " is mounted: " +:+ err_text e))
         | Ok true => Some (Status FailedPrecondition ("refusing to repair mounted device " +:+ devicePath))
         | Ok false => None
         end).

Definition prepareFilesystemForMount (devicePath fsType : string) : Host (option error) :=
  probed <- probe_loop maxProbeAttempts 1 devicePath fsType "" false;;
  match probed with
  | Err e => Ret (Some e)
  | Ok (lastFailure, lastNoSignature) =>
      if negb (String.eqb lastFailure "") then
        Ret (Some (if (lastNoSignature : bool)
                   then Status FailedPrecondition ("device " +:+ devicePath +:+
                          " has no filesystem signature; automatic node formatting is disabled")
                   else Status Unavailable ("filesystem verification failed for " +:+ devicePath +:+ " after 3 attempts: " +:+ lastFailure)))
      else
        mounted <- check_not_mounted devicePath fsType;;
        match mounted with
        | Some e => Ret (Some e)
        | None =>
            err <- repairFilesystem devicePath fsType;;
            Ret (match err with
                 | Some e => Some (Status FailedPrecondition ("filesystem repair failed for " +:+ devicePath +:+
                                                              "; refusing writable mount: " +:+ err_text e))
                 | None => None
                 end)
        end
  end.

(** ** Verification and mount, the common part of formatAndMountISCSIDevice and
    formatAndMountNVMeDevice *)

(** The file system type that the capability asks for. *)
Definition wanted_type (c : option NodeCapability) : string :=
  match get_mount c with
  | Some (fsType, _) => if String.eqb fsType "" then fsTypeExt4 else fsType
  | None => fsTypeExt4
  end.

(** [getMountOptions] is the protocol's. *)
Definition verify_and_mount (getMountOptions : list string -> list string) (mismatch devicePath stagingTargetPath : string)
    (cap : option NodeCapability) (volumeContext : gomap) : Host node_result :=
  logDeviceInfo devicePath ;;;
  sizeErr <- verifyDeviceSize devicePath volumeContext;;
  match sizeErr with
  | Some e => Ret (Err (Status FailedPrecondition (mismatch +:+ ": " +:+ err_text e)))
  | None =>
      mkdirErr <- host (MkdirAll stagingTargetPath);;
      match mkdirErr with
      | Some e => Ret (Err (Status Internal ("Failed to create staging target path: " +:+ err_text e)))
      | None =>
          unless_mounted stagingTargetPath "Failed to check if staging path is mounted"
            (prepareErr <- prepareFilesystemForMount devicePath (wanted_type cap);;
             match prepareErr with
             | Some e => Ret (Err e)
             | None =>
                 let mountOptions := getMountOptions (user_flags cap) in
                 mount_command (match mountOptions with
                                | [] => [devicePath; stagingTargetPath]
                                | _ => ["-o"; JoinMountOptions mountOptions; devicePath; stagingTargetPath]
                                end) "Failed to mount device"
             end)
      end
  end.
End Verify.
