(* ===== verification/NodeNvme.v ===== *)
(** * NVMe-oF volumes on the node

    Connection (node_nvmeof_device.go), discovery of the device
    (node_nvmeof_discovery.go), staging and unstaging (node_nvmeof.go). *)

From S2P Require Import Prelude GoStrings Prog Errors Api Retry NodeHost MountInfo NodeRecovery NodeSysfs NodeFiles NodeDevice.

(** ** Connection parameters *)

Record nvmeOFConnectionParams : Type := mkNvmeParams {
  np_nqn : string; np_server : string; np_transport : string; np_port : string; np_nrIOQueues : string; np_queueSize : string
}.

Definition or_default (value dflt : string) : string := if String.eqb value "" then dflt else value.

Definition validateNVMeOFParams (volumeContext : gomap) : res nvmeOFConnectionParams :=
  if String.eqb volumeContext.["nqn"] "" || String.eqb volumeContext.["server"] "" then
    Err (Status InvalidArgument "nqn and server must be provided in volume context for NVMe-oF volumes")
  else
    Ok (mkNvmeParams volumeContext.["nqn"] volumeContext.["server"] (or_default volumeContext.["transport"] "tcp")
          (or_default volumeContext.["port"] "4420") volumeContext.["nvmeof.nr-io-queues"] volumeContext.["nvmeof.queue-size"]).

(** ** Connecting *)

Definition connect_args (p : nvmeOFConnectionParams) : list string :=
  ["connect"; "-t"; np_transport p; "-n"; np_nqn p; "-a"; np_server p; "-s"; np_port p;
   "--keep-alive-tmo=15"; "--ctrl-loss-tmo=120"; "--reconnect-delay=5"] ++
  [if negb (String.eqb (np_nrIOQueues p) "") then "--nr-io-queues=" +:+ np_nrIOQueues p else "--nr-io-queues=4"] ++
  (if negb (String.eqb (np_queueSize p) "") then ["--queue-size=" +:+ np_queueSize p] else []).

Definition attemptNVMeConnect (p : nvmeOFConnectionParams) : Host node_result :=
  let! (output, err) := host (Command "nvme" (connect_args p)) in
  match err with
  | Some e =>
      if Contains output "already connected" then Ret (Ok tt)
      else Ret (Err (Errorf ("nvme connect failed: " +:+ err_text e +:+ ", output: " +:+ output) [e]))
  | None => Ret (Ok tt)
  end.

Definition isRetryableNVMeConnectError (err : error) : bool :=
  containsAny (err_text err)
    ["failed to write to nvme-fabrics device"; "could not add new controller"; "connection refused"; "connection timed out";
     "No route to host"; "Host is down"; "Network is unreachable"].

Definition float_three_halves : float64 := SpecFloat.binary_normalize 53 1024 3 (-1) false.

Definition connect_config (p : nvmeOFConnectionParams) : Config :=
  mkConfig 6 (2 * second_ns) (10 * second_ns) float_three_halves (Some isRetryableNVMeConnectError)
    ("nvme-connect(" +:+ np_nqn p +:+ ")").

Definition triggerUdevForNVMeSubsystem : Host unit :=
  host (Command "udevadm" ["trigger"; "--action=add"; "--subsystem-match=nvme"]) ;;;
  host (Command "udevadm" ["trigger"; "--action=add"; "--subsystem-match=block"]) ;;;
  host (Command "udevadm" ["settle"; "--timeout=10"]) ;;; Ret tt.

Definition connectNVMeOFTarget (s : NodeService) (p : nvmeOFConnectionParams) : Host (option error) :=
  (if enableDiscovery s
   then host (Command "nvme" ["discover"; "-t"; np_transport p; "-a"; np_server p; "-s"; np_port p]) ;;; Ret tt
   else Ret tt) ;;;
  r <- WithRetry (connect_config p) (attemptNVMeConnect p);;
  match r with
  | Err e => Ret (Some e)
  | Ok _ => host (NodeSleep (2 * second_ns)) ;;; triggerUdevForNVMeSubsystem ;;; Ret None
  end.

Definition checkNVMeCLI : Host (option error) :=
  let! (_, err) := host (Command "nvme" ["version"]) in
  Ret (match err with
       | Some e => Some (Errorf (sentinel_text ErrNVMeCLINotFound +:+ ": " +:+ err_text e) [err_new ErrNVMeCLINotFound; e])
       | None => None
       end).

Definition disconnectNVMeOF (nqn : string) : Host (option error) :=
  let! (output, err) := host (Command "nvme" ["disconnect"; "-n"; nqn]) in
  match err with
  | Some e =>
      if Contains output "No subsystems" || Contains output "not found" then Ret None
      else Ret (Some (Errorf ("failed to disconnect NVMe-oF device: " +:+ err_text e +:+ ", output: " +:+ output) [e]))
  | None => host (NodeSleep (1 * second_ns)) ;;; Ret None
  end.

Definition rescanNVMeNamespace (devicePath : string) : Host (option error) :=
  controllerPath <- extractNVMeController devicePath;;
  if String.eqb controllerPath "" then
    Ret (Some (Errorf (sentinel_text ErrNVMeControllerNotFound +:+ ": " +:+ devicePath) [err_new ErrNVMeControllerNotFound]))
  else
    let! (output, err) := host (Command "nvme" ["ns-rescan"; controllerPath]) in
    Ret (match err with
         | Some e => Some (Errorf ("ns-rescan failed: " +:+ err_text e +:+ ", output: " +:+ output) [e])
         | None => None
         end).

(** ** The state of a subsystem *)

Definition dquote : ascii := quote_char.
Definition quoted (s : string) : string := String dquote (s +:+ String dquote "").

(** The values two parts after a key, among the parts of a line split at its
    quotation marks. *)
Fixpoint field_values (key : string) (parts : list string) : list string :=
  match parts with
  | p :: ((_ :: v :: _) as rest) => if String.eqb p key then TrimSpace v :: field_values key rest else field_values key rest
  | _ => []
  end.

Fixpoint subsystem_state_lines (l : list string) (nqn : string) (foundNQN : bool) : string :=
  match l with
  | [] => ""
  | line :: rest =>
      let foundNQN := foundNQN || Contains line nqn in
      match (if foundNQN && Contains line (quoted "State") then head (field_values "State" (Split line dquote)) else None) with
      | Some state => state
      | None =>
          if foundNQN && Contains line (quoted "NQN") && negb (Contains line nqn) then ""
          else subsystem_state_lines rest nqn foundNQN
      end
  end.

Definition runNVMeListSubsys : Host (string * option error) := host (Command "nvme" ["list-subsys"; "-o"; "json"]).

Definition getSubsystemState (nqn : string) : Host string :=
  let! (output, err) := runNVMeListSubsys in
  Ret (match err with Some _ => "" | None => subsystem_state_lines (lines output) nqn false end).

Definition subsystem_timeout (nqn state : string) (attempt : Z) : error :=
  Errorf (sentinel_text ErrNVMeSubsystemTimeout +:+ ": NQN=" +:+ nqn +:+ ", last state=" +:+ Quote state +:+ ", attempts=" +:+
          FormatInt attempt) [err_new ErrNVMeSubsystemTimeout].

Definition final_state_check (nqn : string) (attempt : Z) : Host (option error) :=
  finalState <- getSubsystemState nqn;;
  Ret (if String.eqb finalState nvmeSubsystemStateLive then None else Some (subsystem_timeout nqn finalState attempt)).

(** [n] attempts are left of [maxAttempts]. *)
Fixpoint subsystem_live_loop (n : nat) (attempt : Z) (nqn : string) (deadline : Z) : Host (option error) :=
  now <- host Now;;
  if negb (now <? deadline) then final_state_check nqn attempt
  else
    match n with
    | O => final_state_check nqn attempt
    | S n' =>
        let attempt := attempt + 1 in
        state <- getSubsystemState nqn;;
        if String.eqb state nvmeSubsystemStateLive then Ret None
        else
          (if attempt mod 5 =? 0 then triggerUdevForNVMeSubsystem else Ret tt) ;;;
          cancelled <- host (SleepOrDone (2 * second_ns));;
          match cancelled with
          | Some e => Ret (Some (Errorf ("context canceled while waiting for subsystem " +:+ nqn +:+ " to become live: " +:+ err_text e) [e]))
          | None => subsystem_live_loop n' attempt nqn deadline
          end
    end.

Definition waitForSubsystemLive (nqn : string) (timeout : Z) : Host (option error) :=
  now <- host Now;; subsystem_live_loop 30 0 nqn (now + timeout).

(** ** The device of a subsystem *)

Definition isDeviceHealthy (devicePath : string) : Host bool :=
  answer <- host (Command "blockdev" ["--getsize64"; devicePath]);; Ret (positive_size answer).

Definition forceNamespaceRescan (controllerPath : string) : Host unit :=
  host (Command "nvme" ["ns-rescan"; controllerPath]) ;;; Ret tt.

Definition is_ambiguous (r : res string) : option error :=
  match r with Err e => if errors_Is e errNVMeAmbiguousNamespace then Some e else None | Ok _ => None end.

(** A device path and an error; an unhealthy device comes with both. *)
Abbreviation found_device := (string * option error)%type.

(** Names of controllers: nvme0, nvme1, but not namespaces or paths. *)
Definition sys_controller_entry (deviceName : string) : bool :=
  HasPrefix deviceName "nvme" && negb (Contains deviceName "-") && negb (Contains (str_drop 4 deviceName) "n").

(** The namespace of a controller whose subsystem matches: rescanned once. *)
Definition matching_controller (nqn deviceName : string) : Host found_device :=
  identity <- nvmeNamespaceDeviceForNQN sysBlockPath nqn;;
  match identity with
  | Err e =>
      if errors_Is e errNVMeAmbiguousNamespace then Ret ("", Some e)
      else Ret ("", Some (Errorf (sentinel_text ErrNVMeDeviceUnhealthy +:+ ": namespace for " +:+ nqn +:+ " not ready: " +:+ err_text e)
                            [err_new ErrNVMeDeviceUnhealthy; e]))
  | Ok devicePath =>
      err <- stat_err devicePath;;
      healthy <- (match err with None => isDeviceHealthy devicePath | Some _ => Ret false end);;
      if (healthy : bool) then Ret (devicePath, None)
      else
        forceNamespaceRescan ("/dev/" +:+ deviceName) ;;;
        err <- stat_err devicePath;;
        healthy <- (match err with None => isDeviceHealthy devicePath | Some _ => Ret false end);;
        if (healthy : bool) then Ret (devicePath, None)
        else Ret (devicePath, Some (Errorf (sentinel_text ErrNVMeDeviceUnhealthy +:+ ": " +:+ devicePath +:+ " (controller: " +:+
                                            deviceName +:+ ")") [err_new ErrNVMeDeviceUnhealthy]))
  end.

Fixpoint sys_controllers (nqn : string) (entries : list dirent) : Host found_device :=
  match entries with
  | [] => Ret ("", Some (Errorf (sentinel_text ErrNVMeDeviceNotFound +:+ " for NQN: " +:+ nqn) [err_new ErrNVMeDeviceNotFound]))
  | e :: rest =>
      if negb (sys_controller_entry (de_Name e)) then sys_controllers nqn rest
      else
        data <- host (ReadFile (JoinPaths ["/sys/class/nvme"; de_Name e; "subsysnqn"]));;
        match data with
        | Err _ => sys_controllers nqn rest
        | Ok data => if String.eqb (TrimSpace data) nqn then matching_controller nqn (de_Name e) else sys_controllers nqn rest
        end
  end.

(** Runs [k] where the context is alive and the NQN is not ambiguous. *)
Definition unambiguous (nqn : string) (k : Host found_device) : Host found_device :=
  ctx <- host CtxDone;;
  match ctx with
  | Some e => Ret ("", Some e)
  | None =>
      identity <- nvmeNamespaceDeviceForNQN sysBlockPath nqn;;
      match is_ambiguous identity with
      | Some e => Ret ("", Some e)
      | None => k
      end
  end.

Definition findNVMeDeviceByNQNFromSys (nqn : string) : Host found_device :=
  unambiguous nqn
    (entries <- host (ReadDir "/sys/class/nvme");;
     match entries with
     | Err e => Ret ("", Some (Errorf ("failed to read /sys/class/nvme: " +:+ err_text e) [e]))
     | Ok entries => sys_controllers nqn entries
     end).

Definition names_nvme (line : string) : bool := Contains line (quoted "Name") && Contains line "nvme".

(** A line that names a controller, among those that follow the NQN. *)
Definition names_controller (l : list string) : bool :=
  existsb (fun line => names_nvme line && negb (String.eqb (default "" (head (field_values "Name" (Split line dquote)))) "")) l.

Fixpoint parseNVMeListSubsysOutputForNQN (l : list string) (nqn : string) : Host string :=
  match l with
  | [] => Ret ""
  | line :: rest =>
      if Contains line nqn && names_controller (take 20 l) then
        device <- nvmeNamespaceDeviceForNQN sysBlockPath nqn;;
        match device with
        | Ok devicePath => if negb (String.eqb devicePath "") then Ret devicePath else parseNVMeListSubsysOutputForNQN rest nqn
        | Err _ => parseNVMeListSubsysOutputForNQN rest nqn
        end
      else parseNVMeListSubsysOutputForNQN rest nqn
  end.

Definition findNVMeDeviceByNQN (nqn : string) : Host found_device :=
  unambiguous nqn
    (let! (output, err) := runNVMeListSubsys in
     match err with
     | Some _ => findNVMeDeviceByNQNFromSys nqn
     | None =>
         devicePath <- parseNVMeListSubsysOutputForNQN (lines output) nqn;;
         if negb (String.eqb devicePath "") then Ret (devicePath, None) else findNVMeDeviceByNQNFromSys nqn
     end).

(** [first]: the line is the first of the output. *)
Fixpoint controller_lines (l : list string) (nqn : string) (foundNQN first : bool) : string :=
  match l with
  | [] => ""
  | line :: rest =>
      let foundNQN := foundNQN || Contains line nqn in
      match (if foundNQN && names_nvme line then List.find nvmeControllerName (field_values "Name" (Split line dquote)) else None) with
      | Some name => name
      | None =>
          let foundNQN := if foundNQN && negb first && Contains line "NQN" && negb (Contains line nqn) then false else foundNQN in
          controller_lines rest nqn foundNQN false
      end
  end.

Definition findControllerForNQN (output nqn : string) : string := controller_lines (lines output) nqn false true.

(** The device, the name of its controller, and the error. *)
Definition findNVMeDeviceByNQNWithController (nqn : string) : Host (found_device * string) :=
  ctx <- host CtxDone;;
  match ctx with
  | Some e => Ret (("", Some e), "")
  | None =>
      identity <- nvmeNamespaceDeviceForNQN sysBlockPath nqn;;
      match is_ambiguous identity with
      | Some e => Ret (("", Some e), "")
      | None =>
          let! (output, listErr) := runNVMeListSubsys in
          let controllerName := match listErr with None => findControllerForNQN output nqn | Some _ => "" end in
          if String.eqb controllerName "" then
            found <- findNVMeDeviceByNQNFromSys nqn;; Ret (found, "")
          else
            device <- nvmeNamespaceDeviceForNQN sysBlockPath nqn;;
            match device with
            | Err e => Ret (("", Some e), controllerName)
            | Ok devicePath =>
                owner <- nvmeControllerForNamespace sysBlockPath devicePath;;
                match owner with
                | Err e => Ret (("", Some e), "")
                | Ok (controller, _) => Ret ((devicePath, None), Base controller)
                end
            end
      end
  end.

(** ** Waiting for the device *)

Definition diagnosed_entry (e : dirent) : bool :=
  de_IsDir e && HasPrefix (de_Name e) "nvme" && negb (Contains (de_Name e) "-") &&
  negb ((4 <? str_len (de_Name e))%nat && Contains (str_drop 4 (de_Name e)) "n").

(** Looks that are only logged. *)
Definition logNVMeDiscoveryDiagnostics : Host unit :=
  host (Command "nvme" ["list-subsys"]) ;;;
  host (Command "nvme" ["list"]) ;;;
  entries <- host (ReadDir "/sys/class/nvme");;
  (match entries with
   | Ok entries =>
       for_range (List.filter diagnosed_entry entries) (fun e =>
         host (ReadFile ("/sys/class/nvme/" +:+ de_Name e +:+ "/subsysnqn")) ;;; Ret (None : option unit)) ;;; Ret tt
   | Err _ => Ret tt
   end) ;;;
  host (Command "ls" ["-la"; "/dev/nvme*"]) ;;; Ret tt.

(** What one attempt of the waiting loop concludes. *)
Inductive wait_step : Type :=
| WaitFound (devicePath : string)
| WaitFailed (e : error)
| WaitAgain (lastControllerFound : string).

Definition periodic (attempt : Z) (k : Host unit) : Host unit := if attempt mod 5 =? 0 then k else Ret tt.

(** The [switch] of the loop. *)
Definition wait_attempt (attempt : Z) (lastControllerFound : string) (found : found_device) (controllerName : string)
    : Host wait_step :=
  let devicePath := found.1 in
  let rescan := forceNamespaceRescan ("/dev/" +:+ controllerName) in
  let is_err t := match found.2 with Some e => errors_Is e t | None => false end in
  let known := negb (String.eqb controllerName "") in
  if match found.2 with None => negb (String.eqb devicePath "") | Some _ => false end then
    statErr <- stat_err devicePath;;
    match statErr with
    | None =>
        healthy <- isDeviceHealthy devicePath;;
        if (healthy : bool) then Ret (WaitFound devicePath)
        else (if known then periodic attempt rescan else Ret tt) ;;; Ret (WaitAgain lastControllerFound)
    | Some _ =>
        if known then
          if negb (String.eqb controllerName lastControllerFound) then rescan ;;; Ret (WaitAgain controllerName)
          else periodic attempt rescan ;;; Ret (WaitAgain lastControllerFound)
        else Ret (WaitAgain lastControllerFound)
    end
  else if is_err ErrNVMeDeviceUnhealthy then
    periodic attempt (ctrl <- extractNVMeController devicePath;;
                      if String.eqb ctrl "" then Ret tt else forceNamespaceRescan ctrl) ;;;
    Ret (WaitAgain lastControllerFound)
  else if is_err ErrNVMeDeviceNotFound && known then
    if negb (String.eqb controllerName lastControllerFound) || (attempt mod 5 =? 0)
    then rescan ;;; Ret (WaitAgain controllerName)
    else Ret (WaitAgain lastControllerFound)
  else
    match found.2 with
    | Some e =>
        if errors_Is e errNVMeAmbiguousNamespace then Ret (WaitFailed e)
        else (if attempt mod 10 =? 0 then logNVMeDiscoveryDiagnostics else Ret tt) ;;; Ret (WaitAgain lastControllerFound)
    | None => (if attempt mod 10 =? 0 then logNVMeDiscoveryDiagnostics else Ret tt) ;;; Ret (WaitAgain lastControllerFound)
    end.

(** [Panic]: out of fuel, which [NodeEvidence.wp_waitForNVMeDevice]
    excludes for a clock that advances. *)
Fixpoint device_wait_loop (fuel : nat) (attempt : Z) (lastControllerFound nqn : string) (deadline : Z) : Host (res string) :=
  match fuel with
  | O => Panic
  | S fuel =>
      now <- host Now;;
      if negb (now <? deadline) then
        logNVMeDiscoveryDiagnostics ;;;
        Ret (Err (Errorf (sentinel_text ErrNVMeDeviceTimeout +:+ " after " +:+ FormatInt attempt +:+ " attempts (NQN: " +:+ nqn +:+
                          ", timeout: 30s)") [err_new ErrNVMeDeviceTimeout]))
      else
        let attempt := attempt + 1 in
        let! (found, controllerName) := findNVMeDeviceByNQNWithController nqn in
        step <- wait_attempt attempt lastControllerFound found controllerName;;
        match step with
        | WaitFound devicePath => Ret (Ok devicePath)
        | WaitFailed e => Ret (Err e)
        | WaitAgain lastControllerFound =>
            (if attempt mod 10 =? 0 then triggerUdevForNVMeSubsystem else Ret tt) ;;;
            cancelled <- host (SleepOrDone (2 * second_ns));;
            match cancelled with
            | Some e => Ret (Err (Errorf ("context canceled while waiting for NVMe device: " +:+ err_text e) [e]))
            | None => device_wait_loop fuel attempt lastControllerFound nqn deadline
            end
        end
  end.

(** With the time limit of its only caller, 30 seconds in steps of 2. *)
Definition waitForNVMeDevice (nqn : string) : Host (res string) :=
  now <- host Now;; device_wait_loop poll_fuel 0 "" nqn (now + 30 * second_ns).

(** ** Staging (node_nvmeof.go) *)

(** [n] attempts are left. *)
Fixpoint health_attempts (n : nat) (devicePath : string) : Host bool :=
  match n with
  | O => Ret false
  | S n' =>
      answer <- host (Command "blockdev" ["--getsize64"; devicePath]);;
      if positive_size answer then Ret true
      else
        match n' with
        | O => Ret false
        | S _ => host (NodeSleep (500 * millisecond_ns)) ;;; health_attempts n' devicePath
        end
  end.

Definition verifyDeviceHealthy (devicePath : string) : Host bool := health_attempts 5 devicePath.

(** The options of the user, and the defaults whose key the user did not set. *)
Definition defaultNVMeOFMountOptions : list string := [mountOptNoatime; mountOptNetdev; mountOptErrorsContinue].

Definition extractNVMeOFOptionKey (option : string) : string :=
  match Index option "=" with Some i => str_take i option | None => option end.

Definition getNVMeOFMountOptions (userOptions : list string) : list string :=
  match userOptions with
  | [] => defaultNVMeOFMountOptions
  | _ =>
      let userOptionKeys := map extractNVMeOFOptionKey userOptions in
      userOptions ++
      List.filter (fun defaultOpt => negb (existsb (String.eqb (extractNVMeOFOptionKey defaultOpt)) userOptionKeys))
        defaultNVMeOFMountOptions
  end.

Section Stage.
Context (s : NodeService).

Definition formatAndMountNVMeDevice (devicePath staging : string) (cap : option NodeCapability) (volumeContext : gomap)
    : Host node_result :=
  err <- stat_err devicePath;;
  match err with
  | Some e => Ret (Err (Status Unavailable ("NVMe device " +:+ devicePath +:+ " became unavailable: " +:+ err_text e)))
  | None =>
      verify_and_mount s getNVMeOFMountOptions "Device size mismatch detected - refusing to mount to prevent data corruption"
        devicePath staging cap volumeContext
  end.

Definition stageNVMeDevice (devicePath staging : string) (cap : option NodeCapability) (volumeContext : gomap) : Host node_result :=
  if is_block cap then stageBlockDevice devicePath staging
  else
    err <- waitForDeviceInitialization devicePath;;
    match err with
    | Some e => Ret (Err (Status Internal ("Device initialization timeout: " +:+ err_text e)))
    | None =>
        forceDeviceRescan devicePath ;;;
        host (NodeSleep (2 * second_ns)) ;;;
        formatAndMountNVMeDevice devicePath staging cap volumeContext
    end.

(** Disconnects a stale connection, unless something is staged on it. *)
Definition drop_stale_connection (nqn staging : string) (wait : bool) : Host (res (option unit)) :=
  guardErr <- refuseTeardownWhileStaged staging;;
  match guardErr with
  | Some e => Ret (Err e)
  | None =>
      disconnectNVMeOF nqn ;;;
      (if wait then host (NodeSleep (2 * second_ns)) ;;; Ret tt else Ret tt) ;;;
      Ret (Ok None)
  end.

(** [Ok None]: there is no connection to reuse. *)
Definition tryReuseExistingConnection (p : nvmeOFConnectionParams) (staging : string) (cap : option NodeCapability)
    (volumeContext : gomap) : Host (res (option unit)) :=
  let! (devicePath, findErr) := findNVMeDeviceByNQN (np_nqn p) in
  let is_err t := match findErr with Some e => errors_Is e t | None => false end in
  if is_err errNVMeAmbiguousNamespace then
    Ret (Err (Status FailedPrecondition ("Cannot safely identify NVMe namespace: " +:+ opt_err_text findErr)))
  else if is_err ErrNVMeDeviceUnhealthy then drop_stale_connection (np_nqn p) staging true
  else if match findErr with Some _ => true | None => String.eqb devicePath "" end then Ret (Ok None)
  else
    ctrlState <- getNVMeControllerState devicePath;;
    if match ctrlState with Ok st => negb (String.eqb st nvmeSubsystemStateLive) | Err _ => false end
    then drop_stale_connection (np_nqn p) staging true
    else
      rescanNVMeNamespace devicePath ;;;
      healthy <- verifyDeviceHealthy devicePath;;
      if negb healthy then drop_stale_connection (np_nqn p) staging false
      else
        r <- stageNVMeDevice devicePath staging cap volumeContext;;
        Ret (res_map Some r).

(** A pause before the next attempt. *)
Definition pause_before_retry (more : bool) (delay : Z) : Host unit :=
  if more then host (NodeSleep delay) ;;; Ret tt else Ret tt.

(** [n] attempts are left of three; [attempt] counts from 1. *)
Fixpoint connect_loop (n : nat) (attempt : Z) (lastErr : option error) (p : nvmeOFConnectionParams) (staging : string)
    (cap : option NodeCapability) (volumeContext : gomap) : Host node_result :=
  match n with
  | O => Ret (Err (Status Internal ("Failed to find NVMe device after 3 connection attempts (NQN: " +:+ np_nqn p +:+ "): " +:+
                                    opt_err_text lastErr)))
  | S n' =>
      let again e := pause_before_retry (attempt <? 3) (3 * second_ns) ;;;
                     connect_loop n' (attempt + 1) (Some e) p staging cap volumeContext in
      let disconnect_and_again e := disconnectNVMeOF (np_nqn p) ;;; again e in
      ctx <- host CtxDone;;
      match ctx with
      | Some e =>
          Ret (Err (Status DeadlineExceeded
                      match lastErr with
                      | Some last => "NVMe-oF connection canceled after " +:+ FormatInt (attempt - 1) +:+ " attempts (last error: " +:+
                                     err_text last +:+ ")"
                      | None => "NVMe-oF connection canceled: " +:+ err_text e
                      end))
      | None =>
          connectErr <- connectNVMeOFTarget s p;;
          match connectErr with
          | Some e => again e
          | None =>
              stateErr <- waitForSubsystemLive (np_nqn p) (30 * second_ns);;
              match stateErr with
              | Some e => disconnect_and_again e
              | None =>
                  device <- waitForNVMeDevice (np_nqn p);;
                  match device with
                  | Err e => disconnect_and_again e
                  | Ok devicePath =>
                      r <- stageNVMeDevice devicePath staging cap volumeContext;;
                      match r with
                      | Ok _ => Ret (Ok tt)
                      | Err e =>
                          if bool_decide (err_code e = Unavailable) then disconnect_and_again e else Ret (Err e)
                      end
                  end
              end
          end
      end
  end.

Definition connectAndStageDevice (p : nvmeOFConnectionParams) (staging : string) (cap : option NodeCapability)
    (volumeContext : gomap) : Host node_result :=
  connect_loop 3 1 None p staging cap volumeContext.

Definition stageNVMeOFVolume (req : NodeStageVolumeRequest) (volumeContext : gomap) : Host node_result :=
  let staging := st_StagingTargetPath req in
  let cap := st_VolumeCapability req in
  match validateNVMeOFParams volumeContext with
  | Err e => Ret (Err e)
  | Ok p =>
      reused <- tryReuseExistingConnection p staging cap volumeContext;;
      match reused with
      | Err e => Ret (Err e)
      | Ok (Some _) => Ret (Ok tt)
      | Ok None =>
          checkErr <- checkNVMeCLI;;
          match checkErr with
          | Some e => Ret (Err (Status FailedPrecondition ("nvme-cli not available: " +:+ err_text e)))
          | None =>
              host (NodeMetric "nvme_connect_waiting") ;;;
              acquired <- host AcquireConnect;;
              host (NodeMetric "nvme_connect_done_waiting") ;;;
              match acquired with
              | Some e =>
                  Ret (Err (Status DeadlineExceeded ("timed out waiting for NVMe-oF connect semaphore (max concurrent: " +:+
                                                     FormatInt (connectCapacity s) +:+ "): " +:+ err_text e)))
              | None =>
                  host (NodeMetric "nvme_connect_start") ;;;
                  r <- connectAndStageDevice p staging cap volumeContext;;
                  host ReleaseConnect ;;;
                  host (NodeMetric "nvme_connect_done") ;;; Ret r
              end
          end
      end
  end.
End Stage.

(** ** Unstaging *)

(** The source of the mount at a staging path, if it is mounted. *)
Definition mounted_source (staging : string) : Host (res (option string)) :=
  mounted <- IsMounted staging;;
  match mounted with
  | Ok true =>
      let! (output, cmdErr) := host (Command "findmnt" ["-n"; "-o"; "SOURCE"; staging]) in
      match cmdErr with
      | Some e => Ret (Err (Errorf ("findmnt source lookup failed for " +:+ staging +:+ ": " +:+ err_text e) [e]))
      | None => Ret (Ok (Some (TrimSpace output)))
      end
  | _ => Ret (Ok None)
  end.

Definition getStagedNVMeDevicePath (staging : string) : Host (res string) :=
  source <-! mounted_source staging;;
  if match source with Some src => negb (String.eqb src "") && HasPrefix (Base src) "nvme" | None => false end
  then Ret (Ok (default "" source))
  else
    resolved <- host (EvalSymlinks staging);;
    match resolved with
    | Err e => Ret (Err (Errorf ("failed to resolve staging path " +:+ staging +:+ ": " +:+ err_text e) [e]))
    | Ok resolved =>
        if negb (HasPrefix (Base resolved) "nvme") then
          Ret (Err (Errorf ("staging path " +:+ staging +:+ " resolved to " +:+ resolved +:+ ": " +:+
                            sentinel_text ErrNVMeNonNVMeStagingDevice) [err_new ErrNVMeNonNVMeStagingDevice]))
        else Ret (Ok resolved)
    end.

Definition deriveNQNFromStagingPath (staging : string) : Host (res string) :=
  devicePath <-! getStagedNVMeDevicePath staging;; nvmeNQNForDevice sysBlockPath devicePath.

Definition unstageNVMeOFVolume (req : NodeUnstageVolumeRequest) (volumeContext : gomap) : Host node_result :=
  let staging := us_StagingTargetPath req in
  nqn <- (if String.eqb volumeContext.["nqn"] "" then
            derived <- deriveNQNFromStagingPath staging;; Ret (match derived with Ok nqn => nqn | Err _ => "" end)
          else Ret volumeContext.["nqn"]);;
  mounted <- IsMounted staging;;
  match mounted with
  | Err e => Ret (Err (Status Internal ("Failed to check if staging path is mounted: " +:+ err_text e)))
  | Ok mounted =>
      (if (mounted : bool) then Unmount staging else Ret None) ;;;
      (if String.eqb nqn "" then Ret None else disconnectNVMeOF nqn) ;;; Ret (Ok tt)
  end.
