(* ===== verification/NodeIscsi.v ===== *)
(** * iSCSI volumes on the node (driver/node_iscsi.go) *)

From S2P Require Import Prelude GoStrings Prog Errors Api Retry NodeHost MountInfo NodeRecovery NodeSysfs NodeFiles NodeDevice NodeNvme.

Record iscsiConnectionParams : Type := mkIscsiParams { ip_iqn : string; ip_server : string; ip_port : string; ip_lun : Z }.

Definition validateISCSIParams (volumeContext : gomap) : res iscsiConnectionParams :=
  let iqn := volumeContext.[VolumeContextKeyISCSIIQN] in
  let server := volumeContext.["server"] in
  if String.eqb iqn "" || String.eqb server "" then
    Err (Status InvalidArgument "iSCSI IQN and server must be provided in volume context")
  else Ok (mkIscsiParams iqn server (or_default volumeContext.["port"] "3260") 0).

Definition checkISCSIAdm : Host (option error) :=
  let! (_, err) := iscsiadm ["--version"] in
  Ret (match err with Some _ => Some (err_new ErrISCSIAdmNotFound) | None => None end).

(** ** Discovery output *)

Fixpoint discovered_portals (l : list string) (iqn : string) : list string :=
  match l with
  | [] => []
  | line :: rest =>
      let line := TrimSpace line in
      match (if Contains line iqn then Fields line else []) with
      | portalWithTPG :: _ :: _ =>
          match LastIndex portalWithTPG "," with
          | Some idx => str_take idx portalWithTPG
          | None => portalWithTPG
          end :: discovered_portals rest iqn
      | _ => discovered_portals rest iqn
      end
  end.

Definition findAllDiscoveredPortals (discoveryOutput iqn : string) : list string := discovered_portals (lines discoveryOutput) iqn.

Definition findDiscoveredPortal (discoveryOutput iqn : string) : string :=
  match findAllDiscoveredPortals discoveryOutput iqn with [] => "" | portal :: _ => portal end.

Example portals :
  findAllDiscoveredPortals ("10.0.0.22:3260,1 iqn.x:v" +:+ String newline "[fd00::1]:3260,1 iqn.x:v" +:+ String newline
                            "1.1.1.1:3260,1 iqn.y:w") "iqn.x:v" = ["10.0.0.22:3260"; "[fd00::1]:3260"].
Proof. vm_compute. reflexivity. Qed.

(** ** Login and logout *)

Definition portal_of (p : iscsiConnectionParams) : string := ip_server p +:+ ":" +:+ ip_port p.

(** The discovery output, or the error that ends the login. *)
Definition discover_target (p : iscsiConnectionParams) : Host (res string) :=
  let! (output, err) := iscsiadm ["-m"; "discovery"; "-t"; "sendtargets"; "-p"; portal_of p] in
  match err with
  | Some _ =>
      if Contains output "connect" || Contains output "Connection refused" then
        Ret (Err (Errorf (sentinel_text ErrISCSIDiscoveryFailed +:+ ": " +:+ output) [err_new ErrISCSIDiscoveryFailed]))
      else Ret (Ok output)
  | None => Ret (Ok output)
  end.

(** Deletes the records of the portals that are not the one in use. *)
Fixpoint prune_portals (p : iscsiConnectionParams) (portals : list string) : Host unit :=
  match portals with
  | [] => Ret tt
  | dp :: rest =>
      (if String.eqb dp (portal_of p) then Ret tt
       else iscsiadm ["-m"; "node"; "-T"; ip_iqn p; "-p"; dp; "--op"; "delete"] ;;; Ret tt) ;;;
      prune_portals p rest
  end.

Definition create_portal_entry (p : iscsiConnectionParams) : Host unit :=
  iscsiadm ["-m"; "node"; "--op"; "new"; "-T"; ip_iqn p; "-p"; portal_of p] ;;;
  iscsiadm ["-m"; "node"; "-T"; ip_iqn p; "-p"; portal_of p; "--op"; "update"; "-n"; "node.session.auth.authmethod"; "-v"; "None"] ;;;
  Ret tt.

Definition loginISCSITarget (p : iscsiConnectionParams) : Host (option error) :=
  discovery <- discover_target p;;
  match discovery with
  | Err e => Ret (Some e)
  | Ok output =>
      let discoveredPortals := findAllDiscoveredPortals output (ip_iqn p) in
      prune_portals p discoveredPortals ;;;
      (if existsb (fun dp => String.eqb dp (portal_of p)) discoveredPortals then Ret tt else create_portal_entry p) ;;;
      let! (output, err) := iscsiadm ["-m"; "node"; "-T"; ip_iqn p; "-p"; portal_of p; "--login"] in
      match err with
      | Some _ =>
          if Contains output "already present" || Contains output "session already exists" || Contains output "session exists"
          then Ret None
          else Ret (Some (Errorf (sentinel_text ErrISCSILoginFailed +:+ ": " +:+ output) [err_new ErrISCSILoginFailed]))
      | None => Ret None
      end
  end.

(** Failures are only logged. *)
Definition logoutISCSITarget (iqn : string) : Host (option error) :=
  iscsiadm ["-m"; "node"; "-T"; iqn; "--logout"] ;;;
  iscsiadm ["-m"; "node"; "-T"; iqn; "-o"; "delete"] ;;; Ret None.

Definition forceKillISCSISession (iqn : string) : Host unit :=
  iscsiadm ["-m"; "node"; "-T"; iqn; "--op"; "update"; "-n"; "node.session.timeo.replacement_timeout"; "-v"; "0"] ;;;
  host (NodeSleep (1 * second_ns)) ;;;
  logoutISCSITarget iqn ;;;
  host (NodeSleep (2 * second_ns)) ;;; Ret tt.

Definition forceKillISCSISessionByIQN (iqn : string) : Host unit :=
  let! (output, err) := iscsiadm ["-m"; "session"] in
  match err with
  | Some _ => Ret tt
  | None => if Contains output iqn then forceKillISCSISession iqn else Ret tt
  end.

(** ** The device of a target *)

(** The word after the first [disk]. *)
Fixpoint word_after_disk (parts : list string) : option string :=
  match parts with
  | part :: ((next :: _) as rest) => if String.eqb part "disk" then Some next else word_after_disk rest
  | _ => None
  end.

Fixpoint session_device (l : list string) (targetIQN : string) (inTargetSection : bool) : string :=
  match l with
  | [] => ""
  | line :: rest =>
      let line := TrimSpace line in
      if HasPrefix line "Target:" then
        session_device rest targetIQN (HasPrefix (TrimSpace (TrimPrefix line "Target:")) targetIQN)
      else
        match (if inTargetSection && Contains line "Attached scsi disk" then word_after_disk (Fields line) else None) with
        | Some device => device
        | None => session_device rest targetIQN inTargetSection
        end
  end.

Definition parseISCSISessionDevice (output targetIQN : string) : string := session_device (lines output) targetIQN false.

Definition findISCSIDevice (iqn : string) : Host (res string) :=
  let! (output, err) := iscsiadm ["-m"; "session"; "-P"; "3"] in
  match err with
  | Some _ => Ret (Err (err_new ErrISCSIDeviceNotFound))
  | None =>
      let deviceName := parseISCSISessionDevice output iqn in
      if String.eqb deviceName "" then Ret (Err (err_new ErrISCSIDeviceNotFound)) else Ret (Ok ("/dev/" +:+ deviceName))
  end.

(** [Panic]: out of fuel, excluded as for NVMe-oF. *)
Fixpoint iscsi_wait_loop (fuel : nat) (iqn : string) (deadline : Z) : Host (res string) :=
  match fuel with
  | O => Panic
  | S fuel =>
      now <- host Now;;
      if negb (now <? deadline) then Ret (Err (err_new ErrISCSIDeviceTimeout))
      else
        device <- findISCSIDevice iqn;;
        present <- (match device with
                    | Ok devicePath => err <- stat_err devicePath;; Ret (match err with None => true | Some _ => false end)
                    | Err _ => Ret false
                    end);;
        if (present : bool) then Ret device
        else host (NodeSleep (2 * second_ns)) ;;; iscsi_wait_loop fuel iqn deadline
  end.

(** With the time limit of its only caller. *)
Definition waitForISCSIDevice (iqn : string) : Host (res string) :=
  now <- host Now;; iscsi_wait_loop poll_fuel iqn (now + 30 * second_ns).

(** ** Staging *)

(** The options of the user, and the defaults whose key the user did not set. *)
Definition defaultISCSIMountOptions : list string := [mountOptNoatime; mountOptNetdev; mountOptErrorsContinue].

Definition extractISCSIOptionKey (option : string) : string :=
  match Index option "=" with Some i => str_take i option | None => option end.

Definition getISCSIMountOptions (userOptions : list string) : list string :=
  match userOptions with
  | [] => defaultISCSIMountOptions
  | _ =>
      let userOptionKeys := map extractISCSIOptionKey userOptions in
      userOptions ++
      List.filter (fun defaultOpt => negb (existsb (String.eqb (extractISCSIOptionKey defaultOpt)) userOptionKeys))
        defaultISCSIMountOptions
  end.

Section Stage.
Context (s : NodeService).

Definition formatAndMountISCSIDevice (devicePath staging : string) (cap : option NodeCapability) (volumeContext : gomap)
    : Host node_result :=
  verify_and_mount s getISCSIMountOptions "Device size mismatch detected - refusing to mount" devicePath staging cap volumeContext.

Definition device_unavailable (devicePath what detail : string) : error :=
  Status Unavailable ("iSCSI device " +:+ devicePath +:+ " became unavailable" +:+ what +:+ ": " +:+ detail).

Definition stageISCSIDevice (devicePath staging : string) (cap : option NodeCapability) (volumeContext : gomap) : Host node_result :=
  err <- stat_err devicePath;;
  match err with
  | Some e => Ret (Err (device_unavailable devicePath "" (err_text e)))
  | None =>
      if is_block cap then stageBlockDevice devicePath staging
      else
        err <- waitForDeviceInitialization devicePath;;
        match err with
        | Some e =>
            statErr <- stat_err devicePath;;
            match statErr with
            | Some _ => Ret (Err (device_unavailable devicePath " during initialization" (err_text e)))
            | None => Ret (Err (Status Internal ("Device initialization timeout: " +:+ err_text e)))
            end
        | None =>
            host (NodeSleep (2 * second_ns)) ;;;
            err <- stat_err devicePath;;
            match err with
            | Some e => Ret (Err (device_unavailable devicePath " after stabilization" (err_text e)))
            | None => formatAndMountISCSIDevice devicePath staging cap volumeContext
            end
        end
  end.

(** [n] attempts are left of two; [attempt] counts from 1. *)
Fixpoint login_loop (n : nat) (attempt : Z) (lastErr : option error) (p : iscsiConnectionParams) (staging : string)
    (cap : option NodeCapability) (volumeContext : gomap) : Host node_result :=
  match n with
  | O => Ret (Err (Status Internal ("Failed to stage iSCSI volume after 2 attempts: " +:+ opt_err_text lastErr)))
  | S n' =>
      let again e := pause_before_retry (attempt <? 2) (5 * second_ns) ;;;
                     login_loop n' (attempt + 1) (Some e) p staging cap volumeContext in
      let logout_and_again e := logoutISCSITarget (ip_iqn p) ;;; again e in
      loginErr <- loginISCSITarget p;;
      match loginErr with
      | Some e => again e
      | None =>
          device <- waitForISCSIDevice (ip_iqn p);;
          match device with
          | Err e => logout_and_again e
          | Ok devicePath =>
              r <- stageISCSIDevice devicePath staging cap volumeContext;;
              match r with
              | Ok _ => Ret (Ok tt)
              | Err e => if bool_decide (err_code e = Unavailable) then logout_and_again e else Ret (Err e)
              end
          end
      end
  end.

Definition fresh_login (p : iscsiConnectionParams) (staging : string) (cap : option NodeCapability) (volumeContext : gomap)
    : Host node_result :=
  checkErr <- checkISCSIAdm;;
  match checkErr with
  | Some e => Ret (Err (Status FailedPrecondition ("open-iscsi not available: " +:+ err_text e)))
  | None => login_loop 2 1 None p staging cap volumeContext
  end.

(** Tears a session down, unless something is staged on it. *)
Definition teardown_then (staging : string) (kill : Host unit) (k : Host node_result) : Host node_result :=
  guardErr <- refuseTeardownWhileStaged staging;;
  match guardErr with
  | Some e => Ret (Err e)
  | None => kill ;;; k
  end.

Definition stageISCSIVolume (req : NodeStageVolumeRequest) (volumeContext : gomap) : Host node_result :=
  let staging := st_StagingTargetPath req in
  let cap := st_VolumeCapability req in
  match validateISCSIParams volumeContext with
  | Err e => Ret (Err e)
  | Ok p =>
      let login := fresh_login p staging cap volumeContext in
      device <- findISCSIDevice (ip_iqn p);;
      match device with
      | Ok devicePath =>
          sessionState <- getISCSISessionState devicePath;;
          if match sessionState with Ok st => String.eqb st iscsiSessionStateLoggedIn | Err _ => false end
          then stageISCSIDevice devicePath staging cap volumeContext
          else teardown_then staging (forceKillISCSISession (ip_iqn p)) login
      | Err _ => teardown_then staging (forceKillISCSISessionByIQN (ip_iqn p)) login
      end
  end.
End Stage.

(** ** Unstaging *)

Definition getStagedISCSIDevicePath (staging : string) : Host (res string) :=
  source <-! mounted_source staging;;
  if match source with Some src => negb (String.eqb src "") | None => false end then Ret (Ok (default "" source))
  else
    target <- host (Readlink staging);;
    match target with
    | Err e => Ret (Err (Errorf ("failed to read staging symlink " +:+ staging +:+ ": " +:+ err_text e) [e]))
    | Ok target => Ret (Ok (Clean (if negb (IsAbs target) then JoinPath (Dir staging) target else target)))
    end.

Definition unstageISCSIVolume (req : NodeUnstageVolumeRequest) : Host node_result :=
  let staging := us_StagingTargetPath req in
  device <- getStagedISCSIDevicePath staging;;
  iqn <- (match device with
          | Err _ => Ret ""
          | Ok devicePath => info <- getISCSISessionInfo ("/sys/block/" +:+ Base devicePath);; Ret info.1
          end);;
  mounted <- IsMounted staging;;
  match mounted with
  | Err e => Ret (Err (Status Internal ("Failed to check if staging path is mounted: " +:+ err_text e)))
  | Ok mounted =>
      (if (mounted : bool) then Unmount staging else Ret None) ;;;
      (if String.eqb iqn "" then Ret None else logoutISCSITarget iqn) ;;; Ret (Ok tt)
  end.
