(* ===== verification/NodeHealth.v ===== *)
(** * Which protocol serves a path, and whether it is healthy

    The probes of node_health.go and the detection of the protocol in node.go. *)

From S2P Require Import Prelude GoStrings Prog Errors Api Common Retry NodeHost MountInfo NodeRecovery NodeSysfs NodeFiles NodeDevice.

(** ** Detection (node.go) *)

Definition detectFilesystemType (mountPath : string) : Host (res string) :=
  let! (output, err) := host (Command "findmnt" ["-n"; "-o"; "FSTYPE"; mountPath]) in
  match err with
  | Some e => Ret (Err (Status Internal ("Failed to detect filesystem type: " +:+ err_text e +:+ ", output: " +:+ output)))
  | None =>
      let fsType := TrimSpace output in
      if String.eqb fsType "" then Ret (Err (Status Internal "Empty filesystem type returned from findmnt")) else Ret (Ok fsType)
  end.

Fixpoint by_path_entry (realPath : string) (entries : list dirent) : Host bool :=
  match entries with
  | [] => Ret false
  | e :: rest =>
      if negb (Contains (de_Name e) "iscsi") then by_path_entry realPath rest
      else
        resolved <- host (EvalSymlinks (JoinPath "/dev/disk/by-path" (de_Name e)));;
        match resolved with
        | Err _ => by_path_entry realPath rest
        | Ok resolved =>
            if String.eqb resolved realPath || HasSuffix resolved realPath || HasSuffix realPath resolved then Ret true
            else by_path_entry realPath rest
        end
  end.

Definition isISCSIDevice (devicePath : string) : Host bool :=
  resolved <- host (Readlink devicePath);;
  let realPath := match resolved with Ok r => r | Err _ => devicePath end in
  entries <- host (ReadDir "/dev/disk/by-path");;
  match entries with
  | Err _ => Ret false
  | Ok entries => by_path_entry realPath entries
  end.

Definition detectBlockProtocolFromDevice (devicePath : string) : Host string :=
  if Contains devicePath "nvme" then Ret ProtocolNVMeOF
  else
    iscsi <- isISCSIDevice devicePath;;
    if (iscsi : bool) then Ret ProtocolISCSI
    else
      let base := Base devicePath in
      if HasPrefix base "sd" then
        info <- getISCSISessionInfo ("/sys/block/" +:+ base);;
        Ret (if negb (String.eqb info.1 "") then ProtocolISCSI else ProtocolNVMeOF)
      else Ret ProtocolNVMeOF.

Definition detectBlockProtocolFromMount (mountPath : string) : Host string :=
  let! (output, err) := host (Command "findmnt" ["-n"; "-o"; "SOURCE"; mountPath]) in
  match err with
  | Some _ => Ret ProtocolNVMeOF
  | None => detectBlockProtocolFromDevice (TrimSpace output)
  end.

(** The protocol of a mounted path, by the type of its file system. *)
Definition protocol_of_mount (path : string) : Host string :=
  fsType <- detectFilesystemType path;;
  match fsType with
  | Err _ => Ret ProtocolNFS
  | Ok fsType =>
      if HasPrefix fsType "nfs" then Ret ProtocolNFS
      else if String.eqb fsType fsTypeCIFS || HasPrefix fsType "smb" then Ret ProtocolSMB
      else detectBlockProtocolFromMount path
  end.

Definition detectProtocolFromStagingPath (stagingPath : string) : Host string :=
  mounted <- IsMounted stagingPath;;
  match mounted with
  | Ok true => protocol_of_mount stagingPath
  | _ =>
      info <- host (Lstat stagingPath);;
      match info with
      | Ok true =>
          target <- host (Readlink stagingPath);;
          match target with
          | Ok target => detectBlockProtocolFromDevice target
          | Err _ => Ret ProtocolNVMeOF
          end
      | _ => Ret ProtocolNFS
      end
  end.

Definition detectProtocolFromVolumePath (volumePath : string) : Host string := protocol_of_mount volumePath.

(** ** Probes (node_health.go) *)

Definition Healthy : VolumeHealth := mkHealth false "".
Definition Unhealthy (message : string) : VolumeHealth := mkHealth true message.

Definition mentions_stale (e : error) : bool := Contains (err_text e) "stale" || Contains (err_text e) "Stale".

Definition isMountedWithTimeout (path : string) : Host (res bool) :=
  let! (output, err) := host (Command "findmnt" ["-n"; path]) in
  ctx <- host CtxDone;;
  if match ctx with Some e => errors_Is e context_DeadlineExceeded | None => false end then Ret (Err (err_new errMountTimeout))
  else
    Ret (match err with
         | Some e => if bool_decide (exit_code e = Some 1) then Ok false else Err e
         | None => Ok (negb (String.eqb (TrimSpace output) ""))
         end).

Definition checkDirectoryReadable (path : string) : Host (option error) :=
  probe <- host (ReadDirOne path);;
  Ret (match probe with
       | OpenFailed e | ProbeCancelled e => Some e
       | ReadDone (Some e) closeErr => if errors_Is e io_EOF then closeErr else Some e
       | ReadDone None closeErr => closeErr
       | ProbeTimeout => Some (err_new errReadTimeout)
       end).

(** The mount and directory probes of a network share; [stale] explains an
    unreadable directory. *)
Definition check_share (protocol volumePath : string) (stale : error -> option string) : Host VolumeHealth :=
  mounted <- isMountedWithTimeout volumePath;;
  match mounted with
  | Err e => Ret (Unhealthy ("Failed to check " +:+ protocol +:+ " mount status: " +:+ err_text e))
  | Ok false => Ret (Unhealthy (protocol +:+ " volume is not mounted"))
  | Ok true =>
      err <- checkDirectoryReadable volumePath;;
      match err with
      | Some e => Ret (Unhealthy (default (protocol +:+ " mount not readable: " +:+ err_text e) (stale e)))
      | None => Ret Healthy
      end
  end.

Definition stale_handle (e : error) : option string := if mentions_stale e then Some "Stale NFS file handle" else None.

Definition checkNFSHealth (volumePath : string) : Host VolumeHealth :=
  err <- stat_err volumePath;;
  match err with
  | Some e =>
      Ret (Unhealthy (if IsNotExist e then "NFS mount path does not exist"
                      else default ("NFS mount path not accessible: " +:+ err_text e) (stale_handle e)))
  | None => check_share "NFS" volumePath stale_handle
  end.

Definition checkSMBHealth (volumePath : string) : Host VolumeHealth :=
  err <- stat_err volumePath;;
  match err with
  | Some e =>
      Ret (Unhealthy (if IsNotExist e then "SMB mount path does not exist" else "SMB mount path not accessible: " +:+ err_text e))
  | None => check_share "SMB" volumePath (fun _ => None)
  end.

Definition getSourceDevice (mountPath : string) : Host (res string) :=
  let! (output, err) := host (Command "findmnt" ["-n"; "-o"; "SOURCE"; mountPath]) in
  match err with
  | Some e => Ret (Err (Errorf ("findmnt failed: " +:+ err_text e) [e]))
  | None => Ret (Ok (TrimSpace output))
  end.

(** The path, its device and the state of the transport; a state that cannot be
    read is no failure. *)
Definition check_block (protocol device_label : string) (volumePath : string) (state : string -> Host (res string))
    (expected : string) (bad : string -> string) : Host VolumeHealth :=
  err <- stat_err volumePath;;
  match err with
  | Some e => Ret (Unhealthy (protocol +:+ " volume path not accessible: " +:+ err_text e))
  | None =>
      devicePath <- getSourceDevice volumePath;;
      match devicePath with
      | Err e => Ret (Unhealthy ("Failed to determine " +:+ device_label +:+ " device: " +:+ err_text e))
      | Ok devicePath =>
          statErr <- stat_err devicePath;;
          match statErr with
          | Some _ => Ret (Unhealthy (device_label +:+ " device " +:+ devicePath +:+ " not found"))
          | None =>
              st <- state devicePath;;
              Ret (match st with
                   | Ok st => if negb (String.eqb st expected) then Unhealthy (bad st) else Healthy
                   | Err _ => Healthy
                   end)
          end
      end
  end.

Definition checkNVMeOFHealth (volumePath : string) : Host VolumeHealth :=
  check_block "NVMe-oF" "NVMe" volumePath getNVMeControllerState nvmeSubsystemStateLive
    (fun st => "NVMe controller state is " +:+ Quote st +:+ " (expected: " +:+ nvmeSubsystemStateLive +:+ ")").

Definition checkISCSIHealth (volumePath : string) : Host VolumeHealth :=
  check_block "iSCSI" "iSCSI" volumePath getISCSISessionState iscsiSessionStateLoggedIn
    (fun st => "iSCSI session state is " +:+ Quote st +:+ " (expected: LOGGED_IN)").

Definition checkBasicHealth (volumePath : string) : Host VolumeHealth :=
  err <- stat_err volumePath;;
  Ret (match err with Some e => Unhealthy ("Volume path not accessible: " +:+ err_text e) | None => Healthy end).

Definition checkVolumeHealth (volumePath : string) : Host VolumeHealth :=
  protocol <- detectProtocolFromVolumePath volumePath;;
  if String.eqb protocol ProtocolNFS then checkNFSHealth volumePath
  else if String.eqb protocol ProtocolNVMeOF then checkNVMeOFHealth volumePath
  else if String.eqb protocol ProtocolISCSI then checkISCSIHealth volumePath
  else if String.eqb protocol ProtocolSMB then checkSMBHealth volumePath
  else checkBasicHealth volumePath.
