(* ===== verification/NodeService.v ===== *)
(** * The CSI calls of the node (driver/node.go) *)

From S2P Require Import Prelude GoStrings Prog Errors Api Metadata Common Retry NodeHost MountInfo NodeRecovery NodeSysfs NodeFiles NodeDevice NodeNvme NodeIscsi NodeHealth.

(** ** The service *)

Definition NewNodeService (nodeID : string) (hasClient testMode hasRegistry enableDiscovery : bool)
    (maxConcurrentNVMeConnects : Z) : NodeService :=
  mkNodeService nodeID testMode enableDiscovery hasRegistry hasClient
    (if maxConcurrentNVMeConnects <=? 0 then 5 else maxConcurrentNVMeConnects).

(** ** Metrics and locks around a call *)

Definition observe_error {A : Type} (operation : string) (e : error) : Host (res A) :=
  host (NodeMetric ("ObserveError " +:+ operation)) ;;; Ret (Err e).

(** One observation for the result of [body]. *)
Definition observed {A : Type} (operation : string) (body : Host (res A)) : Host (res A) :=
  r <- body;;
  host (NodeMetric (match r with Ok _ => "ObserveSuccess " +:+ operation | Err _ => "ObserveError " +:+ operation end)) ;;;
  Ret r.

(** [lifecycleLocks.lock], its failure, and the deferred unlock. *)
Definition with_volume_lock {A : Type} (operation volumeID : string) (body : Host (res A)) : Host (res A) :=
  lockErr <- host (LockVolume volumeID);;
  match lockErr with
  | Some e => observe_error operation (FromContextError e)
  | None => r <- body;; host (UnlockVolume volumeID) ;;; Ret r
  end.

Section Service.
Context (s : NodeService).

(** ** Staging *)

Definition stage_by_protocol (req : NodeStageVolumeRequest) : Host node_result :=
  let volumeContext := st_VolumeContext req in
  let protocol := getProtocolFromVolumeContext volumeContext in
  if String.eqb protocol ProtocolNFS then stageNFSVolume s req volumeContext
  else if String.eqb protocol ProtocolNVMeOF then stageNVMeOFVolume s req volumeContext
  else if String.eqb protocol ProtocolISCSI then stageISCSIVolume s req volumeContext
  else if String.eqb protocol ProtocolSMB then stageSMBVolume s req volumeContext
  else Ret (Err (Status InvalidArgument ("Unsupported protocol: " +:+ protocol +:+ " (supported: nfs, nvmeof, iscsi, smb)"))).

Definition NodeStageVolume (req : NodeStageVolumeRequest) : Host node_result :=
  if String.eqb (st_VolumeId req) "" then observe_error "stage" (Status InvalidArgument errMsgVolumeIDRequired)
  else if String.eqb (st_StagingTargetPath req) "" then
    observe_error "stage" (Status InvalidArgument "Staging target path is required")
  else if match st_VolumeCapability req with None => true | Some _ => false end then
    observe_error "stage" (Status InvalidArgument "Volume capability is required")
  else with_volume_lock "stage" (st_VolumeId req) (observed "stage" (stage_by_protocol req)).

Definition unstage_by_protocol (req : NodeUnstageVolumeRequest) : Host node_result :=
  protocol <- detectProtocolFromStagingPath (us_StagingTargetPath req);;
  if String.eqb protocol ProtocolNVMeOF then unstageNVMeOFVolume req None
  else if String.eqb protocol ProtocolISCSI then unstageISCSIVolume req
  else if String.eqb protocol ProtocolSMB then unstageSMBVolume s req
  else unstageNFSVolume s req.

Definition NodeUnstageVolume (req : NodeUnstageVolumeRequest) : Host node_result :=
  if String.eqb (us_VolumeId req) "" then observe_error "unstage" (Status InvalidArgument errMsgVolumeIDRequired)
  else if String.eqb (us_StagingTargetPath req) "" then
    observe_error "unstage" (Status InvalidArgument "Staging target path is required")
  else with_volume_lock "unstage" (us_VolumeId req) (observed "unstage" (unstage_by_protocol req)).

(** ** Publishing *)

Definition publish_by_protocol (req : NodePublishVolumeRequest) : Host node_result :=
  let protocol := getProtocolFromVolumeContext (pb_VolumeContext req) in
  if String.eqb protocol ProtocolNFS then publishNFSVolume s req
  else if String.eqb protocol ProtocolSMB then publishSMBVolume s req
  else if String.eqb protocol ProtocolNVMeOF || String.eqb protocol ProtocolISCSI then
    if String.eqb (pb_StagingTargetPath req) "" then
      Ret (Err (Status InvalidArgument ("Staging target path is required for " +:+ protocol +:+ " volumes")))
    else if is_block (pb_VolumeCapability req) then
      publishBlockVolume (pb_StagingTargetPath req) (pb_TargetPath req) (pb_Readonly req)
    else publishFilesystemVolume (pb_StagingTargetPath req) (pb_TargetPath req) (pb_Readonly req)
  else Ret (Err (Status InvalidArgument ("Unknown protocol: " +:+ protocol))).

(** The deferred bookkeeping of the test mode. *)
Definition record_publication (volumeID targetPath : string) (r : node_result) : Host unit :=
  match r with
  | Ok _ => if testMode s then host (AddPublication volumeID (Clean targetPath)) else Ret tt
  | Err _ => Ret tt
  end.

Definition NodePublishVolume (req : NodePublishVolumeRequest) : Host node_result :=
  if String.eqb (pb_VolumeId req) "" then observe_error "publish" (Status InvalidArgument errMsgVolumeIDRequired)
  else if String.eqb (pb_TargetPath req) "" then observe_error "publish" (Status InvalidArgument "Target path is required")
  else if match pb_VolumeCapability req with None => true | Some _ => false end then
    observe_error "publish" (Status InvalidArgument "Volume capability is required")
  else
    with_volume_lock "publish" (pb_VolumeId req)
      (err <- checkSingleWriterPublication s req;;
       match err with
       | Some e => observe_error "publish" e
       | None =>
           r <- observed "publish" (publish_by_protocol req);;
           record_publication (pb_VolumeId req) (pb_TargetPath req) r ;;; Ret r
       end).

Definition unpublish_target (targetPath : string) : Host node_result :=
  if testMode s then host (Remove targetPath) ;;; Ret (Ok tt)
  else
    mounted <- IsMounted targetPath;;
    match mounted with
    | Err e => Ret (Err (Status Internal ("Failed to check if path is mounted: " +:+ err_text e)))
    | Ok mounted =>
        err <- (if mounted then Unmount targetPath else Ret None);;
        match err with
        | Some e => Ret (Err (Status Internal ("Failed to unmount: " +:+ err_text e)))
        | None => host (Remove targetPath) ;;; Ret (Ok tt)
        end
    end.

Definition NodeUnpublishVolume (volumeID targetPath : string) : Host node_result :=
  if String.eqb volumeID "" then observe_error "unpublish" (Status InvalidArgument errMsgVolumeIDRequired)
  else if String.eqb targetPath "" then observe_error "unpublish" (Status InvalidArgument "Target path is required")
  else
    with_volume_lock "unpublish" volumeID
      (r <- observed "unpublish" (unpublish_target targetPath);;
       match r with
       | Ok _ => if testMode s then host (RemovePublication volumeID (Clean targetPath)) else Ret tt
       | Err _ => Ret tt
       end ;;; Ret r).

(** ** Statistics *)

Definition maxInt64 : Z := 9223372036854775807.
Definition safeUint64ToInt64 (val : Z) : Z := if maxInt64 <? val then maxInt64 else to_int64 val.

(** node_linux.go *)
Definition getBlockSize (statfs : Statfs_t) : Z := if Bsize statfs <? 0 then 0 else to_uint64 (Bsize statfs).

Inductive usage_unit : Set := BYTES | INODES.

Record VolumeUsage : Type := mkUsage { u_Unit : usage_unit; u_Total : Z; u_Used : Z; u_Available : Z }.

(** [uint64] arithmetic wraps. *)
Definition byte_usage (statfs : Statfs_t) : VolumeUsage :=
  let blockSize := getBlockSize statfs in
  let totalBytes := to_uint64 (Blocks statfs * blockSize) in
  let availableBytes := to_uint64 (Bavail statfs * blockSize) in
  let usedBytes := to_uint64 (totalBytes - to_uint64 (Bfree statfs * blockSize)) in
  mkUsage BYTES (safeUint64ToInt64 totalBytes) (safeUint64ToInt64 usedBytes) (safeUint64ToInt64 availableBytes).

Definition inode_usage (statfs : Statfs_t) : VolumeUsage :=
  let usedInodes := to_uint64 (Files statfs - Ffree statfs) in
  mkUsage INODES (safeUint64ToInt64 (Files statfs)) (safeUint64ToInt64 usedInodes) (safeUint64ToInt64 (Ffree statfs)).

Definition NodeGetVolumeStats (volumeID volumePath : string) : Host (res (list VolumeUsage)) :=
  if String.eqb volumeID "" then Ret (Err (Status InvalidArgument errMsgVolumeIDRequired))
  else if String.eqb volumePath "" then Ret (Err (Status InvalidArgument "Volume path is required"))
  else
    pathInfo <- host (Stat volumePath);;
    match pathInfo with
    | Err e =>
        if IsNotExist e then Ret (Err (Status NotFound ("Volume path " +:+ volumePath +:+ " does not exist")))
        else Ret (Err (Status Internal ("Failed to stat volume path: " +:+ err_text e)))
    | Ok kind =>
        if testMode s then Ret (Ok [mkUsage BYTES 1073741824 104857600 968884224])
        else
          mounted <- IsMounted volumePath;;
          match mounted with
          | Err e => Ret (Err (Status Internal ("Failed to check if path is mounted: " +:+ err_text e)))
          | Ok false => Ret (Err (Status InvalidArgument ("Volume is not mounted at path " +:+ volumePath)))
          | Ok true =>
              statfs <- host (Statfs volumePath);;
              match statfs with
              | Err e => Ret (Err (Status Internal ("Failed to get volume stats: " +:+ err_text e)))
              | Ok statfs => Ret (Ok (byte_usage statfs :: if IsDir kind then [inode_usage statfs] else []))
              end
          end
    end.

(** ** Health *)

(** A health report: the volume, and the reasons and messages of its DEGRADED
    entries. *)
Definition health_report : Type := (string * list (string * string))%type.

Definition NodeToCSI (h : VolumeHealth) (volumeID : string) : health_report :=
  (volumeID, if Abnormal h then [("VolumeHealthCheckFailed", Message h)] else []).

Definition NodeGetVolumeHealth (volumeID publishPath stagingPath : string) : Host (res health_report) :=
  if String.eqb volumeID "" then Ret (Err (Status InvalidArgument errMsgVolumeIDRequired))
  else if existsb (fun path => negb (String.eqb path "") && negb (IsAbs path)) [publishPath; stagingPath] then
    Ret (Err (Status InvalidArgument "Volume health paths must be absolute"))
  else
    let volumePath := if String.eqb publishPath "" then stagingPath else publishPath in
    if String.eqb volumePath "" then
      Ret (Ok (volumeID, [("VolumePathUnknown", "No published or staging path is available to check volume health")]))
    else
      health <- (if testMode s then checkBasicHealth volumePath else checkVolumeHealth volumePath);;
      Ret (Ok (NodeToCSI health volumeID)).

(** ** Expansion *)

Definition resizeFilesystem (mountPath fsType : string) : Host (option error) :=
  if is_ext fsType then
    let! (output, err) := host (Command "findmnt" ["-n"; "-o"; "SOURCE"; mountPath]) in
    match err with
    | Some e => Ret (Some (Status Internal ("Failed to find device for mount path: " +:+ err_text e +:+ ", output: " +:+ output)))
    | None =>
        let device := TrimSpace output in
        if String.eqb device "" then Ret (Some (Status Internal "Empty device path returned from findmnt"))
        else
          let! (output, err) := host (Command "resize2fs" [device]) in
          Ret (match err with
               | Some e => Some (Status Internal ("resize2fs failed: " +:+ err_text e +:+ ", output: " +:+ output))
               | None => None
               end)
    end
  else if String.eqb fsType fsTypeXFS then
    let! (output, err) := host (Command "xfs_growfs" [mountPath]) in
    Ret (match err with
         | Some e => Some (Status Internal ("xfs_growfs failed: " +:+ err_text e +:+ ", output: " +:+ output))
         | None => None
         end)
  else Ret (Some (Status Unimplemented ("Filesystem type " +:+ fsType +:+ " is not supported for expansion"))).

(** What remains to be done for a mounted volume. *)
Definition expand_mounted (volumePath : string) (cap : option NodeCapability) : Host (option error) :=
  protocol <- detectProtocolFromStagingPath volumePath;;
  if String.eqb protocol ProtocolNFS || String.eqb protocol ProtocolSMB then Ret None
  else if is_block cap then Ret None
  else
    fsType <- detectFilesystemType volumePath;;
    match fsType with
    | Err e => Ret (Some (Status Internal ("Failed to detect filesystem type: " +:+ err_text e)))
    | Ok fsType =>
        err <- resizeFilesystem volumePath fsType;;
        Ret (match err with Some e => Some (Status Internal ("Failed to resize filesystem: " +:+ err_text e)) | None => None end)
    end.

(** Answers the requested bytes. *)
Definition NodeExpandVolume (volumeID volumePath : string) (range : option CapacityRange) (cap : option NodeCapability)
    : Host (res Z) :=
  if String.eqb volumeID "" then Ret (Err (Status InvalidArgument errMsgVolumeIDRequired))
  else if String.eqb volumePath "" then Ret (Err (Status InvalidArgument "Volume path is required"))
  else
    err <- stat_err volumePath;;
    if match err with Some e => IsNotExist e | None => false end then
      Ret (Err (Status NotFound ("volume path " +:+ volumePath +:+ " does not exist")))
    else if testMode s then Ret (Ok (GetRequiredBytes range))
    else
      mounted <- IsMounted volumePath;;
      match mounted with
      | Err e => Ret (Err (Status Internal ("Failed to check if path is mounted: " +:+ err_text e)))
      | Ok false => Ret (Err (Status InvalidArgument ("Volume is not mounted at path " +:+ volumePath)))
      | Ok true =>
          err <- expand_mounted volumePath cap;;
          Ret (match err with Some e => Err e | None => Ok (GetRequiredBytes range) end)
      end.

(** ** Information *)

Inductive node_capability : Set :=
| STAGE_UNSTAGE_VOLUME | GET_VOLUME_STATS | EXPAND_VOLUME | GET_VOLUME_HEALTH | NODE_SINGLE_NODE_MULTI_WRITER.

Definition NodeGetCapabilities : list node_capability :=
  [STAGE_UNSTAGE_VOLUME; GET_VOLUME_STATS; EXPAND_VOLUME; GET_VOLUME_HEALTH; NODE_SINGLE_NODE_MULTI_WRITER].

Definition NodeGetInfo : Host string :=
  (if has_registry s then host (RegisterNode (nodeID s)) else Ret tt) ;;; Ret (nodeID s).
End Service.
