(* ===== verification/Metrics.v ===== *)
(** * Metrics (src/pkg/metrics)

    The updates that the functions of metrics.go and ws_adapter.go send to the
    Prometheus registry, in their order.  The registry is a library: an update
    is a value of the model. *)

From S2P Require Import Prelude GoStrings.

(** ** The declared metrics *)

Inductive metric_kind : Set := Counter | Gauge | Histogram.

(** [prometheus.ExponentialBuckets], its start in milliseconds. *)
Record buckets : Set := ExponentialBuckets { start_ms : Z; factor : Z; count : Z }.

Record metric : Type := mkMetric {
  mt_kind : metric_kind; mt_Namespace : string; mt_Name : string; mt_Help : string;
  mt_Buckets : option buckets; mt_labels : list string
}.

Definition namespace : string := "nasty_csi".
Definition labelOperation : string := "operation".
Definition labelProtocol : string := "protocol".

(** The constructors of package promauto that the declarations use; a metric
    without labels is not a vector. *)
Definition NewCounterVec (name help : string) (labels : list string) : metric := mkMetric Counter namespace name help None labels.
Definition NewGaugeVec (name help : string) (labels : list string) : metric := mkMetric Gauge namespace name help None labels.
Definition NewHistogramVec (name help : string) (b : buckets) (labels : list string) : metric :=
  mkMetric Histogram namespace name help (Some b) labels.
Definition NewCounter (name help : string) : metric := NewCounterVec name help [].
Definition NewGauge (name help : string) : metric := NewGaugeVec name help [].

(** CSI operation metrics. *)
Definition csiOperationsTotal : metric :=
  NewCounterVec "operations_total" "Total number of CSI operations by operation type and status" [labelOperation; "status"].
Definition csiOperationDuration : metric :=
  NewHistogramVec "operation_duration_seconds" "Duration of CSI operations in seconds" (ExponentialBuckets 1 2 15) [labelOperation].

(** Volume operation metrics with protocol labels. *)
Definition volumeOperationsTotal : metric :=
  NewCounterVec "volume_operations_total" "Total number of volume operations by protocol, operation type and status"
    [labelProtocol; labelOperation; "status"].
Definition volumeOperationDuration : metric :=
  NewHistogramVec "volume_operation_duration_seconds" "Duration of volume operations in seconds by protocol"
    (ExponentialBuckets 100 2 12) [labelProtocol; labelOperation].

(** WebSocket connection metrics. *)
Definition wsConnectionStatus : metric :=
  NewGauge "websocket_connection_status" "WebSocket connection status (1 = connected, 0 = disconnected)".
Definition wsReconnectionsTotal : metric :=
  NewCounter "websocket_reconnections_total" "Total number of WebSocket reconnection attempts".
Definition wsMessagesTotal : metric :=
  NewCounterVec "websocket_messages_total" "Total number of WebSocket messages by direction" ["direction"].
Definition wsMessageDuration : metric :=
  NewHistogramVec "websocket_message_duration_seconds" "Duration of WebSocket API calls (request to response)"
    (ExponentialBuckets 10 2 12) ["method"].
Definition wsConnectionDuration : metric :=
  NewGauge "websocket_connection_duration_seconds" "Duration of current WebSocket connection in seconds".

(** NVMe-oF connect concurrency metrics. *)
Definition nvmeConnectConcurrent : metric :=
  NewGauge "nvme_connect_concurrent" "Number of NVMe-oF connect operations currently in progress".
Definition nvmeConnectWaiting : metric :=
  NewGauge "nvme_connect_waiting" "Number of NVMe-oF connect operations waiting for the semaphore".

(** Volume capacity metrics. *)
Definition volumeCapacityBytes : metric :=
  NewGaugeVec "volume_capacity_bytes" "Volume capacity in bytes" ["volume_id"; labelProtocol].

Definition declared : list metric :=
  [csiOperationsTotal; csiOperationDuration; volumeOperationsTotal; volumeOperationDuration; wsConnectionStatus;
   wsReconnectionsTotal; wsMessagesTotal; wsMessageDuration; wsConnectionDuration; nvmeConnectConcurrent; nvmeConnectWaiting;
   volumeCapacityBytes].

(** The name under which the registry knows a metric. *)
Definition full_name (m : metric) : string := mt_Namespace m +:+ "_" +:+ mt_Name m.

(** ** Label values *)

Definition controller_operations : list string :=
  ["CreateVolume"; "DeleteVolume"; "ControllerPublishVolume"; "ControllerUnpublishVolume"; "ValidateVolumeCapabilities";
   "ListVolumes"; "GetCapacity"; "ControllerGetCapabilities"; "CreateSnapshot"; "DeleteSnapshot"; "ListSnapshots";
   "ControllerExpandVolume"].
Definition node_operations : list string :=
  ["NodeStageVolume"; "NodeUnstageVolume"; "NodePublishVolume"; "NodeUnpublishVolume"; "NodeGetCapabilities"; "NodeGetInfo";
   "NodeExpandVolume"].
Definition identity_operations : list string := ["GetPluginInfo"; "GetPluginCapabilities"; "Probe"].
Definition metric_protocols : list string := ["nfs"; "nvmeof"; "iscsi"; "smb"; "unknown"].

(** ** Updates *)

(** Counters count up by one; durations are observed in seconds. *)
Inductive update : Type :=
| CounterInc (m : metric) (labels : list string)
| HistogramObserve (m : metric) (labels : list string) (nanoseconds : Z)
| GaugeSetTo (m : metric) (labels : list string) (value : Z)
| GaugeSetSeconds (m : metric) (nanoseconds : Z)
| GaugeInc (m : metric)
| GaugeDec (m : metric)
| GaugeDelete (m : metric) (labels : list string).

(** ** Records *)

Definition RecordCSIOperation (operation status : string) (duration : Z) : list update :=
  [CounterInc csiOperationsTotal [operation; status]; HistogramObserve csiOperationDuration [operation] duration].

Definition RecordVolumeOperation (protocol operation status : string) (duration : Z) : list update :=
  [CounterInc volumeOperationsTotal [protocol; operation; status];
   HistogramObserve volumeOperationDuration [protocol; operation] duration].

Definition SetWSConnectionStatus (connected : bool) : list update :=
  [GaugeSetTo wsConnectionStatus [] (if connected then 1 else 0)].
Definition RecordWSReconnection : list update := [CounterInc wsReconnectionsTotal []].
Definition RecordWSMessage (direction : string) : list update := [CounterInc wsMessagesTotal [direction]].
Definition RecordWSMessageDuration (method : string) (duration : Z) : list update :=
  [HistogramObserve wsMessageDuration [method] duration].
Definition SetWSConnectionDuration (duration : Z) : list update := [GaugeSetSeconds wsConnectionDuration duration].

Definition SetVolumeCapacity (volumeID protocol : string) (bytes : Z) : list update :=
  [GaugeSetTo volumeCapacityBytes [volumeID; protocol] bytes].
Definition DeleteVolumeCapacity (volumeID protocol : string) : list update :=
  [GaugeDelete volumeCapacityBytes [volumeID; protocol]].

Definition NVMeConnectWaiting : list update := [GaugeInc nvmeConnectWaiting].
Definition NVMeConnectDoneWaiting : list update := [GaugeDec nvmeConnectWaiting].
Definition NVMeConnectStart : list update := [GaugeInc nvmeConnectConcurrent].
Definition NVMeConnectDone : list update := [GaugeDec nvmeConnectConcurrent].

(** ** Timers *)

Record OperationTimer : Type := mkOperationTimer { start : Z; operation : string; protocol : string }.

Definition NewOperationTimer (operation : string) (now : Z) : OperationTimer := mkOperationTimer now operation "".
Definition NewVolumeOperationTimer (protocol operation : string) (now : Z) : OperationTimer :=
  mkOperationTimer now operation protocol.

Definition observe (status : string) (t : OperationTimer) (now : Z) : list update :=
  let duration := now - start t in
  (if negb (String.eqb (protocol t) "") then RecordVolumeOperation (protocol t) (operation t) status duration else []) ++
  RecordCSIOperation (operation t) status duration.

Definition ObserveSuccess : OperationTimer -> Z -> list update := observe "success".
Definition ObserveError : OperationTimer -> Z -> list update := observe "error".

Record WSMessageTimer : Type := mkWSMessageTimer { ws_start : Z; ws_method : string }.
Definition NewWSMessageTimer (method : string) (now : Z) : WSMessageTimer := mkWSMessageTimer now method.
Definition Observe (t : WSMessageTimer) (now : Z) : list update := RecordWSMessageDuration (ws_method t) (now - ws_start t).

(** ** The adapter of the API client (ws_adapter.go) *)

Module WSMetricsAdapter.
Definition SetConnectionStatus (connected : bool) : list update := SetWSConnectionStatus connected.
Definition RecordReconnection : list update := RecordWSReconnection.
Definition RecordMessage (direction : string) : list update := RecordWSMessage direction.
Definition RecordMessageDuration (method : string) (d : Z) : list update := RecordWSMessageDuration method d.
Definition SetConnectionDuration (d : Z) : list update := SetWSConnectionDuration d.
End WSMetricsAdapter.

(** ** Versions *)

Record VersionInfo : Type := mkVersionInfo {
  vi_Version : string; vi_GitCommit : string; vi_BuildDate : string; vi_GoVersion : string; vi_Platform : string
}.

(** [goVersion], [goos] and [goarch] are constants of package runtime. *)
Definition SetVersionInfo (goVersion goos goarch version gitCommit buildDate : string) : VersionInfo :=
  mkVersionInfo version gitCommit buildDate goVersion (goos +:+ "/" +:+ goarch).

(** The package variable is the argument. *)
Definition GetVersionInfo (versionInfo : VersionInfo) : VersionInfo := versionInfo.

(** What a handler does to its [http.ResponseWriter].  [encode] is
    [json.NewEncoder(w).Encode], which writes the value or answers an error. *)
Inductive http_write : Type :=
| SetHeader (key value : string)
| WriteJSON (body : VersionInfo)
| HttpError (text : string) (code : Z).

Definition VersionHandler (encode : VersionInfo -> option string) (versionInfo : VersionInfo) : list http_write :=
  SetHeader "Content-Type" "application/json" ::
  match encode versionInfo with
  | None => [WriteJSON versionInfo]
  | Some err => [HttpError err 500]
  end.

(** ** Typing

    The registry of Prometheus refuses, by a panic, a second metric of the same
    name and label values whose number is not that of the declared labels. *)

Definition uses (k : metric_kind) (labels : list string) (m : metric) : Prop :=
  m ∈ declared /\ mt_kind m = k /\ length labels = length (mt_labels m).

Definition well_typed (u : update) : Prop :=
  match u with
  | CounterInc m ls => uses Counter ls m
  | HistogramObserve m ls _ => uses Histogram ls m
  | GaugeSetTo m ls _ | GaugeDelete m ls => uses Gauge ls m
  | GaugeSetSeconds m _ | GaugeInc m | GaugeDec m => uses Gauge [] m
  end.

(** The calls of the package that update a metric. *)
Inductive recorded : list update -> Prop :=
| rec_csi op status d : recorded (RecordCSIOperation op status d)
| rec_volume protocol op status d : recorded (RecordVolumeOperation protocol op status d)
| rec_success t now : recorded (ObserveSuccess t now)
| rec_error t now : recorded (ObserveError t now)
| rec_ws_status c : recorded (WSMetricsAdapter.SetConnectionStatus c)
| rec_ws_again : recorded WSMetricsAdapter.RecordReconnection
| rec_ws_message d : recorded (WSMetricsAdapter.RecordMessage d)
| rec_ws_duration m d : recorded (WSMetricsAdapter.RecordMessageDuration m d)
| rec_ws_connection d : recorded (WSMetricsAdapter.SetConnectionDuration d)
| rec_ws_timer t now : recorded (Observe t now)
| rec_capacity v protocol b : recorded (SetVolumeCapacity v protocol b)
| rec_no_capacity v protocol : recorded (DeleteVolumeCapacity v protocol)
| rec_waiting : recorded NVMeConnectWaiting
| rec_not_waiting : recorded NVMeConnectDoneWaiting
| rec_start : recorded NVMeConnectStart
| rec_done : recorded NVMeConnectDone.

(** The declarations do not clash and no call panics. *)
Lemma metrics_well_typed :
  NoDup (map full_name declared) /\ forall us, recorded us -> Forall well_typed us.
Proof.
  split; [by apply (bool_decide_unpack _); vm_compute|].
  assert (forall op status d, Forall well_typed (RecordCSIOperation op status d)) as HC.
  { intros. repeat constructor; unfold declared; set_solver. }
  assert (forall p op status d, Forall well_typed (RecordVolumeOperation p op status d)) as HV.
  { intros. repeat constructor; unfold declared; set_solver. }
  assert (forall status t now, Forall well_typed (observe status t now)) as HO.
  { intros. apply Forall_app. split; [destruct (negb _); [apply HV|constructor]|apply HC]. }
  intros us []; try apply HC; try apply HV; try apply HO; repeat constructor; unfold declared; set_solver.
Qed.

(** The largest bound of the buckets: [count] bounds, from the start, each the
    [factor] of the one before. *)
Definition largest_bound (b : buckets) : Z := start_ms b * factor b ^ (count b - 1).

(** The comments of the declarations give about 16, 400 and 40 seconds: the last
    two are twice the bound. *)
Lemma bucket_ranges :
  option_map largest_bound (mt_Buckets csiOperationDuration) = Some 16384 /\
  option_map largest_bound (mt_Buckets volumeOperationDuration) = Some 204800 /\
  option_map largest_bound (mt_Buckets wsMessageDuration) = Some 20480.
Proof. vm_compute. repeat split. Qed.

(** ** Counting *)

Fixpoint count_inc (name : string) (labels : list string) (l : list update) : nat :=
  match l with
  | [] => 0
  | CounterInc m ls :: rest => ((if bool_decide (full_name m = name /\ ls = labels) then 1 else 0) + count_inc name labels rest)%nat
  | _ :: rest => count_inc name labels rest
  end.

(** One observation counts the operation once, under its label and status, and the
    volume operation once where the timer has a protocol. *)
Lemma observe_counts status t now :
  count_inc (full_name csiOperationsTotal) [operation t; status] (observe status t now) = 1%nat /\
  count_inc (full_name volumeOperationsTotal) [protocol t; operation t; status] (observe status t now) =
    (if String.eqb (protocol t) "" then 0 else 1)%nat.
Proof.
  assert (full_name volumeOperationsTotal <> full_name csiOperationsTotal) as Hne by done.
  unfold observe, RecordVolumeOperation, RecordCSIOperation. destruct (String.eqb (protocol t) ""); cbn [negb app count_inc];
    split; repeat case_bool_decide; naive_solver.
Qed.
