(* ===== verification/Server.v ===== *)
(** * The process of the driver

    The identity service (identity.go), the list of controller capabilities,
    the creation of the services, the start, drain and stop of the gRPC server
    (driver.go, dashboard/server.go), the entry point (cmd/nasty-csi-driver/main.go),
    the goroutine of the health monitor (node_recovery.go) and package cmdexec. *)

From S2P Require Import Prelude GoStrings Prog Errors Api Retry Common Controller Publish NodeHost NodeFiles NodeService Metrics.

(** ** identity.go *)

(** [apiClient] is nil, or answers [IsConnected]. *)
Record IdentityService : Type := mkIdentity { id_driverName : string; id_version : string; id_connected : option bool }.

Definition NewIdentityService (driverName version : string) (apiClient : option bool) : IdentityService :=
  mkIdentity driverName version apiClient.

Definition GetPluginInfo (s : IdentityService) : res (string * string) :=
  if String.eqb (id_driverName s) "" then Err (Status Unavailable "Driver name not configured")
  else if String.eqb (id_version s) "" then Err (Status Unavailable "Driver version not configured")
  else Ok (id_driverName s, id_version s).

Inductive plugin_capability : Set := CONTROLLER_SERVICE | VOLUME_EXPANSION_ONLINE.
Definition GetPluginCapabilities : list plugin_capability := [CONTROLLER_SERVICE; VOLUME_EXPANSION_ONLINE].

Definition Probe (s : IdentityService) : bool := match id_connected s with Some false => false | _ => true end.

(** ** controller.go *)

Inductive controller_capability : Set :=
| CREATE_DELETE_VOLUME | PUBLISH_UNPUBLISH_VOLUME | PUBLISH_READONLY | LIST_VOLUMES | GET_CAPACITY | CTRL_EXPAND_VOLUME
| CREATE_DELETE_SNAPSHOT | LIST_SNAPSHOTS | CLONE_VOLUME | GET_VOLUME | CTRL_GET_VOLUME_HEALTH | SINGLE_NODE_MULTI_WRITER.

Definition ControllerGetCapabilities : list controller_capability :=
  [CREATE_DELETE_VOLUME; PUBLISH_UNPUBLISH_VOLUME; PUBLISH_READONLY; LIST_VOLUMES; GET_CAPACITY; CTRL_EXPAND_VOLUME;
   CREATE_DELETE_SNAPSHOT; LIST_SNAPSHOTS; CLONE_VOLUME; GET_VOLUME; CTRL_GET_VOLUME_HEALTH; SINGLE_NODE_MULTI_WRITER].

(** [inCluster]: [rest.InClusterConfig] succeeds; [newClient]: [kubernetes.NewForConfig]
    succeeds.  The second component is [publishedVolumes]. *)
Definition NewControllerService (inCluster newClient : bool) (clusterID : string) : service * published :=
  (mkService clusterID (inCluster && newClient), ∅).

(** ** cmdexec.go *)

(** [c.ctx.Err()] is [ctxErr]; the error of the command keeps its place in the chain. *)
Definition cmd_outcome (ctxErr err : option error) : option error :=
  match err, ctxErr with
  | Some e, Some c => Some (Errorf ("command interrupted: " +:+ err_text c +:+ ": " +:+ err_text e) [c; e])
  | _, _ => err
  end.

(** ** The interceptor *)

(** The last component of a full method name, /csi.v1.Node/NodeStageVolume. *)
Definition method_name (fullMethod : string) : string := List.last (Split fullMethod "/") "".

Section Interceptor.
Context {Sg : signature} (now : prog Sg Z) (record : update -> prog Sg unit).

Fixpoint record_all (l : list update) : prog Sg unit :=
  match l with [] => Ret tt | u :: rest => record u ;;; record_all rest end.

Definition metricsInterceptor {A : Type} (fullMethod : string) (handler : prog Sg (res A)) : prog Sg (res A) :=
  t0 <- now;;
  let timer := NewOperationTimer (method_name fullMethod) t0 in
  resp <- handler;;
  t1 <- now;;
  record_all (match resp with Ok _ => ObserveSuccess timer t1 | Err _ => ObserveError timer t1 end) ;;; Ret resp.
End Interceptor.

(** ** The driver *)

Record Config : Type := mkConfig {
  cf_DriverName : string; cf_Version : string; cf_NodeID : string; cf_Endpoint : string; cf_APIURL : string; cf_APIKey : string;
  cf_MetricsAddr : string; cf_DashboardAddr : string; cf_DashboardFilesystem : string; cf_ClusterID : string;
  cf_TestMode : bool; cf_SkipTLSVerify : bool; cf_EnableNVMeDiscovery : bool; cf_MaxConcurrentNVMeConnects : Z
}.

(** The servers that Run sets and Stop reads are operations, below. *)
Record Driver : Type := mkDriver {
  d_config : Config; d_identity : IdentityService; d_registry : NodeRegistry.t; d_controller : service * published;
  d_node : NodeService
}.

(** The registry has this node before kubelet asks; [now] is the time of the
    registration, [kube] what there is of a cluster. *)
Definition NewDriverWithClient (cfg : Config) (connected : option bool) (now : Z) (kube : bool * bool) : Driver :=
  let registry := if negb (String.eqb (cf_NodeID cfg) "") then NodeRegistry.Register (cf_NodeID cfg) now NodeRegistry.NewNodeRegistry
                  else NodeRegistry.NewNodeRegistry in
  mkDriver cfg (NewIdentityService (cf_DriverName cfg) (cf_Version cfg) connected) registry
    (NewControllerService kube.1 kube.2 (cf_ClusterID cfg))
    (NewNodeService (cf_NodeID cfg) (match connected with Some _ => true | None => false end) (cf_TestMode cfg) true
       (cf_EnableNVMeDiscovery cfg) (cf_MaxConcurrentNVMeConnects cfg)).

(** *** Operations of the process

    The fields that Run sets and Stop reads are operations, since the two
    run in different goroutines. *)
Inductive server : Set := MetricsServer | DashboardServer | DashboardHttp | GrpcServer.

Inductive sop : Type :=
| ParseEndpoint (endpoint : string)
| RemoveSocket (path : string)
(* the templates that are embedded in the binary *)
| ParseTemplates
| SetServer (s : server)
| GetServer (s : server)
| GoServe (s : server) (addr : string)
| Listen (scheme addr : string)
| RegisterIdentity | RegisterController | RegisterNode
| GoHealthMonitor
| GoSeedMetrics
| Serve
(* the stop channel: whether it is closed, and close *)
| PollStopCh
| CloseStopCh
| ShutdownDashboard (nanoseconds : Z)
| ShutdownMetrics (nanoseconds : Z)
| GoGracefulStop
(* the select of stopGRPCServer: whether the drain ended in time *)
| DrainedWithin (nanoseconds : Z)
| GoForceStop
| CloseClient
| SNow
(* http.Server.ListenAndServe of the dashboard *)
| ListenAndServe (addr : string)
(* NewDriver: the client, the Kubernetes client, the callback *)
| NewClient (apiURL apiKey : string) (skipTLSVerify : bool)
| InClusterConfig
| NewForConfig
| SetOnReconnect
(* main: the environment, the verbosity, the output, the version of the metrics *)
| Getenv (key : string)
| SetVerbosity (v : string)
| Printf (line : string)
| PublishVersion (version gitCommit buildDate : string)
(* the signal channel, the goroutine that receives from it, and shutdownDone *)
| NotifySignals
| GoSignalHandler
| ReceiveSignal
| CloseShutdownDone
| WaitShutdownDone.

Definition sans (o : sop) : Type :=
  match o with
  | ParseEndpoint _ => res_of error (string * string * string)
  | RemoveSocket _ | ParseTemplates | Listen _ _ | Serve | ShutdownMetrics _ | ShutdownDashboard _ | ListenAndServe _
  | NewClient _ _ _ | SetVerbosity _ => option error
  | GetServer _ | PollStopCh | DrainedWithin _ | InClusterConfig | NewForConfig => bool
  | Getenv _ => string
  | SNow => Z
  | _ => unit
  end.

Definition ssig : signature := {| op := sop; ans := sans |}.
Abbreviation Proc := (prog ssig).
Definition act (o : sop) : Proc (sans o) := call (Sg := ssig) o.

(** *** The server of the dashboard (dashboard/server.go) *)

(** The client is that of the driver. *)
Record DashboardState : Type := mkDashboard { ds_filesystem : string; ds_version : string; ds_clusterID : string }.

Definition NewServer (filesystem version clusterID : string) : Proc (res DashboardState) :=
  err <- act ParseTemplates;;
  Ret (match err with Some e => Err e | None => Ok (mkDashboard filesystem version clusterID) end).

(** Runs in a goroutine of its own. *)
Definition dashboard_Start (addr : string) : Proc (option error) :=
  act (SetServer DashboardHttp) ;;;
  err <- act (ListenAndServe addr);;
  Ret (match err with
       | Some e => if errors_Is e http_ErrServerClosed then None else Some e
       | None => None
       end).

Definition dashboard_Stop : Proc unit :=
  httpSrv <- act (GetServer DashboardHttp);;
  if (httpSrv : bool) then act (ShutdownDashboard (5 * 1000000000)) ;;; Ret tt else Ret tt.
(** *** Creation *)

(** [connected] is what the client answers to [IsConnected]. *)
Definition NewDriver (cfg : Config) (connected : bool) : Proc (res Driver) :=
  err <- act (NewClient (cf_APIURL cfg) (cf_APIKey cfg) (cf_SkipTLSVerify cfg));;
  match err with
  | Some e => Ret (Err e)
  | None =>
      now <- (if String.eqb (cf_NodeID cfg) "" then Ret 0 else act SNow);;
      inCluster <- act InClusterConfig;;
      newClient <- (if (inCluster : bool) then act NewForConfig else Ret false);;
      let d := NewDriverWithClient cfg (Some connected) now (inCluster, newClient) in
      act SetOnReconnect ;;; Ret (Ok d)
  end.

(** *** Start *)

Definition StartHealthMonitor (testMode : bool) : Proc unit := if testMode then Ret tt else act GoHealthMonitor.

Definition start_metrics (cfg : Config) : Proc unit :=
  if String.eqb (cf_MetricsAddr cfg) "" then Ret tt
  else act (SetServer MetricsServer) ;;; act (GoServe MetricsServer (cf_MetricsAddr cfg)).

Definition start_dashboard (cfg : Config) : Proc unit :=
  if String.eqb (cf_DashboardAddr cfg) "" then Ret tt
  else
    dashSrv <- NewServer (cf_DashboardFilesystem cfg) (cf_Version cfg) (cf_ClusterID cfg);;
    match dashSrv with
    | Err _ => Ret tt
    | Ok _ => act (SetServer DashboardServer) ;;; act (GoServe DashboardServer (cf_DashboardAddr cfg))
    end.

(** The address to listen on; the socket of a former process is removed. *)
Definition listen_address (scheme host path : string) : Proc (res string) :=
  if String.eqb scheme "unix" then
    removeErr <- act (RemoveSocket path);;
    match removeErr with
    | Some e => if IsNotExist e then Ret (Ok path) else Ret (Err e)
    | None => Ret (Ok path)
    end
  else Ret (Ok host).

Definition Run (cfg : Config) : Proc (option error) :=
  u <- act (ParseEndpoint (cf_Endpoint cfg));;
  match u with
  | Err e => Ret (Some e)
  | Ok (scheme, host, path) =>
      addr <- listen_address scheme host path;;
      match addr with
      | Err e => Ret (Some e)
      | Ok addr =>
          start_metrics cfg ;;;
          start_dashboard cfg ;;;
          err <- act (Listen scheme addr);;
          match err with
          | Some e => Ret (Some e)
          | None =>
              act (SetServer GrpcServer) ;;;
              act RegisterIdentity ;;; act RegisterController ;;; act RegisterNode ;;;
              StartHealthMonitor (cf_TestMode cfg) ;;;
              (if String.eqb (cf_NodeID cfg) "" && negb (cf_TestMode cfg) then act GoSeedMetrics else Ret tt) ;;;
              act Serve
          end
      end
  end.

(** *** Stop *)

(** The [default] branch closes the channel; a second close panics. *)
Definition StopHealthMonitor : Proc unit :=
  closed <- act PollStopCh;;
  if (closed : bool) then Ret tt else act CloseStopCh.

Definition stopGRPCServer (timeout : Z) : Proc unit :=
  act GoGracefulStop ;;;
  drained <- act (DrainedWithin timeout);;
  if (drained : bool) then Ret tt else act GoForceStop.

(** [d.node] and [d.apiClient] are set by [NewDriverWithClient]. *)
Definition Stop : Proc unit :=
  now <- act SNow;;
  let drainDeadline := now + 25 * 1000000000 in
  StopHealthMonitor ;;;
  dashboard <- act (GetServer DashboardServer);;
  (if (dashboard : bool) then dashboard_Stop else Ret tt) ;;;
  metrics <- act (GetServer MetricsServer);;
  (if (metrics : bool) then act (ShutdownMetrics (5 * 1000000000)) ;;; Ret tt else Ret tt) ;;;
  grpc <- act (GetServer GrpcServer);;
  (if (grpc : bool) then now <- act SNow;; stopGRPCServer (drainDeadline - now) else Ret tt) ;;;
  act CloseClient.

(** ** The goroutine of the health monitor *)

(** Started once; each round waits for the stop channel or the ticker. *)
Inductive monitor : Set := Waiting | InPass | Ended.

Record monitor_state : Type := mkMonitor { mo_loop : option monitor; mo_stopped : bool }.

Inductive monitor_step : monitor_state -> monitor_state -> Prop :=
| monitor_start st : mo_loop st = None -> monitor_step st (mkMonitor (Some Waiting) (mo_stopped st))
| monitor_tick st : mo_loop st = Some Waiting -> monitor_step st (mkMonitor (Some InPass) (mo_stopped st))
| monitor_pass st : mo_loop st = Some InPass -> monitor_step st (mkMonitor (Some Waiting) (mo_stopped st))
| monitor_end st : mo_loop st = Some Waiting -> mo_stopped st = true -> monitor_step st (mkMonitor (Some Ended) true)
| monitor_stop st : monitor_step st (mkMonitor (mo_loop st) true).
