(* ===== verification/ServerTheorems.v ===== *)
(** * Start and stop of the driver

    What the interceptor adds to a call, in which order the process starts and
    stops, and what is lost where it is stopped while it starts. *)

From S2P Require Import Prelude GoStrings Prog Errors Api Publish NodeHost NodeFiles NodeService Metrics Server.

#[local] Set Default Proof Using "Type*".

(** ** The interceptor *)

(** The call answers what its handler answers, and one observation follows. *)
Lemma metricsInterceptor_answer {Sg : signature} {A : Type} (now : prog Sg Z) record method (handler : prog Sg (res A)) tr r :
  exec (metricsInterceptor now record method handler) tr (Done r) ->
  exists t0 t1 tr0 trh tr1 tr2,
    tr = tr0 ++ trh ++ tr1 ++ tr2 /\ exec now tr0 (Done t0) /\ exec handler trh (Done r) /\ exec now tr1 (Done t1) /\
    exec (record_all record (observe (match r with Ok _ => "success" | Err _ => "error" end)
                               (NewOperationTimer (method_name method) t0) t1)) tr2 (Done tt).
Proof.
  intros H. apply exec_bind in H as [(t0 & tr0 & trA & H0 & H & ->)|[_ [=]]].
  apply exec_bind in H as [(r' & trh & trB & Hh & H & ->)|[_ [=]]].
  apply exec_bind in H as [(t1 & tr1 & trC & H1 & H & ->)|[_ [=]]].
  apply exec_bind in H as [([] & tr2 & trD & H2 & H & ->)|[_ [=]]].
  apply exec_inv in H as [-> [= ->]]. exists t0, t1, tr0, trh, tr1, tr2. rewrite app_nil_r.
  split_and!; [done..|]. by destruct r'.
Qed.

(** The label of a call in the metrics is the constant of its operation. *)
Lemma method_name_operation :
  map (fun op => method_name ("/csi.v1.Controller/" +:+ op)) controller_operations = controller_operations /\
  map (fun op => method_name ("/csi.v1.Node/" +:+ op)) node_operations = node_operations /\
  map (fun op => method_name ("/csi.v1.Identity/" +:+ op)) identity_operations = identity_operations.
Proof. vm_compute. repeat split. Qed.

(** ** Order *)

Abbreviation shistory := (list (event ssig)).
Definition sev (o : sop) (r : sans o) : event ssig := ev (Sg := ssig) o r.

Definition done_before (h : shistory) (o : sop) : Prop := exists r, sev o r ∈ h.

(** The server serves after it listens, with all services, and its monitor
    unless in test mode. *)
Inductive run_allow (cfg : Config) (h : shistory) : sop -> Prop :=
| run_setup o : o <> Serve -> run_allow cfg h o
| run_serve :
    (exists scheme addr, sev (Listen scheme addr) None ∈ h) ->
    done_before h (SetServer GrpcServer) -> done_before h RegisterIdentity -> done_before h RegisterController ->
    done_before h RegisterNode -> (cf_TestMode cfg = false -> done_before h GoHealthMonitor) -> run_allow cfg h Serve.

(** What has become of the gRPC server: there was none, or it was asked to drain,
    and has drained before the deadline or was then told to stop. *)
Inductive server_down (h : shistory) : Prop :=
| down_none : sev (GetServer GrpcServer) false ∈ h -> server_down h
| down_drained t : sev GoGracefulStop tt ∈ h -> sev (DrainedWithin t) true ∈ h -> server_down h
| down_forced t : sev GoGracefulStop tt ∈ h -> sev (DrainedWithin t) false ∈ h -> sev GoForceStop tt ∈ h -> server_down h.

Definition shutdown_limit : Z := 5 * 1000000000.
Definition drain_limit : Z := 25 * 1000000000.

(** The stop channel is closed only if it was open; only servers that are set are
    stopped, the two HTTP servers within five seconds each; the drain has until
    25 seconds after the first reading of the clock; the client is closed at the end. *)
Inductive stop_allow (h : shistory) : sop -> Prop :=
| stop_look o : o = SNow \/ o = PollStopCh \/ (exists s, o = GetServer s) -> stop_allow h o
| stop_channel : sev PollStopCh false ∈ h -> (forall r, sev CloseStopCh r ∉ h) -> stop_allow h CloseStopCh
| stop_dashboard : sev (GetServer DashboardHttp) true ∈ h -> stop_allow h (ShutdownDashboard shutdown_limit)
| stop_metrics : sev (GetServer MetricsServer) true ∈ h -> stop_allow h (ShutdownMetrics shutdown_limit)
| stop_graceful : sev (GetServer GrpcServer) true ∈ h -> stop_allow h GoGracefulStop
| stop_drain t0 t rest :
    h = sev SNow t0 :: rest ++ [sev SNow t; sev GoGracefulStop tt] -> stop_allow h (DrainedWithin (t0 + drain_limit - t))
| stop_force t : sev (DrainedWithin t) false ∈ h -> stop_allow h GoForceStop
| stop_client : server_down h -> (sev PollStopCh true ∈ h \/ done_before h CloseStopCh) -> stop_allow h CloseClient.

(** Nothing follows the closing of the client. *)
Definition client_open (h : shistory) : Prop := forall r, sev CloseClient r ∉ h.

Definition run_policy (cfg : Config) : policy ssig :=
  {| allow h o := run_allow cfg h o; env _ _ _ := True; crash := False |}.
Definition stop_policy : policy ssig := {| allow h o := client_open h /\ stop_allow h o; env _ _ _ := True; crash := False |}.

Lemma wp_act P h (o : sop) (post : sans o -> shistory -> Prop) :
  allow (Sg := ssig) P h o -> (forall r, post r (h ++ [sev o r])) -> wp P h (act o) post.
Proof. intros Ha Hp. split; [done|]. intros r _. apply Hp. Qed.

Lemma wp_act_then {B : Type} P h (o : sop) (f : sans o -> Proc B) post :
  allow (Sg := ssig) P h o -> (forall r, wp P (h ++ [sev o r]) (f r) post) -> wp P h (bind (act o) f) post.
Proof. intros Ha Hf. apply wp_bind, wp_act; [done|]. exact Hf. Qed.

(** An operation of the preparation. *)
Lemma run_prepare {B : Type} cfg h (o : sop) (f : sans o -> Proc B) post :
  o <> Serve -> (forall r, wp (run_policy cfg) (h ++ [sev o r]) (f r) post) -> wp (run_policy cfg) h (bind (act o) f) post.
Proof. intros Ho Hf. apply wp_act_then; [by apply run_setup|exact Hf]. Qed.

Lemma run_call {A B : Type} cfg h (p : Proc A) (f : A -> Proc B) post :
  wp (run_policy cfg) h p (fun _ _ => True) -> (forall a t, wp (run_policy cfg) (h ++ t) (f a) post) -> wp (run_policy cfg) h (bind p f) post.
Proof. intros Hp Hf. eapply wp_call_spec; [exact Hp|]. intros a t _. apply Hf. Qed.

Lemma wp_Run cfg : wp (run_policy cfg) [] (Run cfg) (fun _ _ => True).
Proof.
  unfold Run. apply run_prepare; [done|]. intros [[[scheme host] path]|e]; [|by apply wp_ret].
  apply run_call.
  { unfold listen_address. destruct (String.eqb scheme "unix"); [|by apply wp_ret].
    apply run_prepare; [done|]. intros [e|]; [destruct (IsNotExist e)|]; by apply wp_ret. }
  intros [addr|e] t1; [|by apply wp_ret]. apply run_call.
  { unfold start_metrics. destruct (String.eqb _ ""); [by apply wp_ret|].
    apply run_prepare; [done|]. intros r. by apply wp_act; [apply run_setup|]. }
  intros _ t2. apply run_call.
  { unfold start_dashboard. destruct (String.eqb _ ""); [by apply wp_ret|].
    apply run_call; [apply run_prepare; [done|]; intros r; by apply wp_ret|]. intros [d|e] td; [|by apply wp_ret].
    apply run_prepare; [done|]. intros r. by apply wp_act; [apply run_setup|]. }
  intros _ t3. apply run_prepare; [done|]. intros [e|]; [by apply wp_ret|].
  apply run_prepare; [done|]; intros rg. apply run_prepare; [done|]; intros ri.
  apply run_prepare; [done|]; intros rc. apply run_prepare; [done|]; intros rn.
  eapply wp_call_spec with (Q := fun _ h => cf_TestMode cfg = false -> done_before h GoHealthMonitor).
  { unfold StartHealthMonitor. destruct (cf_TestMode cfg); [by apply wp_ret|]. apply wp_act; [by apply run_setup|].
    intros rm _. exists rm. apply elem_of_app. right. by left. }
  intros _ t4 Hm. apply run_call; [destruct (_ && _); [by apply wp_act; [apply run_setup|]|by apply wp_ret]|].
  intros _ t5. apply wp_act; [|done]. apply run_serve; unfold done_before in *; [exists scheme, addr|exists rg|exists ri|exists rc|exists rn|].
  1-5: rewrite !elem_of_app, !list_elem_of_singleton; tauto.
  intros Ht. destruct (Hm Ht) as [r Hr]. exists r. apply elem_of_app. by left.
Qed.

Lemma client_open_app h t : client_open h -> client_open t -> client_open (h ++ t).
Proof. intros H1 H2 r [H|H]%elem_of_app; [by eapply H1|by eapply H2]. Qed.

Lemma client_open_event (o : sop) r : o <> CloseClient -> client_open [sev o r].
Proof. intros Ho r' H%list_elem_of_singleton. apply (f_equal (@projT1 _ _)) in H. by apply Ho. Qed.

#[local] Hint Resolve client_open_app : stop.
#[local] Hint Extern 1 (client_open [_]) => (apply client_open_event; discriminate) : stop.
#[local] Hint Extern 1 (_ ∈ _ ++ _) => (apply elem_of_app) : stop.
#[local] Hint Extern 1 (_ ∈ [_]) => (apply list_elem_of_singleton; reflexivity) : stop.

(** A step of Stop before the client is closed. *)
Lemma stop_then {B : Type} h (o : sop) (f : sans o -> Proc B) post :
  client_open h -> o <> CloseClient -> stop_allow h o ->
  (forall r, client_open (h ++ [sev o r]) -> sev o r ∈ h ++ [sev o r] -> wp stop_policy (h ++ [sev o r]) (f r) post) ->
  wp stop_policy h (bind (act o) f) post.
Proof.
  intros Ho Hne Ha Hf. apply wp_act_then; [by split|]. intros r. apply Hf; [|auto with stop].
  apply client_open_app; [done|by apply client_open_event].
Qed.

Lemma stop_last h (o : sop) (post : sans o -> shistory -> Prop) :
  client_open h -> o <> CloseClient -> stop_allow h o ->
  (forall r, client_open (h ++ [sev o r]) -> sev o r ∈ h ++ [sev o r] -> post r (h ++ [sev o r])) -> wp stop_policy h (act o) post.
Proof.
  intros Ho Hne Ha Hf. apply wp_act; [by split|]. intros r. apply Hf; [|auto with stop].
  apply client_open_app; [done|by apply client_open_event].
Qed.

Lemma wp_StopHealthMonitor h :
  client_open h -> (forall r, sev CloseStopCh r ∉ h) ->
  wp stop_policy h StopHealthMonitor (fun _ h' => client_open h' /\ (sev PollStopCh true ∈ h' \/ done_before h' CloseStopCh)).
Proof.
  intros Ho Hc. unfold StopHealthMonitor. apply stop_then; [done|done|apply stop_look; auto|]. intros [|] Ho1 Hin.
  - apply wp_ret. split; [done|by left].
  - apply stop_last; [done|done|apply stop_channel; [done|]|].
    + intros r [Hr|Hr%list_elem_of_singleton]%elem_of_app; [by eapply Hc|discriminate Hr].
    + intros r Ho2 Hr. split; [done|right; by exists r].
Qed.

Lemma wp_dashboard_Stop h : client_open h -> wp stop_policy h dashboard_Stop (fun _ h' => client_open h').
Proof.
  intros Ho. unfold dashboard_Stop. apply stop_then; [done|done|apply stop_look; eauto|]. intros [|] Ho1 Hin; [|by apply wp_ret].
  apply stop_then; [done|done|by apply stop_dashboard|]. intros r Ho2 _. by apply wp_ret.
Qed.

Lemma wp_stopGRPCServer h t0 t rest :
  client_open h -> sev (GetServer GrpcServer) true ∈ h -> h = sev SNow t0 :: rest ++ [sev SNow t] ->
  wp stop_policy h (stopGRPCServer (t0 + drain_limit - t)) (fun _ h' => client_open h' /\ server_down h').
Proof.
  intros Ho Hg E. unfold stopGRPCServer. apply stop_then; [done|done|by apply stop_graceful|]. intros [] Ho1 Hin.
  apply stop_then; [done|done|eapply stop_drain; rewrite E; cbn [app]; by rewrite <- app_assoc|]. intros [|] Ho2 Hin2.
  - apply wp_ret. split; [done|]. eapply down_drained; [|exact Hin2]. auto with stop.
  - apply stop_last; [done|done|by eapply stop_force|]. intros [] Ho3 Hin3. split; [done|].
    eapply down_forced; [..|exact Hin3]; [auto 6 with stop|]. apply elem_of_app. by left.
Qed.

Lemma server_down_app h t : server_down h -> server_down (h ++ t).
Proof.
  destruct 1 as [?|d ? ?|d ? ? ?]; [apply down_none|eapply down_drained|eapply down_forced]; try (apply elem_of_app; left; eassumption).
Qed.

(** The drain deadline was taken at the start, and the monitor is told to stop. *)
Definition stopping (t0 : Z) (h : shistory) : Prop :=
  (exists rest, h = sev SNow t0 :: rest) /\ (sev PollStopCh true ∈ h \/ done_before h CloseStopCh).

Lemma stopping_app t0 h t : stopping t0 h -> stopping t0 (h ++ t).
Proof.
  intros [[rest ->] Hc]. split; [by exists (rest ++ t)|]. destruct Hc as [?|[r ?]]; [left|right; exists r]; apply elem_of_app; by left.
Qed.

Lemma wp_Stop : wp stop_policy [] Stop (fun _ h => exists h', h = h' ++ [sev CloseClient tt]).
Proof.
  unfold Stop. apply stop_then; [by intros r ?%elem_of_nil|done|apply stop_look; auto|]. intros t0 Ho _. cbv zeta.
  change (t0 + 25 * 1000000000) with (t0 + drain_limit).
  eapply wp_call_spec; [apply wp_StopHealthMonitor; [done|]; intros r Hr%list_elem_of_singleton; discriminate Hr|].
  intros _ t1 [Ho1 Hc]. assert (stopping t0 (([] ++ [sev SNow t0]) ++ t1)) as Hs by (split; [by exists t1|exact Hc]). clear Ho Hc.
  revert Ho1 Hs. generalize (([] ++ [sev SNow t0]) ++ t1). clear t1. intros h Ho Hs.
  apply stop_then; [done|done|apply stop_look; eauto|]. intros dashboard Ho1 _. apply stopping_app with (t := [sev (GetServer DashboardServer) dashboard]) in Hs.
  eapply wp_call_spec with (Q := fun _ h' => client_open h'); [destruct dashboard; [by apply wp_dashboard_Stop|by apply wp_ret]|].
  intros _ t2 Ho2. apply stopping_app with (t := t2) in Hs. clear Ho Ho1. revert Ho2 Hs. generalize ((h ++ [sev (GetServer DashboardServer) dashboard]) ++ t2).
  clear h t2. intros h Ho Hs.
  apply stop_then; [done|done|apply stop_look; eauto|]. intros metrics Ho1 Hm.
  eapply wp_call_spec with (Q := fun _ h' => client_open h').
  { destruct metrics; [|by apply wp_ret]. apply stop_then; [done|done|by apply stop_metrics|]. intros r Ho2 _. by apply wp_ret. }
  intros _ t3 Ho3. apply stopping_app with (t := [sev (GetServer MetricsServer) metrics]), (stopping_app _ _ t3) in Hs. clear Ho Ho1 Hm.
  revert Ho3 Hs. generalize ((h ++ [sev (GetServer MetricsServer) metrics]) ++ t3). clear h t3. intros h Ho Hs.
  apply stop_then; [done|done|apply stop_look; eauto|]. intros grpc Ho1 Hg. apply stopping_app with (t := [sev (GetServer GrpcServer) grpc]) in Hs.
  eapply wp_call_spec with (Q := fun _ h' => client_open h' /\ server_down h').
  { destruct grpc; [|apply wp_ret; split; [done|by apply down_none]].
    apply stop_then; [done|done|apply stop_look; auto|]. intros t Ho2 _. destruct Hs as [[rest Hr] _].
    eapply wp_stopGRPCServer; [done|apply elem_of_app; by left|]. rewrite Hr. reflexivity. }
  intros _ t4 [Ho4 Hd]. apply stopping_app with (t := t4) in Hs. apply wp_act; [split; [done|apply stop_client; [done|apply Hs]]|].
  intros []. by eexists.
Qed.

Lemma env_trace_trivial (P : policy ssig) tr : (forall h o r, env P h o r) -> env_trace P [] tr.
Proof.
  intros E. generalize ([] : shistory). induction tr as [|[o r] tr IH]; intros h; [done|]. split; [apply E|apply IH].
Qed.


(** ** The goroutine of the health monitor *)

(** The loop ends only after a stop; then no pass begins; and a stopped loop can
    always end. *)
Lemma monitor_ends st st' :
  rtc monitor_step (mkMonitor None false) st ->
  (mo_loop st = Some Ended -> mo_stopped st = true) /\
  (mo_loop st = Some Ended -> monitor_step st st' -> mo_loop st' = Some Ended) /\
  (mo_stopped st = true -> exists e, rtc monitor_step st e /\ mo_loop e = Some Ended).
Proof.
  intros H. split; [|split].
  - revert H. generalize (mkMonitor None false) (eq_refl : mo_loop (mkMonitor None false) = None). intros s0 E0 H.
    assert (forall a b, (mo_loop a = Some Ended -> mo_stopped a = true) -> monitor_step a b -> mo_loop b = Some Ended -> mo_stopped b = true) as Hstep.
    { intros a b Ha Hs. destruct Hs; cbn; try done. }
    assert (mo_loop s0 = Some Ended -> mo_stopped s0 = true) as H0 by (by rewrite E0). clear E0.
    induction H as [|a b c Hs _ IH]; [done|]. apply IH. by apply (Hstep a b).
  - intros E Hs. destruct Hs; cbn in *; congruence.
  - intros Hs. clear H. destruct st as [loop stopped]. cbn in Hs. subst stopped.
    assert (exists e, rtc monitor_step (mkMonitor (Some Waiting) true) e /\ mo_loop e = Some Ended) as (e & Hr & He).
    { eexists. split; [apply rtc_once, monitor_end; reflexivity|reflexivity]. }
    destruct loop as [[]|].
    + by exists e.
    + exists e. split; [|done]. eapply rtc_l; [|exact Hr]. by apply monitor_pass.
    + eexists. split; [apply rtc_refl|reflexivity].
    + exists e. split; [|done]. eapply rtc_l; [|exact Hr]. by apply monitor_start.
Qed.

(** ** Stop while the process starts

    The two run in different goroutines and share the fields of the driver. *)

Inductive partial {A : Type} : Proc A -> shistory -> Proc A -> Prop :=
| partial_here p : partial p [] p
| partial_step (o : sop) (r : sans o) k tr q : partial (k r) tr q -> partial (Vis (Sg := ssig) o k) (sev o r :: tr) q.

Inductive interleaving {A : Type} : list A -> list A -> list A -> Prop :=
| inter_nil : interleaving [] [] []
| inter_left x l1 l2 l : interleaving l1 l2 l -> interleaving (x :: l1) l2 (x :: l)
| inter_right x l1 l2 l : interleaving l1 l2 l -> interleaving l1 (x :: l2) (x :: l).

Definition server_eqb (a b : server) : bool :=
  match a, b with
  | MetricsServer, MetricsServer | DashboardServer, DashboardServer | DashboardHttp, DashboardHttp | GrpcServer, GrpcServer => true
  | _, _ => false
  end.

(** Stop finds the servers that Run has set. *)
Fixpoint consistent (set_servers : list server) (l : shistory) : bool :=
  match l with
  | [] => true
  | existT o r :: rest =>
      match o return sans o -> bool with
      | SetServer s => fun _ => consistent (s :: set_servers) rest
      | GetServer s => fun r => Bool.eqb r (existsb (server_eqb s) set_servers) && consistent set_servers rest
      | _ => fun _ => consistent set_servers rest
      end r
  end.

Definition is_op (f : sop -> bool) (e : event ssig) : bool := f (projT1 e).
Definition stops_grpc (o : sop) : bool := match o with GoGracefulStop | GoForceStop => true | _ => false end.

Definition demo_config : Config := mkConfig "nasty.csi.io" "1" "node1" "unix:///csi.sock" "ws://nas" "key" "" "" "" "" false false false 5.

Definition start_trace : shistory :=
  [sev (ParseEndpoint "unix:///csi.sock") (Ok ("unix", "", "/csi.sock")); sev (RemoveSocket "/csi.sock") None;
   sev (Listen "unix" "/csi.sock") None; sev (SetServer GrpcServer) tt; sev RegisterIdentity tt; sev RegisterController tt;
   sev RegisterNode tt; sev GoHealthMonitor tt].

Definition early_stop : shistory :=
  [sev SNow 0; sev PollStopCh false; sev CloseStopCh tt; sev (GetServer DashboardServer) false; sev (GetServer MetricsServer) false;
   sev (GetServer GrpcServer) false; sev CloseClient tt].

(** A signal that arrives before the gRPC server is set is lost: Stop ends,
    without a stop of the server, and Run goes on to serve. *)
Lemma early_stop_lost :
  exists tr, partial (Run demo_config) start_trace (act Serve) /\ exec Stop early_stop (Done tt) /\
    interleaving start_trace early_stop tr /\ consistent [] tr = true /\ existsb (is_op stops_grpc) tr = false.
Proof.
  exists (take 2 start_trace ++ early_stop ++ drop 2 start_trace). split_and!; [..|reflexivity|reflexivity].
  - repeat constructor.
  - repeat constructor.
  - cbn [take drop app start_trace early_stop]. repeat apply inter_left || (repeat apply inter_right).
    all: repeat constructor.
Qed.

