(* ===== verification/Dashboard.v ===== *)
(** * The dashboard (src/pkg/dashboard)

    What the dashboard computes itself: the Kubernetes bindings (k8s.go), the
    summary of the local metrics (metrics_local.go), and its handlers
    (handlers.go, server.go).  Data types and searches come from the client
    library and are parameters, the class [DashLib]. *)

From stdpp Require Import gmap strings.
From Stdlib Require Import SpecFloat.
From S2P Require Import Prelude GoStrings Prog Errors Api Retry NodeHost.

(** A quoted attribute of HTML. *)
Definition quoted (s : string) : string := String quote_char (s +:+ String quote_char "").

(** ** Kubernetes objects, the fields that are used *)

Record CSISource : Type := mkCSISource { cs_Driver : string; cs_VolumeHandle : string; cs_VolumeAttributes : gomap }.
Record PersistentVolume : Type := mkPV {
  pv_Name : string; pv_Phase : string; pv_CSI : option CSISource; pv_ClaimRef : option (string * string); pv_Storage : option Z
}.
(** Namespace, name, and for each volume the claim it names. *)
Record Pod : Type := mkPod { pod_Namespace : string; pod_Name : string; pod_Volumes : list (option string) }.

Record K8sVolumeBinding : Type := mkBinding {
  b_PVName : string; b_PVStatus : string; b_PVCName : string; b_PVCNamespace : string; b_Pods : list string
}.

Definition driver_name : string := "nasty.csi.io".

Definition our_source (pv : PersistentVolume) : option CSISource :=
  match pv_CSI pv with
  | Some src => if String.eqb (cs_Driver src) driver_name then Some src else None
  | None => None
  end.

Definition binding_of (pv : PersistentVolume) : K8sVolumeBinding :=
  let '(name, namespace) := default ("", "") (pv_ClaimRef pv) in mkBinding (pv_Name pv) (pv_Phase pv) name namespace [].

(** ** The client library *)

(** Types, searches and pages of nasty-go/dashboard. *)
Class DashLib : Type := {
  VolumeInfo : Type; SnapshotInfo : Type; CloneInfo : Type; UnmanagedVolume : Type; VolumeDetails : Type;
  SummaryData : Type; PaginationParams : Type; Page : Type;
  (* the fields that k8s.go sets; the others are zero *)
  mkVolumeInfo (dataset volumeID protocol type_ : string) (capacityBytes : Z) (capacityHuman : string) (k8s : K8sVolumeBinding) : VolumeInfo;
  vol_ids : VolumeInfo -> string * string;
  set_vol_K8s : K8sVolumeBinding -> VolumeInfo -> VolumeInfo;
  det_ids : VolumeDetails -> string * string;
  set_det_K8s : K8sVolumeBinding -> VolumeDetails -> VolumeDetails;
  CalculateSummary : list VolumeInfo -> list SnapshotInfo -> list CloneInfo -> SummaryData;
  PaginateVolumes : list VolumeInfo -> PaginationParams -> string -> Page;
  PaginateSnapshots : list SnapshotInfo -> PaginationParams -> string -> Page;
  PaginateClones : list CloneInfo -> PaginationParams -> string -> Page;
  PaginateUnmanaged : list UnmanagedVolume -> PaginationParams -> string -> Page;
  MatchK8sBinding : gmap string K8sVolumeBinding -> string -> string -> option K8sVolumeBinding;
  FormatBytes : Z -> string;
  dash_ProtocolNVMeOF : string; dash_ProtocolISCSI : string
}.

(** ** k8s.go *)

Definition claim_key (namespace claim : string) : string := namespace +:+ "/" +:+ claim.

Definition add_pod (pod : Pod) (m : gmap string (list string)) (claim : option string) : gmap string (list string) :=
  match claim with
  | None => m
  | Some c =>
      let key := claim_key (pod_Namespace pod) c in
      <[key := default [] (m !! key) ++ [pod_Namespace pod +:+ "/" +:+ pod_Name pod]]> m
  end.
Definition pvcToPods (pods : list Pod) : gmap string (list string) :=
  foldl (fun m pod => foldl (add_pod pod) m (pod_Volumes pod)) ∅ pods.

Definition with_pods (m : gmap string (list string)) (b : K8sVolumeBinding) : K8sVolumeBinding :=
  if negb (String.eqb (b_PVCName b) "") && negb (String.eqb (b_PVCNamespace b) "") then
    match m !! claim_key (b_PVCNamespace b) (b_PVCName b) with
    | Some refs => mkBinding (b_PVName b) (b_PVStatus b) (b_PVCName b) (b_PVCNamespace b) refs
    | None => b
    end
  else b.

Definition add_binding (m : gmap string K8sVolumeBinding) (pv : PersistentVolume) : gmap string K8sVolumeBinding :=
  match our_source pv with Some src => <[cs_VolumeHandle src := binding_of pv]> m | None => m end.
Definition bindings_of (pvs : list PersistentVolume) : gmap string K8sVolumeBinding := foldl add_binding ∅ pvs.

(** The answers of the Kubernetes client: none outside a cluster or where the
    list fails. *)
Definition EnrichWithK8sData (pvs : option (list PersistentVolume)) (includePods : bool) (pods : option (list Pod))
    : bool * gmap string K8sVolumeBinding :=
  match pvs with
  | None => (false, ∅)
  | Some pvs =>
      let bindings := bindings_of pvs in
      (true, if includePods then match pods with Some pods => with_pods (pvcToPods pods) <$> bindings | None => bindings end
             else bindings)
  end.

Section Dash.
Context {L : DashLib}.

Definition k8s_volume (pv : PersistentVolume) (src : CSISource) : VolumeInfo :=
  let attrs := cs_VolumeAttributes src in
  let protocol := attrs.["protocol"] in
  let volumeID := if String.eqb attrs.["datasetName"] "" then cs_VolumeHandle src else attrs.["datasetName"] in
  let '(capacity, human) := match pv_Storage pv with Some n => (n, FormatBytes n) | None => (0, "") end in
  let type_ := if String.eqb protocol dash_ProtocolNVMeOF || String.eqb protocol dash_ProtocolISCSI then "VOLUME" else "FILESYSTEM" in
  mkVolumeInfo (cs_VolumeHandle src) volumeID protocol type_ capacity human (binding_of pv).

Definition FetchK8sVolumes (pvs : option (list PersistentVolume)) : list VolumeInfo :=
  match pvs with
  | None => []
  | Some pvs => omap (fun pv => k8s_volume pv <$> our_source pv) pvs
  end.
End Dash.

(** ** metrics_local.go *)

Inductive MetricType : Set := COUNTER | GAUGE | SUMMARY | UNTYPED | HISTOGRAM | GAUGE_HISTOGRAM.
Record Histogram : Type := mkHistogram { h_buckets : list (float64 * Z); h_sum : float64; h_count : Z }.
Record Metric : Type := mkMetric {
  m_labels : list (string * string); m_counter : option float64; m_gauge : option float64; m_histogram : option Histogram;
  m_untyped : option float64
}.
Record Family : Type := mkFamily { f_name : string; f_help : string; f_type : MetricType; f_metrics : list Metric }.

Definition float_zero : float64 := S754_zero false.

Record MetricsSummary : Type := mkMetrics {
  ms_Error : string; ms_Connected : bool; ms_Reconnects : Z; ms_Duration : float64; ms_Sent : Z; ms_Received : Z;
  ms_Success : Z; ms_Errors : Z; ms_NFS : Z; ms_NVMeOF : Z; ms_ISCSI : Z; ms_SMB : Z;
  ms_Create : Z; ms_Delete : Z; ms_Expand : Z; ms_Total : Z
}.
Definition no_metrics : MetricsSummary := mkMetrics "" false 0 float_zero 0 0 0 0 0 0 0 0 0 0 0 0.

Definition getLabelValue (m : Metric) (name : string) : string :=
  match List.find (fun l => String.eqb l.1 name) (m_labels m) with Some l => l.2 | None => "" end.

(** The last metric with a counter or gauge wins. *)
Definition last_value {A : Type} (value : Metric -> option A) (z : A) (l : list Metric) : A :=
  foldl (fun z m => default z (value m)) z l.
Definition counter_int (m : Metric) : option Z := int_of_float <$> m_counter m.

Definition gatherMessageMetrics (s : MetricsSummary) (l : list Metric) : MetricsSummary :=
  let of_direction d m := if String.eqb (getLabelValue m "direction") d then counter_int m else None in
  mkMetrics (ms_Error s) (ms_Connected s) (ms_Reconnects s) (ms_Duration s) (last_value (of_direction "sent") (ms_Sent s) l)
    (last_value (of_direction "received") (ms_Received s) l) (ms_Success s) (ms_Errors s) (ms_NFS s) (ms_NVMeOF s) (ms_ISCSI s)
    (ms_SMB s) (ms_Create s) (ms_Delete s) (ms_Expand s) (ms_Total s).

(** One counter of volume operations; [int64] sums wrap. *)
Definition operation_metric (s : MetricsSummary) (m : Metric) : MetricsSummary :=
  match counter_int m with
  | None => s
  | Some val =>
      let add label value z := if String.eqb (getLabelValue m label) value then to_int64 (z + val) else z in
      mkMetrics (ms_Error s) (ms_Connected s) (ms_Reconnects s) (ms_Duration s) (ms_Sent s) (ms_Received s)
        (add "status" "success" (ms_Success s)) (add "status" "error" (ms_Errors s))
        (add "protocol" "nfs" (ms_NFS s)) (add "protocol" "nvmeof" (ms_NVMeOF s)) (add "protocol" "iscsi" (ms_ISCSI s))
        (add "protocol" "smb" (ms_SMB s)) (add "operation" "create" (ms_Create s)) (add "operation" "delete" (ms_Delete s))
        (add "operation" "expand" (ms_Expand s)) (ms_Total s)
  end.
Definition gatherOperationMetrics (s : MetricsSummary) (l : list Metric) : MetricsSummary := foldl operation_metric s l.

Definition gather_family (s : MetricsSummary) (f : Family) : MetricsSummary :=
  let l := f_metrics f in
  let set_ws connected reconnects duration :=
    mkMetrics (ms_Error s) connected reconnects duration (ms_Sent s) (ms_Received s) (ms_Success s) (ms_Errors s) (ms_NFS s)
      (ms_NVMeOF s) (ms_ISCSI s) (ms_SMB s) (ms_Create s) (ms_Delete s) (ms_Expand s) (ms_Total s) in
  if String.eqb (f_name f) "nasty_csi_websocket_connection_status" then
    set_ws (foldl (fun b m => match m_gauge m with Some v => SFeqb v float_one | None => b end) (ms_Connected s) l) (ms_Reconnects s) (ms_Duration s)
  else if String.eqb (f_name f) "nasty_csi_websocket_reconnections_total" then
    set_ws (ms_Connected s) (last_value counter_int (ms_Reconnects s) l) (ms_Duration s)
  else if String.eqb (f_name f) "nasty_csi_websocket_connection_duration_seconds" then
    set_ws (ms_Connected s) (ms_Reconnects s) (last_value m_gauge (ms_Duration s) l)
  else if String.eqb (f_name f) "nasty_csi_websocket_messages_total" then gatherMessageMetrics s l
  else if String.eqb (f_name f) "nasty_csi_volume_operations_total" then gatherOperationMetrics s l
  else s.

(** [gathered] is the answer of the registry. *)
Definition GatherLocalMetrics (gathered : res (list Family)) : MetricsSummary :=
  match gathered with
  | Err e => mkMetrics (err_text e) false 0 float_zero 0 0 0 0 0 0 0 0 0 0 0 0
  | Ok families =>
      let s := foldl gather_family no_metrics families in
      mkMetrics (ms_Error s) (ms_Connected s) (ms_Reconnects s) (ms_Duration s) (ms_Sent s) (ms_Received s) (ms_Success s)
        (ms_Errors s) (ms_NFS s) (ms_NVMeOF s) (ms_ISCSI s) (ms_SMB s) (ms_Create s) (ms_Delete s) (ms_Expand s)
        (to_int64 (ms_Success s + ms_Errors s))
  end.

(** *** The raw text *)

(** [strings.ToLower] of the name of a type. *)
Definition type_text (ty : MetricType) : string :=
  match ty with
  | COUNTER => "counter" | GAUGE => "gauge" | SUMMARY => "summary" | UNTYPED => "untyped" | HISTOGRAM => "histogram"
  | GAUGE_HISTOGRAM => "gauge_histogram"
  end.

Definition label_text (l : string * string) : string := l.1 +:+ "=" +:+ Quote l.2.
Definition formatLabels (m : Metric) : string :=
  match m_labels m with [] => "" | l => "{" +:+ Join (map label_text l) "," +:+ "}" end.
Definition formatLabelsWithExtra (m : Metric) (extraName extraValue : string) : string :=
  "{" +:+ String.concat "" (map (fun l => label_text l +:+ ",") (m_labels m)) +:+ label_text (extraName, extraValue) +:+ "}".

Section Raw.
(** [strconv.FormatFloat(v, 'g', -1, 64)] of a finite number. *)
Context (FormatFloat : float64 -> string).

Definition fmtFloat (v : float64) : string :=
  match v with S754_infinity false => "+Inf" | S754_infinity true => "-Inf" | S754_nan => "NaN" | _ => FormatFloat v end.

Definition sample_line (name labels value : string) : string := name +:+ labels +:+ " " +:+ value +:+ String newline "".

Definition writeMetric (name : string) (ty : MetricType) (m : Metric) : string :=
  let labels := formatLabels m in
  let value v := match v with Some v => sample_line name labels (fmtFloat v) | None => "" end in
  match ty with
  | COUNTER => value (m_counter m)
  | GAUGE => value (m_gauge m)
  | HISTOGRAM =>
      match m_histogram m with
      | Some h =>
          String.concat "" (map (fun b => sample_line (name +:+ "_bucket") (formatLabelsWithExtra m "le" (fmtFloat b.1)) (FormatInt b.2))
                              (h_buckets h)) +:+
          sample_line (name +:+ "_sum") labels (fmtFloat (h_sum h)) +:+ sample_line (name +:+ "_count") labels (FormatInt (h_count h))
      | None => ""
      end
  | _ => value (m_untyped m)
  end.

Definition family_text (f : Family) : string :=
  (if String.eqb (f_help f) "" then "" else "# HELP " +:+ f_name f +:+ " " +:+ f_help f +:+ String newline "") +:+
  "# TYPE " +:+ f_name f +:+ " " +:+ type_text (f_type f) +:+ String newline "" +:+
  String.concat "" (map (writeMetric (f_name f) (f_type f)) (f_metrics f)).

Definition GatherRawMetrics (gathered : res (list Family)) : res string :=
  families <-? gathered;; Ok (String.concat "" (map family_text families)).
End Raw.

(** ** handlers.go *)

Section Handlers.
Context {L : DashLib}.

(** The data of a page or of a JSON answer. *)
Inductive payload : Type :=
| DataVolumes (l : list VolumeInfo) | DataSnapshots (l : list SnapshotInfo) | DataClones (l : list CloneInfo)
| DataUnmanaged (l : list UnmanagedVolume) | DataDetails (d : VolumeDetails) | DataSummary (s : SummaryData)
| DataMetrics (m : MetricsSummary) | DataPage (p : Page)
| DataMain (volumes : list VolumeInfo) (summary : option SummaryData) (page : Page).

(** Searches, and the operations of the response writer.  The three searches of a
    summary run at once; [FirstFailure] says which failed one Wait reports. *)
Inductive dop : Type :=
| FindManagedVolumes | FindManagedSnapshots | FindClonedVolumes | FindUnmanagedVolumes (filesystem : string)
| GetVolumeDetails (volumeID : string)
| AnnotateVolumesWithHealth (l : list VolumeInfo)
| ListPVs | ListPods | GatherMetrics
| FirstFailure (errs : list error)
| WriteTemplate (name : string) (data : payload)
| WriteJSON (data : payload)
| WriteJSONError (e : error)
| WriteHTML (text : string) | WriteText (text : string)
| HttpError (text : string) (code : Z)
| NotFoundPage.

Definition dans (o : dop) : Type :=
  match o with
  | FindManagedVolumes => res_of error (list VolumeInfo)
  | FindManagedSnapshots => res_of error (list SnapshotInfo)
  | FindClonedVolumes => res_of error (list CloneInfo)
  | FindUnmanagedVolumes _ => res_of error (list UnmanagedVolume)
  | GetVolumeDetails _ => res_of error VolumeDetails
  | AnnotateVolumesWithHealth _ => list VolumeInfo
  | ListPVs => option (list PersistentVolume)
  | ListPods => option (list Pod)
  | GatherMetrics => res_of error (list Family)
  | FirstFailure _ => nat
  | WriteTemplate _ _ => option error
  | _ => unit
  end.

Definition dsig : signature := {| op := dop; ans := dans |}.
Abbreviation Handler := (prog dsig).
Definition web (o : dop) : Handler (dans o) := call (Sg := dsig) o.

Record Request : Type := mkRequest { r_Path : string; r_Params : PaginationParams }.

(** A template whose failure is only logged. *)
Definition render (name : string) (data : payload) : Handler unit := web (WriteTemplate name data) ;;; Ret tt.

Definition internal_error (e : error) : Handler unit := web (HttpError (err_text e) 500).

(** A search, and its answer as JSON or as an error. *)
Definition answer_json {A : Type} (r : res A) (data : A -> payload) : Handler unit :=
  match r with Ok a => web (WriteJSON (data a)) | Err e => web (WriteJSONError e) end.

Definition handleDashboard (r : Request) : Handler unit :=
  if negb (String.eqb (r_Path r) "/dashboard/") then web NotFoundPage
  else
    pvs <- web ListPVs;;
    let volumes := FetchK8sVolumes pvs in
    let summary := match volumes with [] => None | _ => Some (CalculateSummary volumes [] []) end in
    err <- web (WriteTemplate "dashboard.html" (DataMain volumes summary (PaginateVolumes volumes (r_Params r) "/dashboard/partials/volumes")));;
    match err with Some _ => web (HttpError "Template error" 500) | None => Ret tt end.

Definition handleAPIVolumes : Handler unit := v <- web FindManagedVolumes;; answer_json v DataVolumes.
Definition handleAPISnapshots : Handler unit := v <- web FindManagedSnapshots;; answer_json v DataSnapshots.
Definition handleAPIClones : Handler unit := v <- web FindClonedVolumes;; answer_json v DataClones.

Definition ok_or_nil {A : Type} (r : res (list A)) : list A := match r with Ok l => l | Err _ => [] end.
Definition failure {A : Type} (r : res A) : list error := match r with Ok _ => [] | Err e => [e] end.

(** The three searches; the error that [Wait] answers. *)
Definition summary_data : Handler (SummaryData * option error) :=
  volumes <- web FindManagedVolumes;;
  snapshots <- web FindManagedSnapshots;;
  clones <- web FindClonedVolumes;;
  let errs := failure volumes ++ failure snapshots ++ failure clones in
  err <- (match errs with
          | [] => Ret None
          | e :: _ => i <- web (FirstFailure errs);; Ret (Some (nth i errs e))
          end);;
  Ret (CalculateSummary (ok_or_nil volumes) (ok_or_nil snapshots) (ok_or_nil clones), err).

Definition handleAPISummary : Handler unit :=
  let! (summary, err) := summary_data in
  match err with Some e => web (WriteJSONError e) | None => web (WriteJSON (DataSummary summary)) end.

Definition handlePartialSummary : Handler unit :=
  let! (summary, err) := summary_data in render "summary_cards.html" (DataSummary summary).

Definition with_binding {A : Type} (bindings : gmap string K8sVolumeBinding) (ids : A -> string * string)
    (set : K8sVolumeBinding -> A -> A) (a : A) : A :=
  match MatchK8sBinding bindings (ids a).1 (ids a).2 with Some b => set b a | None => a end.

Definition enrich {A : Type} (includePods : bool) (ids : A -> string * string) (set : K8sVolumeBinding -> A -> A) (l : list A)
    : Handler (list A) :=
  pvs <- web ListPVs;;
  pods <- (match pvs with Some _ => if includePods then web ListPods else Ret None | None => Ret None end);;
  let '(available, bindings) := EnrichWithK8sData pvs includePods pods in
  Ret (if available : bool then map (with_binding bindings ids set) l else l).

Definition handlePartialVolumes (r : Request) : Handler unit :=
  volumes <- web FindManagedVolumes;;
  match volumes with
  | Err e => internal_error e
  | Ok volumes =>
      volumes <- web (AnnotateVolumesWithHealth volumes);;
      volumes <- enrich false vol_ids set_vol_K8s volumes;;
      render "volumes_table.html" (DataPage (PaginateVolumes volumes (r_Params r) "/dashboard/partials/volumes"))
  end.

Definition handlePartialSnapshots (r : Request) : Handler unit :=
  snapshots <- web FindManagedSnapshots;;
  match snapshots with
  | Err e => internal_error e
  | Ok l => render "snapshots_table.html" (DataPage (PaginateSnapshots l (r_Params r) "/dashboard/partials/snapshots"))
  end.

Definition handlePartialClones (r : Request) : Handler unit :=
  clones <- web FindClonedVolumes;;
  match clones with
  | Err e => internal_error e
  | Ok l => render "clones_table.html" (DataPage (PaginateClones l (r_Params r) "/dashboard/partials/clones"))
  end.

Section Server.
Context (filesystem : string).

Definition not_configured_html : string :=
  "<div class=" +:+ quoted "empty-state" +:+ ">Filesystem not configured. Start dashboard with --dashboard-filesystem flag to see unmanaged volumes.</div>".

Definition handlePartialUnmanaged (r : Request) : Handler unit :=
  if String.eqb filesystem "" then web (WriteHTML not_configured_html)
  else
    unmanaged <- web (FindUnmanagedVolumes filesystem);;
    match unmanaged with
    | Err e => internal_error e
    | Ok l => render "unmanaged_table.html" (DataPage (PaginateUnmanaged l (r_Params r) "/dashboard/partials/unmanaged"))
    end.

Definition errFilesystemNotConfigured : error := mk_error "filesystem not configured" [] Unknown.
Definition errVolumeIDRequired : error := mk_error "volume ID required" [] Unknown.

Definition handleAPIUnmanaged : Handler unit :=
  if String.eqb filesystem "" then web (WriteJSONError errFilesystemNotConfigured)
  else unmanaged <- web (FindUnmanagedVolumes filesystem);; answer_json unmanaged DataUnmanaged.
End Server.

Definition handlePartialVolumeDetail (r : Request) : Handler unit :=
  let volumeID := TrimPrefix (r_Path r) "/dashboard/partials/volume-detail/" in
  if String.eqb volumeID "" then web (HttpError "Volume ID required" 400)
  else
    details <- web (GetVolumeDetails volumeID);;
    match details with
    | Err e => internal_error e
    | Ok d =>
        l <- enrich true det_ids set_det_K8s [d];;
        render "volume_detail.html" (DataDetails (default d (head l)))
    end.

Definition handleAPIVolumeDetail (r : Request) : Handler unit :=
  let volumeID := TrimPrefix (r_Path r) "/dashboard/api/volumes/" in
  if String.eqb volumeID "" then web (WriteJSONError errVolumeIDRequired)
  else details <- web (GetVolumeDetails volumeID);; answer_json details DataDetails.

Definition handlePartialMetrics : Handler unit :=
  gathered <- web GatherMetrics;; render "metrics_panel.html" (DataMetrics (GatherLocalMetrics gathered)).

Definition handleAPIMetrics : Handler unit :=
  gathered <- web GatherMetrics;; web (WriteJSON (DataMetrics (GatherLocalMetrics gathered))).

Definition handleAPIMetricsRaw (FormatFloat : float64 -> string) : Handler unit :=
  gathered <- web GatherMetrics;;
  match GatherRawMetrics FormatFloat gathered with
  | Err e => internal_error e
  | Ok text => web (WriteText text)
  end.
End Handlers.

(** ** server.go *)

Inductive route : Set :=
| RouteDashboard | RouteAPIVolumes | RouteAPIVolumeDetail | RouteAPISnapshots | RouteAPIClones | RouteAPISummary
| RouteAPIUnmanaged | RouteAPIMetrics | RouteAPIMetricsRaw | RoutePartialVolumes | RoutePartialSnapshots | RoutePartialClones
| RoutePartialUnmanaged | RoutePartialSummary | RoutePartialVolumeDetail | RoutePartialMetrics.

Definition RegisterRoutes : list (string * route) :=
  [("/dashboard/", RouteDashboard);
   ("/dashboard/api/volumes", RouteAPIVolumes);
   ("/dashboard/api/volumes/", RouteAPIVolumeDetail);
   ("/dashboard/api/snapshots", RouteAPISnapshots);
   ("/dashboard/api/clones", RouteAPIClones);
   ("/dashboard/api/summary", RouteAPISummary);
   ("/dashboard/api/unmanaged", RouteAPIUnmanaged);
   ("/dashboard/api/metrics", RouteAPIMetrics);
   ("/dashboard/api/metrics/raw", RouteAPIMetricsRaw);
   ("/dashboard/partials/volumes", RoutePartialVolumes);
   ("/dashboard/partials/snapshots", RoutePartialSnapshots);
   ("/dashboard/partials/clones", RoutePartialClones);
   ("/dashboard/partials/unmanaged", RoutePartialUnmanaged);
   ("/dashboard/partials/summary", RoutePartialSummary);
   ("/dashboard/partials/volume-detail/", RoutePartialVolumeDetail);
   ("/dashboard/partials/metrics", RoutePartialMetrics)].

(** [http.ServeMux]: a pattern that ends in a slash matches what it begins; the
    longest pattern wins. *)
Definition pattern_matches (path pattern : string) : bool :=
  if HasSuffix pattern "/" then HasPrefix path pattern else String.eqb path pattern.

Definition better_match (path : string) (best : option (string * route)) (p : string * route) : option (string * route) :=
  if pattern_matches path p.1 then
    match best with
    | Some b => if (str_len b.1 <? str_len p.1)%nat then Some p else best
    | None => Some p
    end
  else best.

Definition mux_route (path : string) : option route := snd <$> foldl (better_match path) None RegisterRoutes.

Definition serve {L : DashLib} (filesystem : string) (FormatFloat : float64 -> string) (route : route) (r : Request) : prog dsig unit :=
  match route with
  | RouteDashboard => handleDashboard r
  | RouteAPIVolumes => handleAPIVolumes
  | RouteAPIVolumeDetail => handleAPIVolumeDetail r
  | RouteAPISnapshots => handleAPISnapshots
  | RouteAPIClones => handleAPIClones
  | RouteAPISummary => handleAPISummary
  | RouteAPIUnmanaged => handleAPIUnmanaged filesystem
  | RouteAPIMetrics => handleAPIMetrics
  | RouteAPIMetricsRaw => handleAPIMetricsRaw FormatFloat
  | RoutePartialVolumes => handlePartialVolumes r
  | RoutePartialSnapshots => handlePartialSnapshots r
  | RoutePartialClones => handlePartialClones r
  | RoutePartialUnmanaged => handlePartialUnmanaged filesystem r
  | RoutePartialSummary => handlePartialSummary
  | RoutePartialVolumeDetail => handlePartialVolumeDetail r
  | RoutePartialMetrics => handlePartialMetrics
  end.

Definition ServeHTTP {L : DashLib} (filesystem : string) (FormatFloat : float64 -> string) (r : Request) : prog dsig unit :=
  match mux_route (r_Path r) with
  | Some route => serve filesystem FormatFloat route r
  | None => web NotFoundPage
  end.

Example mux_examples :
  mux_route "/dashboard/api/volumes" = Some RouteAPIVolumes /\ mux_route "/dashboard/api/volumes/a/b" = Some RouteAPIVolumeDetail /\
  mux_route "/dashboard/x" = Some RouteDashboard /\ mux_route "/metrics" = None.
Proof. vm_compute. repeat split. Qed.
