(* ===== verification/DashboardTheorems.v ===== *)
(** * Theorems of the dashboard

    Each request gets one response; the bindings are those of the driver's
    volumes. *)

From stdpp Require Import gmap strings.
From S2P Require Import Prelude GoStrings Prog Errors Api Retry NodeHost Metrics Dashboard.

#[local] Set Default Proof Using "Type*".

(** ** One response *)

Section Responses.
Context {L : DashLib}.

Abbreviation dhistory := (list (event dsig)).
Definition dev (o : dop) (r : dans o) : event dsig := ev (Sg := dsig) o r.

Definition is_response (o : dop) : bool :=
  match o with
  | WriteTemplate _ _ | WriteJSON _ | WriteJSONError _ | WriteHTML _ | WriteText _ | HttpError _ _ | NotFoundPage => true
  | _ => false
  end.
Definition response (e : event dsig) : bool := is_response (projT1 e).
Definition silent (h : dhistory) : Prop := forall e, e ∈ h -> response e = false.

(** A first response, or the error text after a page that could not be written. *)
Inductive respond_allow (h : dhistory) : dop -> Prop :=
| respond_search o : is_response o = false -> respond_allow h o
| respond_once o : is_response o = true -> silent h -> respond_allow h o
| respond_failed h' name data e :
    h = h' ++ [dev (WriteTemplate name data) (Some e)] -> silent h' -> respond_allow h (HttpError "Template error" 500).

Definition respond_policy : policy dsig := {| allow h o := respond_allow h o; env _ _ _ := True; crash := False |}.
Definition responded (h : dhistory) : Prop := exists e, e ∈ h /\ response e = true.

Lemma silent_snoc h (o : dop) (r : dans o) : silent h -> is_response o = false -> silent (h ++ [dev o r]).
Proof. intros H Ho e [?|Hin]%elem_of_app; [by apply H|]. by apply list_elem_of_singleton in Hin as ->. Qed.

Lemma responded_last h (o : dop) (r : dans o) : is_response o = true -> responded (h ++ [dev o r]).
Proof. intros Ho. exists (dev o r). split; [apply elem_of_app; right; by left|exact Ho]. Qed.

Lemma dwp_search {B : Type} h (o : dop) (f : dans o -> prog dsig B) Q :
  silent h -> is_response o = false -> (forall r h', silent h' -> wp respond_policy h' (f r) Q) ->
  wp respond_policy h (bind (web o) f) Q.
Proof.
  intros Hs Ho Hf. apply wp_bind. split; [by apply respond_search|]. intros r _. by apply Hf, silent_snoc.
Qed.

Lemma dwp_respond h (o : dop) (Q : dans o -> dhistory -> Prop) :
  silent h -> is_response o = true -> (forall r, Q r (h ++ [dev o r])) -> wp respond_policy h (web o) Q.
Proof. intros Hs Ho HQ. split; [by apply respond_once|]. intros r _. apply HQ. Qed.

Lemma dwp_last h (o : dop) : dans o = unit -> silent h -> is_response o = true -> wp respond_policy h (web o) (fun _ => responded).
Proof. intros _ Hs Ho. apply dwp_respond; [done|done|]. intros r. by apply responded_last. Qed.

Lemma dwp_render h name data : silent h -> wp respond_policy h (render name data) (fun _ => responded).
Proof. intros Hs. apply wp_bind, dwp_respond; [done|done|]. intros r. by apply wp_ret, responded_last. Qed.

Lemma dwp_answer_json {A : Type} h (r : res A) data : silent h -> wp respond_policy h (answer_json r data) (fun _ => responded).
Proof. intros Hs. destruct r; by apply dwp_last. Qed.

Lemma dwp_summary {B : Type} h (f : SummaryData * option error -> prog dsig B) Q :
  silent h -> (forall r h', silent h' -> wp respond_policy h' (f r) Q) -> wp respond_policy h (bind summary_data f) Q.
Proof.
  intros Hs Hf. apply wp_bind. apply dwp_search; [done|done|]. intros v h1 H1. apply dwp_search; [done|done|]. intros sn h2 H2.
  apply dwp_search; [done|done|]. intros c h3 H3. cbv zeta. apply wp_bind.
  destruct (failure v ++ failure sn ++ failure c); [by apply wp_ret, wp_ret, Hf|].
  apply dwp_search; [done|done|]. intros i h4 H4. by apply wp_ret, wp_ret, Hf.
Qed.

Lemma dwp_enrich {A B : Type} h pods (ids : A -> string * string) set l (f : list A -> prog dsig B) Q :
  silent h -> (forall r h', silent h' -> wp respond_policy h' (f r) Q) -> wp respond_policy h (bind (enrich pods ids set l) f) Q.
Proof.
  intros Hs Hf. apply wp_bind, dwp_search; [done|done|]. intros pvs h1 H1. apply wp_bind.
  assert (forall (x : option (list Pod)) h2, silent h2 -> wp respond_policy h2
    (let '(available, bindings) := EnrichWithK8sData pvs pods x in
     Ret (if available : bool then map (with_binding bindings ids set) l else l)) (fun a h3 => wp respond_policy h3 (f a) Q)) as Hend.
  { intros x h2 H2. destruct (EnrichWithK8sData pvs pods x) as [available bindings]. by apply wp_ret, Hf. }
  destruct pvs; [destruct pods|]; [|by apply wp_ret, Hend..].
  split; [by apply respond_search|]. intros r _. by apply Hend, silent_snoc.
Qed.

Lemma dwp_serve filesystem FormatFloat rt r h :
  silent h -> wp respond_policy h (serve filesystem FormatFloat rt r) (fun _ => responded).
Proof.
  intros Hs. destruct rt; cbn [serve].
  - unfold handleDashboard. destruct (negb _); [by apply dwp_last|]. apply dwp_search; [done|done|]. intros pvs h1 H1. cbv zeta.
    apply wp_bind, dwp_respond; [done|done|]. intros [e|].
    + split; [by eapply respond_failed|]. intros ? _. by apply responded_last.
    + by apply wp_ret, responded_last.
  - apply dwp_search; [done|done|]. intros x h1 H1. by apply dwp_answer_json.
  - unfold handleAPIVolumeDetail. cbv zeta. destruct (String.eqb _ ""); [by apply dwp_last|].
    apply dwp_search; [done|done|]. intros x h1 H1. by apply dwp_answer_json.
  - apply dwp_search; [done|done|]. intros x h1 H1. by apply dwp_answer_json.
  - apply dwp_search; [done|done|]. intros x h1 H1. by apply dwp_answer_json.
  - apply dwp_summary; [done|]. intros [summary [e|]] h1 H1; by apply dwp_last.
  - unfold handleAPIUnmanaged. destruct (String.eqb _ ""); [by apply dwp_last|].
    apply dwp_search; [done|done|]. intros x h1 H1. by apply dwp_answer_json.
  - apply dwp_search; [done|done|]. intros x h1 H1. by apply dwp_last.
  - apply dwp_search; [done|done|]. intros x h1 H1. destruct (GatherRawMetrics _ x); by apply dwp_last.
  - apply dwp_search; [done|done|]. intros [l|e] h1 H1; [|by apply dwp_last]. apply dwp_search; [done|done|]. intros l' h2 H2.
    apply dwp_enrich; [done|]. intros l2 h3 H3. by apply dwp_render.
  - apply dwp_search; [done|done|]. intros [l|e] h1 H1; [by apply dwp_render|by apply dwp_last].
  - apply dwp_search; [done|done|]. intros [l|e] h1 H1; [by apply dwp_render|by apply dwp_last].
  - unfold handlePartialUnmanaged. destruct (String.eqb _ ""); [by apply dwp_last|].
    apply dwp_search; [done|done|]. intros [l|e] h1 H1; [by apply dwp_render|by apply dwp_last].
  - apply dwp_summary; [done|]. intros [summary err] h1 H1. by apply dwp_render.
  - unfold handlePartialVolumeDetail. cbv zeta. destruct (String.eqb _ ""); [by apply dwp_last|].
    apply dwp_search; [done|done|]. intros [d|e] h1 H1; [|by apply dwp_last].
    apply dwp_enrich; [done|]. intros l2 h3 H3. by apply dwp_render.
  - apply dwp_search; [done|done|]. intros x h1 H1. by apply dwp_render.
Qed.

(** Every request is answered: by one response, and by an error text after a main page
    that could not be written. *)
Theorem ServeHTTP_responds filesystem FormatFloat r tr out :
  exec (ServeHTTP filesystem FormatFloat r) tr out ->
  out = Done tt /\ responded tr /\ forall t1 o a t2, tr = t1 ++ dev o a :: t2 -> respond_allow t1 o.
Proof.
  intros He.
  assert (wp respond_policy [] (ServeHTTP filesystem FormatFloat r) (fun _ => responded)) as Hw.
  { assert (silent []) as Hs by (by intros e Hin%elem_of_nil). unfold ServeHTTP.
    destruct (mux_route (r_Path r)); [by apply dwp_serve|by apply dwp_last]. }
  assert (env_trace respond_policy [] tr) as Henv.
  { generalize ([] : dhistory). clear. induction tr as [|[o a] tr IH]; intros h; [done|]. by split. }
  pose proof (wp_sound_post _ _ _ _ _ _ Hw He Henv) as Hp. destruct out as [[]|]; [|done].
  split_and!; [done|exact Hp|]. intros t1 o a t2 E. exact (wp_sound_allow _ _ _ _ _ _ Hw He Henv _ _ _ _ E).
Qed.
End Responses.

(** ** Bindings *)

(** The binding of a handle is that of the last volume of the driver with it. *)
Lemma bindings_of_spec pvs handle :
  bindings_of pvs !! handle =
  binding_of <$> last (filter (fun pv => cs_VolumeHandle <$> our_source pv = Some handle) pvs).
Proof.
  unfold bindings_of. induction pvs as [|pv pvs IH] using rev_ind; [done|].
  rewrite foldl_snoc, filter_app. unfold add_binding at 1. rewrite filter_cons, filter_nil.
  destruct (our_source pv) as [src|] eqn:E; cbn [fmap option_fmap option_map].
  - destruct (decide (Some (cs_VolumeHandle src) = Some handle)) as [[= ->]|Hne]; cbn [decide].
    + rewrite lookup_insert_eq, last_snoc. done.
    + rewrite lookup_insert_ne by congruence. by rewrite app_nil_r.
  - destruct (decide _) as [|_]; [done|]. by rewrite app_nil_r.
Qed.
