(* ===== verification/NodeQuiet.v ===== *)
(** * Operations of the node that change nothing, and what they show

    Programs that only look at the node ([quiet]), the proof rules for them
    under every policy that allows looking ([QuietPolicy]), and what the answers
    of the shared steps establish: that a path is not mounted, that a device is
    not mounted, that a namespace belongs to a subsystem. *)

From S2P Require Import Prelude GoStrings Prog Errors Api Retry NodeHost MountInfo NodeRecovery NodeSysfs NodeFiles NodeDevice NodeNvme NodeIscsi NodeHealth.

#[local] Set Default Proof Using "Type*".

(** ** Quiet operations *)

Definition subcommand_in (args : list string) (l : list string) : bool :=
  match args with c :: _ => existsb (String.eqb c) l | [] => false end.

(** iscsiadm run for its version, for discovery, or to list the sessions. *)
Definition quiet_iscsiadm (args : list string) : bool :=
  match args with
  | ["--version"] | ["-m"; "session"] | ["-m"; "session"; "-P"; _] | ["-m"; "discovery"; "-t"; "sendtargets"; "-p"; _] => true
  | _ => false
  end.

Definition quiet_command (name : string) (args : list string) : bool :=
  String.eqb name "findmnt" || String.eqb name "udevadm" || String.eqb name "ls" ||
  (String.eqb name "blockdev" && subcommand_in args ["--getsize64"; "--flushbufs"]) ||
  (String.eqb name "blkid" && subcommand_in args ["-p"]) ||
  (String.eqb name "nvme" && subcommand_in args ["version"; "list-subsys"; "list"; "discover"; "ns-rescan"]) ||
  match iscsiadm_args (Command name args) with Some args => quiet_iscsiadm args | None => false end.

(** Looks, pauses, metrics, and the creation of directories. *)
Definition quiet_op (o : nop) : bool :=
  match o with
  | Stat _ | Lstat _ | Readlink _ | EvalSymlinks _ | Getwd | ReadDir _ | ReadFile _ | OpenRead _ | Glob _ | ReadDirOne _ | Statfs _
  | MkdirAll _ | Now | NodeSleep _ | CtxDone | SleepOrDone _ | NodeGetSubvolume _ _ | AcquireConnect | ReleaseConnect
  | LoadPublications _ | NodeMetric _ => true
  | Command name args => quiet_command name args
  | _ => false
  end.

(** Policies that allow looking and assume the host of [host_env]. *)
Class QuietPolicy (P : policy nsig) : Prop := {
  quiet_allowed h (o : nop) : quiet_op o = true -> allow P h o;
  quiet_env h (o : nop) (r : nans o) : env P h o r -> host_env h o r
}.

Definition quiet {A : Type} (p : Host A) : Prop := forall P h, QuietPolicy P -> wp P h p (fun _ _ => True).

(** A quiet program adds quiet operations only. *)
Definition looking_policy : policy nsig :=
  {| allow (_ : nhistory) o := quiet_op o = true; env := host_env; crash := False |}.

#[export] Instance looking_quiet_policy : QuietPolicy looking_policy.
Proof. by split. Qed.

Definition looked (t : nhistory) : Prop := Forall (fun e => quiet_op (projT1 e) = true) t.

Lemma wp_quiet_trace {A : Type} P h (p : Host A) :
  QuietPolicy P -> quiet p -> wp P h p (fun _ h' => exists t, h' = h ++ t /\ looked t).
Proof.
  intros HP Hp. apply (wp_weaken looking_policy); [|exact (quiet_env (P := P))|done|].
  - intros h' o Ho. by apply quiet_allowed.
  - eapply wp_mono; [|apply wp_trace, Hp, _]. intros a h' [_ (t & -> & Ht)]. exists t. split; [done|].
    eapply Forall_impl; [exact Ht|]. intros e [h1 He]. exact He.
Qed.

Lemma quiet_ret {A : Type} (a : A) : quiet (Ret a).
Proof. intros P h HP. by apply wp_ret. Qed.

Lemma quiet_host (o : nop) : quiet_op o = true -> quiet (host o).
Proof. intros Ho P h HP. apply wp_host; [by apply quiet_allowed|done]. Qed.

Lemma quiet_bind {A B : Type} (p : Host A) (f : A -> Host B) : quiet p -> (forall a, quiet (f a)) -> quiet (bind p f).
Proof. intros Hp Hf P h HP. apply wp_bind. eapply wp_mono; [|by apply Hp]. intros a h' _. by apply Hf. Qed.

Lemma quiet_for_range {A R : Type} (l : list A) (body : A -> Host (option R)) :
  (forall x, quiet (body x)) -> quiet (for_range l body).
Proof.
  intros H. induction l as [|x l IH]; [apply quiet_ret|]. apply quiet_bind; [apply H|].
  intros [r|]; [apply quiet_ret|apply IH].
Qed.

Create HintDb quiet discriminated.
#[export] Hint Resolve quiet_ret : quiet.

Ltac quiet_step :=
  match goal with
  | |- quiet (bind _ _) => apply quiet_bind; [|intros ?]
  | |- quiet (Ret _) => apply quiet_ret
  | |- quiet (host _) => apply quiet_host; reflexivity
  | |- quiet (for_range _ _) => apply quiet_for_range; intros ?
  | |- quiet (match ?x with _ => _ end) => destruct x
  | |- quiet _ => solve [eauto with quiet nocore]
  end; cbv beta iota zeta.
Ltac quiet_auto := cbv zeta; repeat quiet_step.

(** Under a policy: a quiet step leaves the history extended. *)
Section Rules.
Context {P : policy nsig} {HP : QuietPolicy P}.

Lemma wp_quiet {A B : Type} h (p : Host A) (f : A -> Host B) Q :
  quiet p -> (forall a t, wp P (h ++ t) (f a) Q) -> wp P h (bind p f) Q.
Proof. intros Hp Hf. eapply wp_call_spec; [by apply Hp|]. intros a t _. apply Hf. Qed.

Lemma wp_quiet_post {A : Type} h (p : Host A) (Q : A -> nhistory -> Prop) :
  quiet p -> (forall a t, Q a (h ++ t)) -> wp P h p Q.
Proof.
  intros Hp HQ. eapply wp_mono; [|apply wp_grows, Hp, HP]. intros a h' [_ [t ->]]. apply HQ.
Qed.

Lemma wp_look {B : Type} h (o : nop) (f : nans o -> Host B) Q :
  quiet_op o = true -> (forall r, wp P (h ++ [nev o r]) (f r) Q) -> wp P h (bind (host o) f) Q.
Proof. intros Ho Hf. apply wp_bind, wp_host; [by apply quiet_allowed|]. intros r _. apply Hf. Qed.

Lemma wp_timed {A : Type} h (p : Host A) Q :
  wp P h p Q -> wp P h p (fun a h' => Q a h' /\ floor_le (clock_floor h) (clock_floor h')).
Proof. apply wp_clock. exact quiet_env. Qed.

(** A look whose continuation runs at the same point in both branches. *)
Lemma wp_look_post h (o : nop) (Q : nans o -> nhistory -> Prop) :
  quiet_op o = true -> (forall r, Q r (h ++ [nev o r])) -> wp P h (host o) Q.
Proof. intros Ho HQ. apply wp_host; [by apply quiet_allowed|]. intros r _. apply HQ. Qed.
End Rules.

(** ** Quiet programs *)

Lemma quiet_stat_err path : quiet (stat_err path).
Proof. unfold stat_err. quiet_auto. Qed.

Lemma quiet_run_iscsiadm args : quiet_iscsiadm args = true -> quiet (iscsiadm args).
Proof.
  intros H. unfold iscsiadm. apply quiet_bind; [by apply quiet_host|]. intros [k|e]; apply quiet_host; exact H.
Qed.

Lemma quiet_Abs path : quiet (Abs path).
Proof. unfold Abs. quiet_auto. Qed.

#[export] Hint Resolve quiet_stat_err quiet_Abs : quiet.
#[export] Hint Extern 1 (quiet (iscsiadm _)) => (apply quiet_run_iscsiadm; reflexivity) : quiet.

Lemma quiet_IsMounted path : quiet (IsMounted path).
Proof. unfold IsMounted, isPathInMountInfo. quiet_auto. Qed.

Lemma quiet_IsSourceMounted path : quiet (IsSourceMounted path).
Proof. unfold IsSourceMounted. quiet_auto. Qed.

Lemma quiet_GetBindMountRefs path : quiet (GetBindMountRefs path).
Proof. unfold GetBindMountRefs. quiet_auto. Qed.

Lemma quiet_readNVMeSysfsValue path : quiet (readNVMeSysfsValue path).
Proof. unfold readNVMeSysfsValue. quiet_auto. Qed.

#[export] Hint Resolve quiet_IsMounted quiet_IsSourceMounted quiet_GetBindMountRefs quiet_readNVMeSysfsValue : quiet.

Lemma quiet_getISCSISessionState device : quiet (getISCSISessionState device).
Proof. unfold getISCSISessionState. quiet_auto. Qed.

Lemma quiet_subsystem_controller owner entries first firstState : quiet (subsystem_controller owner entries first firstState).
Proof. revert first firstState. induction entries as [|e rest IH]; intros; cbn [subsystem_controller]; quiet_auto; apply IH. Qed.

#[export] Hint Resolve quiet_getISCSISessionState quiet_subsystem_controller : quiet.

Lemma quiet_nvmeControllerForNamespace root device : quiet (nvmeControllerForNamespace root device).
Proof. unfold nvmeControllerForNamespace. quiet_auto. Qed.
#[export] Hint Resolve quiet_nvmeControllerForNamespace : quiet.

Lemma quiet_getNVMeControllerState device : quiet (getNVMeControllerState device).
Proof. unfold getNVMeControllerState. quiet_auto. Qed.

Lemma quiet_extractNVMeController device : quiet (extractNVMeController device).
Proof. unfold extractNVMeController. quiet_auto. Qed.

Lemma quiet_initialization_loop n device : quiet (initialization_loop n device).
Proof. induction n as [|n IH]; cbn [initialization_loop]; quiet_auto; apply IH. Qed.

Lemma quiet_waitForDeviceInitialization device : quiet (waitForDeviceInitialization device).
Proof. apply quiet_initialization_loop. Qed.

Lemma quiet_forceDeviceRescan device : quiet (forceDeviceRescan device).
Proof. unfold forceDeviceRescan. quiet_auto. Qed.

Lemma quiet_logDeviceInfo device : quiet (logDeviceInfo device).
Proof. unfold logDeviceInfo. quiet_auto. Qed.

Lemma quiet_triggerUdev : quiet triggerUdevForNVMeSubsystem.
Proof. unfold triggerUdevForNVMeSubsystem. quiet_auto. Qed.

Lemma quiet_checkNVMeCLI : quiet checkNVMeCLI.
Proof. unfold checkNVMeCLI. quiet_auto. Qed.

#[export] Hint Resolve quiet_getNVMeControllerState quiet_extractNVMeController quiet_waitForDeviceInitialization
  quiet_forceDeviceRescan quiet_logDeviceInfo quiet_triggerUdev quiet_checkNVMeCLI : quiet.

Lemma quiet_rescanNVMeNamespace device : quiet (rescanNVMeNamespace device).
Proof. unfold rescanNVMeNamespace. quiet_auto. Qed.

Lemma quiet_getSubsystemState nqn : quiet (getSubsystemState nqn).
Proof. unfold getSubsystemState, runNVMeListSubsys. quiet_auto. Qed.
#[export] Hint Resolve quiet_rescanNVMeNamespace quiet_getSubsystemState : quiet.

Lemma quiet_subsystem_live_loop n attempt nqn deadline : quiet (subsystem_live_loop n attempt nqn deadline).
Proof.
  revert attempt. induction n as [|n IH]; intros attempt; cbn [subsystem_live_loop]; unfold final_state_check; quiet_auto; apply IH.
Qed.

Lemma quiet_waitForSubsystemLive nqn timeout : quiet (waitForSubsystemLive nqn timeout).
Proof. apply quiet_bind; [by apply quiet_host|]. intros now. apply quiet_subsystem_live_loop. Qed.

Lemma quiet_isDeviceHealthy device : quiet (isDeviceHealthy device).
Proof. unfold isDeviceHealthy. quiet_auto. Qed.

Lemma quiet_forceNamespaceRescan controller : quiet (forceNamespaceRescan controller).
Proof. unfold forceNamespaceRescan. quiet_auto. Qed.

Lemma quiet_logNVMeDiscoveryDiagnostics : quiet logNVMeDiscoveryDiagnostics.
Proof. unfold logNVMeDiscoveryDiagnostics. quiet_auto. Qed.

Lemma quiet_health_attempts n device : quiet (health_attempts n device).
Proof. induction n as [|n IH]; cbn [health_attempts]; quiet_auto; apply IH. Qed.

Lemma quiet_verifyDeviceHealthy device : quiet (verifyDeviceHealthy device).
Proof. apply quiet_health_attempts. Qed.

Lemma quiet_checkISCSIAdm : quiet checkISCSIAdm.
Proof. unfold checkISCSIAdm. quiet_auto. Qed.

Lemma quiet_discover_target p : quiet (discover_target p).
Proof. unfold discover_target. quiet_auto. Qed.

#[export] Hint Resolve quiet_waitForSubsystemLive quiet_isDeviceHealthy quiet_forceNamespaceRescan
  quiet_logNVMeDiscoveryDiagnostics quiet_verifyDeviceHealthy quiet_checkISCSIAdm quiet_discover_target : quiet.

(** ** Quiet programs of the detection *)

Lemma quiet_sysfs_session sessions portal : quiet (sysfs_session sessions portal).
Proof. revert portal. induction sessions as [|x l IH]; intros portal; cbn [sysfs_session]; quiet_auto; apply IH. Qed.
#[export] Hint Resolve quiet_sysfs_session : quiet.

Lemma quiet_getISCSISessionInfo path : quiet (getISCSISessionInfo path).
Proof. unfold getISCSISessionInfo, getISCSISessionInfoFromIscsiadm. quiet_auto. Qed.

Lemma quiet_by_path_entry path entries : quiet (by_path_entry path entries).
Proof. induction entries as [|e l IH]; cbn [by_path_entry]; quiet_auto; apply IH. Qed.
#[export] Hint Resolve quiet_getISCSISessionInfo quiet_by_path_entry : quiet.

Lemma quiet_detectBlockProtocolFromDevice device : quiet (detectBlockProtocolFromDevice device).
Proof. unfold detectBlockProtocolFromDevice, isISCSIDevice. quiet_auto. Qed.
#[export] Hint Resolve quiet_detectBlockProtocolFromDevice : quiet.

Lemma quiet_detectProtocolFromStagingPath path : quiet (detectProtocolFromStagingPath path).
Proof.
  unfold detectProtocolFromStagingPath, protocol_of_mount, detectFilesystemType, detectBlockProtocolFromMount. quiet_auto.
Qed.
#[export] Hint Resolve quiet_detectProtocolFromStagingPath : quiet.
