(* ===== verification/NodeSessions.v ===== *)
(** * Sessions of a node, as its answers show them

    What sysfs and iscsiadm answered about the state and the target of an iSCSI
    session, for every policy that allows these looks ([LookPolicy]): the
    recovery pass and the staging calls share them. *)

From S2P Require Import Prelude GoStrings Prog Errors Api Retry NodeHost NodeRecovery NodeQuiet.

#[local] Set Default Proof Using "Type*".

(** Operations that change nothing. *)
Definition looks (o : nop) : bool :=
  match o with
  | Stat _ | ReadFile _ | Glob _ | Now | NodeSleep _ | CtxDone => true
  | Command name args =>
      String.eqb name "findmnt" || (String.eqb name "blockdev" && bool_decide (head args = Some "--getsize64")) ||
      match iscsiadm_args o with
      | Some ["-m"; "session"; "-P"; _] => true
      | _ => false
      end
  | _ => false
  end.

Class LookPolicy (P : policy nsig) : Prop := { look_allowed h (o : nop) : looks o = true -> allow P h o }.

Lemma looks_quiet o : looks o = true -> quiet_op o = true.
Proof.
  destruct o; try done. unfold looks, quiet_op, quiet_command. intros H.
  apply orb_true_iff in H as [[->|[-> Hh]%andb_true_iff]%orb_true_iff|H]; [done| |].
  - apply bool_decide_eq_true in Hh. destruct args as [|c args]; [done|]. injection Hh as ->. cbn. by rewrite !orb_true_r.
  - apply orb_true_iff. right. destruct (iscsiadm_args _) as [a|]; [|done]. unfold quiet_iscsiadm. by repeat case_match.
Qed.

#[export] Instance quiet_look_policy P : QuietPolicy P -> LookPolicy P.
Proof. intros HP. split. intros h o Ho. by apply quiet_allowed, looks_quiet. Qed.

(** ** What a history shows *)

(** The state that the first session of a listing shows. *)
Definition state_value (line : string) : option string :=
  if Contains line "iSCSI Session State:" then (SplitN2 line ":").2 else None.
Definition first_state (l : list string) (state : string) : Prop :=
  exists before line after value, l = before ++ line :: after /\ Forall (fun x => state_value x = None) before /\
    state_value line = Some value /\ state = TrimSpace value.

(** The state that was answered for the session of a device. *)
Inductive session_state (h : nhistory) (devicePath : string) : string -> Prop :=
| state_of_device data :
    nev (ReadFile ("/sys/block/" +:+ Base devicePath +:+ "/device/state")) (Ok data) ∈ h ->
    session_state h devicePath
      (if String.eqb (TrimSpace data) "running" then iscsiSessionStateLoggedIn else TrimSpace data)
| state_of_iscsiadm name args output state :
    iscsiadm_args (Command name args) = Some ["-m"; "session"; "-P"; "1"] ->
    nev (Command name args) (output, None) ∈ h -> first_state (lines output) state ->
    session_state h devicePath state.

(** A session entry that was listed for a device. *)
Definition session_entry (h : nhistory) (sysPath sess : string) : Prop :=
  exists up l, up ∈ ["/device/../.."; "/device/../../.."] /\
    nev (Glob (sysPath +:+ up +:+ "/iscsi_session/session*")) (Ok l) ∈ h /\ sess ∈ l.

(** The listing of [iscsiadm -m session -P 3]: a line that opens the section of
    a target, and a line that names an attached disk. *)
Definition opens_target (line target : string) : Prop :=
  HasPrefix (TrimSpace line) "Target:" = true /\ target = TrimSpace (TrimPrefix (TrimSpace line) "Target:").
Definition in_section (line : string) : Prop := HasPrefix (TrimSpace line) "Target:" = false.
Definition attaches (line disk : string) : Prop :=
  Contains (TrimSpace line) "Attached scsi disk" = true /\ exists before after, Fields (TrimSpace line) = before ++ "disk" :: disk :: after.

(** The last line before that names a target, and the last portal of its section. *)
Definition names_target (line iqn : string) : Prop := exists target more, opens_target line target /\ Fields target = iqn :: more.
Definition latest_target (before : list string) (iqn : string) : Prop :=
  exists a line b, before = a ++ line :: b /\ names_target line iqn /\ Forall (fun x => forall i, ~ names_target x i) b.
Definition portal_line (line portal : string) : Prop :=
  in_section line /\ HasPrefix (TrimSpace line) "Current Portal:" = true /\
  let text := TrimSpace (TrimPrefix (TrimSpace line) "Current Portal:") in
  portal = match LastIndex text "," with Some i => str_take i text | None => text end.
Definition portal_free (line : string) : Prop := in_section line /\ HasPrefix (TrimSpace line) "Current Portal:" = false.
Inductive latest_portal : list string -> string -> Prop :=
| portal_listed a line b portal : portal_line line portal -> Forall portal_free b -> latest_portal (a ++ line :: b) portal
| portal_of_no_line b : Forall portal_free b -> latest_portal b ""
| portal_unlisted a line b : ~ in_section line -> Forall portal_free b -> latest_portal (a ++ line :: b) "".

(** The listing attaches the disk in the section of this very target. *)
Definition attached_session (l : list string) (disk iqn portal : string) : Prop :=
  exists before line after, l = before ++ line :: after /\ in_section line /\ attaches line disk /\
    latest_target before iqn /\ latest_portal before portal.

(** The target that was answered for a device. *)
Inductive session_target (h : nhistory) (sysPath iqn portal : string) : Prop :=
| target_of_sysfs sess data :
    session_entry h sysPath sess ->
    nev (ReadFile (JoinPath sess "targetname")) (Ok data) ∈ h -> TrimSpace data = iqn -> session_target h sysPath iqn portal
| target_of_iscsiadm name args output :
    iscsiadm_args (Command name args) = Some ["-m"; "session"; "-P"; "3"] ->
    nev (Command name args) (output, None) ∈ h -> attached_session (lines output) (Base sysPath) iqn portal ->
    session_target h sysPath iqn portal.

(** ** The listing, as its parser reads it *)

Lemma names_disk_spec parts disk : names_disk parts disk = true -> exists before after, parts = before ++ "disk" :: disk :: after.
Proof.
  induction parts as [|part [|next parts] IH]; [done..|]. change (names_disk (part :: next :: parts) disk) with
    ((String.eqb part "disk" && String.eqb next disk) || names_disk (next :: parts) disk).
  intros [[->%String.eqb_eq ->%String.eqb_eq]%andb_true_iff|H]%orb_true_iff; [by exists [], parts|].
  destruct (IH H) as (before & after & ->). by exists (part :: before), after.
Qed.

Lemma latest_target_skip before line iqn : (forall i, ~ names_target line i) -> latest_target before iqn -> latest_target (before ++ [line]) iqn.
Proof.
  intros Hl (a & line' & b & -> & Hn & Hb). exists a, line', (b ++ [line]). rewrite <- app_assoc. split; [done|]. split; [done|].
  apply Forall_app. by split; [|constructor].
Qed.

Lemma in_section_unnamed line : in_section line -> forall i, ~ names_target line i.
Proof. intros H i (target & more & [Ht _] & _). unfold in_section in H. by rewrite Ht in H. Qed.

Lemma latest_portal_skip before line portal : portal_free line -> latest_portal before portal -> latest_portal (before ++ [line]) portal.
Proof.
  intros Hl [a line' b p Hp Hb|b Hb|a line' b Hp Hb]; rewrite <- ?app_assoc;
    [apply portal_listed|apply portal_of_no_line|apply portal_unlisted]; try done; apply Forall_app; by split; [|constructor].
Qed.

(** What the parser holds after the lines [before]. *)
Definition scanned (before : list string) (iqn portal : string) : Prop :=
  (iqn = "" \/ latest_target before iqn) /\ latest_portal before portal.

Lemma scanned_target before line iqn portal :
  HasPrefix (TrimSpace line) "Target:" = true -> scanned before iqn portal ->
  scanned (before ++ [line])
    (match Fields (TrimSpace (TrimPrefix (TrimSpace line) "Target:")) with i :: _ => i | [] => iqn end) "".
Proof.
  intros Ht [Hi _]. split; [|apply portal_unlisted; [unfold in_section; congruence|constructor]].
  destruct (Fields _) as [|i more] eqn:Ef.
  - destruct Hi as [->|Hi]; [by left|right]. apply latest_target_skip; [|done].
    intros i (target & more & [_ ->] & Hf). by rewrite Ef in Hf.
  - right. exists before, line, []. split; [done|]. split; [|constructor]. by exists (TrimSpace (TrimPrefix (TrimSpace line) "Target:")), more.
Qed.

Lemma session_sections_attached l disk before iqn0 portal0 iqn portal :
  scanned before iqn0 portal0 -> session_sections l disk iqn0 portal0 = (iqn, portal) -> iqn <> "" ->
  attached_session (before ++ l) disk iqn portal.
Proof.
  revert before iqn0 portal0. induction l as [|line l IH]; intros before iqn0 portal0 Hs; cbn [session_sections]; [by intros [= <- <-]|].
  cbv zeta. intros H Hne. replace (before ++ line :: l) with ((before ++ [line]) ++ l) by (by rewrite <- app_assoc).
  destruct (HasPrefix (TrimSpace line) "Target:") eqn:Et; [eapply IH; [by eapply scanned_target|exact H|done]|]. destruct Hs as [Hi Hp].
  assert (iqn0 = "" \/ latest_target (before ++ [line]) iqn0) as Hi'.
  { destruct Hi as [?|Hi]; [by left|right]. by apply latest_target_skip; [apply in_section_unnamed|]. }
  destruct (HasPrefix (TrimSpace line) "Current Portal:") eqn:Ep.
  { eapply IH; [|exact H|done]. split; [done|]. by apply (portal_listed before line []). }
  destruct (Contains (TrimSpace line) "Attached scsi disk" && names_disk (Fields (TrimSpace line)) disk) eqn:Ed.
  - injection H as <- <-. apply andb_true_iff in Ed as [Hc Hd%names_disk_spec]. destruct Hi as [?|Hi]; [done|].
    exists before, line, l. rewrite <- app_assoc. by split_and!.
  - eapply IH; [|exact H|done]. split; [done|by apply latest_portal_skip].
Qed.

Lemma parse_attached output disk iqn portal :
  parseISCSISessionInfo output disk = (iqn, portal) -> iqn <> "" -> attached_session (lines output) disk iqn portal.
Proof.
  intros H Hne. apply (session_sections_attached (lines output) disk [] "" ""); [|exact H|done]. split; [by left|by apply portal_of_no_line].
Qed.

Lemma session_state_line_first l state : session_state_line l = Some state -> first_state l state.
Proof.
  induction l as [|line l IH]; [done|]. cbn [session_state_line]. intros H.
  assert (state_value line = None -> session_state_line l = Some state -> first_state (line :: l) state) as Hskip.
  { intros Hv (before & line' & after & value & -> & Hb & H1 & H2)%IH. exists (line :: before), line', after, value. split_and!; auto. }
  unfold state_value in Hskip. destruct (Contains line "iSCSI Session State:") eqn:Ec; [|by apply Hskip].
  destruct (SplitN2 line ":") as [key [value|]] eqn:Es; [|by apply Hskip].
  injection H as <-. exists [], line, l, value. split_and!; [done|constructor| |done]. unfold state_value. by rewrite Ec, Es.
Qed.

Lemma session_state_app h t d s : session_state h d s -> session_state (h ++ t) d s.
Proof. intros [data H|name args out st H1 H2 H3]; [apply state_of_device|eapply state_of_iscsiadm]; eauto with csi. Qed.

Lemma session_entry_app h t d s : session_entry h d s -> session_entry (h ++ t) d s.
Proof. intros (up & l & ? & ? & ?). exists up, l. auto with csi. Qed.

#[export] Hint Resolve session_entry_app : csi.

Lemma session_target_app h t d i p : session_target h d i p -> session_target (h ++ t) d i p.
Proof. intros [sess data He H E|name args out H1 H2 H3]; [eapply target_of_sysfs|eapply target_of_iscsiadm]; eauto with csi. Qed.

#[export] Hint Resolve session_state_app session_target_app : csi.

Section Sessions.
Context {P : policy nsig} {HP : LookPolicy P}.

(** iscsiadm run to list the sessions. *)
Lemma wp_list_sessions h what (Q : string * option error -> nhistory -> Prop) :
  (forall r0 name a r, iscsiadm_args (Command name a) = Some ["-m"; "session"; "-P"; what] ->
     Q r ((h ++ [nev (Stat "/proc/1/ns/mnt") r0]) ++ [nev (Command name a) r])) ->
  wp P h (iscsiadm ["-m"; "session"; "-P"; what]) Q.
Proof.
  intros H. unfold iscsiadm. apply wp_bind, wp_host; [by apply look_allowed|].
  intros [k|e] _; (apply wp_host; [by apply look_allowed|intros r _; by apply H]).
Qed.

Lemma wp_getISCSISessionState h devicePath :
  wp P h (getISCSISessionState devicePath) (fun r h' => forall state, r = Ok state -> session_state h' devicePath state).
Proof.
  unfold getISCSISessionState. apply wp_bind, wp_host; [by apply look_allowed|]. intros [data|e] _.
  - apply wp_ret. intros state [= <-]. apply state_of_device. auto with csi.
  - apply wp_bind, wp_list_sessions. intros r0 name args [output [ce|]] Ha; [by apply wp_ret|].
    destruct (session_state_line (lines output)) as [st|] eqn:El; apply wp_ret; [|done].
    intros state [= <-]. eapply state_of_iscsiadm; [exact Ha| |by apply session_state_line_first]. auto with csi.
Qed.

Lemma wp_sysfs_session h sessions portal sysPath :
  (forall sess, sess ∈ sessions -> session_entry h sysPath sess) ->
  wp P h (sysfs_session sessions portal) (fun r h' =>
    forall iqn p, r = Some (iqn, p) -> session_target h' sysPath iqn p).
Proof.
  revert h portal. induction sessions as [|sess rest IH]; intros h portal Hl; [by apply wp_ret|].
  cbn [sysfs_session]. apply wp_bind, wp_host; [by apply look_allowed|]. intros targetData _.
  apply wp_bind, wp_host; [by apply look_allowed|]. intros conns _.
  set (h1 := _ ++ [_]).
  assert (forall t p, negb (String.eqb (match targetData with Ok d => TrimSpace d | Err _ => "" end) "") = true ->
    session_target (h1 ++ t) sysPath (match targetData with Ok d => TrimSpace d | Err _ => "" end) p) as Htarget.
  { intros t p H. destruct targetData as [d|e]; [|done]. eapply target_of_sysfs with sess d; [|subst h1; auto with csi|done].
    subst h1. do 3 apply session_entry_app. apply Hl. by left. }
  apply wp_call_spec with (Q := fun _ _ => True).
  { destruct conns as [[|conn conns]|e]; try by apply wp_ret. apply wp_bind, wp_host; [by apply look_allowed|].
    intros addr _. by apply wp_ret. }
  intros p t _. destruct (negb _) eqn:E.
  2: { apply IH. intros s Hs. subst h1. do 3 apply session_entry_app. apply Hl. by right. }
  apply wp_ret. intros iqn q [= <- <-]. by apply Htarget.
Qed.

Lemma wp_getISCSISessionInfo h sysPath :
  wp P h (getISCSISessionInfo sysPath) (fun r h' => r.1 <> "" -> session_target h' sysPath r.1 r.2).
Proof.
  unfold getISCSISessionInfo. apply wp_bind, wp_host; [by apply look_allowed|]. intros found _.
  apply wp_call_spec with (Q := fun sessions h' => forall sess, sess ∈ sessions -> session_entry h' sysPath sess).
  { assert (forall h', wp P h' (again <- host (Glob (sysPath +:+ "/device/../../../iscsi_session/session*"));;
      Ret (match again with Ok l => l | Err _ => [] end)) (fun sessions h'' => forall sess, sess ∈ sessions -> session_entry h'' sysPath sess)) as Hagain.
    { intros h'. apply wp_bind, wp_host; [by apply look_allowed|]. intros [l|e] _; apply wp_ret; intros sess Hs; [|by apply not_elem_of_nil in Hs].
      exists "/device/../../..", l. split_and!; [by right; left|auto with csi|done]. }
    destruct found as [[|x l]|e]; try apply Hagain. apply wp_ret. intros sess Hs. exists "/device/../..", (x :: l).
    split_and!; [by left|auto with csi|done]. }
  intros sessions t Hsess. eapply wp_call_spec; [by apply wp_sysfs_session|]. intros [[iqn p]|] t' Hs.
  - apply wp_ret. intros _. by apply Hs.
  - unfold getISCSISessionInfoFromIscsiadm. apply wp_bind, wp_list_sessions. intros r0 name a [output [e|]] Ha; [by apply wp_ret|].
    apply wp_ret. intros Hne. eapply target_of_iscsiadm; [exact Ha|auto with csi|by apply parse_attached; [apply surjective_pairing|]].
Qed.

End Sessions.
