(* ===== verification/NodeEvidence.v ===== *)
(** * What the answers of the node establish

    Predicates on histories, and the specifications of the steps that look for
    them: a path is not mounted, a device is not mounted, a namespace belongs to
    a subsystem, a disk belongs to a session; and that the loops which wait for
    a device end. *)

From S2P Require Import Prelude GoStrings Prog Errors Api Retry NodeHost MountInfo NodeRecovery NodeSysfs NodeFiles NodeDevice NodeNvme NodeIscsi NodeQuiet NodeSessions.

#[local] Set Default Proof Using "Type*".

(** ** Mounts *)

(** The path that [filepath.Abs] makes of [target]. *)
Definition absolute (h : nhistory) (target abs : string) : Prop :=
  if IsAbs target then abs = Clean target else exists wd, nev Getwd (Ok wd) ∈ h /\ abs = JoinPath wd target.

(** A table of the node's own mount namespace that does not have the path. *)
Definition unmounted (h : nhistory) (target : string) : Prop :=
  exists abs file, absolute h target abs /\ nev (OpenRead "/proc/self/mountinfo") (Ok file) ∈ h /\ path_in_table abs file = Ok false.

Definition mounted_at (h : nhistory) (target : string) : Prop :=
  exists abs file, absolute h target abs /\ nev (OpenRead "/proc/self/mountinfo") (Ok file) ∈ h /\ path_in_table abs file = Ok true.

(** A table of the host's mount namespace that does not have the device. *)
Definition source_unmounted (h : nhistory) (device : string) : Prop :=
  exists major minor file, nev (Stat device) (Ok (BlockDevice major minor)) ∈ h /\
    nev (OpenRead "/proc/1/mountinfo") (Ok file) ∈ h /\ isDeviceInMountInfo major minor file = Ok false.

Lemma absolute_app h t target abs : absolute h target abs -> absolute (h ++ t) target abs.
Proof. unfold absolute. destruct (IsAbs target); [done|]. intros (wd & ? & ?). exists wd. auto with csi. Qed.
#[export] Hint Resolve absolute_app : csi.

Lemma unmounted_app h t target : unmounted h target -> unmounted (h ++ t) target.
Proof. intros (abs & file & ? & ? & ?). exists abs, file. auto with csi. Qed.

Lemma mounted_at_app h t target : mounted_at h target -> mounted_at (h ++ t) target.
Proof. intros (abs & file & ? & ? & ?). exists abs, file. auto with csi. Qed.

Lemma source_unmounted_app h t device : source_unmounted h device -> source_unmounted (h ++ t) device.
Proof. intros (major & minor & file & ? & ? & ?). exists major, minor, file. auto with csi. Qed.
#[export] Hint Resolve unmounted_app mounted_at_app source_unmounted_app : csi.

(** ** Devices *)

(** A namespace whose subsystem the kernel reported to be [nqn]. *)
Definition namespace_of (h : nhistory) (nqn device : string) : Prop :=
  nqn <> "" /\ exists name data, device = "/dev/" +:+ name /\ nvmeNamespaceName name = true /\
    nev (ReadFile (JoinPaths [sysBlockPath; name; "device"; "subsysnqn"])) (Ok data) ∈ h /\ TrimSpace data = nqn.

(** The rest of a section has the disk; and so has the section of a target. *)
Definition section_has (l : list string) (disk : string) : Prop :=
  exists section line after, l = section ++ line :: after /\ Forall in_section (section ++ [line]) /\ attaches line disk.
Definition listed_under (l : list string) (target disk : string) : Prop :=
  exists before line rest, l = before ++ line :: rest /\ opens_target line target /\ section_has rest disk.

(** A disk that iscsiadm listed in the section of a target. The name of the
    target starts with [iqn], which is how the driver compares them. *)
Definition disk_of (h : nhistory) (iqn device : string) : Prop :=
  exists name args output target disk, iscsiadm_args (Command name args) = Some ["-m"; "session"; "-P"; "3"] /\
    nev (Command name args) (output, None) ∈ h /\ listed_under (lines output) target disk /\ HasPrefix target iqn = true /\
    device = "/dev/" +:+ disk.

Lemma section_has_cons line rest disk : in_section line -> section_has rest disk -> section_has (line :: rest) disk.
Proof.
  intros Hl (section & line' & after & -> & Hs & Ha). exists (line :: section), line', after. split; [done|]. split; [by constructor|done].
Qed.

Lemma listed_under_cons line l target disk : listed_under l target disk -> listed_under (line :: l) target disk.
Proof. intros (before & line' & rest & -> & H). by exists (line :: before), line', rest. Qed.

Lemma word_after_disk_spec parts disk : word_after_disk parts = Some disk -> exists before after, parts = before ++ "disk" :: disk :: after.
Proof.
  induction parts as [|part [|next parts] IH]; [done..|]. change (word_after_disk (part :: next :: parts)) with
    (if String.eqb part "disk" then Some next else word_after_disk (next :: parts)).
  destruct (String.eqb_spec part "disk") as [->|_]; [intros [= ->]; by exists [], parts|].
  intros H. destruct (IH H) as (before & after & ->). by exists (part :: before), after.
Qed.

(** What the parser answers is listed. *)
Lemma session_device_listed l iqn inTarget disk :
  session_device l iqn inTarget = disk -> disk <> "" ->
  (inTarget = true /\ section_has l disk) \/ exists target, listed_under l target disk /\ HasPrefix target iqn = true.
Proof.
  revert inTarget. induction l as [|line l IH]; intros inTarget; cbn [session_device]; [by intros <-|]. cbv zeta. intros H Hne.
  destruct (HasPrefix (TrimSpace line) "Target:") eqn:Et.
  { right. destruct (IH _ H Hne) as [[Hp Hs]|(target & Hl & Hp)].
    - eexists. split; [|exact Hp]. exists [], line, l. done.
    - exists target. split; [by apply listed_under_cons|done]. }
  destruct (if inTarget && Contains (TrimSpace line) "Attached scsi disk" then word_after_disk (Fields (TrimSpace line)) else None)
    as [d|] eqn:Ed.
  - subst d. left. destruct (inTarget && Contains (TrimSpace line) "Attached scsi disk") eqn:Ec; [|done].
    apply andb_true_iff in Ec as [-> Hc]. split; [done|]. exists [], line, l. split; [done|]. split; [by constructor|].
    split; [done|by apply word_after_disk_spec].
  - destruct (IH _ H Hne) as [[-> Hs]|(target & Hl & Hp)]; [left; split; [done|by apply section_has_cons]|right].
    exists target. split; [by apply listed_under_cons|done].
Qed.

Lemma namespace_of_app h t nqn device : namespace_of h nqn device -> namespace_of (h ++ t) nqn device.
Proof. intros (? & name & data & ? & ? & ? & ?). split; [done|]. exists name, data. auto with csi. Qed.

Lemma disk_of_app h t iqn device : disk_of h iqn device -> disk_of (h ++ t) iqn device.
Proof. intros (name & args & output & target & disk & ? & ? & ?). exists name, args, output, target, disk. auto with csi. Qed.
#[export] Hint Resolve namespace_of_app disk_of_app : csi.

Section Evidence.
Context {P : policy nsig} {HP : QuietPolicy P}.

(** ** Mount tables *)

Lemma wp_Abs h target : wp P h (Abs target) (fun r h' => forall abs, r = Ok abs -> absolute h' target abs).
Proof.
  unfold Abs, absolute. destruct (IsAbs target); [apply wp_ret; by intros abs [= <-]|].
  apply wp_look; [done|]. intros [wd|e]; apply wp_ret; [|done]. intros abs [= <-]. exists wd. auto with csi.
Qed.

Lemma wp_IsMounted_answer h target : wp P h (IsMounted target) (fun r h' =>
  match r with Ok true => mounted_at h' target | Ok false => unmounted h' target | Err _ => True end).
Proof.
  unfold IsMounted. apply wp_look; [done|]. intros [e|]; [by apply wp_ret|].
  apply wp_look; [done|]. intros [file|e]; [|by apply wp_ret].
  eapply wp_call_spec with (Q := fun r h' => match r with Ok true => mounted_at h' target | Ok false => unmounted h' target | Err _ => True end).
  { unfold isPathInMountInfo. destruct (String.eqb target ""); [by apply wp_ret|].
    eapply wp_call_spec; [apply wp_Abs|]. intros [abs|e] t Habs; [|by apply wp_ret]. apply wp_ret.
    destruct (path_in_table abs file) as [[|]|] eqn:E; [..|done]; exists abs, file; auto with csi. }
  intros [mounted|e] t Hm; [|by apply wp_ret]. destruct (o_closeErr file); [by apply wp_ret|].
  apply wp_look; [done|]. intros [e|]; apply wp_ret; [done|]. destruct mounted; auto with csi.
Qed.

Lemma wp_IsMounted h target : wp P h (IsMounted target) (fun r h' => r = Ok false -> unmounted h' target).
Proof. eapply wp_mono; [|apply wp_IsMounted_answer]. by intros r h' H ->. Qed.

Lemma wp_IsSourceMounted h device :
  wp P h (IsSourceMounted device) (fun r h' => r = Ok false -> source_unmounted h' device).
Proof.
  unfold IsSourceMounted. apply wp_look; [done|]. intros [e|]; [by apply wp_ret|].
  apply wp_look; [done|]. intros [[|major minor| |]|e]; try by apply wp_ret.
  apply wp_look; [done|]. intros [file|e]; [|by apply wp_ret].
  destruct (isDeviceInMountInfo major minor file) as [mounted|e] eqn:Em; [|by apply wp_ret].
  destruct (o_closeErr file); apply wp_ret; [done|]. intros [= ->]. exists major, minor, file. auto with csi.
Qed.

(** ** Namespaces *)

Lemma wp_owned_namespaces h nqn entries :
  wp P h (owned_namespaces sysBlockPath nqn entries) (fun names h' => Forall (fun name => namespace_of h' nqn ("/dev/" +:+ name)) names).
Proof.
  revert h. induction entries as [|e rest IH]; intros h; [by apply wp_ret|]. cbn [owned_namespaces]. cbv zeta.
  destruct (nvmeNamespaceName (de_Name e)) eqn:En; cbn [negb]; [|apply IH].
  unfold readNVMeSysfsValue. apply wp_bind, wp_look; [done|]. intros data. apply wp_ret.
  eapply wp_call_spec; [apply IH|]. intros names t Hn. apply wp_ret. destruct data as [data|err]; [|done]. cbn [res_map].
  destruct (String.eqb_spec (TrimSpace data) nqn) as [Ed|]; [|done].
  destruct (String.eqb_spec nqn "") as [|Hne]; [done|]. constructor; [|done].
  split; [done|]. exists (de_Name e), data. auto with csi.
Qed.

Lemma quiet_owned_namespaces root nqn entries : quiet (owned_namespaces root nqn entries).
Proof. induction entries as [|e rest IH]; cbn [owned_namespaces]; quiet_auto; apply IH. Qed.

Lemma wp_first_namespaces h root names :
  wp P h (first_namespaces root names) (fun found _ => forall name, name ∈ found -> name ∈ names).
Proof.
  revert h. induction names as [|name rest IH]; intros h; [by apply wp_ret|]. cbn [first_namespaces].
  apply wp_quiet; [auto with quiet|]. intros nsid t. eapply wp_call_spec; [apply IH|]. intros found t' Hf. apply wp_ret.
  intros n Hn. destruct nsid as [v|e]; [destruct (String.eqb v "1")|]; [apply elem_of_cons in Hn as [->|Hn]; [by left|]| |]; right; by apply Hf.
Qed.

Lemma wp_nvmeNamespaceDeviceForNQN h nqn :
  wp P h (nvmeNamespaceDeviceForNQN sysBlockPath nqn) (fun r h' => forall device, r = Ok device -> namespace_of h' nqn device).
Proof.
  unfold nvmeNamespaceDeviceForNQN. apply wp_look; [done|]. intros [entries|e]; [|by apply wp_ret].
  eapply wp_call_spec; [apply wp_owned_namespaces|]. intros matches t Hm.
  destruct matches as [|name [|name2 more]]; [by apply wp_ret|apply wp_ret; intros device [= <-]; by inversion Hm|].
  eapply wp_call_spec; [apply wp_first_namespaces|]. intros found t' Hf.
  destruct found as [|first [|]]; apply wp_ret; try done. intros device [= <-].
  rewrite Forall_forall in Hm. apply namespace_of_app, Hm, Hf. by left.
Qed.
End Evidence.

Lemma quiet_first_namespaces root names : quiet (first_namespaces root names).
Proof. induction names as [|name rest IH]; cbn [first_namespaces]; quiet_auto; apply IH. Qed.

Lemma quiet_nvmeNamespaceDeviceForNQN root nqn : quiet (nvmeNamespaceDeviceForNQN root nqn).
Proof.
  unfold nvmeNamespaceDeviceForNQN.
  quiet_auto; first [apply quiet_owned_namespaces | apply quiet_first_namespaces].
Qed.
#[export] Hint Resolve quiet_nvmeNamespaceDeviceForNQN : quiet.

(** ** Looking for the device of a subsystem *)

(** A device without an error belongs to the subsystem. *)
Definition found_in (nqn : string) (r : found_device) (h : nhistory) : Prop :=
  r.2 = None -> r.1 <> "" -> namespace_of h nqn r.1.

Section Discovery.
Context {P : policy nsig} {HP : QuietPolicy P}.

Lemma wp_matching_controller h nqn name : wp P h (matching_controller nqn name) (found_in nqn).
Proof.
  unfold matching_controller. eapply wp_call_spec; [apply wp_nvmeNamespaceDeviceForNQN|].
  intros [device|e] t Hd; [|destruct (errors_Is e _); by apply wp_ret].
  specialize (Hd device eq_refl).
  apply wp_quiet; [auto with quiet|]. intros err t1. apply wp_quiet; [quiet_auto|]. intros [|] t2.
  { apply wp_ret. intros _ _. auto with csi. }
  apply wp_quiet; [auto with quiet|]. intros _ t3. apply wp_quiet; [auto with quiet|]. intros err' t4.
  apply wp_quiet; [quiet_auto|]. intros [|] t5; apply wp_ret; [|done]. intros _ _. auto 8 with csi.
Qed.

Lemma wp_sys_controllers h nqn entries : wp P h (sys_controllers nqn entries) (found_in nqn).
Proof.
  revert h. induction entries as [|e rest IH]; intros h; cbn [sys_controllers]; [by apply wp_ret|].
  destruct (negb _); [apply IH|]. apply wp_look; [done|]. intros [data|err]; [|apply IH].
  destruct (String.eqb _ _); [apply wp_matching_controller|apply IH].
Qed.

Lemma wp_unambiguous h nqn k :
  (forall h', wp P h' k (found_in nqn)) -> wp P h (unambiguous nqn k) (found_in nqn).
Proof.
  intros Hk. unfold unambiguous. apply wp_look; [done|]. intros [e|]; [by apply wp_ret|].
  apply wp_quiet; [auto with quiet|]. intros identity t. destruct (is_ambiguous identity); [by apply wp_ret|apply Hk].
Qed.

Lemma wp_findNVMeDeviceByNQNFromSys h nqn : wp P h (findNVMeDeviceByNQNFromSys nqn) (found_in nqn).
Proof.
  apply wp_unambiguous. intros h'. apply wp_look; [done|]. intros [entries|e]; [apply wp_sys_controllers|by apply wp_ret].
Qed.

Lemma wp_parseNVMeListSubsys h l nqn :
  wp P h (parseNVMeListSubsysOutputForNQN l nqn) (fun r h' => r <> "" -> namespace_of h' nqn r).
Proof.
  revert h. induction l as [|line rest IH]; intros h; cbn [parseNVMeListSubsysOutputForNQN]; [by apply wp_ret|].
  destruct (_ && _); [|apply IH]. eapply wp_call_spec; [apply wp_nvmeNamespaceDeviceForNQN|].
  intros [device|e] t Hd; [|apply IH]. destruct (negb _); [|apply IH]. apply wp_ret. intros _. by apply Hd.
Qed.

Lemma wp_findNVMeDeviceByNQN h nqn : wp P h (findNVMeDeviceByNQN nqn) (found_in nqn).
Proof.
  apply wp_unambiguous. intros h'. apply wp_look; [done|]. intros [output [e|]]; [apply wp_findNVMeDeviceByNQNFromSys|].
  eapply wp_call_spec; [apply wp_parseNVMeListSubsys|]. intros device t Hd.
  destruct (String.eqb_spec device ""); [apply wp_findNVMeDeviceByNQNFromSys|]. apply wp_ret. intros _ _. by apply Hd.
Qed.

Lemma wp_findNVMeDeviceByNQNWithController h nqn :
  wp P h (findNVMeDeviceByNQNWithController nqn) (fun r => found_in nqn r.1).
Proof.
  unfold findNVMeDeviceByNQNWithController. apply wp_look; [done|]. intros [e|]; [by apply wp_ret|].
  apply wp_quiet; [auto with quiet|]. intros identity t. destruct (is_ambiguous identity); [by apply wp_ret|].
  apply wp_look; [done|]. intros [output listErr]. destruct (String.eqb _ ""); [|].
  { eapply wp_call_spec; [apply wp_findNVMeDeviceByNQNFromSys|]. intros found t' Hf. by apply wp_ret. }
  eapply wp_call_spec; [apply wp_nvmeNamespaceDeviceForNQN|]. intros [device|e] t' Hd; [|by apply wp_ret].
  apply wp_quiet; [auto with quiet|]. intros [[controller st]|e] t2; apply wp_ret; [|done].
  intros _ _. apply namespace_of_app. by apply Hd.
Qed.

(** ** Waiting for it *)

Definition step_in (nqn : string) (r : wait_step) (h : nhistory) : Prop :=
  match r with WaitFound device => namespace_of h nqn device | _ => True end.

Ltac wait_again :=
  lazymatch goal with
  | |- wp _ _ (Ret _) _ => by apply wp_ret
  | |- wp _ _ (bind _ _) _ => apply wp_quiet; [solve [unfold periodic; quiet_auto]|intros ? ?; wait_again]
  | |- wp _ _ (match ?x with _ => _ end) _ => destruct x; wait_again
  end.

Lemma wp_wait_attempt h nqn attempt last found controller :
  found_in nqn found h -> wp P h (wait_attempt attempt last found controller) (step_in nqn).
Proof.
  intros Hf. destruct found as [device err]. unfold wait_attempt. cbv zeta. cbn [fst snd].
  destruct (match err with None => negb (String.eqb device "") | Some _ => false end) eqn:Efound.
  { assert (namespace_of h nqn device) as Hd.
    { destruct err; [done|]. apply Hf; [done|]. by destruct (String.eqb_spec device ""). }
    apply wp_quiet; [auto with quiet|]. intros [e|] t; swap 1 2.
    - apply wp_quiet; [auto with quiet|]. intros [|] t'; [apply wp_ret; simpl; auto with csi|]. wait_again.
    - wait_again. }
  wait_again.
Qed.

(** The loop ends: every attempt takes two seconds of the clock. *)
Lemma wp_device_wait_loop fuel h nqn attempt last deadline f :
  clock_floor h = Some f -> deadline - f <= 2 * second_ns * (Z.of_nat fuel - 1) -> (0 < fuel)%nat ->
  wp P h (device_wait_loop fuel attempt last nqn deadline) (fun r h' => forall device, r = Ok device -> namespace_of h' nqn device).
Proof.
  revert h attempt last f. induction fuel as [|fuel IH]; intros h attempt last f Hf Hd H0; [lia|].
  cbn [device_wait_loop]. apply wp_bind, wp_host; [by apply quiet_allowed|]. intros now Hnow.
  apply quiet_env in Hnow. cbn in Hnow. rewrite Hf in Hnow.
  assert (clock_floor (h ++ [nev Now now]) = Some now) as Hf1 by by rewrite clock_floor_snoc.
  set (h1 := h ++ [nev Now now]) in *. clearbody h1.
  destruct (Z.ltb_spec now deadline) as [Hlt|]; cbn [negb]; swap 1 2.
  { apply wp_quiet; [auto with quiet|]. intros _ t. by apply wp_ret. }
  apply wp_bind. eapply wp_mono; [|apply wp_timed, wp_findNVMeDeviceByNQNWithController].
  intros [found controller] h2 [Hfound Hle2]. apply wp_bind.
  eapply wp_mono; [|apply wp_timed, wp_wait_attempt, Hfound].
  intros [device|e|last'] h3 [Hstep Hle3]; [apply wp_ret; by intros d [= <-]|by apply wp_ret|].
  apply wp_bind. eapply wp_mono with (Q := fun _ h' => floor_le (clock_floor h3) (clock_floor h')).
  2: { eapply wp_mono; [|apply (wp_timed _ _ (fun _ _ => True))]; [by intros ? ? [_ ?]|].
       assert (quiet (if (attempt + 1) mod 10 =? 0 then triggerUdevForNVMeSubsystem else Ret tt)) as Hq by quiet_auto. by apply Hq. }
  intros _ h4 Hle4. apply wp_bind, wp_host; [by apply quiet_allowed|]. intros [e|] Hr; [by apply wp_ret|].
  assert (floor_le (Some now) (clock_floor h4)) as Hle by (rewrite <- Hf1; by do 2 (etransitivity; [eassumption|])).
  destruct (clock_floor h4) as [f4|] eqn:E4; [|done]. simpl in Hle.
  eapply (IH _ _ _ (f4 + Z.max 0 (2 * second_ns))); [by rewrite clock_floor_snoc, E4|unfold second_ns in *; lia|unfold second_ns in *; lia].
Qed.

Lemma wp_waitForNVMeDevice h nqn :
  wp P h (waitForNVMeDevice nqn) (fun r h' => forall device, r = Ok device -> namespace_of h' nqn device).
Proof.
  apply wp_look; [done|]. intros now. eapply wp_device_wait_loop; [by rewrite clock_floor_snoc|unfold poll_fuel, second_ns; lia..].
Qed.

(** ** Disks of iSCSI sessions *)

(** iscsiadm where its arguments are allowed. *)
Lemma wp_iscsiadm_quiet h args (Q : string * option error -> nhistory -> Prop) :
  quiet_iscsiadm args = true ->
  (forall r0 name a r, iscsiadm_args (Command name a) = Some args ->
     Q r ((h ++ [nev (Stat "/proc/1/ns/mnt") r0]) ++ [nev (Command name a) r])) ->
  wp P h (iscsiadm args) Q.
Proof.
  intros Hq H. unfold iscsiadm. apply wp_look; [done|].
  intros [k|e]; (apply wp_look_post; [exact Hq|]); intros r; by apply H.
Qed.

Lemma wp_findISCSIDevice h iqn :
  wp P h (findISCSIDevice iqn) (fun r h' => forall device, r = Ok device -> disk_of h' iqn device).
Proof.
  unfold findISCSIDevice. apply wp_bind, wp_iscsiadm_quiet; [done|]. intros r0 name args [output [e|]] Ha; [by apply wp_ret|].
  destruct (String.eqb_spec (parseISCSISessionDevice output iqn) "") as [|Hne]; apply wp_ret; [done|].
  intros device [= <-]. destruct (session_device_listed _ _ _ _ eq_refl Hne) as [[? _]|(target & Hl & Hp)]; [done|].
  eexists name, args, output, target, _. split_and!; [exact Ha|auto with csi|exact Hl|exact Hp|done].
Qed.

Lemma wp_iscsi_wait_loop fuel h iqn deadline f :
  clock_floor h = Some f -> deadline - f <= 2 * second_ns * (Z.of_nat fuel - 1) -> (0 < fuel)%nat ->
  wp P h (iscsi_wait_loop fuel iqn deadline) (fun r h' => forall device, r = Ok device -> disk_of h' iqn device).
Proof.
  revert h f. induction fuel as [|fuel IH]; intros h f Hf Hd H0; [lia|].
  cbn [iscsi_wait_loop]. apply wp_bind, wp_host; [by apply quiet_allowed|]. intros now Hnow.
  apply quiet_env in Hnow. cbn in Hnow. rewrite Hf in Hnow.
  assert (clock_floor (h ++ [nev Now now]) = Some now) as Hf1 by by rewrite clock_floor_snoc.
  set (h1 := h ++ [nev Now now]) in *. clearbody h1.
  destruct (Z.ltb_spec now deadline) as [Hlt|]; cbn [negb]; [|by apply wp_ret].
  apply wp_bind. eapply wp_mono; [|apply wp_timed, wp_findISCSIDevice]. intros r h2 [Hr Hle2].
  apply wp_bind. eapply wp_mono; [|apply wp_timed, wp_grows].
  2: { assert (quiet (match r with
       | Ok devicePath => err <- stat_err devicePath;; Ret (match err with None => true | Some _ => false end)
       | Err _ => Ret false end)) as Hq by quiet_auto. apply Hq, HP. }
  intros [|] h3 [[_ [t ->]] Hle3]; [apply wp_ret; intros device ->; auto with csi|].
  apply wp_bind, wp_host; [by apply quiet_allowed|]. intros [] _.
  assert (floor_le (Some now) (clock_floor (h2 ++ t))) as Hle by (rewrite <- Hf1; etransitivity; eassumption).
  destruct (clock_floor (h2 ++ t)) as [f3|] eqn:E3; [|done]. simpl in Hle.
  eapply (IH _ (f3 + Z.max 0 (2 * second_ns))); [by rewrite clock_floor_snoc, E3|unfold second_ns in *; lia|unfold second_ns in *; lia].
Qed.

Lemma wp_waitForISCSIDevice h iqn :
  wp P h (waitForISCSIDevice iqn) (fun r h' => forall device, r = Ok device -> disk_of h' iqn device).
Proof.
  apply wp_look; [done|]. intros now. eapply wp_iscsi_wait_loop; [by rewrite clock_floor_snoc|unfold poll_fuel, second_ns; lia..].
Qed.
End Discovery.
