(* ===== verification/NodeRpc.v ===== *)
(** * Calls under the lock of a volume

    The lock discipline of the handlers: with_volume_lock runs its body while the
    lock of the volume is held and releases it. *)

From S2P Require Import Prelude GoStrings Prog Errors Api Retry NodeHost NodeFiles NodeService NodeQuiet.

#[local] Set Default Proof Using "Type*".

Definition lock_op (o : nop) : bool := match o with LockVolume _ | UnlockVolume _ => true | _ => false end.

(** Whether the call holds the lock of a volume after a history. *)
Definition held_step (volumeID : string) (held : bool) (e : event nsig) : bool :=
  match e with
  | existT o r =>
      match o return nans o -> bool with
      | LockVolume v => fun r => if String.eqb v volumeID && bool_decide (r = None) then true else held
      | UnlockVolume v => fun _ => if String.eqb v volumeID then false else held
      | _ => fun _ => held
      end r
  end.
Definition held (volumeID : string) (h : nhistory) : bool := foldl (held_step volumeID) false h.

(** What a handler may do: metrics at any time, the lock first, its work and the
    release while the lock is held. *)
Inductive rpc_allow (volumeID : string) (work : nhistory -> nop -> Prop) (h : nhistory) : nop -> Prop :=
| rpc_metric name : rpc_allow volumeID work h (NodeMetric name)
| rpc_lock : h = [] -> rpc_allow volumeID work h (LockVolume volumeID)
| rpc_work o : held volumeID h = true -> work h o -> lock_op o = false -> rpc_allow volumeID work h o
| rpc_unlock : held volumeID h = true -> rpc_allow volumeID work h (UnlockVolume volumeID).

Definition rpc_policy (volumeID : string) (P : policy nsig) : policy nsig :=
  {| allow h o := rpc_allow volumeID (allow P) h o; env := env P; crash := crash P |}.

Lemma held_snoc volumeID h e : held volumeID (h ++ [e]) = held_step volumeID (held volumeID h) e.
Proof. apply foldl_snoc. Qed.

Lemma held_other volumeID h (o : nop) (r : nans o) : lock_op o = false -> held volumeID (h ++ [nev o r]) = held volumeID h.
Proof. rewrite held_snoc. by destruct o. Qed.

Section Rpc.
Context {P : policy nsig} (Hwork : forall h o, allow P h o -> lock_op o = false).

Lemma wp_work {A : Type} volumeID h (p : Host A) Q :
  held volumeID h = true -> wp P h p Q -> wp (rpc_policy volumeID P) h p (fun a h' => Q a h' /\ held volumeID h' = true).
Proof.
  revert h. induction p as [a| |o k IH]; intros h Hh; [intros H; by apply wp_ret|done|].
  intros [Ha Hk]. split; [by apply rpc_work; [..|apply (Hwork h)]|]. intros r Hr.
  apply IH, Hk, Hr. rewrite <- Hh. apply held_other, (Hwork h), Ha.
Qed.

Lemma wp_observe_error {A : Type} volumeID h operation e :
  held volumeID h = false -> wp (rpc_policy volumeID P) h (observe_error (A := A) operation e) (fun _ h' => held volumeID h' = false).
Proof using Type.
  intros Hh. apply wp_bind, wp_host; [by apply rpc_metric|]. intros r _. apply wp_ret. by rewrite held_other.
Qed.

Lemma wp_with_volume_lock {A : Type} operation volumeID (body : Host (res A)) :
  wp P [nev (LockVolume volumeID) None] body (fun _ _ => True) ->
  wp (rpc_policy volumeID P) [] (with_volume_lock operation volumeID body) (fun _ h' => held volumeID h' = false).
Proof.
  intros Hbody. unfold with_volume_lock. apply wp_bind, wp_host; [by apply rpc_lock|]. intros [e|] _.
  - apply wp_observe_error. rewrite held_snoc. cbn. by rewrite andb_false_r.
  - apply wp_bind. eapply wp_mono; [|apply wp_work, Hbody].
    + intros r h' [_ Hh]. apply wp_bind, wp_host; [by apply rpc_unlock|]. intros r2 _. apply wp_ret.
      rewrite held_snoc. cbn. by rewrite String.eqb_refl.
    + cbn. by rewrite String.eqb_refl.
Qed.
End Rpc.

Lemma rpc_allow_work vid work h o :
  rpc_allow vid work h o -> match o with NodeMetric _ | LockVolume _ | UnlockVolume _ => True | _ => held vid h = true /\ work h o end.
Proof. intros [name|_|o' Hh Hw Hl|_]; try done. by destruct o'. Qed.

(** ** What an execution did *)

Section Outcome.
Context {A : Type} {volumeID : string} {P : policy nsig} {p : Host A} {tr : nhistory} {out : outcome A}.
Context (Hp : wp (rpc_policy volumeID P) [] p (fun _ h => held volumeID h = false)) (Henv : env P = host_env).
Context (He : exec p tr out) (Hc : sane_host tr).

(** Every operation was allowed. *)
Lemma rpc_operations {t1 o r t2} : tr = t1 ++ nev o r :: t2 -> rpc_allow volumeID (allow P) t1 o.
Proof.
  intros E.
  exact (wp_sound_allow _ _ _ _ _ _ Hp He (sane_host_trace (rpc_policy volumeID P) _ Henv Hc) _ _ _ _ E).
Qed.

(** The call returned, with the lock released. *)
Lemma rpc_outcome : ~ crash P -> (exists r, out = Done r) /\ held volumeID tr = false.
Proof.
  intros Hcrash.
  pose proof (wp_sound_post _ _ _ _ _ _ Hp He (sane_host_trace (rpc_policy volumeID P) _ Henv Hc)) as H.
  destruct out as [r|]; [|by apply Hcrash in H]. split; [by exists r|exact H].
Qed.
End Outcome.
