(* ===== verification/RecoveryTheorems.v ===== *)
(** * Safety of the recovery pass

    What every execution of [NodeRecovery.runHealthCheck] may do to the node,
    whatever the kernel, sysfs and the tools answer: sessions and controllers
    that are healthy or that the kernel is reconnecting are left alone, file
    systems are remounted only on accessible devices, and a staging path is
    unmounted only when its device is lost. *)

From S2P Require Import Prelude GoStrings Prog Errors NodeHost NodeRecovery NodeQuiet NodeSessions.

#[local] Set Default Proof Using "Type*".

(** ** What a history shows *)

(** A session that is neither logged in nor being reconnected, and its target. *)
Definition stuck_session (h : nhistory) (iqn portal : string) : Prop :=
  exists sysPath state, session_state h ("/dev/" +:+ Base sysPath) state /\
    state <> iscsiSessionStateLoggedIn /\ iscsiSessionRecovering state = false /\
    session_target h sysPath iqn portal /\ iqn <> "".

(** The session check after the rescan found no session logged in. *)
Definition rescan_failed (h : nhistory) : Prop :=
  exists name args output err, iscsiadm_args (Command name args) = Some ["-m"; "session"; "-P"; "1"] /\
    nev (Command name args) (output, err) ∈ h /\
    (err = None -> Contains output iscsiSessionStateLoggedIn = false).

(** A fabrics controller that is neither live nor being reconnected. *)
Definition stuck_controller (h : nhistory) (ctrlPath : string) : Prop :=
  exists transport state,
    nev (ReadFile (ctrlPath +:+ "/transport")) (Ok transport) ∈ h /\ TrimSpace transport <> "" /\
    nev (ReadFile (ctrlPath +:+ "/state")) (Ok state) ∈ h /\
    TrimSpace state <> nvmeSubsystemStateLive /\ nvmeRecovering (TrimSpace state) = false.

(** A read-only staging mount, whose device has just reported a size. *)
Definition remountable (h : nhistory) (target : string) : Prop :=
  exists output line source options rest h0 answer,
    nev (Command "findmnt" ["-n"; "-o"; "SOURCE,TARGET,OPTIONS"; "-t"; "ext4,xfs"; "--raw"]) (output, None) ∈ h /\
    line ∈ lines output /\ Contains line stagingPathMarker = true /\
    Fields line = source :: target :: options :: rest /\ is_read_only options = true /\
    h = h0 ++ [nev (Command "blockdev" ["--getsize64"; source]) answer] /\ reports_size answer = true.

(** An answer that shows the transport of a device reconnecting. *)
Definition shows_recovering (source : string) (e : event nsig) : bool :=
  match e with
  | existT o r =>
      match o return nans o -> bool with
      | ReadFile path => fun r =>
          match r with
          | Ok data =>
              (String.eqb path ("/sys/block/" +:+ Base source +:+ "/device/state") && iscsiSessionRecovering (TrimSpace data)) ||
              (String.eqb path ("/sys/class/nvme/" +:+ controller_name (Base source) +:+ "/state") &&
               nvmeRecovering (TrimSpace data))
          | Err _ => false
          end
      | Command name args => fun r =>
          match r.2 with
          | Some _ => false
          | None =>
              bool_decide (iscsiadm_args (Command name args) = Some ["-m"; "session"; "-P"; "1"]) &&
              match session_state_line (lines r.1) with Some state => iscsiSessionRecovering state | None => false end
          end
      | _ => fun _ => false
      end r
  end.

(** From the last look at the device on: it is gone or reports no size, and no
    answer shows its transport reconnecting. *)
Definition device_lost (seg : nhistory) (source : string) : Prop :=
  exists r t, seg = nev (Stat source) r :: t /\
    (is_ok r = false \/ exists answer, nev (Command "blockdev" ["--getsize64"; source]) answer ∈ t /\ reports_size answer = false) /\
    Forall (fun e => shows_recovering source e = false) t.

(** A staging mount on a lost device, not unmounted within the cooldown. *)
Definition broken_mount (recent : gmap string Z) (h : nhistory) (target : string) : Prop :=
  exists output line source rest now h0 seg,
    nev (Command "findmnt" ["-n"; "-o"; "SOURCE,TARGET"; "-t"; "ext4,xfs"; "--raw"]) (output, None) ∈ h /\
    line ∈ lines output /\ Contains line stagingPathMarker = true /\ Fields line = source :: target :: rest /\
    nev Now now ∈ h /\ (forall ts, recent !! target = Some ts -> unmountCooldown < now - ts) /\
    (forall r, nev (Command "umount" ["-l"; target]) r ∉ h) /\
    h = h0 ++ seg /\ device_lost seg source.

(** ** The policy *)

Definition rescan_args (iqn portal : string) : list string :=
  if negb (String.eqb portal "") then ["-m"; "session"; "-r"; iqn; "--rescan"] else ["-m"; "session"; "--rescan"].
Definition login_args (iqn portal : string) : list string :=
  if negb (String.eqb portal "") then ["-m"; "node"; "-T"; iqn; "-p"; portal; "--login"] else ["-m"; "node"; "-T"; iqn; "--login"].

(** Repairs: everything the pass may change except mounts. *)
Inductive repair_allow (h : nhistory) : nop -> Prop :=
| allow_look o : looks o = true -> repair_allow h o
| allow_rescan name args iqn portal :
    iscsiadm_args (Command name args) = Some (rescan_args iqn portal) -> stuck_session h iqn portal ->
    repair_allow h (Command name args)
| allow_logout name args iqn portal :
    iscsiadm_args (Command name args) = Some ["-m"; "node"; "-T"; iqn; "--logout"] ->
    stuck_session h iqn portal -> rescan_failed h -> repair_allow h (Command name args)
| allow_login name args iqn portal :
    iscsiadm_args (Command name args) = Some (login_args iqn portal) ->
    stuck_session h iqn portal -> rescan_failed h -> repair_allow h (Command name args)
| allow_reset_sysfs ctrlPath :
    stuck_controller h ctrlPath -> repair_allow h (WriteFile (ctrlPath +:+ "/reset_controller") "1")
| allow_reset_cli ctrlPath :
    stuck_controller h ctrlPath -> repair_allow h (Command "nvme" ["reset"; "/dev/" +:+ Base ctrlPath])
| allow_remount target :
    remountable h target -> repair_allow h (Command "mount" ["-o"; "remount,rw"; target]).

Inductive health_allow (recent : gmap string Z) (h : nhistory) : nop -> Prop :=
| allow_repair o : repair_allow h o -> health_allow recent h o
| allow_umount target : broken_mount recent h target -> health_allow recent h (Command "umount" ["-l"; target]).

Definition repair_policy : policy nsig := {| allow h o := repair_allow h o; env := host_env; crash := False |}.
Definition health_policy (recent : gmap string Z) : policy nsig :=
  {| allow h o := health_allow recent h o; env := host_env; crash := False |}.

#[export] Instance repair_look_policy : LookPolicy repair_policy.
Proof. split. intros h o. apply allow_look. Qed.

(** ** Monotonicity *)

Lemma stuck_session_app h t i p : stuck_session h i p -> stuck_session (h ++ t) i p.
Proof. intros (s & st & H & ? & ? & H' & ?). exists s, st. split_and!; auto using session_state_app, session_target_app. Qed.

Lemma rescan_failed_app h t : rescan_failed h -> rescan_failed (h ++ t).
Proof. intros (n & a & o & e & ? & H & ?). exists n, a, o, e. auto with csi. Qed.

Lemma stuck_controller_app h t c : stuck_controller h c -> stuck_controller (h ++ t) c.
Proof. intros (tr & st & ? & ? & ? & ? & ?). exists tr, st. split_and!; auto with csi. Qed.

#[export] Hint Resolve stuck_session_app rescan_failed_app stuck_controller_app : csi.

(** ** Proof rules *)

Lemma look h o : looks o = true -> repair_allow h o.
Proof. apply allow_look. Qed.

Lemma wp_iscsiadm h args (Q : string * option error -> nhistory -> Prop) :
  (forall r0 name a, iscsiadm_args (Command name a) = Some args ->
     repair_allow (h ++ [nev (Stat "/proc/1/ns/mnt") r0]) (Command name a) /\
     forall r, Q r ((h ++ [nev (Stat "/proc/1/ns/mnt") r0]) ++ [nev (Command name a) r])) ->
  wp repair_policy h (iscsiadm args) Q.
Proof.
  intros H. unfold iscsiadm. apply wp_bind, wp_host; [by apply look|]. intros [k|e] _;
    (apply wp_host; [by apply H|intros r _; by apply H]).
Qed.

Abbreviation rwp := (wp repair_policy).

(** ** iSCSI sessions *)

Lemma wp_recoverISCSISession h iqn portal :
  stuck_session h iqn portal -> rwp h (recoverISCSISession iqn portal) (fun _ _ => True).
Proof.
  intros Hs. unfold recoverISCSISession.
  apply wp_bind, wp_iscsiadm. intros r0 name a Ha. split; [eapply allow_rescan; [exact Ha|auto with csi]|]. intros r1.
  apply wp_bind, wp_host; [by apply look|]. intros r2 _.
  apply wp_bind, wp_list_sessions. intros r3 name2 a2 [checkOutput checkErr] Ha2.
  destruct (match checkErr with None => Contains checkOutput iscsiSessionStateLoggedIn | Some _ => false end) eqn:Ec;
    [by apply wp_ret|].
  set (h1 := _ ++ [_]).
  assert (rescan_failed h1 /\ stuck_session h1 iqn portal) as [Hr Hs1].
  { split; [|subst h1; auto 8 with csi]. exists name2, a2, checkOutput, checkErr. split; [done|]. subst h1.
    split; [auto with csi|]. intros ->. exact Ec. }
  apply wp_bind, wp_iscsiadm. intros r4 name3 a3 Ha3. split; [apply allow_logout with iqn portal; [exact Ha3|auto with csi..]|]. intros r5.
  apply wp_bind, wp_host; [by apply look|]. intros r6 _.
  apply wp_bind, wp_iscsiadm. intros r7 name4 a4 Ha4. split; [apply allow_login with iqn portal; [exact Ha4|auto 8 with csi..]|].
  intros [output [e|]]; [destruct (_ || _)|]; by apply wp_ret.
Qed.

Lemma wp_recover_device h sysPath : rwp h (recover_device sysPath) (fun _ _ => True).
Proof.
  unfold recover_device. cbv zeta. apply wp_bind, wp_host; [by apply look|]. intros [k|e] _; [|by apply wp_ret].
  eapply wp_call_spec; [apply wp_getISCSISessionState|]. intros [state|e] t Hst; [|by apply wp_ret].
  destruct (String.eqb_spec state iscsiSessionStateLoggedIn) as [|Hl]; [by apply wp_ret|].
  destruct (iscsiSessionRecovering state) eqn:Hr; [by apply wp_ret|].
  eapply wp_call_spec; [apply wp_getISCSISessionInfo|]. intros [iqn portal] t' Hi. simpl in Hi.
  destruct (String.eqb_spec iqn "") as [|Hne]; [by apply wp_ret|].
  apply wp_bind. eapply wp_mono; [|apply wp_recoverISCSISession].
  - intros r h' _. by apply wp_ret.
  - exists sysPath, state. split_and!; auto using session_state_app.
Qed.

Lemma wp_count_recovered (recover : string -> Host bool) l :
  (forall h x, rwp h (recover x) (fun _ _ => True)) -> forall h, rwp h (count_recovered recover l) (fun _ _ => True).
Proof.
  intros H. induction l as [|x l IH]; intros h; [by apply wp_ret|]. cbn [count_recovered].
  eapply wp_call_spec; [apply H|]. intros ok t _. eapply wp_call_spec; [apply IH|]. intros n t' _. by apply wp_ret.
Qed.

(** ** NVMe-oF controllers *)

(** The reads of a file, and whether one of them found the live state. *)
Definition reads_of (path : string) (e : event nsig) : bool :=
  match projT1 e with ReadFile p => String.eqb p path | _ => false end.
Definition state_reads (path : string) (t : nhistory) : nat := length (List.filter (reads_of path) t).
Definition read_live (t : nhistory) (path : string) : Prop :=
  exists data, nev (ReadFile path) (Ok data) ∈ t /\ TrimSpace data = nvmeSubsystemStateLive.

Lemma state_reads_app path t u : state_reads path (t ++ u) = (state_reads path t + state_reads path u)%nat.
Proof. unfold state_reads. by rewrite List.filter_app, length_app. Qed.

Lemma state_reads_one path e : state_reads path [e] = if reads_of path e then 1%nat else 0%nat.
Proof. unfold state_reads. simpl. by destruct (reads_of path e). Qed.

Ltac count_reads :=
  rewrite ?state_reads_app, ?state_reads_one; cbn [reads_of projT1 nev ev]; rewrite ?String.eqb_refl; lia.

(** The polling loop ends: every round takes two seconds of the clock. *)
Lemma wp_poll_controller fuel h statePath deadline f :
  clock_floor h = Some f -> deadline - f <= 2 * second_ns * (Z.of_nat fuel - 1) -> (0 < fuel)%nat ->
  rwp h (poll_controller fuel statePath deadline) (fun r h' => exists t, h' = h ++ t /\
    (state_reads statePath t < fuel)%nat /\ (r = None -> read_live t statePath)).
Proof.
  revert h f. induction fuel as [|fuel IH]; intros h f Hf Hd H0; [lia|]. cbn [poll_controller].
  apply wp_bind, wp_host; [by apply look|]. intros now Hnow. cbn in Hnow. rewrite Hf in Hnow.
  destruct (Z.ltb_spec now deadline) as [Hlt|]; [|apply wp_ret; eexists; split; [done|split; [count_reads|done]]].
  assert (0 < fuel)%nat as Hfuel by (unfold second_ns in *; lia).
  apply wp_bind, wp_host; [by apply look|]. intros [e|] _.
  { apply wp_ret. eexists. rewrite <- app_assoc. split; [done|split; [count_reads|done]]. }
  apply wp_bind, wp_host; [by apply look|]. intros data _.
  destruct (match data with Ok _ => _ | Err _ => _ end) eqn:Elive.
  { apply wp_ret. eexists. rewrite <- !app_assoc. split; [done|]. split.
    - count_reads.
    - intros _. destruct data as [d|]; [|done]. apply String.eqb_eq in Elive. exists d. split; [|done]. right. right. by left. }
  apply wp_bind, wp_host; [by apply look|]. intros r _.
  eapply wp_mono; [|eapply IH; [by rewrite !clock_floor_snoc|unfold second_ns in *; lia|done]].
  intros res h' (t & -> & Hn & Hl). eexists. rewrite <- !app_assoc. split; [done|]. split.
  - count_reads.
  - intros Hr. destruct (Hl Hr) as (d & Hd' & ?). exists d. split; [|done]. do 4 right. exact Hd'.
Qed.

Lemma wp_waitForNVMeControllerRecovery h ctrlPath :
  rwp h (waitForNVMeControllerRecovery ctrlPath) (fun r h' => exists t, h' = h ++ t /\
    (state_reads (ctrlPath +:+ "/state") t < poll_fuel)%nat /\ (r = None -> read_live t (ctrlPath +:+ "/state"))).
Proof.
  apply wp_bind, wp_host; [by apply look|]. intros now _. eapply wp_mono; [|eapply wp_poll_controller].
  - intros r h' (t & -> & Hn & Hl). eexists. rewrite <- app_assoc. split; [done|]. split; [exact Hn|].
    intros Hr. destruct (Hl Hr) as (d & ? & ?). exists d. split; [by right|done].
  - by rewrite clock_floor_snoc.
  - unfold poll_fuel, second_ns. lia.
  - unfold poll_fuel. lia.
Qed.

Lemma wp_recover_controller h ctrlPath : rwp h (recover_controller ctrlPath) (fun _ _ => True).
Proof.
  unfold recover_controller. cbv zeta. apply wp_bind, wp_host; [by apply look|]. intros [transport|e] _; [|by apply wp_ret].
  destruct (String.eqb_spec (TrimSpace transport) "") as [|Ht]; [by apply wp_ret|].
  apply wp_bind, wp_host; [by apply look|]. intros [state|e] _; [|by apply wp_ret].
  destruct (String.eqb_spec (TrimSpace state) nvmeSubsystemStateLive) as [|Hl]; [by apply wp_ret|].
  destruct (nvmeRecovering (TrimSpace state)) eqn:Hr; [by apply wp_ret|].
  set (h1 := _ ++ [_]).
  assert (stuck_controller h1 ctrlPath) as Hs by (exists transport, state; subst h1; split_and!; auto with csi).
  apply wp_bind, wp_host; [by apply allow_reset_sysfs|]. intros writeErr _.
  apply wp_call_spec with (Q := fun _ _ => True).
  { destruct writeErr as [e|]; [|by apply wp_ret]. unfold resetNVMeController.
    apply wp_bind, wp_host; [apply allow_reset_cli; auto with csi|]. intros [output [e'|]] _; by apply wp_ret. }
  intros [e|] t _; [by apply wp_ret|].
  apply wp_bind. eapply wp_mono; [|apply wp_waitForNVMeControllerRecovery]. intros r h' _. by apply wp_ret.
Qed.

Lemma wp_recoverISCSISessions h : rwp h recoverISCSISessions (fun _ _ => True).
Proof.
  apply wp_bind, wp_host; [by apply look|]. intros [l|e] _; [|by apply wp_ret].
  apply wp_count_recovered. intros. apply wp_recover_device.
Qed.

Lemma wp_recoverNVMeOFConnections h : rwp h recoverNVMeOFConnections (fun _ _ => True).
Proof.
  apply wp_bind, wp_host; [by apply look|]. intros [l|e] _; [|by apply wp_ret].
  apply wp_count_recovered. intros. apply wp_recover_controller.
Qed.

(** ** Remounting *)

Lemma wp_remountReadOnlyVolumes h : rwp h remountReadOnlyVolumes (fun _ _ => True).
Proof.
  unfold remountReadOnlyVolumes. apply wp_bind, wp_host; [by apply look|]. intros [output [e|]] _; [by apply wp_ret|].
  set (h1 := _ ++ [_]). apply wp_bind. eapply wp_mono with (Q := fun _ _ => True); [intros; by apply wp_ret|].
  apply (wp_for_range _ (fun _ h' => exists t, h' = h1 ++ t)); [exists []; by rewrite app_nil_r| |done].
  intros done_ line rest h' El (t & ->). unfold remount_line.
  destruct (Contains line stagingPathMarker) eqn:Ec; cbn [negb]; [|apply wp_ret; by eexists].
  destruct (Fields line) as [|source [|target [|options more]]] eqn:Ef; try (apply wp_ret; by eexists).
  destruct (is_read_only options) eqn:Er; cbn [negb]; [|apply wp_ret; by eexists].
  unfold isDeviceAccessible. apply wp_bind, wp_bind, wp_host; [by apply look|]. intros answer _. apply wp_ret.
  destruct (reports_size answer) eqn:Ea; cbn [negb]; [|apply wp_ret; eexists; by rewrite <- app_assoc].
  apply wp_bind, wp_host.
  - apply allow_remount. exists output, line, source, options, more. eexists. exists answer.
    assert (line ∈ lines output) as Hline by (rewrite El; apply elem_of_app; right; by left).
    split_and!; try done. subst h1. auto with csi.
  - intros r _. apply wp_ret. eexists. by rewrite <- !app_assoc.
Qed.

(** ** Lost devices *)

Definition unseen (source : string) (seg : nhistory) : Prop := Forall (fun e => shows_recovering source e = false) seg.

Lemma unseen_app source s t : unseen source s -> unseen source t -> unseen source (s ++ t).
Proof. apply Forall_app_2. Qed.

Lemma unseen_one source e : shows_recovering source e = false -> unseen source [e].
Proof. by repeat constructor. Qed.

#[local] Hint Resolve unseen_app unseen_one : csi.

(** A session state that was answered is the one the events show. *)
Lemma wp_getISCSISessionState_unseen h source :
  rwp h (getISCSISessionState source) (fun r h' => exists seg, h' = h ++ seg /\
    (match r with Ok state => iscsiSessionRecovering state = false | Err _ => True end -> unseen source seg)).
Proof.
  unfold getISCSISessionState. apply wp_bind, wp_host; [by apply look|]. intros [data|e] _.
  - apply wp_ret. eexists. split; [done|]. intros H. apply unseen_one. cbn [shows_recovering nev ev].
    apply orb_false_iff. split; [|done]. apply andb_false_iff. right.
    destruct (String.eqb_spec (TrimSpace data) "running") as [->|]; done.
  - apply wp_bind, wp_list_sessions. intros r0 name args [output err] Ha.
    set (last := nev (Command name args) (output, err)).
    assert (forall r, (err = None -> match session_state_line (lines output) with
                                     | Some st => iscsiSessionRecovering st = false | None => True end) ->
      wp repair_policy (((h ++ [nev (ReadFile ("/sys/block/" +:+ Base source +:+ "/device/state")) (Err e)]) ++
           [nev (Stat "/proc/1/ns/mnt") r0]) ++ [last]) (Ret r) (fun (_ : res string) h' => exists seg, h' = h ++ seg /\ unseen source seg)) as Hret.
    { intros r H. apply wp_ret. eexists. rewrite <- !app_assoc. split; [done|]. repeat constructor. subst last.
      cbn [shows_recovering nev ev snd fst]. destruct err as [ce|]; [done|]. specialize (H eq_refl).
      destruct (session_state_line (lines output)); [rewrite H|]; apply andb_false_r. }
    destruct err as [ce|]; [|destruct (session_state_line (lines output)) as [st|] eqn:El].
    + eapply wp_mono; [|by apply Hret]. intros r h' (seg & ? & ?). by exists seg.
    + apply wp_ret. eexists. rewrite <- !app_assoc. split; [done|]. intros Hst. repeat constructor. subst last.
      cbn [shows_recovering nev ev snd fst]. rewrite El, Hst. apply andb_false_r.
    + eapply wp_mono; [|by apply Hret]. intros r h' (seg & ? & ?). by exists seg.
Qed.

Lemma wp_isISCSIDeviceRecovering h source :
  rwp h (isISCSIDeviceRecovering source) (fun r h' => exists seg, h' = h ++ seg /\ (r = false -> unseen source seg)).
Proof.
  unfold isISCSIDeviceRecovering. apply wp_bind, wp_host; [by apply look|]. intros [k|e] _; swap 1 2.
  { apply wp_ret. eexists. split; [done|]. intros _. by apply unseen_one. }
  apply wp_bind. eapply wp_mono; [|apply wp_getISCSISessionState_unseen].
  intros [state|e] h' (seg & -> & Hs); apply wp_ret; eexists; rewrite <- app_assoc; (split; [done|]); intros E;
    apply unseen_app; try (by apply unseen_one); by apply Hs.
Qed.

Lemma wp_isNVMeDeviceRecovering h source :
  rwp h (isNVMeDeviceRecovering source) (fun r h' => exists seg, h' = h ++ seg /\ (r = false -> unseen source seg)).
Proof.
  unfold isNVMeDeviceRecovering. cbv zeta. destruct (String.eqb (controller_name (Base source)) "").
  { apply wp_ret. exists []. rewrite app_nil_r. split; [done|]. constructor. }
  apply wp_bind, wp_host; [by apply look|]. intros [transport|e] _.
  2: { apply wp_ret. eexists. split; [done|]. intros _. by apply unseen_one. }
  assert (shows_recovering source (nev (ReadFile ("/sys/class/nvme/" +:+ controller_name (Base source) +:+ "/transport")) (Ok transport)) = false) as Ht.
  { cbn [shows_recovering nev ev]. apply orb_false_iff. split; apply andb_false_iff; left; [done|].
    apply String.eqb_neq. intros E. rewrite <- !str_app_assoc in E. apply (f_equal str_len) in E. rewrite !str_app_length in E.
    unfold str_len in E. simpl in E. lia. }
  destruct (String.eqb (TrimSpace transport) "").
  { apply wp_ret. eexists. split; [done|]. intros _. by apply unseen_one. }
  apply wp_bind, wp_host; [by apply look|]. intros [state|e] _; apply wp_ret; eexists; rewrite <- app_assoc;
    (split; [done|]); intros E; apply unseen_app; (apply unseen_one); try done.
  cbn [shows_recovering nev ev]. rewrite E. apply orb_false_iff. split; [done|apply andb_false_r].
Qed.

Lemma wp_isDeviceAccessible h source :
  rwp h (isDeviceAccessible source) (fun r h' => exists answer,
    h' = h ++ [nev (Command "blockdev" ["--getsize64"; source]) answer] /\ r = reports_size answer).
Proof. unfold isDeviceAccessible. apply wp_bind, wp_host; [by apply look|]. intros r _. apply wp_ret. by eexists. Qed.

Lemma blockdev_unseen source answer :
  shows_recovering source (nev (Command "blockdev" ["--getsize64"; source]) answer) = false.
Proof. destruct answer as [output [e|]]; done. Qed.

(** A mount that is not kept is on a lost device. *)
Lemma wp_device_kept h source :
  rwp h (device_kept source) (fun kept h' => exists seg, h' = h ++ seg /\ (kept = false -> device_lost seg source)).
Proof.
  unfold device_kept. apply wp_bind, wp_host; [by apply look|]. intros statErr _.
  apply wp_bind. eapply wp_mono with (Q := fun (accessible : bool) h' => exists seg,
    h' = (h ++ [nev (Stat source) statErr]) ++ seg /\ unseen source seg /\
    (accessible = false -> is_ok statErr = false \/ exists answer,
       nev (Command "blockdev" ["--getsize64"; source]) answer ∈ seg /\ reports_size answer = false)).
  - intros accessible h1 (seg & -> & Hu & Ha). destruct accessible.
    { apply wp_ret. eexists. rewrite <- app_assoc. done. }
    specialize (Ha eq_refl). apply wp_bind. eapply wp_mono; [|apply wp_isISCSIDeviceRecovering].
    intros iscsi h2 (seg2 & -> & Hu2). destruct iscsi.
    { apply wp_ret. eexists. rewrite <- !app_assoc. done. }
    specialize (Hu2 eq_refl). eapply wp_mono; [|apply wp_isNVMeDeviceRecovering].
    intros nvme h3 (seg3 & -> & Hu3). eexists. rewrite <- !app_assoc. split; [done|]. intros ->.
    exists statErr, (seg ++ seg2 ++ seg3). split; [done|]. split; [|apply unseen_app; [done|apply unseen_app; auto]].
    destruct Ha as [?|(answer & ? & ?)]; [by left|]. right. exists answer. split; [|done]. apply elem_of_app. by left.
  - destruct statErr as [k|e]; swap 1 2.
    + apply wp_ret. exists []. rewrite app_nil_r. split; [done|]. split; [constructor|]. intros _. by left.
    + eapply wp_mono; [|apply wp_isDeviceAccessible]. intros r h' (answer & -> & ->). eexists. split; [done|].
      split; [apply unseen_one, blockdev_unseen|]. intros E. right. exists answer. split; [by left|done].
Qed.

(** ** From repairs to the whole pass *)

Definition umounts (o : nop) : bool :=
  match o with Command name _ => String.eqb name "umount" | _ => false end.
Definition is_umount (e : event nsig) : bool := umounts (projT1 e).

Lemma iscsiadm_not_umount name args a : iscsiadm_args (Command name args) = Some a -> umounts (Command name args) = false.
Proof. intros H. unfold umounts. by destruct (String.eqb_spec name "umount") as [->|]. Qed.

Lemma repair_not_umount h o : repair_allow h o -> umounts o = false.
Proof.
  intros H. destruct H as [o Hl|name args iqn portal Ha|name args iqn portal Ha|name args iqn portal Ha|c|c|tg];
    try done; try by eapply iscsiadm_not_umount.
  destruct o; try done. unfold umounts. by destruct (String.eqb_spec name "umount") as [->|].
Qed.

(** A repair as a step of the whole pass: it unmounts nothing. *)
Lemma wp_repair {A : Type} recent h (p : Host A) Q :
  rwp h p Q -> wp (health_policy recent) h p (fun a h' => Q a h' /\ exists t, h' = h ++ t /\
    Forall (fun e => is_umount e = false) t).
Proof.
  intros H. apply wp_trace in H. eapply wp_weaken with (P' := health_policy recent) in H; [|by constructor|done|done].
  eapply wp_mono; [|exact H]. intros a h' (HQ & t & -> & Ht). split; [done|]. exists t. split; [done|].
  eapply Forall_impl; [exact Ht|]. intros e (h1 & He). by eapply repair_not_umount.
Qed.

(** What the loop over the mounts maintains: a target that was unmounted is in
    the map, and one that is not in the map is past the cooldown. *)
Definition unmounts_tracked (recent m : gmap string Z) (now : Z) (h : nhistory) : Prop :=
  forall target, m !! target = None ->
    (forall ts, recent !! target = Some ts -> unmountCooldown < now - ts) /\
    (forall r, nev (Command "umount" ["-l"; target]) r ∉ h).

Lemma unmounts_tracked_app recent m now h t :
  unmounts_tracked recent m now h -> Forall (fun e => is_umount e = false) t -> unmounts_tracked recent m now (h ++ t).
Proof.
  intros H Ht target Hm. destruct (H target Hm) as [Hr Hu]. split; [exact Hr|]. intros r Hin.
  apply elem_of_app in Hin as [Hin|Hin]; [by eapply Hu|].
  rewrite Forall_forall in Ht. by specialize (Ht _ Hin).
Qed.

Lemma unmounts_tracked_umount recent m now h target r :
  unmounts_tracked recent m now h ->
  unmounts_tracked recent (<[target := now]> m) now (h ++ [nev (Command "umount" ["-l"; target]) r]).
Proof.
  intros H target' Hm. apply lookup_insert_None in Hm as [Hm Hne]. destruct (H target' Hm) as [Hr Hu].
  split; [exact Hr|]. intros r' Hin. apply elem_of_app in Hin as [Hin|Hin]; [by eapply Hu|].
  apply list_elem_of_singleton in Hin. apply (f_equal (@projT1 _ _)) in Hin. simpl in Hin. congruence.
Qed.

Lemma unmounts_tracked_start recent now h :
  Forall (fun e => is_umount e = false) h ->
  unmounts_tracked recent (filter (fun kv => now - kv.2 <= unmountCooldown) recent) now h.
Proof.
  intros H target Hm. split.
  - intros ts Hts. apply map_lookup_filter_None in Hm as [Hm|Hm]; [congruence|].
    specialize (Hm ts Hts). simpl in Hm. lia.
  - intros r Hin. rewrite Forall_forall in H. by specialize (H _ Hin).
Qed.

(** Every unmount is in the map with the time of this pass. *)
Definition unmounts_recorded (m : gmap string Z) (now : Z) (h : nhistory) : Prop :=
  forall target r, nev (Command "umount" ["-l"; target]) r ∈ h -> m !! target = Some now.

Lemma unmounts_recorded_app m now h t :
  unmounts_recorded m now h -> Forall (fun e => is_umount e = false) t -> unmounts_recorded m now (h ++ t).
Proof.
  intros H Ht target r Hin. apply elem_of_app in Hin as [Hin|Hin]; [by eapply H|].
  rewrite Forall_forall in Ht. by specialize (Ht _ Hin).
Qed.

Lemma unmounts_recorded_umount m now h target r :
  unmounts_recorded m now h ->
  unmounts_recorded (<[target := now]> m) now (h ++ [nev (Command "umount" ["-l"; target]) r]).
Proof.
  intros H target' r' Hin. destruct (decide (target = target')) as [->|Hne]; [by rewrite lookup_insert_eq|].
  rewrite lookup_insert_ne by done. apply elem_of_app in Hin as [Hin|Hin]; [by eapply H|].
  apply list_elem_of_singleton in Hin. apply (f_equal (@projT1 _ _)) in Hin. simpl in Hin. congruence.
Qed.

Lemma wp_unmount_lines recent output now l m h :
  nev (Command "findmnt" ["-n"; "-o"; "SOURCE,TARGET"; "-t"; "ext4,xfs"; "--raw"]) (output, None) ∈ h ->
  nev Now now ∈ h -> (forall line, line ∈ l -> line ∈ lines output) ->
  unmounts_tracked recent m now h -> unmounts_recorded m now h ->
  wp (health_policy recent) h (unmount_lines l now m) (fun m' h' => nev Now now ∈ h' /\ unmounts_recorded m' now h').
Proof.
  revert m h. induction l as [|line rest IH]; intros m h Hf Hn Hl Ht Hr; [by apply wp_ret|].
  assert (forall line, line ∈ rest -> line ∈ lines output) as Hrest by (intros; apply Hl; by right).
  cbn [unmount_lines]. destruct (Contains line stagingPathMarker) eqn:Hmark; cbn [negb]; [|by apply IH].
  destruct (Fields line) as [|source [|target fields]] eqn:Hfields; [by apply IH..|].
  destruct (m !! target) eqn:Hm; [by apply IH|].
  apply wp_bind. eapply wp_mono; [|apply wp_repair, wp_device_kept].
  intros kept h' ((seg & -> & Hlost) & t & Heq & Hnone). apply app_inv_head in Heq as <-.
  pose proof (unmounts_tracked_app _ _ _ _ seg Ht Hnone) as Ht'.
  pose proof (unmounts_recorded_app _ _ _ seg Hr Hnone) as Hr'.
  destruct kept; [apply IH; auto with csi|]. apply wp_bind, wp_host.
  - apply allow_umount. destruct (Ht' target Hm) as [Hrec Hu].
    exists output, line, source, fields, now, h, seg. split_and!; auto with csi. apply Hl. by left.
  - intros r _. apply IH; [auto 6 with csi|auto 6 with csi|exact Hrest|by apply unmounts_tracked_umount|by apply unmounts_recorded_umount].
Qed.

Lemma wp_runHealthCheck recent :
  wp (health_policy recent) [] (runHealthCheck recent) (fun m h =>
    forall target r, nev (Command "umount" ["-l"; target]) r ∈ h -> exists now, nev Now now ∈ h /\ m !! target = Some now).
Proof.
  unfold runHealthCheck.
  apply wp_bind. eapply wp_mono; [|apply wp_repair, wp_recoverISCSISessions]. intros n1 h1 (_ & t1 & -> & H1).
  apply wp_bind. eapply wp_mono; [|apply wp_repair, wp_recoverNVMeOFConnections]. intros n2 h2 (_ & t2 & -> & H2).
  apply wp_bind. eapply wp_mono; [|apply wp_repair, wp_remountReadOnlyVolumes]. intros [] h3 (_ & t3 & -> & H3).
  unfold unmountBrokenStagingPaths. apply wp_bind, wp_host; [by constructor; apply look|]. intros [output err] _.
  assert (Forall (fun e => is_umount e = false) (((([] ++ t1) ++ t2) ++ t3) ++
    [nev (Command "findmnt" ["-n"; "-o"; "SOURCE,TARGET"; "-t"; "ext4,xfs"; "--raw"]) (output, err)])) as Hnone
    by (rewrite !Forall_app; split_and!; auto).
  destruct err as [e|].
  { apply wp_ret. intros target r Hin. rewrite Forall_forall in Hnone. by specialize (Hnone _ Hin). }
  apply wp_bind, wp_host; [by constructor; apply look|]. intros now _.
  assert (Forall (fun e => is_umount e = false) ((((([] ++ t1) ++ t2) ++ t3) ++
    [nev (Command "findmnt" ["-n"; "-o"; "SOURCE,TARGET"; "-t"; "ext4,xfs"; "--raw"]) (output, None)]) ++ [nev Now now])) as Hnone'
    by (apply Forall_app_2; [exact Hnone|by constructor]).
  eapply wp_mono; [|apply (wp_unmount_lines _ output); [auto with csi|auto with csi|done|by apply unmounts_tracked_start|]].
  - intros m h (Hnow & Hrec) target r Hin. eauto.
  - intros target r Hin. rewrite Forall_forall in Hnone'. by specialize (Hnone' _ Hin).
Qed.

(** ** The pass *)


(** C29: the wait for a controller ends. Where the clock does not run back and a pause of
    two seconds takes two seconds, [waitForNVMeControllerRecovery] returns after at most
    fifteen looks at the controller, and without an error only if a look found it live. *)
Theorem wait_terminates ctrlPath tr out :
  exec (waitForNVMeControllerRecovery ctrlPath) tr out -> sane_host tr ->
  exists r, out = Done r /\ (state_reads (ctrlPath +:+ "/state") tr <= 15)%nat /\
    (r = None -> read_live tr (ctrlPath +:+ "/state")).
Proof.
  intros He Hc. pose proof (wp_sound_post _ _ _ _ _ _ (wp_waitForNVMeControllerRecovery [] ctrlPath) He
    (sane_host_trace repair_policy tr eq_refl Hc)) as H.
  destruct out as [r|]; [|done]. destruct H as (t & E & Hn & Hl). apply (app_inv_head [] tr t) in E as <-. exists r.
  unfold poll_fuel in Hn. split; [done|]. split; [lia|done].
Qed.

(** A node whose device sdb is gone while a file system is staged on it; its
    clock advances only in pauses. *)
Definition lost_line : string := "/dev/sdb /var/lib/kubelet/plugins/kubernetes.io/csi/nasty.csi.io/v1/globalmount".
Definition lost_node (o : nop) : option (nans o) :=
  match o return option (nans o) with
  | Glob _ => Some (Ok [])
  | Command name args =>
      if String.eqb name "findmnt" then Some (if bool_decide ("SOURCE,TARGET" ∈ args) then lost_line else "", None) else Some ("", None)
  | _ => None
  end.

(** A controller that is live after two looks, by the length of the clock. *)
Definition reset_node (o : nop) (clock : Z) : nans o * Z :=
  match o return nans o * Z with
  | ReadFile p => (Ok (if clock <? 4 * second_ns then "resetting" else "live"), clock)
  | o => fake_host (fun _ => None) o clock
  end.


Lemma wait_terminates_witness :
  let r := run_host reset_node (waitForNVMeControllerRecovery "/sys/class/nvme/nvme0") in
  exists res, r.1.1 = Done res /\ (state_reads "/sys/class/nvme/nvme0/state" r.2 <= 15)%nat /\
    (res = None -> read_live r.2 "/sys/class/nvme/nvme0/state").
Proof.
  intros r. apply (wait_terminates "/sys/class/nvme/nvme0"); [apply run_host_exec|]. vm_compute. repeat split; discriminate.
Defined.
