(* ===== verification/StagingTheorems.v ===== *)
(** * Safety of staging

    What every execution of [NodeService.NodeStageVolume] may do to the node,
    whatever the host answers: which devices are mounted, checked or linked, and
    when a session is torn down. *)

From S2P Require Import Prelude GoStrings Prog Errors Api Metadata Retry NodeHost MountInfo NodeRecovery NodeSysfs NodeFiles NodeDevice NodeNvme NodeIscsi NodeHealth NodeService NodeQuiet NodeEvidence NodeRpc.

#[local] Set Default Proof Using "Type*".

(** ** The request *)

Section Request.
Context (s : NodeService) (req : NodeStageVolumeRequest).
Abbreviation staging := (st_StagingTargetPath req).
Abbreviation cap := (st_VolumeCapability req).
Abbreviation volumeContext := (st_VolumeContext req).
Abbreviation protocol := (getProtocolFromVolumeContext (st_VolumeContext req)).

(** The device belongs to the subsystem or target of the volume. *)
Inductive own_device (h : nhistory) (device : string) : Prop :=
| own_namespace : protocol = ProtocolNVMeOF -> namespace_of h volumeContext.["nqn"] device -> own_device h device
| own_disk : protocol = ProtocolISCSI -> disk_of h volumeContext.[VolumeContextKeyISCSIIQN] device -> own_device h device.

(** The capacity that the volume is known to have: that of its context, or else
    what the backend answers for its subvolume; 0 where the context gives none
    and the backend cannot be asked, or was asked and gave none. *)
Inductive expected_capacity (h : nhistory) : Z -> Prop :=
| expected_by_context e : ParseInt volumeContext.["expectedCapacity"] = Some e -> expected_capacity h e
| expected_by_backend filesystem name sv v :
    ParseInt volumeContext.["expectedCapacity"] = None ->
    split_dataset volumeContext.["datasetName"] = Some (filesystem, name) ->
    nev (NodeGetSubvolume filesystem name) (Some sv, None) ∈ h -> sv_VolsizeBytes sv = Some v -> expected_capacity h (to_int64 v)
| expected_unasked :
    ParseInt volumeContext.["expectedCapacity"] = None ->
    has_client s = false \/ split_dataset volumeContext.["datasetName"] = None -> expected_capacity h 0
| expected_unanswered filesystem name answer :
    ParseInt volumeContext.["expectedCapacity"] = None ->
    split_dataset volumeContext.["datasetName"] = Some (filesystem, name) ->
    nev (NodeGetSubvolume filesystem name) answer ∈ h ->
    (forall sv, answer = (Some sv, None) -> sv_VolsizeBytes sv = None) -> expected_capacity h 0.

(** The device reported a size that fits the volume. *)
Definition sized (h : nhistory) (device : string) : Prop :=
  exists output size e, nev (Command "blockdev" ["--getsize64"; device]) (output, None) ∈ h /\
    ParseInt (TrimSpace output) = Some size /\ expected_capacity h e /\ (e = 0 \/ verifySizeMatch size e = None).

(** blkid read the wanted file system from the device itself. *)
Definition typed (h : nhistory) (device : string) : Prop :=
  exists output, nev (Command "blkid" ["-p"; "-s"; "TYPE"; "-o"; "value"; device]) (output, None) ∈ h /\
    TrimSpace output = wanted_type cap.

(** The file system check found the file system clean or repaired it. *)
Definition fsck_passed (h : nhistory) (device : string) : Prop :=
  exists output err, nev (Command "e2fsck" ["-p"; "-f"; device]) (output, err) ∈ h /\
    match err with None => True | Some e => exit_code e = Some 1 end.

(** What precedes a repair, and a mount. *)
Definition verified (h : nhistory) (device : string) : Prop :=
  own_device h device /\ sized h device /\ unmounted h staging /\ typed h device.

Definition mountable (h : nhistory) (device : string) : Prop :=
  verified h device /\ (is_ext (wanted_type cap) = true -> source_unmounted h device /\ fsck_passed h device).

(** Neither a symbolic link nor a mount is at the staging path. *)
Definition unstaged (h : nhistory) : Prop :=
  (nev (Lstat staging) (Ok false) ∈ h \/ exists e, nev (Lstat staging) (Err e) ∈ h /\ IsNotExist e = true) /\ unmounted h staging.

(** This call connected to the subsystem. *)
Definition connected (h : nhistory) (p : nvmeOFConnectionParams) : Prop :=
  exists output err, nev (Command "nvme" (connect_args p)) (output, err) ∈ h /\
    (err = None \/ Contains output "already connected" = true).

(** The options of NVMe-oF are those of iSCSI. *)
Definition block_mount_args (device : string) : list string :=
  let options := getNVMeOFMountOptions (user_flags cap) in
  match options with
  | [] => [device; staging]
  | _ => ["-o"; JoinMountOptions options; device; staging]
  end.

(** The records of the target, and the login. *)
Definition iscsi_setup (p : iscsiConnectionParams) (args : list string) : Prop :=
  args = ["-m"; "node"; "--op"; "new"; "-T"; ip_iqn p; "-p"; portal_of p] \/
  args = ["-m"; "node"; "-T"; ip_iqn p; "-p"; portal_of p; "--op"; "update"; "-n"; "node.session.auth.authmethod"; "-v"; "None"] \/
  args = ["-m"; "node"; "-T"; ip_iqn p; "-p"; portal_of p; "--login"] \/
  exists dp, dp <> portal_of p /\ args = ["-m"; "node"; "-T"; ip_iqn p; "-p"; dp; "--op"; "delete"].

Definition iscsi_teardown (iqn : string) (args : list string) : Prop :=
  args = ["-m"; "node"; "-T"; iqn; "--logout"] \/ args = ["-m"; "node"; "-T"; iqn; "-o"; "delete"] \/
  args = ["-m"; "node"; "-T"; iqn; "--op"; "update"; "-n"; "node.session.timeo.replacement_timeout"; "-v"; "0"].

(** How an SMB mount authenticates: not at all, as a guest, or with a credentials
    file of this call. *)
Inductive smb_auth (h : nhistory) : list string -> Prop :=
| smb_kerberos : smb_auth h []
| smb_guest : smb_auth h ["guest"]
| smb_file path : nev (CreateTemp "smb-credentials-*") (Ok path) ∈ h -> smb_auth h ["credentials=" +:+ path].

(** ** What staging may do after a history *)

Inductive stage_allow (h : nhistory) : nop -> Prop :=
| stage_quiet o : quiet_op o = true -> stage_allow h o
| stage_nfs_mount :
    protocol = ProtocolNFS -> unmounted h staging ->
    stage_allow h (Command "mount" ["-t"; ProtocolNFS; "-o"; JoinMountOptions (getNFSMountOptions (user_flags cap));
                                    volumeContext.["server"] +:+ ":" +:+ volumeContext.["share"]; staging])
| stage_smb_mount auth :
    protocol = ProtocolSMB -> unmounted h staging -> smb_auth h auth ->
    stage_allow h (Command "mount" ["-t"; fsTypeCIFS; "-o"; JoinMountOptions (getSMBMountOptions (user_flags cap) ++ auth);
                                    "//" +:+ volumeContext.["server"] +:+ "/" +:+ volumeContext.["share"]; staging])
| stage_credentials : protocol = ProtocolSMB -> stage_allow h (CreateTemp "smb-credentials-*")
| stage_credentials_file path o :
    nev (CreateTemp "smb-credentials-*") (Ok path) ∈ h -> o = Chmod path 384 \/ o = CloseFile path \/ o = Remove path -> stage_allow h o
| stage_credentials_text path line :
    nev (CreateTemp "smb-credentials-*") (Ok path) ∈ h -> nev (Chmod path 384) None ∈ h ->
    line ∈ credential_lines (st_Secrets req) -> stage_allow h (WriteString path line)
| stage_connect p :
    protocol = ProtocolNVMeOF -> validateNVMeOFParams volumeContext = Ok p -> stage_allow h (Command "nvme" (connect_args p))
| stage_disconnect p :
    protocol = ProtocolNVMeOF -> validateNVMeOFParams volumeContext = Ok p -> unstaged h \/ connected h p ->
    stage_allow h (Command "nvme" ["disconnect"; "-n"; np_nqn p])
| stage_iscsi name args a p :
    protocol = ProtocolISCSI -> validateISCSIParams volumeContext = Ok p -> unstaged h ->
    iscsiadm_args (Command name args) = Some a -> iscsi_setup p a \/ iscsi_teardown (ip_iqn p) a ->
    stage_allow h (Command name args)
| stage_fsck device :
    verified h device -> is_ext (wanted_type cap) = true -> source_unmounted h device -> is_block cap = false ->
    stage_allow h (Command "e2fsck" ["-p"; "-f"; device])
| stage_mount device :
    mountable h device -> is_block cap = false -> stage_allow h (Command "mount" (block_mount_args device))
| stage_link device :
    own_device h device -> is_block cap = true -> stage_allow h (Symlink device staging)
| stage_unlink device k r :
    own_device h device -> is_block cap = true -> nev (Stat staging) (Ok k) ∈ h ->
    nev (EvalSymlinks staging) r ∈ h -> r <> Ok device -> stage_allow h (Remove staging).

Definition stage_policy : policy nsig := {| allow h o := stage_allow h o; env := host_env; crash := False |}.

#[export] Instance stage_quiet_policy : QuietPolicy stage_policy.
Proof. split; [apply stage_quiet|done]. Qed.
End Request.

#[export] Existing Instance stage_quiet_policy.

(** ** Evidence stays *)

Section Monotone.
Context {s : NodeService} {req : NodeStageVolumeRequest}.

Lemma own_device_app h t d : own_device req h d -> own_device req (h ++ t) d.
Proof. intros [E H|E H]; [apply own_namespace|apply own_disk]; auto with csi. Qed.

Lemma expected_capacity_app h t e : expected_capacity s req h e -> expected_capacity s req (h ++ t) e.
Proof.
  intros [e' H|fs name sv v E1 E2 H E3|H1 H2|fs name a E1 E2 H E3];
    [by apply expected_by_context|eapply expected_by_backend|by apply expected_unasked|eapply expected_unanswered]; eauto with csi.
Qed.
#[local] Hint Resolve own_device_app expected_capacity_app : csi.

Lemma sized_app h t d : sized s req h d -> sized s req (h ++ t) d.
Proof. intros (output & size & e & ? & ? & ? & ?). exists output, size, e. auto with csi. Qed.

Lemma typed_app h t d : typed req h d -> typed req (h ++ t) d.
Proof. intros (output & ? & ?). exists output. auto with csi. Qed.

Lemma fsck_passed_app h t d : fsck_passed h d -> fsck_passed (h ++ t) d.
Proof. intros (output & err & ? & ?). exists output, err. auto with csi. Qed.
#[local] Hint Resolve sized_app typed_app fsck_passed_app : csi.

Lemma verified_app h t d : verified s req h d -> verified s req (h ++ t) d.
Proof. intros (? & ? & ? & ?). split_and!; auto with csi. Qed.

Lemma smb_auth_app h t auth : smb_auth h auth -> smb_auth (h ++ t) auth.
Proof. intros [| |path ?]; [apply smb_kerberos|apply smb_guest|apply smb_file; auto with csi]. Qed.

Lemma unstaged_app h t : unstaged req h -> unstaged req (h ++ t).
Proof. intros [[?|(e & ? & ?)] ?]; (split; [|auto with csi]); [left|right; exists e]; auto with csi. Qed.

Lemma connected_app h t p : connected h p -> connected (h ++ t) p.
Proof. intros (output & err & ? & ?). exists output, err. auto with csi. Qed.
End Monotone.

#[export] Hint Resolve own_device_app expected_capacity_app sized_app typed_app fsck_passed_app verified_app smb_auth_app unstaged_app
  connected_app : csi.

(** ** The steps *)

Section Steps.
Context {s : NodeService} {req : NodeStageVolumeRequest}.
Abbreviation staging := (st_StagingTargetPath req).
Abbreviation cap := (st_VolumeCapability req).
Abbreviation volumeContext := (st_VolumeContext req).
Abbreviation swp := (wp (stage_policy s req)).
Abbreviation any := (fun _ _ => True).

Lemma swp_unless_mounted h failure k :
  (forall t, unmounted (h ++ t) staging -> swp (h ++ t) k any) -> swp h (unless_mounted staging failure k) any.
Proof.
  intros Hk. eapply wp_call_spec; [apply wp_IsMounted|]. intros [[|]|e] t Hm; [by apply wp_ret|by apply Hk, Hm|by apply wp_ret].
Qed.

Lemma swp_mount h args failure :
  stage_allow s req h (Command "mount" args) -> swp h (mount_command args failure) any.
Proof. intros Ha. apply wp_bind, wp_host; [exact Ha|]. intros [output [e|]] _; by apply wp_ret. Qed.

Lemma quiet_create_missing what path : quiet (create_missing what path).
Proof. unfold create_missing. quiet_auto. Qed.

(** *** Shares *)

Lemma swp_stageNFSVolume h :
  getProtocolFromVolumeContext volumeContext = ProtocolNFS -> swp h (stageNFSVolume s req volumeContext) any.
Proof.
  intros Hp. unfold stageNFSVolume. cbv zeta. destruct (_ || _); [by apply wp_ret|].
  apply wp_quiet; [apply quiet_create_missing|]. intros [e|] t; [by apply wp_ret|].
  destruct (testMode s); [by apply wp_ret|]. apply swp_unless_mounted. intros t' Hu. apply swp_mount. by apply stage_nfs_mount.
Qed.

Lemma swp_file {B : Type} h path (o : nop) (f : nans o -> Host B) Q :
  nev (CreateTemp "smb-credentials-*") (Ok path) ∈ h -> o = Chmod path 384 \/ o = CloseFile path \/ o = Remove path ->
  (forall r, swp (h ++ [nev o r]) (f r) Q) -> swp h (bind (host o) f) Q.
Proof. intros Hc Ho Hf. apply wp_bind, wp_host; [by eapply stage_credentials_file|]. intros r _. apply Hf. Qed.

Lemma swp_writeSMBCredentialsFile h :
  getProtocolFromVolumeContext volumeContext = ProtocolSMB ->
  swp h (writeSMBCredentialsFile (st_Secrets req)) (fun r h' => forall path, r = Ok path -> nev (CreateTemp "smb-credentials-*") (Ok path) ∈ h').
Proof.
  intros Hp. unfold writeSMBCredentialsFile. destruct (String.eqb _ ""); [by apply wp_ret|].
  apply wp_bind, wp_host; [by apply stage_credentials|]. intros [path|e] _; [|by apply wp_ret]. cbv zeta.
  set (h1 := h ++ [_]). assert (nev (CreateTemp "smb-credentials-*") (Ok path) ∈ h1) as Hc by (subst h1; auto with csi). clearbody h1.
  assert (forall h2 e, nev (CreateTemp "smb-credentials-*") (Ok path) ∈ h2 ->
    swp h2 (host (CloseFile path) ;;; host (Remove path) ;;; Ret (Err e : res string))
      (fun r h' => forall path, r = Ok path -> nev (CreateTemp "smb-credentials-*") (Ok path) ∈ h')) as Hclean.
  { intros h2 e H2. apply (swp_file _ path); [exact H2|auto|]. intros r1.
    apply (swp_file _ path); [auto with csi|auto|]. intros r2. by apply wp_ret. }
  apply (swp_file _ path); [exact Hc|auto|]. intros [e|]; [apply Hclean; auto with csi|].
  set (h2 := h1 ++ [_]). assert (nev (Chmod path 384) None ∈ h2) as Hm by (subst h2; auto with csi).
  assert (nev (CreateTemp "smb-credentials-*") (Ok path) ∈ h2) as Hc2 by (subst h2; auto with csi). clearbody h2.
  apply wp_bind. apply (wp_for_range _ (fun _ h' => exists t, h' = h2 ++ t)); [exists []; by rewrite app_nil_r| |].
  - intros done_ line rest h' El [t ->]. apply wp_host.
    + eapply stage_credentials_text; [auto with csi..|]. rewrite El. apply elem_of_app. right. by left.
    + intros [e|] _; [apply Hclean; auto with csi|]. eexists. by rewrite <- app_assoc.
  - intros h' [t ->]. apply (swp_file _ path); [auto with csi|auto|]. intros [e|]; [apply Hclean; auto with csi|].
    apply wp_ret. intros p [= <-]. auto with csi.
Qed.

Lemma swp_stageSMBVolume h :
  getProtocolFromVolumeContext volumeContext = ProtocolSMB -> swp h (stageSMBVolume s req volumeContext) any.
Proof.
  intros Hp. unfold stageSMBVolume. cbv zeta. destruct (_ || _); [by apply wp_ret|].
  apply wp_quiet; [apply quiet_create_missing|]. intros [e|] t; [by apply wp_ret|].
  destruct (testMode s); [by apply wp_ret|]. apply swp_unless_mounted. intros t' Hu.
  eapply wp_call_spec with (Q := fun r h' => match r with
    | Ok (options, cred) => exists auth, options = getSMBMountOptions (user_flags cap) ++ auth /\ smb_auth h' auth /\
        match cred with Some path => nev (CreateTemp "smb-credentials-*") (Ok path) ∈ h' | None => True end
    | Err _ => True end).
  { unfold smb_credentials. destruct (_ && _).
    - eapply wp_call_spec; [by apply swp_writeSMBCredentialsFile|]. intros [path|e] t2 Hc; apply wp_ret; [|done].
      eexists. split; [reflexivity|]. split; [by apply smb_file, Hc|by apply Hc].
    - destruct (negb _); apply wp_ret; [exists ["guest"]; auto using smb_guest|exists []; rewrite app_nil_r; auto using smb_kerberos]. }
  intros [[options cred]|e] t2 Hc; [|by apply wp_ret]. destruct Hc as (auth & -> & Ha & Hc).
  eapply wp_call_spec; [apply swp_mount, stage_smb_mount; auto with csi|]. intros r t3 _.
  destruct cred as [path|]; [|by apply wp_ret]. apply (swp_file _ path); [auto with csi|auto|]. intros r2. by apply wp_ret.
Qed.

(** *** Devices *)

Lemma swp_stageBlockDevice h device :
  own_device req h device -> is_block cap = true -> swp h (stageBlockDevice device staging) any.
Proof.
  intros Ho Hb. unfold stageBlockDevice.
  assert (forall h', own_device req h' device -> swp h' (link_device device staging) any) as Hlink.
  { intros h' Ho'. unfold link_device. apply wp_look; [done|]. intros [e|]; [by apply wp_ret|].
    apply wp_bind, wp_host; [apply stage_link; auto with csi|]. intros [e|] _; by apply wp_ret. }
  apply wp_quiet; [auto with quiet|]. intros [e|] t; [by apply wp_ret|].
  unfold stat_err. apply wp_bind, wp_look; [done|]. intros info. apply wp_ret.
  destruct info as [k|e]; [|apply Hlink; auto with csi].
  apply wp_look; [done|]. intros target. destruct (match target with Ok d => _ | Err _ => _ end) eqn:Et; [by apply wp_ret|].
  apply wp_bind, wp_host; [|intros [e|] _; [by apply wp_ret|apply Hlink; auto with csi]].
  eapply (stage_unlink s req _ device k target); auto with csi.
  intros ->. by rewrite String.eqb_refl in Et.
Qed.

Lemma swp_getExpectedCapacity h : swp h (getExpectedCapacity s volumeContext.["datasetName"] volumeContext) (fun e h' => expected_capacity s req h' e).
Proof.
  unfold getExpectedCapacity. destruct (ParseInt volumeContext.["expectedCapacity"]) as [e|] eqn:Ee;
    [by apply wp_ret, expected_by_context|].
  destruct (String.eqb_spec volumeContext.["datasetName"] "") as [En|En]; cbn [orb].
  { apply wp_ret, expected_unasked; [done|]. right. by rewrite En. }
  destruct (has_client s) eqn:Hc; cbn [negb]; [|apply wp_ret, expected_unasked; auto].
  destruct (split_dataset _) as [[fs name]|] eqn:Es; [|apply wp_ret, expected_unasked; auto].
  apply wp_look; [done|]. intros [osv [e|]].
  - apply wp_ret. eapply expected_unanswered; eauto with csi. done.
  - destruct osv as [sv|]; [|apply wp_ret; eapply expected_unanswered; eauto with csi; done].
    apply wp_ret. destruct (sv_VolsizeBytes sv) as [v|] eqn:Ev; [by eapply expected_by_backend; eauto with csi|].
    eapply expected_unanswered; eauto with csi. by intros ? [= <-].
Qed.

Lemma swp_verifyDeviceSize h device :
  swp h (verifyDeviceSize s device volumeContext) (fun r h' => r = None -> sized s req h' device).
Proof.
  unfold verifyDeviceSize. cbv zeta. eapply wp_call_spec with (Q := fun r h' => forall size, r = Ok size ->
    exists output, nev (Command "blockdev" ["--getsize64"; device]) (output, None) ∈ h' /\ ParseInt (TrimSpace output) = Some size).
  { unfold getBlockDeviceSize. apply wp_look; [done|]. intros [output [e|]]; [by apply wp_ret|].
    destruct (ParseInt (TrimSpace output)) as [size|] eqn:Es; apply wp_ret; [|done]. intros size' [= <-]. exists output. auto with csi. }
  intros [size|e] t Hs; swap 1 2.
  { apply wp_quiet; [auto with quiet|]. intros [e'|] t'; by apply wp_ret. }
  destruct (Hs size eq_refl) as (output & Ho & Hp). eapply wp_call_spec; [apply swp_getExpectedCapacity|]. intros e t' He.
  apply wp_ret. intros Hr. exists output, size, e. split_and!; auto with csi. destruct (Z.eqb_spec e 0); auto.
Qed.

Lemma swp_probe_loop n attempt device lastFailure noSignature h :
  (n = O -> lastFailure <> "") ->
  swp h (probe_loop n attempt device (wanted_type cap) lastFailure noSignature)
    (fun r h' => forall b, r = Ok ("", b) -> typed req h' device).
Proof.
  revert attempt lastFailure noSignature h. induction n as [|n IH]; intros attempt lastFailure noSignature h Hn; cbn [probe_loop].
  { apply wp_ret. intros b [= E]. by destruct (Hn eq_refl). }
  apply wp_look; [done|]. intros [output err]. set (h1 := h ++ [_]).
  assert (err = None -> TrimSpace output = wanted_type cap -> forall t, typed req (h1 ++ t) device) as Htyped.
  { intros -> E t. exists output. subst h1. auto with csi. }
  clearbody h1. apply wp_bind, wp_host; [by apply stage_quiet|]. intros probeErr Hprobe.
  apply wp_look; [done|]. intros [e|]; [by apply wp_ret|]. rewrite <- app_assoc. cbv zeta.
  destruct (match probeErr, err with None, None => _ | _, _ => _ end) eqn:Eclean.
  - destruct (String.eqb_spec (TrimSpace output) (wanted_type cap)) as [Et|]; cbn [negb]; apply wp_ret; [|done].
    intros b _. apply Htyped; [|done]. by destruct probeErr, err.
  - match goal with |- context [let '(_, _) := ?x in _] => assert (x.1 <> "") as Hne; [|destruct x as [lf ns]] end.
    { destruct probeErr as [e|]; [|destruct err as [e|]; simpl; [|done]].
      - cbn. destruct Hprobe as [-> | ->]; done.
      - intros E. apply (f_equal str_len) in E. rewrite !str_app_length in E. unfold str_len in E. simpl in E. lia. }
    cbn [fst] in Hne. destruct n as [|n']; [by apply IH|].
    apply wp_look; [done|]. intros [e|]; [by apply wp_ret|]. by apply IH.
Qed.

Lemma swp_prepareFilesystemForMount h device :
  own_device req h device -> sized s req h device -> unmounted h staging -> is_block cap = false ->
  swp h (prepareFilesystemForMount device (wanted_type cap)) (fun r h' => r = None -> mountable s req h' device).
Proof.
  intros Ho Hs Hu Hb. unfold prepareFilesystemForMount. eapply wp_call_spec; [by apply swp_probe_loop|].
  intros [[lastFailure noSignature]|e] t Ht; [|by apply wp_ret].
  destruct (String.eqb_spec lastFailure "") as [->|]; cbn [negb]; [|by apply wp_ret].
  assert (verified s req (h ++ t) device) as Hv by (split_and!; [auto with csi..|by eapply Ht]).
  clear Ho Hs Hu Ht. revert Hv. generalize (h ++ t). clear h t. intros h Hv.
  eapply wp_call_spec with (Q := fun r h' => r = None -> is_ext (wanted_type cap) = true -> source_unmounted h' device).
  { unfold check_not_mounted. destruct (is_ext (wanted_type cap)); cbn [negb]; [|by apply wp_ret].
    eapply wp_call_spec; [apply wp_IsSourceMounted|]. intros [[|]|e] t Hm; apply wp_ret; try done. intros _ _. by apply Hm. }
  intros [e|] t Hm; [by apply wp_ret|]. specialize (Hm eq_refl). unfold repairFilesystem.
  destruct (is_ext (wanted_type cap)) eqn:Ee; cbn [negb].
  2: { apply wp_bind, wp_ret, wp_ret. intros _. split; [auto with csi|by rewrite Ee]. }
  specialize (Hm eq_refl). apply wp_bind, wp_look; [done|]. intros [e|]; [by apply wp_ret, wp_ret|].
  apply wp_bind, wp_host; [apply stage_fsck; auto with csi|]. intros [output err] _. apply wp_ret, wp_ret. intros Hr.
  split; [auto with csi|]. intros _. split; [auto with csi|]. exists output, err. split; [auto with csi|].
  destruct err as [e|]; [|done]. destruct (decide (exit_code e = Some 1)) as [|Hne]; [done|]. by rewrite bool_decide_false in Hr.
Qed.

Lemma swp_verify_and_mount h mismatch device :
  own_device req h device -> is_block cap = false ->
  swp h (verify_and_mount s getNVMeOFMountOptions mismatch device staging cap volumeContext) any.
Proof.
  intros Ho Hb. unfold verify_and_mount. apply wp_quiet; [auto with quiet|]. intros _ t.
  eapply wp_call_spec; [apply swp_verifyDeviceSize|]. intros [e|] t1 Hs; [by apply wp_ret|]. specialize (Hs eq_refl).
  apply wp_look; [done|]. intros [e|]; [by apply wp_ret|]. apply swp_unless_mounted. intros t2 Hu.
  eapply wp_call_spec; [apply swp_prepareFilesystemForMount; auto 6 with csi|]. intros [e|] t3 Hm; [by apply wp_ret|].
  apply swp_mount. apply (stage_mount _ _ _ device); [by apply Hm|done].
Qed.
Lemma swp_refuseTeardown h : swp h (refuseTeardownWhileStaged staging) (fun r h' => r = None -> unstaged req h').
Proof.
  unfold refuseTeardownWhileStaged. apply wp_look; [done|]. intros info. cbv zeta.
  destruct (match info with Ok _ => _ | Err _ => _ end) as [e|] eqn:Ei; [by apply wp_ret|].
  eapply wp_call_spec; [apply wp_IsMounted|]. intros r t Hu. apply wp_ret. destruct r as [[|]|e]; try done. intros _.
  split; [|by apply Hu]. destruct info as [[|]|e]; [done|left; auto with csi|].
  right. exists e. split; [auto with csi|]. by destruct (IsNotExist e).
Qed.

Lemma swp_teardown_then h kill k :
  (forall h', unstaged req h' -> swp h' kill any) -> (forall h', unstaged req h' -> swp h' k any) ->
  swp h (teardown_then staging kill k) any.
Proof.
  intros Hkill Hk. unfold teardown_then. eapply wp_call_spec; [apply swp_refuseTeardown|]. intros [e|] t Hu; [by apply wp_ret|].
  specialize (Hu eq_refl). eapply wp_call_spec; [by apply Hkill|]. intros _ t' _. apply Hk. auto with csi.
Qed.
End Steps.

(** ** NVMe-oF *)

Section Nvme.
Context {s : NodeService} {req : NodeStageVolumeRequest} {p : nvmeOFConnectionParams}.
Abbreviation staging := (st_StagingTargetPath req).
Abbreviation cap := (st_VolumeCapability req).
Abbreviation volumeContext := (st_VolumeContext req).
Abbreviation swp := (wp (stage_policy s req)).
Abbreviation any := (fun _ _ => True).
Hypothesis Hprotocol : getProtocolFromVolumeContext volumeContext = ProtocolNVMeOF.
Hypothesis Hparams : validateNVMeOFParams volumeContext = Ok p.

Lemma params_nqn : np_nqn p = volumeContext.["nqn"].
Proof. pose proof Hparams as H. unfold validateNVMeOFParams in H. destruct (_ || _); [done|]. injection H as E. by rewrite <- E. Qed.

Lemma swp_stageNVMeDevice h device :
  own_device req h device -> swp h (stageNVMeDevice s device staging cap volumeContext) any.
Proof.
  intros Ho. unfold stageNVMeDevice. destruct (is_block cap) eqn:Eb; [by apply swp_stageBlockDevice|].
  apply wp_quiet; [auto with quiet|]. intros [e|] t; [by apply wp_ret|].
  apply wp_quiet; [auto with quiet|]. intros _ t1. apply wp_look; [done|]. intros ?.
  unfold formatAndMountNVMeDevice. apply wp_quiet; [auto with quiet|]. intros [e|] t2; [by apply wp_ret|].
  apply swp_verify_and_mount; auto 6 with csi.
Qed.

Lemma swp_attemptNVMeConnect h :
  swp h (attemptNVMeConnect p) (fun r h' => is_ok r = true -> connected h' p).
Proof.
  apply wp_bind, wp_host; [by apply stage_connect|]. intros [output err] _.
  assert (err = None \/ Contains output "already connected" = true ->
    connected (h ++ [nev (Command "nvme" (connect_args p)) (output, err)]) p) as Hc.
  { intros H. exists output, err. auto with csi. }
  destruct err as [e|]; [destruct (Contains output "already connected")|]; apply wp_ret; auto.
Qed.

Lemma swp_connectNVMeOFTarget h : swp h (connectNVMeOFTarget s p) (fun r h' => r = None -> connected h' p).
Proof.
  unfold connectNVMeOFTarget. apply wp_quiet; [quiet_auto|]. intros _ t.
  eapply wp_call_spec with (Q := fun r h' => is_ok r = true -> connected h' p).
  { unfold WithRetry. cbv zeta.
    refine (wp_retry_loop (stage_policy s req) (with_defaults (connect_config p)) _ (fun _ _ => True)
              (fun r h' => is_ok r = true -> connected h' p) 6 _ eq_refl 6 0 _ _ (h ++ t) eq_refl _ I); [|lia].
    intros k h' _ Hk. apply wp_look_post; [done|]. intros [e|]; [done|].
    eapply wp_mono; [|apply swp_attemptNVMeConnect]. intros [v|err] h2 Hc; [done|].
    destruct (gives_up _ err); [done|]. destruct (_ <? _); [|done].
    intros b. by apply wp_look_post; [done|]; intros [e|]. }
  intros [v|e] t' Hc; [|by apply wp_ret]. apply wp_look; [done|]. intros ?.
  apply wp_quiet; [auto with quiet|]. intros _ t2. apply wp_ret. intros _. by do 2 apply connected_app; apply Hc.
Qed.

Lemma swp_disconnect h : unstaged req h \/ connected h p -> swp h (disconnectNVMeOF (np_nqn p)) any.
Proof.
  intros H. apply wp_bind, wp_host; [by apply stage_disconnect|]. intros [output [e|]] _.
  - destruct (_ || _); by apply wp_ret.
  - apply wp_look; [done|]. intros ?. by apply wp_ret.
Qed.

Lemma swp_drop_stale_connection h wait : swp h (drop_stale_connection (np_nqn p) staging wait) any.
Proof.
  unfold drop_stale_connection. eapply wp_call_spec; [apply swp_refuseTeardown|]. intros [e|] t Hu; [by apply wp_ret|].
  eapply wp_call_spec; [apply swp_disconnect; left; by apply Hu|]. intros _ t' _.
  apply wp_quiet; [quiet_auto|]. intros _ t2. by apply wp_ret.
Qed.

Lemma swp_tryReuse h : swp h (tryReuseExistingConnection s p staging cap volumeContext) any.
Proof.
  unfold tryReuseExistingConnection. eapply wp_call_spec; [apply wp_findNVMeDeviceByNQN|]. intros [device findErr] t Hf. cbv zeta.
  destruct (match findErr with Some e => errors_Is e errNVMeAmbiguousNamespace | None => false end); [by apply wp_ret|].
  destruct (match findErr with Some e => errors_Is e ErrNVMeDeviceUnhealthy | None => false end); [apply swp_drop_stale_connection|].
  destruct (match findErr with Some _ => true | None => _ end) eqn:Ee; [by apply wp_ret|].
  assert (own_device req (h ++ t) device) as Ho.
  { destruct findErr; [done|]. apply own_namespace; [done|]. rewrite <- params_nqn. apply Hf; [done|]. by destruct (String.eqb_spec device ""). }
  apply wp_quiet; [auto with quiet|]. intros state t1. destruct (match state with Ok _ => _ | Err _ => _ end); [apply swp_drop_stale_connection|].
  apply wp_quiet; [auto with quiet|]. intros _ t2. apply wp_quiet; [auto with quiet|]. intros [|] t3; [|apply swp_drop_stale_connection].
  eapply wp_call_spec; [apply swp_stageNVMeDevice; auto 6 with csi|]. intros r t4 _. by apply wp_ret.
Qed.

Lemma quiet_pause more delay : quiet (pause_before_retry more delay).
Proof. unfold pause_before_retry. quiet_auto. Qed.

Lemma swp_connect_loop n attempt lastErr h : swp h (connect_loop s n attempt lastErr p staging cap volumeContext) any.
Proof.
  revert attempt lastErr h. induction n as [|n IH]; intros attempt lastErr h; cbn [connect_loop]; [by apply wp_ret|]. cbv zeta.
  assert (forall h' e, swp h' (pause_before_retry (attempt <? 3) (3 * second_ns) ;;;
    connect_loop s n (attempt + 1) (Some e) p staging cap volumeContext) any) as Hagain.
  { intros h' e. apply wp_quiet; [apply quiet_pause|]. intros _ t. apply IH. }
  apply wp_look; [done|]. intros [e|]; [by apply wp_ret|].
  eapply wp_call_spec; [apply swp_connectNVMeOFTarget|]. intros [e|] t Hc; [apply Hagain|]. specialize (Hc eq_refl).
  assert (forall h' e, connected h' p -> swp h' (disconnectNVMeOF (np_nqn p) ;;; pause_before_retry (attempt <? 3) (3 * second_ns) ;;;
    connect_loop s n (attempt + 1) (Some e) p staging cap volumeContext) any) as Hdrop.
  { intros h' e Hc'. eapply wp_call_spec; [by apply swp_disconnect; right|]. intros _ t' _. apply Hagain. }
  apply wp_quiet; [auto with quiet|]. intros [e|] t1; [apply Hdrop; auto with csi|].
  eapply wp_call_spec; [apply wp_waitForNVMeDevice|]. intros [device|e] t2 Hd; [|apply Hdrop; auto with csi].
  eapply wp_call_spec; [apply swp_stageNVMeDevice, own_namespace; [done|rewrite <- params_nqn; by apply Hd]|].
  intros [[]|e] t3 _; [by apply wp_ret|]. destruct (bool_decide _); [apply Hdrop; auto 6 with csi|by apply wp_ret].
Qed.
End Nvme.

Lemma swp_stageNVMeOFVolume s req h :
  getProtocolFromVolumeContext (st_VolumeContext req) = ProtocolNVMeOF ->
  wp (stage_policy s req) h (stageNVMeOFVolume s req (st_VolumeContext req)) (fun _ _ => True).
Proof.
  intros Hp. unfold stageNVMeOFVolume. cbv zeta. destruct (validateNVMeOFParams _) as [p|e] eqn:Ev; [|by apply wp_ret].
  eapply wp_call_spec; [by apply swp_tryReuse|]. intros [[[]|]|e] t _; [by apply wp_ret| |by apply wp_ret].
  apply wp_quiet; [auto with quiet|]. intros [e|] t1; [by apply wp_ret|].
  apply wp_look; [done|]. intros ?. apply wp_look; [done|]. intros acquired. apply wp_look; [done|]. intros ?.
  destruct acquired as [e|]; [by apply wp_ret|]. apply wp_look; [done|]. intros ?.
  eapply wp_call_spec; [by apply swp_connect_loop|]. intros res t2 _.
  apply wp_look; [done|]. intros ?. apply wp_look; [done|]. intros ?. by apply wp_ret.
Qed.

(** ** iSCSI *)

Section Iscsi.
Context {s : NodeService} {req : NodeStageVolumeRequest} {p : iscsiConnectionParams}.
Abbreviation staging := (st_StagingTargetPath req).
Abbreviation cap := (st_VolumeCapability req).
Abbreviation volumeContext := (st_VolumeContext req).
Abbreviation swp := (wp (stage_policy s req)).
Abbreviation any := (fun _ _ => True).
Hypothesis Hprotocol : getProtocolFromVolumeContext volumeContext = ProtocolISCSI.
Hypothesis Hparams : validateISCSIParams volumeContext = Ok p.

Lemma params_iqn : ip_iqn p = volumeContext.[VolumeContextKeyISCSIIQN].
Proof. pose proof Hparams as H. unfold validateISCSIParams in H. destruct (_ || _); [done|]. injection H as E. by rewrite <- E. Qed.

(** A change of the records or sessions of the target. *)
Lemma swp_iscsi h args (Q : string * option error -> nhistory -> Prop) :
  unstaged req h -> iscsi_setup p args \/ iscsi_teardown (ip_iqn p) args -> (forall r t, Q r (h ++ t)) -> swp h (iscsiadm args) Q.
Proof.
  intros Hu Ha HQ. unfold iscsiadm. apply wp_look; [done|].
  intros [k|e]; (apply wp_host; [eapply stage_iscsi; [done|done|auto with csi|done|exact Ha]|]);
    intros r _; rewrite <- app_assoc; apply HQ.
Qed.

Lemma swp_iscsi_then {B : Type} h args (f : string * option error -> Host B) Q :
  unstaged req h -> iscsi_setup p args \/ iscsi_teardown (ip_iqn p) args ->
  (forall r t, unstaged req (h ++ t) -> swp (h ++ t) (f r) Q) -> swp h (bind (iscsiadm args) f) Q.
Proof. intros Hu Ha Hf. apply wp_bind, swp_iscsi; [done|done|]. intros r t. apply Hf. auto with csi. Qed.

Ltac setup := left; unfold iscsi_setup; eauto 6.
Ltac teardown := right; unfold iscsi_teardown; eauto.

Lemma swp_logout h : unstaged req h -> swp h (logoutISCSITarget (ip_iqn p)) any.
Proof.
  intros Hu. apply swp_iscsi_then; [done|teardown|]. intros _ t Hu1.
  apply swp_iscsi_then; [done|teardown|]. intros _ t1 _. by apply wp_ret.
Qed.

Lemma swp_forceKill h : unstaged req h -> swp h (forceKillISCSISession (ip_iqn p)) any.
Proof.
  intros Hu. apply swp_iscsi_then; [done|teardown|]. intros _ t Hu1. apply wp_look; [done|]. intros ?.
  eapply wp_call_spec; [apply swp_logout; auto with csi|]. intros _ t1 _. apply wp_look; [done|]. intros ?. by apply wp_ret.
Qed.

Lemma swp_forceKillByIQN h : unstaged req h -> swp h (forceKillISCSISessionByIQN (ip_iqn p)) any.
Proof.
  intros Hu. apply wp_quiet; [auto with quiet|]. intros [output [e|]] t; [by apply wp_ret|].
  destruct (Contains _ _); [apply swp_forceKill; auto with csi|by apply wp_ret].
Qed.

Lemma swp_prune_portals h portals : unstaged req h -> swp h (prune_portals p portals) any.
Proof.
  revert h. induction portals as [|dp rest IH]; intros h Hu; cbn [prune_portals]; [by apply wp_ret|].
  destruct (String.eqb_spec dp (portal_of p)); [by apply wp_bind, wp_ret, IH|].
  apply wp_bind, swp_iscsi_then; [done|left; right; right; right; eauto|]. intros _ t Hu1. by apply wp_ret, IH.
Qed.

Lemma swp_loginISCSITarget h : unstaged req h -> swp h (loginISCSITarget p) any.
Proof.
  intros Hu. unfold loginISCSITarget. apply wp_quiet; [auto with quiet|]. intros [output|e] t; [|by apply wp_ret]. cbv zeta.
  eapply wp_call_spec; [apply swp_prune_portals; auto with csi|]. intros _ t1 _.
  eapply wp_call_spec with (Q := any).
  { destruct (existsb _ _); [by apply wp_ret|]. apply swp_iscsi_then; [auto with csi|setup|]. intros _ t2 Hu2.
    apply swp_iscsi_then; [done|setup|]. intros _ t3 _. by apply wp_ret. }
  intros _ t2 _. apply swp_iscsi_then; [auto 6 with csi|setup|]. intros [output' [e|]] t3 _; [destruct (_ || _)|]; by apply wp_ret.
Qed.

Lemma swp_stageISCSIDevice h device :
  own_device req h device -> swp h (stageISCSIDevice s device staging cap volumeContext) any.
Proof.
  intros Ho. unfold stageISCSIDevice. apply wp_quiet; [auto with quiet|]. intros [e|] t; [by apply wp_ret|].
  destruct (is_block cap) eqn:Eb; [apply swp_stageBlockDevice; auto with csi|].
  apply wp_quiet; [auto with quiet|]. intros [e|] t1.
  { apply wp_quiet; [auto with quiet|]. intros [e'|] t2; by apply wp_ret. }
  apply wp_look; [done|]. intros ?. apply wp_quiet; [auto with quiet|]. intros [e|] t2; [by apply wp_ret|].
  apply swp_verify_and_mount; auto 8 with csi.
Qed.

Lemma disk_own h device : disk_of h (ip_iqn p) device -> own_device req h device.
Proof. intros H. apply own_disk; [done|]. by rewrite <- params_iqn. Qed.

Lemma swp_login_loop n attempt lastErr h :
  unstaged req h -> swp h (login_loop s n attempt lastErr p staging cap volumeContext) any.
Proof.
  revert attempt lastErr h. induction n as [|n IH]; intros attempt lastErr h Hu; cbn [login_loop]; [by apply wp_ret|]. cbv zeta.
  assert (forall h' e, unstaged req h' -> swp h' (pause_before_retry (attempt <? 2) (5 * second_ns) ;;;
    login_loop s n (attempt + 1) (Some e) p staging cap volumeContext) any) as Hagain.
  { intros h' e Hu'. apply wp_quiet; [apply quiet_pause|]. intros _ t. apply IH. auto with csi. }
  assert (forall h' e, unstaged req h' -> swp h' (logoutISCSITarget (ip_iqn p) ;;; pause_before_retry (attempt <? 2) (5 * second_ns) ;;;
    login_loop s n (attempt + 1) (Some e) p staging cap volumeContext) any) as Hdrop.
  { intros h' e Hu'. eapply wp_call_spec; [by apply swp_logout|]. intros _ t _. apply Hagain. auto with csi. }
  eapply wp_call_spec; [by apply swp_loginISCSITarget|]. intros [e|] t _; [apply Hagain; auto with csi|].
  eapply wp_call_spec; [apply wp_waitForISCSIDevice|]. intros [device|e] t1 Hd; [|apply Hdrop; auto with csi].
  eapply wp_call_spec; [apply swp_stageISCSIDevice, disk_own; by apply Hd|].
  intros [[]|e] t2 _; [by apply wp_ret|]. destruct (bool_decide _); [apply Hdrop; auto 6 with csi|by apply wp_ret].
Qed.

Lemma swp_fresh_login h : unstaged req h -> swp h (fresh_login s p staging cap volumeContext) any.
Proof.
  intros Hu. apply wp_quiet; [auto with quiet|]. intros [e|] t; [by apply wp_ret|]. apply swp_login_loop. auto with csi.
Qed.

End Iscsi.

Lemma swp_stageISCSIVolume s req h :
  getProtocolFromVolumeContext (st_VolumeContext req) = ProtocolISCSI ->
  wp (stage_policy s req) h (stageISCSIVolume s req (st_VolumeContext req)) (fun _ _ => True).
Proof.
  intros Hp. unfold stageISCSIVolume. cbv zeta. destruct (validateISCSIParams _) as [p|e] eqn:Ev; [|by apply wp_ret].
  eapply wp_call_spec; [apply wp_findISCSIDevice|]. intros [device|e] t Hd.
  - apply wp_quiet; [auto with quiet|]. intros state t1. destruct (match state with Ok _ => _ | Err _ => _ end).
    + apply (swp_stageISCSIDevice Hp Ev), own_device_app, (disk_own Hp Ev), Hd. done.
    + apply swp_teardown_then; intros h' Hu; [by apply (swp_forceKill Hp Ev)|by apply (swp_fresh_login Hp Ev)].
  - apply swp_teardown_then; intros h' Hu; [by apply (swp_forceKillByIQN Hp Ev)|by apply (swp_fresh_login Hp Ev)].
Qed.

(** ** The call *)

Lemma stage_allow_no_lock s req h o : stage_allow s req h o -> lock_op o = false.
Proof.
  intros [o' Hq|_ _|auth _ _ _|_|path o' _ Ho|path line _ _ _|p _ _|p _ _ _|name args a p _ _ _ _ _|d _ _ _ _|d _ _|d _ _|d k r _ _ _ _ _];
    try done; [by destruct o'|].
  by destruct Ho as [->|[->| ->]].
Qed.

Lemma swp_stage_by_protocol s req h : wp (stage_policy s req) h (stage_by_protocol s req) (fun _ _ => True).
Proof.
  unfold stage_by_protocol. cbv zeta.
  destruct (String.eqb_spec (getProtocolFromVolumeContext (st_VolumeContext req)) ProtocolNFS); [by apply swp_stageNFSVolume|].
  destruct (String.eqb_spec (getProtocolFromVolumeContext (st_VolumeContext req)) ProtocolNVMeOF); [by apply swp_stageNVMeOFVolume|].
  destruct (String.eqb_spec (getProtocolFromVolumeContext (st_VolumeContext req)) ProtocolISCSI); [by apply swp_stageISCSIVolume|].
  destruct (String.eqb_spec (getProtocolFromVolumeContext (st_VolumeContext req)) ProtocolSMB); [by apply swp_stageSMBVolume|].
  by apply wp_ret.
Qed.

Lemma wp_NodeStageVolume s req :
  wp (rpc_policy (st_VolumeId req) (stage_policy s req)) [] (NodeStageVolume s req) (fun _ h => held (st_VolumeId req) h = false).
Proof.
  unfold NodeStageVolume. destruct (String.eqb _ ""); [by apply wp_observe_error|].
  destruct (String.eqb _ ""); [by apply wp_observe_error|]. destruct (st_VolumeCapability req); [|by apply wp_observe_error].
  apply wp_with_volume_lock; [apply stage_allow_no_lock|]. eapply wp_call_spec; [apply swp_stage_by_protocol|]. intros r t _.
  apply wp_look; [done|]. intros ?. by apply wp_ret.
Qed.

(** The tools that staging runs. *)
Definition staging_tools : list string :=
  ["mount"; "e2fsck"; "blkid"; "blockdev"; "nvme"; "iscsiadm"; "nsenter"; "udevadm"; "findmnt"; "ls"].

Lemma iscsiadm_tool name args a : iscsiadm_args (Command name args) = Some a -> name = "iscsiadm" \/ name = "nsenter".
Proof.
  cbn [iscsiadm_args]. destruct (String.eqb_spec name "iscsiadm"); [by left|]. destruct (String.eqb_spec name "nsenter"); [by right|done].
Qed.

Lemma quiet_tool name args : quiet_command name args = true -> name ∈ staging_tools.
Proof.
  unfold quiet_command. rewrite !orb_true_iff, !andb_true_iff, !String.eqb_eq.
  intros [[[[[[->| ->]| ->]|[-> _]]|[-> _]]|[-> _]]|H]; try by (unfold staging_tools; repeat (by left) || right).
  destruct (iscsiadm_args _) as [a|] eqn:Ea; [|done]. apply iscsiadm_tool in Ea as [-> | ->];
    unfold staging_tools; repeat (by left) || right.
Qed.

(** What an allowed operation says, by its kind. *)
Ltac allowed_cases H :=
  inversion H; subst; try done;
  try (by match goal with X : _ = Chmod _ _ \/ _ |- _ => destruct X as [?|[?|?]] end).

Lemma allowed_mount s req h args :
  stage_allow s req h (Command "mount" args) ->
  unmounted h (st_StagingTargetPath req) /\
  (getProtocolFromVolumeContext (st_VolumeContext req) ∈ [ProtocolNFS; ProtocolSMB] \/
   exists device, mountable s req h device /\ args = block_mount_args req device).
Proof.
  intros H. allowed_cases H.
  - split; [done|]. left. match goal with E : getProtocolFromVolumeContext _ = _ |- _ => rewrite E end. by left.
  - split; [done|]. left. match goal with E : getProtocolFromVolumeContext _ = _ |- _ => rewrite E end. by right; left.
  - match goal with M : mountable _ _ _ _ |- _ => destruct M as [(? & ? & ? & ?) ?] end. split; [done|]. right. eexists. split; [|done]. by split.
Qed.

Lemma allowed_fsck s req h args :
  stage_allow s req h (Command "e2fsck" args) ->
  exists device, verified s req h device /\ source_unmounted h device /\ args = ["-p"; "-f"; device].
Proof. intros H. allowed_cases H. by eexists. Qed.

Lemma allowed_link s req h old new :
  stage_allow s req h (Symlink old new) ->
  own_device req h old /\ new = st_StagingTargetPath req /\ is_block (st_VolumeCapability req) = true.
Proof. intros H. by allowed_cases H. Qed.

Lemma allowed_tool s req h name args : stage_allow s req h (Command name args) -> name ∈ staging_tools.
Proof.
  intros H. allowed_cases H; try (unfold staging_tools; repeat (by left) || right; fail).
  - by eapply quiet_tool.
  - match goal with E : iscsiadm_args _ = _ |- _ => apply iscsiadm_tool in E as [-> | ->] end; unfold staging_tools; repeat (by left) || right.
Qed.


Lemma allowed_disconnect s req h args :
  stage_allow s req h (Command "nvme" args) -> head args = Some "disconnect" ->
  args = ["disconnect"; "-n"; (st_VolumeContext req).["nqn"]] /\
  (unstaged req h \/ exists p, validateNVMeOFParams (st_VolumeContext req) = Ok p /\ connected h p).
Proof.
  intros H Hd. allowed_cases H.
  - destruct args as [|c args]; [done|]. injection Hd as ->. done.
  - match goal with V : validateNVMeOFParams _ = Ok ?p |- _ => rewrite (params_nqn ltac:(eassumption) V) end. split; [done|].
    match goal with D : unstaged _ _ \/ _ |- _ => destruct D as [?|?] end; [by left|right; by eexists].
Qed.

Lemma allowed_iscsi s req h name args a :
  stage_allow s req h (Command name args) -> iscsiadm_args (Command name args) = Some a -> quiet_iscsiadm a = false ->
  unstaged req h /\ (st_VolumeContext req).[VolumeContextKeyISCSIIQN] ∈ a.
Proof.
  intros H Ha Hq. allowed_cases H.
  - exfalso. match goal with Q : quiet_op _ = true |- _ => cbn [quiet_op] in Q; unfold quiet_command in Q; rewrite Ha, Hq in Q end.
    apply iscsiadm_tool in Ha as [-> | ->]; done.
  - match goal with A : iscsiadm_args _ = Some ?x |- _ => rewrite Ha in A; injection A as <- end. split; [done|].
    match goal with V : validateISCSIParams _ = Ok ?p |- _ => rewrite <- (params_iqn ltac:(eassumption) V) end.
    match goal with S : iscsi_setup _ _ \/ _ |- _ => destruct S as [[->|[->|[->|(dp & _ & ->)]]]|[->|[->| ->]]] end;
      repeat (by left) || right.
Qed.


(** ** A node with one namespace of the volume's subsystem, of the given size *)

Definition demo_nqn : string := "nqn.2137-04.storage.nasty:v1".
Definition demo_request : NodeStageVolumeRequest :=
  mkNodeStage "v1" "/stage/v1" (Some (mkNodeCapability (mkVolumeCapability (Mount "ext4") SINGLE_NODE_WRITER) ["discard"]))
    (Some (list_to_map [("protocol", "nvmeof"); ("nqn", demo_nqn); ("server", "10.0.0.1"); ("expectedCapacity", "1073741824")])) None.

Definition demo_service : NodeService := NewNodeService "node1" true false true false 0.

Definition demo_answers (size : string) (o : nop) : option (nans o) :=
  match o return option (nans o) with
  | ReadDir path =>
      if String.eqb path "/sys/block" then Some (Ok [mkDirent "nvme0n1" false])
      else if String.eqb path "/sys/class/nvme" then Some (Ok [mkDirent "nvme0" false]) else None
  | ReadFile path => if HasSuffix path "subsysnqn" then Some (Ok demo_nqn) else None
  | Stat path => if String.eqb path "/dev/nvme0n1" then Some (Ok (BlockDevice 259 1)) else None
  | OpenRead _ => Some (Ok (demo_file demo_table))
  | MkdirAll _ => Some None
  | Command name args =>
      if String.eqb name "blockdev" then Some (size, None)
      else if String.eqb name "blkid" then Some ("ext4", None)
      else if existsb (String.eqb name) ["mount"; "e2fsck"; "udevadm"] then Some ("", None)
      else if bool_decide (head args = Some "disconnect") then Some ("", None) else None
  | _ => None
  end.

Definition demo_run (size : string) : outcome node_result * Z * nhistory :=
  run_host (fake_host (demo_answers size)) (NodeStageVolume demo_service demo_request).

Definition is_command (name : string) (e : event nsig) : bool :=
  match projT1 e with Command n _ => String.eqb n name | _ => false end.


(** An empty device is a stale connection, which is dropped. *)
Definition is_disconnect (e : event nsig) : bool :=
  match projT1 e with Command n args => String.eqb n "nvme" && bool_decide (head args = Some "disconnect") | _ => false end.
Definition disconnect_at (tr : nhistory) : nat :=
  match list_find (fun e => is_disconnect e = true) tr with Some (i, _) => i | None => 0%nat end.


(** ** What the guards do not cover *)

(** A volume whose controller is connected while its namespace is not visible. *)
Definition hidden_answers (o : nop) : option (nans o) :=
  match o return option (nans o) with
  | ReadDir _ => Some (Ok [])
  | OpenRead _ => Some (Ok (demo_file demo_table))
  | Command name args =>
      if String.eqb name "nvme" then
        if bool_decide (head args = Some "connect") then Some ("already connected", Some (err_new (ExitError 1)))
        else if bool_decide (head args ∈ [Some "version"; Some "disconnect"]) then Some ("", None) else None
      else None
  | _ => None
  end.

(** The NVMe-oF path has no guard where no device is found: it disconnects the
    subsystem, which was already connected, without a look at the staging path. *)
Lemma nvme_disconnect_unguarded :
  let r := run_host (fake_host hidden_answers) (NodeStageVolume demo_service demo_request) in
  existsb is_disconnect r.2 = true /\
  existsb (fun e => match projT1 e with OpenRead _ | Lstat _ => true | _ => false end) r.2 = false.
Proof. vm_compute. split; reflexivity. Qed.

(** A target whose name extends the wanted one is taken for it. *)
Lemma session_prefix_confusion :
  parseISCSISessionDevice
    ("Target: iqn.2137-04.storage.nasty:data-1 (non-flash)" +:+ String newline "Attached scsi disk sdb State: running")
    "iqn.2137-04.storage.nasty:data" = "sdb".
Proof. vm_compute. reflexivity. Qed.
