(* ===== verification/SecretsTheorems.v ===== *)
(** * Secrets of a staging call

    Where the credentials of an SMB volume go: into a private file of the call,
    which does not outlive it. *)

From S2P Require Import Prelude GoStrings Prog Errors Api Metadata Common Retry NodeHost MountInfo NodeRecovery NodeSysfs NodeFiles NodeDevice NodeNvme NodeIscsi NodeHealth NodeService NodeQuiet NodeEvidence NodeRpc StagingTheorems.

#[local] Set Default Proof Using "Type*".

Definition pattern : string := "smb-credentials-*".

(** Every temporary file but the excepted one is removed. *)
Definition pending (h : nhistory) (kept : option string) : Prop :=
  forall path, nev (CreateTemp pattern) (Ok path) ∈ h -> kept = Some path \/ exists r, nev (Remove path) r ∈ h.

Definition creates (o : nop) : bool := match o with CreateTemp _ => true | _ => false end.

Lemma pending_app h t kept : pending h kept -> Forall (fun e => creates (projT1 e) = false) t -> pending (h ++ t) kept.
Proof.
  intros H Ht path [Hin|Hin]%elem_of_app.
  - destruct (H path Hin) as [?|[r ?]]; [by left|right; exists r; auto with csi].
  - rewrite Forall_forall in Ht. by apply Ht in Hin.
Qed.

Lemma pending_snoc h (o : nop) (r : nans o) kept : pending h kept -> creates o = false -> pending (h ++ [nev o r]) kept.
Proof. intros H Ho. apply pending_app; [done|]. by apply Forall_singleton. Qed.

Lemma pending_looked h t kept : pending h kept -> looked t -> pending (h ++ t) kept.
Proof. intros H Ht. apply pending_app; [done|]. eapply Forall_impl; [exact Ht|]. intros [o r]. by destruct o. Qed.

Definition created_file (e : event nsig) : option string :=
  match e with
  | existT o r => match o return nans o -> option string with CreateTemp _ => fun r => match r with Ok path => Some path | Err _ => None end | _ => fun _ => None end r
  end.

Lemma pending_created h path : pending h None -> pending (h ++ [nev (CreateTemp pattern) (Ok path)]) (Some path).
Proof.
  intros H p [Hin|Hin]%elem_of_app.
  - destruct (H p Hin) as [?|[r ?]]; [done|right; exists r; auto with csi].
  - apply list_elem_of_singleton, (f_equal created_file) in Hin. left. cbn in Hin. congruence.
Qed.

Lemma pending_not_created h e : pending h None -> pending (h ++ [nev (CreateTemp pattern) (Err e)]) None.
Proof.
  intros H p [Hin|Hin]%elem_of_app.
  - destruct (H p Hin) as [?|[r ?]]; [done|right; exists r; auto with csi].
  - apply list_elem_of_singleton, (f_equal created_file) in Hin. cbn in Hin. congruence.
Qed.

Lemma pending_removed h path r : pending h (Some path) -> pending (h ++ [nev (Remove path) r]) None.
Proof.
  intros H p [Hin|Hin]%elem_of_app; [|by apply list_elem_of_singleton in Hin].
  right. destruct (H p Hin) as [[= <-]|[r' ?]]; [exists r|exists r']; auto with csi.
Qed.

#[export] Instance host_quiet_policy : QuietPolicy host_policy.
Proof. by split. Qed.

Abbreviation hwp := (wp host_policy).

Lemma hwp_step {B : Type} h kept (o : nop) (f : nans o -> Host B) Q :
  pending h kept -> creates o = false -> (forall r, pending (h ++ [nev o r]) kept -> hwp (h ++ [nev o r]) (f r) Q) ->
  hwp h (bind (host o) f) Q.
Proof. intros H Ho Hf. apply wp_bind, wp_host; [done|]. intros r _. by apply Hf, pending_snoc. Qed.

Lemma hwp_looked {A B : Type} h kept (p : Host A) (f : A -> Host B) Q :
  pending h kept -> quiet p -> (forall a t, pending (h ++ t) kept -> hwp (h ++ t) (f a) Q) -> hwp h (bind p f) Q.
Proof.
  intros H Hp Hf. apply wp_bind. eapply wp_mono; [|apply wp_quiet_trace; [apply _|exact Hp]].
  intros a h' (t & -> & Ht). by apply Hf, pending_looked.
Qed.

Lemma hwp_remove {B : Type} h path (f : option error -> Host B) Q :
  pending h (Some path) -> (forall r, pending (h ++ [nev (Remove path) r]) None -> hwp (h ++ [nev (Remove path) r]) (f r) Q) ->
  hwp h (bind (host (Remove path)) f) Q.
Proof. intros H Hf. apply wp_bind, wp_host; [done|]. intros r _. by apply Hf, pending_removed. Qed.

(** ** The credentials file *)

Lemma hwp_writeSMBCredentialsFile h secrets :
  pending h None -> hwp h (writeSMBCredentialsFile secrets) (fun r h' => pending h' (match r with Ok path => Some path | Err _ => None end)).
Proof.
  intros H. unfold writeSMBCredentialsFile. destruct (String.eqb _ ""); [by apply wp_ret|].
  apply wp_bind, wp_host; [done|]. intros [path|e] _; [|by apply wp_ret, pending_not_created].
  apply (pending_created _ path) in H. cbv zeta.
  set (Q := fun (r : res string) h' => pending h' (match r with Ok path => Some path | Err _ => None end)).
  assert (forall h2 e, pending h2 (Some path) -> hwp h2 (host (CloseFile path) ;;; host (Remove path) ;;; Ret (Err e)) Q) as Hclean.
  { intros h2 e H2. eapply hwp_step; [exact H2|done|]. intros ? H3. apply hwp_remove; [exact H3|]. intros ? H4. by apply wp_ret. }
  eapply hwp_step; [exact H|done|]. clear H. intros [e|] H; [by apply Hclean|].
  apply wp_bind. apply (wp_for_range _ (fun _ h' => pending h' (Some path))); [exact H| |].
  - intros done_ line rest h' _ H'. apply wp_host; [done|]. intros [e|] _; [apply Hclean|]; by apply pending_snoc.
  - intros h' H'. eapply hwp_step; [exact H'|done|]. intros [e|] H2; [by apply Hclean|by apply wp_ret].
Qed.

Lemma hwp_stageSMBVolume s req volumeContext h :
  pending h None -> hwp h (stageSMBVolume s req volumeContext) (fun _ h' => pending h' None).
Proof.
  intros H. unfold stageSMBVolume. cbv zeta. destruct (_ || _); [by apply wp_ret|].
  eapply hwp_looked; [exact H|apply quiet_create_missing|]. clear H. intros [e|] t H; [by apply wp_ret|].
  destruct (testMode s); [by apply wp_ret|]. unfold unless_mounted.
  eapply hwp_looked; [exact H|auto with quiet|]. clear H. intros [[|]|e] t' H; [by apply wp_ret| |by apply wp_ret].
  apply wp_bind. eapply wp_mono with (Q := fun r h' => pending h' (match r with Ok (_, cred) => cred | Err _ => None end)).
  - intros [[options cred]|e] h' H'; [|by apply wp_ret]. apply wp_bind.
    eapply hwp_step; [exact H'|done|]. intros [output err] H2.
    assert (forall r, hwp (h' ++ [nev (Command "mount" ["-t"; fsTypeCIFS; "-o"; JoinMountOptions options;
        "//" +:+ volumeContext.["server"] +:+ "/" +:+ volumeContext.["share"]; st_StagingTargetPath req]) (output, err)])
      (match cred with Some c => host (Remove c) ;;; Ret r | None => Ret r end) (fun (_ : node_result) h' => pending h' None)) as Hend.
    { intros r. destruct cred; [|by apply wp_ret]. apply hwp_remove; [exact H2|]. intros ? H3. by apply wp_ret. }
    destruct err; apply wp_ret, Hend.
  - unfold smb_credentials. destruct (_ && _); [|destruct (negb _); by apply wp_ret].
    apply wp_bind. eapply wp_mono; [|by apply hwp_writeSMBCredentialsFile]. intros [path|e] h' H'; by apply wp_ret.
Qed.

(** ** The call *)

Lemma hwp_observed h operation (body : Host node_result) :
  hwp h body (fun _ h' => pending h' None) -> hwp h (observed operation body) (fun _ h' => pending h' None).
Proof.
  intros H. apply wp_bind. eapply wp_mono; [|exact H]. intros r h' H'.
  eapply hwp_step; [exact H'|done|]. intros ? H2. by apply wp_ret.
Qed.

Lemma hwp_observe_error h operation e :
  pending h None -> hwp h (observe_error (A := unit) operation e) (fun _ h' => pending h' None).
Proof. intros H. eapply hwp_step; [exact H|done|]. intros ? H2. by apply wp_ret. Qed.

Lemma hwp_NodeStageVolume s req :
  getProtocolFromVolumeContext (st_VolumeContext req) = ProtocolSMB ->
  hwp [] (NodeStageVolume s req) (fun _ h => pending h None).
Proof.
  intros Hp. assert (pending [] None) as H by (by intros p Hin%elem_of_nil). unfold NodeStageVolume.
  destruct (String.eqb _ ""); [by apply hwp_observe_error|]. destruct (String.eqb _ ""); [by apply hwp_observe_error|].
  destruct (st_VolumeCapability req); [|by apply hwp_observe_error]. unfold with_volume_lock.
  eapply hwp_step; [exact H|done|]. clear H. intros [e|] H; [by apply hwp_observe_error|].
  apply wp_bind. eapply wp_mono with (Q := fun _ h' => pending h' None).
  - intros r h' H'. eapply hwp_step; [exact H'|done|]. intros ? H2. by apply wp_ret.
  - apply hwp_observed. unfold stage_by_protocol. cbv zeta. rewrite Hp. by apply hwp_stageSMBVolume.
Qed.

Lemma allowed_text s req h path line :
  stage_allow s req h (WriteString path line) ->
  nev (CreateTemp pattern) (Ok path) ∈ h /\ nev (Chmod path 384) None ∈ h /\ line ∈ credential_lines (st_Secrets req).
Proof. intros H. by allowed_cases H. Qed.

Lemma allowed_create s req h p : stage_allow s req h (CreateTemp p) -> p = pattern /\ getProtocolFromVolumeContext (st_VolumeContext req) = ProtocolSMB.
Proof. intros H. by allowed_cases H. Qed.

Lemma allowed_smb_mount s req h args :
  stage_allow s req h (Command "mount" args) -> getProtocolFromVolumeContext (st_VolumeContext req) = ProtocolSMB ->
  exists auth, smb_auth h auth /\
    args = ["-t"; fsTypeCIFS; "-o"; JoinMountOptions (getSMBMountOptions (user_flags (st_VolumeCapability req)) ++ auth);
            "//" +:+ (st_VolumeContext req).["server"] +:+ "/" +:+ (st_VolumeContext req).["share"]; st_StagingTargetPath req].
Proof.
  intros H Hp. allowed_cases H; try match goal with E : getProtocolFromVolumeContext _ = _ |- _ => by rewrite Hp in E end.
  - eexists. split; [eassumption|reflexivity].
  - exfalso. match goal with M : mountable _ _ _ _ |- _ => destruct M as [(O & _) _] end. destruct O as [E _|E _]; by rewrite Hp in E.
Qed.

(** C27: the credentials of an SMB volume stay private. In every execution of [NodeStageVolume],
    whatever the host answers, the secrets of the request are written to a
    temporary file of this call only, line by line, after its mode was set to 0600; the
    mount command has the name of that file among its options and nothing of the
    secrets; and when the call returns, on success and on every failure, it has removed
    every temporary file that it created. *)
Theorem NodeStageVolume_credentials_private s req tr out :
  exec (NodeStageVolume s req) tr out -> sane_host tr ->
  (forall t1 path line r t2, tr = t1 ++ nev (WriteString path line) r :: t2 ->
     nev (CreateTemp pattern) (Ok path) ∈ t1 /\ nev (Chmod path 384) None ∈ t1 /\ line ∈ credential_lines (st_Secrets req)) /\
  (forall t1 args r t2, tr = t1 ++ nev (Command "mount" args) r :: t2 ->
     getProtocolFromVolumeContext (st_VolumeContext req) = ProtocolSMB ->
     exists auth, smb_auth t1 auth /\
       args = ["-t"; fsTypeCIFS; "-o"; JoinMountOptions (getSMBMountOptions (user_flags (st_VolumeCapability req)) ++ auth);
               "//" +:+ (st_VolumeContext req).["server"] +:+ "/" +:+ (st_VolumeContext req).["share"]; st_StagingTargetPath req]) /\
  (forall pattern path, nev (CreateTemp pattern) (Ok path) ∈ tr -> exists r, nev (Remove path) r ∈ tr).
Proof.
  intros He Hc. split_and!.
  - intros t1 path line r t2 E.
    pose proof (rpc_operations (wp_NodeStageVolume s req) eq_refl He Hc E) as [_ Hw]%rpc_allow_work. by apply allowed_text in Hw.
  - intros t1 args r t2 E Hp.
    pose proof (rpc_operations (wp_NodeStageVolume s req) eq_refl He Hc E) as [_ Hw]%rpc_allow_work. by apply allowed_smb_mount in Hw.
  - intros p path Hin. pose proof Hin as (t1 & t2 & E)%list_elem_of_split.
    pose proof (rpc_operations (wp_NodeStageVolume s req) eq_refl He Hc E) as [_ Hw]%rpc_allow_work.
    apply allowed_create in Hw as [-> Hw].
    destruct (proj1 (rpc_outcome (wp_NodeStageVolume s req) eq_refl He Hc id)) as [r ->].
    pose proof (wp_sound_post _ _ _ _ _ _ (hwp_NodeStageVolume s req Hw) He Hc) as H. by destruct (H path Hin) as [?|?].
Qed.

(** ** A share with a user *)

Definition share_request : NodeStageVolumeRequest :=
  mkNodeStage "v1" "/stage/v1" (Some (mkNodeCapability (mkVolumeCapability (Mount "") MULTI_NODE_MULTI_WRITER) []))
    (Some (list_to_map [("protocol", "smb"); ("server", "10.0.0.1"); ("share", "data")]))
    (Some (list_to_map [("username", "u"); ("password", "p")])).

Definition share_answers (o : nop) : option (nans o) :=
  match o return option (nans o) with
  | OpenRead _ => Some (Ok (demo_file demo_table))
  | MkdirAll _ | Chmod _ _ | WriteString _ _ | CloseFile _ | Remove _ => Some None
  | CreateTemp _ => Some (Ok "/tmp/smb-credentials-1")
  | Command name args => if String.eqb name "mount" then Some ("", Some (err_new (ExitError 32))) else None
  | _ => None
  end.

(** The mount fails; the file is gone. *)
Definition share_run : outcome node_result * Z * nhistory :=
  run_host (fake_host share_answers) (NodeStageVolume demo_service share_request).

Definition written (e : event nsig) : option string := match projT1 e with WriteString _ line => Some line | _ => None end.

Lemma NodeStageVolume_credentials_private_witness :
  (exists r, nev (Remove "/tmp/smb-credentials-1") r ∈ share_run.2) /\
  omap written share_run.2 = ["username=u" +:+ String newline ""; "password=p" +:+ String newline ""].
Proof.
  split; [|vm_compute; reflexivity].
  destruct (NodeStageVolume_credentials_private demo_service share_request share_run.2 share_run.1.1) as (_ & _ & H).
  - apply run_host_exec.
  - vm_compute. repeat split; discriminate.
  - apply (H "smb-credentials-*"). apply list_elem_of_In. vm_compute. tauto.
Defined.
