(* ===== verification/UnstagingTheorems.v ===== *)
(** * Safety of unstaging

    What every execution of [NodeService.NodeUnstageVolume] may do, whatever the
    host answers: whose session ends, and when a staging path is removed. *)

From S2P Require Import Prelude GoStrings Prog Errors Api Metadata Retry NodeHost MountInfo NodeRecovery NodeSysfs NodeFiles NodeDevice NodeNvme NodeIscsi NodeHealth NodeService NodeQuiet NodeSessions NodeEvidence NodeRpc.

#[local] Set Default Proof Using "Type*".

(** ** The request *)

Section Unstage.
Context (s : NodeService) (req : NodeUnstageVolumeRequest).
Abbreviation staging := (us_StagingTargetPath req).
Abbreviation any := (fun _ _ => True).

(** A device that was reported to back the staging path: the source of its
    mount, or what its link names. *)
Inductive backing_device (h : nhistory) : string -> Prop :=
| backing_mount output :
    nev (Command "findmnt" ["-n"; "-o"; "SOURCE"; staging]) (output, None) ∈ h -> backing_device h (TrimSpace output)
| backing_resolved device : nev (EvalSymlinks staging) (Ok device) ∈ h -> backing_device h device
| backing_link target :
    nev (Readlink staging) (Ok target) ∈ h ->
    backing_device h (Clean (if negb (IsAbs target) then JoinPath (Dir staging) target else target)).

(** The subsystem that the kernel reported for the namespace of a device. *)
Definition subsystem_of (h : nhistory) (device nqn : string) : Prop :=
  nqn <> "" /\ exists name data, nvmeNamespaceBase device = Ok name /\
    nev (ReadFile (JoinPaths [sysBlockPath; name; "device"; "subsysnqn"])) (Ok data) ∈ h /\ TrimSpace data = nqn.

(** The path was seen not to be mounted, or its unmount was tried. *)
Definition released (h : nhistory) : Prop := unmounted h staging \/ exists r, nev (Command "umount" [staging]) r ∈ h.

(** The path was seen not to be mounted, or it was unmounted. *)
Definition detached (h : nhistory) : Prop :=
  unmounted h staging \/
  exists args output, args ∈ [[staging]; ["-l"; staging]] /\ nev (Command "umount" args) (output, None) ∈ h.

Inductive unstage_allow (h : nhistory) : nop -> Prop :=
| unstage_quiet o : quiet_op o = true -> unstage_allow h o
| unstage_umount : mounted_at h staging -> unstage_allow h (Command "umount" [staging])
| unstage_lazy_umount output e :
    mounted_at h staging -> nev (Command "umount" [staging]) (output, Some e) ∈ h -> unstage_allow h (Command "umount" ["-l"; staging])
| unstage_remove : testMode s = true \/ detached h -> unstage_allow h (Remove staging)
| unstage_disconnect device nqn :
    backing_device h device -> subsystem_of h device nqn -> released h ->
    unstage_allow h (Command "nvme" ["disconnect"; "-n"; nqn])
| unstage_logout name args a device iqn portal :
    backing_device h device -> session_target h ("/sys/block/" +:+ Base device) iqn portal -> iqn <> "" -> released h ->
    iscsiadm_args (Command name args) = Some a -> a ∈ [["-m"; "node"; "-T"; iqn; "--logout"]; ["-m"; "node"; "-T"; iqn; "-o"; "delete"]] ->
    unstage_allow h (Command name args).

Definition unstage_policy : policy nsig := {| allow h o := unstage_allow h o; env := host_env; crash := False |}.

#[export] Instance unstage_quiet_policy : QuietPolicy unstage_policy.
Proof. split; [apply unstage_quiet|done]. Qed.

Lemma backing_device_app h t d : backing_device h d -> backing_device (h ++ t) d.
Proof. intros [output H|d' H|target H]; [apply backing_mount|apply backing_resolved|apply backing_link]; auto with csi. Qed.

Lemma subsystem_of_app h t d n : subsystem_of h d n -> subsystem_of (h ++ t) d n.
Proof. intros (? & name & data & ? & ? & ?). split; [done|]. exists name, data. auto with csi. Qed.

Lemma released_app h t : released h -> released (h ++ t).
Proof. intros [?|[r ?]]; [left|right; exists r]; auto with csi. Qed.

#[local] Hint Resolve backing_device_app subsystem_of_app released_app : csi.

Abbreviation uwp := (wp unstage_policy).

(** ** Mounts *)

Lemma uwp_Unmount h : mounted_at h staging -> uwp h (Unmount staging) (fun r h' => released h' /\ (r = None -> detached h')).
Proof.
  intros Hm. apply wp_bind, wp_host; [by apply unstage_umount|]. intros [output [e|]] _.
  - apply wp_bind, wp_host; [eapply unstage_lazy_umount; auto with csi|]. intros [lazy [e'|]] _; apply wp_ret.
    + split; [|done]. right. eexists. auto with csi.
    + split; [right; eexists; auto with csi|]. intros _. right. exists ["-l"; staging], lazy. split; [by right; left|auto with csi].
  - apply wp_ret. split; [right; eexists; auto with csi|]. intros _. right. exists [staging], output. split; [by left|auto with csi].
Qed.

(** ** Shares *)

Lemma uwp_remove {B : Type} h (f : option error -> Host B) Q :
  testMode s = true \/ detached h -> (forall r, uwp (h ++ [nev (Remove staging) r]) (f r) Q) -> uwp h (bind (host (Remove staging)) f) Q.
Proof. intros Hd Hf. apply wp_bind, wp_host; [by apply unstage_remove|]. intros r _. apply Hf. Qed.

Lemma uwp_unstage_share h protocol : uwp h (unstage_share s protocol staging) any.
Proof.
  unfold unstage_share. destruct (testMode s) eqn:Et; [apply uwp_remove; [by left|]; intros ?; by apply wp_ret|].
  eapply wp_call_spec; [apply wp_IsMounted_answer|]. intros [mounted|e] t Hm; [|by apply wp_ret].
  eapply wp_call_spec with (Q := fun r h' => r = None -> detached h').
  { destruct mounted; [eapply wp_mono; [|by apply uwp_Unmount]; by intros r h' [_ ?]|]. apply wp_ret. intros _. by left. }
  intros [e|] t' Hd; [by apply wp_ret|]. apply uwp_remove; [right; by apply Hd|].
  intros [e|]; [destruct (IsNotExist e)|]; by apply wp_ret.
Qed.

(** ** Devices *)

(** The unmount that precedes the end of a session. *)
Lemma uwp_release {B : Type} h mounted (f : option error -> Host B) Q :
  (if mounted : bool then mounted_at h staging else unmounted h staging) ->
  (forall r t, released (h ++ t) -> uwp (h ++ t) (f r) Q) ->
  uwp h (bind (if mounted then Unmount staging else Ret None) f) Q.
Proof.
  intros Hm Hf. eapply wp_call_spec with (Q := fun _ => released); [|apply Hf].
  destruct mounted; [eapply wp_mono; [|by apply uwp_Unmount]; by intros r h' [? _]|]. apply wp_ret. by left.
Qed.

Lemma uwp_mounted_source h : uwp h (mounted_source staging) (fun r h' => forall src, r = Ok (Some src) -> backing_device h' src).
Proof.
  unfold mounted_source. apply wp_quiet; [auto with quiet|]. intros [[|]|e] t; [|by apply wp_ret..].
  apply wp_look; [done|]. intros [output [e|]]; apply wp_ret; [done|]. intros src [= <-]. apply backing_mount. auto with csi.
Qed.

Lemma uwp_deriveNQN h : uwp h (deriveNQNFromStagingPath staging) (fun r h' => forall nqn, r = Ok nqn ->
  exists device, backing_device h' device /\ subsystem_of h' device nqn).
Proof.
  unfold deriveNQNFromStagingPath. eapply wp_call_spec with (Q := fun r h' => forall d, r = Ok d -> backing_device h' d).
  { unfold getStagedNVMeDevicePath. eapply wp_call_spec; [apply uwp_mounted_source|]. intros [source|e] t Hs; [|by apply wp_ret].
    destruct (match source with Some _ => _ | None => false end) eqn:Es.
    { destruct source as [src|]; [|done]. apply wp_ret. intros d [= <-]. by apply Hs. }
    apply wp_look; [done|]. intros [resolved|e]; [|by apply wp_ret]. destruct (negb _); apply wp_ret; [done|].
    intros d [= <-]. apply backing_resolved. auto with csi. }
  intros [device|e] t Hd; [|by apply wp_ret]. unfold nvmeNQNForDevice.
  destruct (nvmeNamespaceBase device) as [name|e] eqn:En; [|by apply wp_ret]. unfold readNVMeSysfsValue.
  apply wp_bind, wp_look; [done|]. intros data. apply wp_ret. destruct data as [data|e]; [|by apply wp_ret]. cbn [res_map].
  destruct (String.eqb_spec (TrimSpace data) ""); apply wp_ret; [done|]. intros nqn [= <-].
  exists device. split; [apply backing_device_app; by apply Hd|]. split; [done|]. exists name, data. auto with csi.
Qed.

Lemma uwp_unstageNVMeOFVolume h : uwp h (unstageNVMeOFVolume req None) any.
Proof.
  unfold unstageNVMeOFVolume. cbv zeta. cbn [map_get map_lookup default String.eqb].
  eapply wp_call_spec with (Q := fun nqn h' => nqn <> "" -> exists device, backing_device h' device /\ subsystem_of h' device nqn).
  { eapply wp_call_spec; [apply uwp_deriveNQN|]. intros [nqn|e] t Hn; apply wp_ret; [|done]. intros _. by apply Hn. }
  intros nqn t Hn. eapply wp_call_spec; [apply wp_IsMounted_answer|]. intros [mounted|e] t1 Hm; [|by apply wp_ret].
  apply uwp_release; [by destruct mounted|]. intros r t2 Hr.
  apply wp_bind. destruct (String.eqb_spec nqn "") as [|Hne]; [by apply wp_ret, wp_ret|].
  destruct (Hn Hne) as (device & Hb & Hs). eapply wp_mono with (Q := any); [intros; by apply wp_ret|].
  apply wp_bind, wp_host; [apply (unstage_disconnect _ device); auto with csi|]. intros [output [e|]] _; [destruct (_ || _); by apply wp_ret|].
  apply wp_look; [done|]. intros ?. by apply wp_ret.
Qed.

(** The logout from the target of the device, and the deletion of its records. *)
Lemma uwp_iscsi_end {B : Type} h device iqn portal args (f : string * option error -> Host B) Q :
  backing_device h device -> session_target h ("/sys/block/" +:+ Base device) iqn portal -> iqn <> "" -> released h ->
  args ∈ [["-m"; "node"; "-T"; iqn; "--logout"]; ["-m"; "node"; "-T"; iqn; "-o"; "delete"]] ->
  (forall r t, uwp (h ++ t) (f r) Q) -> uwp h (bind (iscsiadm args) f) Q.
Proof.
  intros Hb Hs Hne Hr Ha Hf. apply (wp_call_spec _ _ _ _ any); [|intros r t _; apply Hf].
  unfold iscsiadm. apply wp_look; [done|].
  intros [k|e]; (apply wp_host; [|done]); eapply (unstage_logout _ _ _ args device iqn portal); auto with csi.
Qed.

Lemma uwp_logout h device iqn portal :
  backing_device h device -> session_target h ("/sys/block/" +:+ Base device) iqn portal -> iqn <> "" -> released h ->
  uwp h (logoutISCSITarget iqn) any.
Proof.
  intros Hb Hs Hne Hr. apply (uwp_iscsi_end _ device iqn portal); [done..|by left|]. intros r t.
  apply (uwp_iscsi_end _ device iqn portal); [auto with csi..|by right; left|]. intros r2 t2. by apply wp_ret.
Qed.

Lemma uwp_unstageISCSIVolume h : uwp h (unstageISCSIVolume req) any.
Proof.
  unfold unstageISCSIVolume. cbv zeta.
  eapply wp_call_spec with (Q := fun r h' => forall d, r = Ok d -> backing_device h' d).
  { unfold getStagedISCSIDevicePath. eapply wp_call_spec; [apply uwp_mounted_source|]. intros [source|e] t Hs; [|by apply wp_ret].
    destruct (match source with Some _ => _ | None => false end) eqn:Es.
    { destruct source as [src|]; [|done]. apply wp_ret. intros d [= <-]. by apply Hs. }
    apply wp_look; [done|]. intros [target|e]; apply wp_ret; [|done]. intros d [= <-]. apply backing_link. auto with csi. }
  intros device t Hd.
  eapply wp_call_spec with (Q := fun iqn h' => iqn <> "" -> exists d portal, backing_device h' d /\ session_target h' ("/sys/block/" +:+ Base d) iqn portal).
  { destruct device as [d|e]; [|by apply wp_ret]. eapply wp_call_spec; [apply wp_getISCSISessionInfo|]. intros info t' Hi. apply wp_ret.
    intros Hne. exists d, info.2. split; [apply backing_device_app; by apply Hd|by apply Hi]. }
  intros iqn t1 Hi. eapply wp_call_spec; [apply wp_IsMounted_answer|]. intros [mounted|e] t2 Hm; [|by apply wp_ret].
  apply uwp_release; [by destruct mounted|]. intros r t3 Hr.
  apply wp_bind. destruct (String.eqb_spec iqn "") as [|Hne]; [by apply wp_ret, wp_ret|].
  destruct (Hi Hne) as (d & portal & Hb & Hs). eapply wp_mono with (Q := any); [intros; by apply wp_ret|].
  apply (uwp_logout _ d iqn portal); auto with csi.
Qed.
End Unstage.

(** ** The call *)

Lemma unstage_allow_no_lock s req h o : unstage_allow s req h o -> lock_op o = false.
Proof. intros [o' Hq|?|? ? ? ?|?|? ? ? ? ?|? ? ? ? ? ? ? ? ? ? ? ?]; try done. by destruct o'. Qed.

Lemma uwp_unstage_by_protocol s req h : wp (unstage_policy s req) h (unstage_by_protocol s req) (fun _ _ => True).
Proof.
  unfold unstage_by_protocol. apply wp_quiet; [auto with quiet|]. intros protocol t.
  destruct (String.eqb protocol ProtocolNVMeOF); [apply uwp_unstageNVMeOFVolume|].
  destruct (String.eqb protocol ProtocolISCSI); [apply uwp_unstageISCSIVolume|].
  destruct (String.eqb protocol ProtocolSMB); apply uwp_unstage_share.
Qed.

Lemma wp_NodeUnstageVolume s req :
  wp (rpc_policy (us_VolumeId req) (unstage_policy s req)) [] (NodeUnstageVolume s req) (fun _ h => held (us_VolumeId req) h = false).
Proof.
  unfold NodeUnstageVolume. destruct (String.eqb _ ""); [by apply wp_observe_error|].
  destruct (String.eqb _ ""); [by apply wp_observe_error|].
  apply wp_with_volume_lock; [apply unstage_allow_no_lock|]. eapply wp_call_spec; [apply uwp_unstage_by_protocol|]. intros r t _.
  apply wp_look; [done|]. intros ?. by apply wp_ret.
Qed.

Lemma unstage_umount_args s req h args :
  unstage_allow s req h (Command "umount" args) ->
  mounted_at h (us_StagingTargetPath req) /\
  (args = [us_StagingTargetPath req] \/
   args = ["-l"; us_StagingTargetPath req] /\
   exists output e, nev (Command "umount" [us_StagingTargetPath req]) (output, Some e) ∈ h).
Proof. intros H. inversion H; subst; try done; split; eauto 6. Qed.

Lemma unstage_disconnect_args s req h args :
  unstage_allow s req h (Command "nvme" args) -> head args = Some "disconnect" ->
  exists device nqn, args = ["disconnect"; "-n"; nqn] /\
    backing_device req h device /\ subsystem_of h device nqn /\ released req h.
Proof.
  intros H Hd. inversion H; subst; try done.
  - destruct args as [|c args]; [done|]. injection Hd as ->. done.
  - eauto 8.
Qed.

Lemma unstage_session_args s req h name args a :
  unstage_allow s req h (Command name args) -> iscsiadm_args (Command name args) = Some a -> quiet_iscsiadm a = false ->
  exists device iqn portal, iqn ∈ a /\
    backing_device req h device /\ session_target h ("/sys/block/" +:+ Base device) iqn portal /\ released req h.
Proof.
  intros H Ha Hq. inversion H as [o Ho| | | | |? ? a' device iqn portal Hb Hs Hne Hr Ha' Hin]; subst; try done.
  - exfalso. cbn [quiet_op] in Ho. unfold quiet_command in Ho. rewrite Ha, Hq in Ho. cbn [iscsiadm_args] in Ha.
    destruct (String.eqb_spec name "iscsiadm") as [->|]; [done|]. by destruct (String.eqb_spec name "nsenter") as [->|].
  - rewrite Ha in Ha'. injection Ha' as <-. exists device, iqn, portal. split_and!; [|done..].
    apply elem_of_cons in Hin as [->|[->|Hn]%elem_of_cons]; [set_solver..|by apply elem_of_nil in Hn].
Qed.

(** C13: unstaging detaches only the volume at the staging path. In every execution of
    [NodeUnstageVolume], whatever the host answers, the call returns with its lock released,
    and everything below happens under the lock of the volume. The staging path is unmounted
    only after the mount table named it, lazily only after a plain umount failed, and no other
    path is unmounted. It is removed only once it was seen unmounted or was unmounted, except
    in test mode, and no other path is removed. A subsystem is disconnected, and a target
    logged out, only when the kernel reported it for the device that backed the staging path,
    and after the path was seen unmounted or its unmount was tried. *)
Theorem NodeUnstageVolume_safe s req tr out :
  exec (NodeUnstageVolume s req) tr out -> sane_host tr ->
  ((exists r, out = Done r) /\ held (us_VolumeId req) tr = false) /\
  (forall t1 args r t2, tr = t1 ++ nev (Command "umount" args) r :: t2 ->
     held (us_VolumeId req) t1 = true /\ mounted_at t1 (us_StagingTargetPath req) /\
     (args = [us_StagingTargetPath req] \/
      args = ["-l"; us_StagingTargetPath req] /\
      exists output e, nev (Command "umount" [us_StagingTargetPath req]) (output, Some e) ∈ t1)) /\
  (forall t1 path r t2, tr = t1 ++ nev (Remove path) r :: t2 ->
     held (us_VolumeId req) t1 = true /\ path = us_StagingTargetPath req /\ (testMode s = true \/ detached req t1)) /\
  (forall t1 args r t2, tr = t1 ++ nev (Command "nvme" args) r :: t2 -> head args = Some "disconnect" ->
     held (us_VolumeId req) t1 = true /\
     exists device nqn, args = ["disconnect"; "-n"; nqn] /\
       backing_device req t1 device /\ subsystem_of t1 device nqn /\ released req t1) /\
  (forall t1 name args a r t2, tr = t1 ++ nev (Command name args) r :: t2 ->
     iscsiadm_args (Command name args) = Some a -> quiet_iscsiadm a = false ->
     held (us_VolumeId req) t1 = true /\
     exists device iqn portal, iqn ∈ a /\
       backing_device req t1 device /\ session_target t1 ("/sys/block/" +:+ Base device) iqn portal /\ released req t1).
Proof.
  intros He Hc. split; [by apply (rpc_outcome (wp_NodeUnstageVolume s req) eq_refl He Hc id)|].
  split_and!; [intros t1 args r t2 E|intros t1 path r t2 E|intros t1 args r t2 E|intros t1 name args a r t2 E];
    pose proof (rpc_operations (wp_NodeUnstageVolume s req) eq_refl He Hc E) as [Hh Hw]%rpc_allow_work.
  - split; [done|]. by apply unstage_umount_args in Hw.
  - split; [done|]. by inversion Hw; subst.
  - intros Hd. split; [done|]. by apply unstage_disconnect_args in Hw.
  - intros Ha Hq. split; [done|]. exact (unstage_session_args s req t1 name args a Hw Ha Hq).
Qed.

(** ** A staged volume of one NVMe-oF subsystem *)

Definition demo_unstage : NodeUnstageVolumeRequest := mkNodeUnstage "v1" "/var/lib/kubelet/stage a".
Definition demo_service : NodeService := NewNodeService "node1" true false true false 0.

Definition staged_answers (o : nop) : option (nans o) :=
  match o return option (nans o) with
  | ReadFile path => if HasSuffix path "subsysnqn" then Some (Ok "nqn.v1") else None
  | OpenRead _ => Some (Ok (demo_file demo_table))
  | Command name args =>
      if String.eqb name "findmnt" then
        Some (if bool_decide ("FSTYPE" ∈ args) then "ext4" else "/dev/nvme0n1", None)
      else if existsb (String.eqb name) ["umount"; "nvme"] then Some ("", None) else None
  | _ => None
  end.

Definition demo_run : outcome node_result * Z * nhistory :=
  run_host (fake_host staged_answers) (NodeUnstageVolume demo_service demo_unstage).

Lemma NodeUnstageVolume_safe_witness :
  let tr := demo_run.2 in
  (((exists r, demo_run.1.1 = Done r) /\ held "v1" tr = false) /\
   (forall t1 args r t2, tr = t1 ++ nev (Command "umount" args) r :: t2 ->
      held "v1" t1 = true /\ mounted_at t1 "/var/lib/kubelet/stage a" /\
      (args = ["/var/lib/kubelet/stage a"] \/
       args = ["-l"; "/var/lib/kubelet/stage a"] /\
       exists output e, nev (Command "umount" ["/var/lib/kubelet/stage a"]) (output, Some e) ∈ t1))) /\
  (exists t1 r t2, tr = t1 ++ nev (Command "nvme" ["disconnect"; "-n"; "nqn.v1"]) r :: t2 /\
     held "v1" t1 = true /\ released demo_unstage t1).
Proof.
  intros tr.
  destruct (NodeUnstageVolume_safe demo_service demo_unstage tr demo_run.1.1) as (Ho & Hu & _ & Hd & _).
  - apply run_host_exec.
  - vm_compute. repeat split; discriminate.
  - split; [split; [exact Ho|exact Hu]|].
    exists (take (length tr - 4) tr), ("", None), (drop (length tr - 3) tr).
    assert (tr = take (length tr - 4) tr ++ nev (Command "nvme" ["disconnect"; "-n"; "nqn.v1"]) ("", None) :: drop (length tr - 3) tr) as E
      by (vm_compute; reflexivity).
    split; [exact E|]. destruct (Hd _ _ _ _ E eq_refl) as (Hh & device & nqn & _ & _ & _ & Hr). by split.
Defined.
