(* ===== verification/PublishingTheorems.v ===== *)
(** * Safety of publishing

    What every execution of [NodeService.NodePublishVolume] may do, whatever the
    host answers: what is mounted at the target path, and the single-writer rule. *)

From S2P Require Import Prelude GoStrings Prog Errors Api Metadata Common Retry NodeHost MountInfo NodeRecovery NodeSysfs NodeFiles NodeDevice NodeNvme NodeIscsi NodeHealth NodeService NodeQuiet NodeEvidence NodeRpc.

#[local] Set Default Proof Using "Type*".

Section Publish.
Context (s : NodeService) (req : NodePublishVolumeRequest).
Abbreviation staging := (pb_StagingTargetPath req).
Abbreviation target := (pb_TargetPath req).
Abbreviation cap := (pb_VolumeCapability req).
Abbreviation protocol := (getProtocolFromVolumeContext (pb_VolumeContext req)).
Abbreviation any := (fun _ _ => True).

(** The publications that the call read: the recorded ones in test mode,
    elsewhere the bind mounts of the staged source in the host's table. *)
Definition known_targets (h : nhistory) (targets : list string) : Prop :=
  if testMode s then exists recorded, nev (LoadPublications (pb_VolumeId req)) recorded ∈ h /\ targets = default [] recorded
  else exists source file, nev (EvalSymlinks staging) (Ok source) ∈ h /\
    nev (OpenRead "/proc/1/mountinfo") (Ok file) ∈ h /\ bindMountRefs (Clean source) file = Ok targets.

(** A volume with a single writer is published nowhere else. *)
Definition sole_publication (h : nhistory) : Prop :=
  single_writer cap = true -> exists targets, known_targets h targets /\ forall ref, ref ∈ targets -> Clean ref = Clean target.

(** What is staged has the kind that the capability asks for. *)
Definition staged_kind (h : nhistory) : Prop :=
  protocol ∈ [ProtocolNFS; ProtocolSMB] \/
  protocol ∈ [ProtocolNVMeOF; ProtocolISCSI] /\ exists k, nev (Stat staging) (Ok k) ∈ h /\ IsDir k = negb (is_block cap).

Definition publish_args : list string := ["-o"; if pb_Readonly req then "bind,ro" else "bind"; staging; target].

Inductive publish_allow (h : nhistory) : nop -> Prop :=
| publish_quiet o : quiet_op o = true -> publish_allow h o
| publish_mount :
    sole_publication h -> unmounted h target -> staged_kind h -> testMode s = false \/ protocol ∈ [ProtocolNVMeOF; ProtocolISCSI] ->
    publish_allow h (Command "mount" publish_args)
| publish_file : sole_publication h -> is_block cap = true -> publish_allow h (CreateExclusive target)
| publish_undo output e : nev (Command "mount" publish_args) (output, Some e) ∈ h -> publish_allow h (Remove target)
| publish_record : testMode s = true -> sole_publication h -> publish_allow h (AddPublication (pb_VolumeId req) (Clean target)).

Definition publish_policy : policy nsig := {| allow h o := publish_allow h o; env := host_env; crash := False |}.

#[export] Instance publish_quiet_policy : QuietPolicy publish_policy.
Proof. split; [apply publish_quiet|done]. Qed.

Lemma known_targets_app h t l : known_targets h l -> known_targets (h ++ t) l.
Proof.
  unfold known_targets. destruct (testMode s); [intros (r & ? & ?); exists r|intros (src & file & ? & ? & ?); exists src, file]; auto with csi.
Qed.

Lemma sole_publication_app h t : sole_publication h -> sole_publication (h ++ t).
Proof. intros H Hs. destruct (H Hs) as (l & ? & ?). exists l. split; [by apply known_targets_app|done]. Qed.

Lemma staged_kind_app h t : staged_kind h -> staged_kind (h ++ t).
Proof. intros [?|(? & k & ? & ?)]; [by left|right; split; [done|]; exists k; auto with csi]. Qed.

#[local] Hint Resolve sole_publication_app staged_kind_app : csi.

Abbreviation pwp := (wp publish_policy).

(** ** The single-writer rule *)

Lemma pwp_GetBindMountRefs h : pwp h (GetBindMountRefs staging) (fun r h' => forall refs, r = Ok refs ->
  exists source file, nev (EvalSymlinks staging) (Ok source) ∈ h' /\
    nev (OpenRead "/proc/1/mountinfo") (Ok file) ∈ h' /\ bindMountRefs (Clean source) file = Ok refs).
Proof.
  unfold GetBindMountRefs. apply wp_look; [done|]. intros [e|]; [by apply wp_ret|].
  apply wp_look; [done|]. intros [source|e]; [|by apply wp_ret].
  apply wp_look; [done|]. intros [file|e]; [|by apply wp_ret].
  destruct (bindMountRefs (Clean source) file) as [refs|e] eqn:Er; [|by apply wp_ret].
  destruct (o_closeErr file); apply wp_ret; [done|]. intros l [= <-]. exists source, file. auto with csi.
Qed.

Lemma pwp_published_targets h : pwp h (published_targets s req) (fun r h' => forall l, r = Ok l -> known_targets h' l).
Proof.
  unfold published_targets, known_targets. destruct (testMode s).
  - apply wp_look; [done|]. intros recorded. apply wp_ret. intros l [= <-]. exists recorded. auto with csi.
  - destruct (String.eqb staging ""); [by apply wp_ret|].
    eapply wp_call_spec; [apply pwp_GetBindMountRefs|]. intros [refs|e] t Hr; apply wp_ret; [|done].
    intros l [= <-]. by apply Hr.
Qed.

Lemma pwp_checkSingleWriter h : pwp h (checkSingleWriterPublication s req) (fun r h' => r = None -> sole_publication h').
Proof.
  unfold checkSingleWriterPublication, sole_publication. destruct (single_writer cap); [|by apply wp_ret]. cbn [negb].
  eapply wp_call_spec; [apply pwp_published_targets|]. intros [refs|e] t Hr; [|by apply wp_ret].
  destruct (existsb _ refs) eqn:Ex; apply wp_ret; [done|]. intros _ _. exists refs. split; [by apply Hr|].
  intros ref Hin. destruct (String.eqb_spec (Clean ref) (Clean target)) as [|Hne]; [done|]. exfalso.
  apply not_true_iff_false in Ex. apply Ex. apply existsb_exists. exists ref. split; [by apply list_elem_of_In|].
  by apply String.eqb_neq in Hne as ->.
Qed.

(** ** The mount *)

Lemma pwp_bind_mount h failure (Q : node_result -> nhistory -> Prop) :
  publish_allow h (Command "mount" publish_args) ->
  (forall r t, match r with Err _ => exists output e, nev (Command "mount" publish_args) (output, Some e) ∈ h ++ t | Ok _ => True end -> Q r (h ++ t)) ->
  pwp h (bind_mount staging target (pb_Readonly req) failure) Q.
Proof.
  intros Ha HQ.
  assert (["-o"; JoinMountOptions (bind_options (pb_Readonly req)); staging; target] = publish_args) as E
    by (unfold publish_args; by destruct (pb_Readonly req)).
  unfold bind_mount, mount_command. rewrite E. apply wp_bind, wp_host; [exact Ha|].
  intros [output [e|]] _; apply wp_ret; apply HQ; [|done]. exists output, e. auto with csi.
Qed.

Lemma pwp_unless_mounted h failure k :
  (forall t, unmounted (h ++ t) target -> pwp (h ++ t) k any) -> pwp h (unless_mounted target failure k) any.
Proof.
  intros Hk. eapply wp_call_spec; [apply wp_IsMounted|]. intros [[|]|e] t Hm; [by apply wp_ret|by apply Hk, Hm|by apply wp_ret].
Qed.

Lemma pwp_publish_share h name :
  protocol ∈ [ProtocolNFS; ProtocolSMB] -> sole_publication h -> pwp h (publish_share s name req) any.
Proof.
  intros Hp Hs. unfold publish_share. apply wp_quiet; [unfold create_missing; quiet_auto|]. intros [e|] t; [by apply wp_ret|].
  destruct (testMode s) eqn:Et; [by apply wp_ret|]. apply pwp_unless_mounted. intros t' Hu.
  apply pwp_bind_mount; [|done]. apply publish_mount; [auto with csi|done|by left|by left].
Qed.

Lemma pwp_publishBlockVolume h :
  protocol ∈ [ProtocolNVMeOF; ProtocolISCSI] -> is_block cap = true -> sole_publication h ->
  pwp h (publishBlockVolume staging target (pb_Readonly req)) any.
Proof.
  intros Hp Hb Hs. unfold publishBlockVolume. apply wp_look; [done|]. intros [k|e]; [|by apply wp_ret].
  assert (k = Directory \/ IsDir k = false) as [->|Ek] by (destruct k; auto); [by apply wp_ret|].
  set (h1 := h ++ [nev (Stat staging) (Ok k)]).
  assert (staged_kind h1) as Hk.
  { right. split; [done|]. exists k. rewrite Hb. subst h1. auto with csi. }
  assert (sole_publication h1) as Hs1 by (subst h1; auto with csi). clearbody h1.
  destruct k; [done|..]; (apply wp_look; [done|]; intros [e|]; [by apply wp_ret|]);
    (apply wp_bind, wp_host; [apply publish_file; auto with csi|]; intros fileErr _);
    (destruct (match fileErr with Some _ => _ | None => _ end); [by apply wp_ret|]);
    apply pwp_unless_mounted; intros t Hu; (apply wp_bind, pwp_bind_mount;
      [apply publish_mount; [auto 6 with csi|done|auto 6 with csi|by right]|]);
    (intros [[]|e] t' Hr; [by apply wp_ret|]; destruct Hr as (output & e' & Hr);
     apply wp_bind, wp_host; [by eapply publish_undo|]; intros ? _; by apply wp_ret).
Qed.

Lemma pwp_publishFilesystemVolume h :
  protocol ∈ [ProtocolNVMeOF; ProtocolISCSI] -> is_block cap = false -> sole_publication h ->
  pwp h (publishFilesystemVolume staging target (pb_Readonly req)) any.
Proof.
  intros Hp Hb Hs. unfold publishFilesystemVolume. apply wp_look; [done|]. intros [k|e]; [|by apply wp_ret].
  destruct (IsDir k) eqn:Ek; [|by apply wp_ret]. cbn [negb]. apply wp_look; [done|]. intros [e|]; [by apply wp_ret|].
  apply pwp_unless_mounted. intros t Hu. apply pwp_bind_mount; [|done]. apply publish_mount; [auto 6 with csi|done| |by right].
  right. split; [done|]. exists k. rewrite Hb. auto 6 with csi.
Qed.

Lemma pwp_publish_by_protocol h : sole_publication h -> pwp h (publish_by_protocol s req) any.
Proof.
  intros Hs. unfold publish_by_protocol. cbv zeta.
  destruct (String.eqb_spec protocol ProtocolNFS) as [Ep|]; [apply pwp_publish_share; [rewrite Ep; by left|done]|].
  destruct (String.eqb_spec protocol ProtocolSMB) as [Ep|]; [apply pwp_publish_share; [rewrite Ep; by right; left|done]|].
  destruct (String.eqb protocol ProtocolNVMeOF || String.eqb protocol ProtocolISCSI) eqn:Ep; [|by apply wp_ret].
  assert (protocol ∈ [ProtocolNVMeOF; ProtocolISCSI]) as Hp.
  { apply orb_true_iff in Ep as [Ep|Ep]; apply String.eqb_eq in Ep; rewrite Ep; [by left|by right; left]. }
  destruct (String.eqb staging ""); [by apply wp_ret|].
  destruct (is_block cap) eqn:Eb; [by apply pwp_publishBlockVolume|by apply pwp_publishFilesystemVolume].
Qed.
End Publish.

(** ** The call *)

Lemma publish_allow_no_lock s req h o : publish_allow s req h o -> lock_op o = false.
Proof. intros [o' Hq|? ? ? ?|? ?|? ? ?|? ?]; try done. by destruct o'. Qed.

Lemma wp_NodePublishVolume s req :
  wp (rpc_policy (pb_VolumeId req) (publish_policy s req)) [] (NodePublishVolume s req) (fun _ h => held (pb_VolumeId req) h = false).
Proof.
  unfold NodePublishVolume. destruct (String.eqb _ ""); [by apply wp_observe_error|].
  destruct (String.eqb _ ""); [by apply wp_observe_error|]. destruct (pb_VolumeCapability req) eqn:Ec; [|by apply wp_observe_error].
  apply wp_with_volume_lock; [apply publish_allow_no_lock|].
  eapply wp_call_spec; [apply pwp_checkSingleWriter|]. intros [e|] t Hs.
  { apply wp_look; [done|]. intros ?. by apply wp_ret. }
  specialize (Hs eq_refl). unfold observed. eapply wp_call_spec with (Q := fun _ => sole_publication s req).
  { eapply wp_call_spec; [by apply pwp_publish_by_protocol|]. intros r t1 _.
    apply wp_look; [done|]. intros ?. apply wp_ret. by do 2 apply sole_publication_app. }
  intros r t1 Hs1. apply wp_bind. unfold record_publication. destruct r as [[]|e]; [|by apply wp_ret, wp_ret].
  destruct (testMode s) eqn:Et; [|by apply wp_ret, wp_ret]. apply wp_host; [by apply publish_record|]. intros ? _. by apply wp_ret.
Qed.

Lemma publish_mount_args s req h args :
  publish_allow s req h (Command "mount" args) ->
  args = publish_args req /\ sole_publication s req h /\ unmounted h (pb_TargetPath req) /\ staged_kind req h.
Proof. intros H. by inversion H; subst. Qed.

(** C14: a volume is published only as the request and the single-writer rule allow. In
    every execution of [NodePublishVolume], whatever the host answers, the call returns with
    its lock released. Every mount is the bind mount of the staging path on the target path,
    read-only exactly when the request says so; it runs under the lock of the volume, after
    a mount table without the target path, and for a device only where the staged object has
    the kind of the capability. Where the capability has a single writer, the
    publications that the call read before name no other target path. The target
    is removed only after its own mount failed. *)
Theorem NodePublishVolume_safe s req tr out :
  exec (NodePublishVolume s req) tr out -> sane_host tr ->
  ((exists r, out = Done r) /\ held (pb_VolumeId req) tr = false) /\
  (forall t1 args r t2, tr = t1 ++ nev (Command "mount" args) r :: t2 ->
     held (pb_VolumeId req) t1 = true /\
     args = publish_args req /\ sole_publication s req t1 /\ unmounted t1 (pb_TargetPath req) /\ staged_kind req t1) /\
  (forall t1 path r t2, tr = t1 ++ nev (Remove path) r :: t2 ->
     held (pb_VolumeId req) t1 = true /\ path = pb_TargetPath req /\
     exists output e, nev (Command "mount" (publish_args req)) (output, Some e) ∈ t1) /\
  (forall t1 volumeID target r t2, tr = t1 ++ nev (AddPublication volumeID target) r :: t2 ->
     held (pb_VolumeId req) t1 = true /\ volumeID = pb_VolumeId req /\ target = Clean (pb_TargetPath req) /\
     testMode s = true /\ sole_publication s req t1).
Proof.
  intros He Hc. split; [exact (rpc_outcome (wp_NodePublishVolume s req) eq_refl He Hc id)|].
  split_and!; [intros t1 args r t2 E|intros t1 path r t2 E|intros t1 volumeID target r t2 E];
    pose proof (rpc_operations (wp_NodePublishVolume s req) eq_refl He Hc E) as [Hh Hw]%rpc_allow_work; (split; [exact Hh|]).
  - by apply publish_mount_args in Hw.
  - inversion Hw; subst; [done|]. eauto.
  - by inversion Hw; subst.
Qed.

(** ** A staged volume with a single writer, published once *)

Definition single_writer_request (target : string) : NodePublishVolumeRequest :=
  mkNodePublish "v1" target "/var/lib/kubelet/stage a" (Some (mkNodeCapability (mkVolumeCapability (Mount "ext4") SINGLE_NODE_SINGLE_WRITER) []))
    (Some (list_to_map [("protocol", "iscsi")])) true.

Definition demo_service : NodeService := NewNodeService "node1" true false true false 0.

Definition published_answers (table : string) (o : nop) : option (nans o) :=
  match o return option (nans o) with
  | OpenRead _ => Some (Ok (demo_file table))
  | EvalSymlinks p => Some (Ok p)
  | Stat _ => Some (Ok Directory)
  | MkdirAll _ => Some None
  | Command name args => if String.eqb name "mount" then Some ("", None) else None
  | _ => None
  end.

(** The staged volume alone, without the mount at /pods/b of [demo_table]. *)
Definition unpublished_table : string :=
  "29 1 0:26 / / rw,relatime shared:1 - ext4 /dev/root rw" +:+ String newline "" +:+
  "36 29 8:16 / /var/lib/kubelet/stage\040a rw,relatime - ext4 /dev/sdb rw" +:+ String newline "".

Definition is_done_ok (o : outcome node_result) : bool := match o with Done (Ok _) => true | _ => false end.

Definition demo_run (table target : string) : outcome node_result * Z * nhistory :=
  run_host (fake_host (published_answers table)) (NodePublishVolume demo_service (single_writer_request target)).

Lemma NodePublishVolume_safe_witness :
  let tr := (demo_run unpublished_table "/pods/c").2 in
  (exists t1 r t2, tr = t1 ++ nev (Command "mount" ["-o"; "bind,ro"; "/var/lib/kubelet/stage a"; "/pods/c"]) r :: t2 /\
     held "v1" t1 = true /\ sole_publication demo_service (single_writer_request "/pods/c") t1) /\
  (demo_run unpublished_table "/pods/c").1.1 = Done (Ok tt) /\
  is_done_ok (demo_run demo_table "/pods/c").1.1 = false.
Proof.
  intros tr.
  destruct (NodePublishVolume_safe demo_service (single_writer_request "/pods/c") tr (demo_run unpublished_table "/pods/c").1.1) as (_ & Hm & _).
  - apply run_host_exec.
  - vm_compute. repeat split; discriminate.
  - split; [|split; vm_compute; reflexivity].
    exists (take (length tr - 3) tr), ("", None), (drop (length tr - 2) tr).
    assert (tr = take (length tr - 3) tr ++ nev (Command "mount" ["-o"; "bind,ro"; "/var/lib/kubelet/stage a"; "/pods/c"]) ("", None) :: drop (length tr - 2) tr) as E
      by (vm_compute; reflexivity).
    split; [exact E|]. destruct (Hm _ _ _ _ E) as (Hh & _ & Hs & _). by split.
Defined.
