(* ===== verification/StatsTheorems.v ===== *)
(** * Bounds of the volume statistics

    What [NodeService.NodeGetVolumeStats] reports of a mounted volume: the
    64-bit arithmetic of the counts, and where they come from. *)

From S2P Require Import Prelude GoStrings Prog Errors Api Metadata Common Retry NodeHost MountInfo NodeFiles NodeService NodeQuiet NodeEvidence.

#[local] Set Default Proof Using "Type*".

(** The widths of the kernel's fields, and the counts of a consistent file system. *)
Record statfs_typed (st : Statfs_t) : Prop := {
  st_bsize : is_int64 (Bsize st); st_blocks : is_uint64 (Blocks st); st_bfree : is_uint64 (Bfree st);
  st_bavail : is_uint64 (Bavail st); st_files : is_uint64 (Files st); st_ffree : is_uint64 (Ffree st)
}.

Record statfs_consistent (st : Statfs_t) : Prop := {
  st_block_size : 0 <= Bsize st; st_size : is_uint64 (Blocks st * Bsize st);
  st_free : Bavail st <= Bfree st <= Blocks st; st_inodes : Ffree st <= Files st
}.

Definition bounded_usage (u : VolumeUsage) : Prop :=
  0 <= u_Total u <= maxInt64 /\ 0 <= u_Used u <= maxInt64 /\ 0 <= u_Available u <= maxInt64.
Definition ordered_usage (u : VolumeUsage) : Prop := u_Used u <= u_Total u /\ u_Available u <= u_Total u.

(** Saturation at the largest int64. *)
Lemma safe_spec z : is_uint64 z -> safeUint64ToInt64 z = Z.min maxInt64 z.
Proof.
  unfold is_uint64, uint64_max, safeUint64ToInt64, maxInt64. intros H. destruct (Z.ltb_spec 9223372036854775807 z); [lia|].
  rewrite to_int64_id by (unfold is_int64, int64_min, int64_max; lia). lia.
Qed.

Lemma safe_bounds z : is_uint64 z -> 0 <= safeUint64ToInt64 z <= maxInt64.
Proof. intros H. rewrite safe_spec by done. unfold is_uint64 in H. unfold maxInt64. lia. Qed.

Lemma byte_usage_bounded st : bounded_usage (byte_usage st).
Proof. by split_and!; apply safe_bounds, to_uint64_range. Qed.

Lemma inode_usage_bounded st : statfs_typed st -> bounded_usage (inode_usage st).
Proof. intros H. split_and!; apply safe_bounds; apply H || apply to_uint64_range. Qed.

(** Without overflow, the counts are the products, saturated. *)
Lemma byte_usage_exact st :
  statfs_typed st -> statfs_consistent st ->
  byte_usage st = mkUsage BYTES (Z.min maxInt64 (Blocks st * Bsize st)) (Z.min maxInt64 ((Blocks st - Bfree st) * Bsize st))
                    (Z.min maxInt64 (Bavail st * Bsize st)).
Proof.
  intros [Hz Hb Hf Ha _ _] [Hs Ht Hl _].
  assert (is_uint64 (Bfree st * Bsize st) /\ is_uint64 (Bavail st * Bsize st) /\ is_uint64 ((Blocks st - Bfree st) * Bsize st)) as (H1 & H2 & H3).
  { unfold is_uint64 in *. split_and!; nia. }
  assert (getBlockSize st = Bsize st) as Eb.
  { unfold getBlockSize. destruct (Z.ltb_spec (Bsize st) 0); [lia|]. apply to_uint64_id. unfold is_int64, is_uint64, int64_max, uint64_max in *. lia. }
  unfold byte_usage. cbv zeta. rewrite Eb, !(to_uint64_id (Blocks st * _)), (to_uint64_id (Bfree st * _)), (to_uint64_id (Bavail st * _)) by done.
  rewrite <- Z.mul_sub_distr_r, to_uint64_id by done. by rewrite !safe_spec by done.
Qed.

Lemma inode_usage_exact st :
  statfs_typed st -> statfs_consistent st ->
  inode_usage st = mkUsage INODES (Z.min maxInt64 (Files st)) (Z.min maxInt64 (Files st - Ffree st)) (Z.min maxInt64 (Ffree st)).
Proof.
  intros [_ _ _ _ Hf Hr] [_ _ _ Hi]. assert (is_uint64 (Files st - Ffree st)) as H by (unfold is_uint64 in *; lia).
  unfold inode_usage. cbv zeta. by rewrite to_uint64_id, !safe_spec by done.
Qed.

Lemma usages_ordered st :
  statfs_typed st -> statfs_consistent st -> ordered_usage (byte_usage st) /\ ordered_usage (inode_usage st).
Proof.
  intros Ht Hc. rewrite byte_usage_exact, inode_usage_exact by done. destruct Ht as [_ Hb Hf Ha _ Hr], Hc as [Hs _ Hl Hi].
  unfold is_uint64 in *. split; split; cbn; nia.
Qed.

(** ** The call *)

Definition stats_of (h : nhistory) (path : string) (r : res (list VolumeUsage)) : Prop :=
  forall usages, r = Ok usages ->
  exists kind st, nev (Stat path) (Ok kind) ∈ h /\ mounted_at h path /\ nev (Statfs path) (Ok st) ∈ h /\
    usages = byte_usage st :: if IsDir kind then [inode_usage st] else [].

Lemma wp_NodeGetVolumeStats s volumeID path :
  testMode s = false -> wp looking_policy [] (NodeGetVolumeStats s volumeID path) (fun r h => stats_of h path r).
Proof.
  intros Et. unfold NodeGetVolumeStats, stats_of. rewrite Et. destruct (String.eqb volumeID ""); [by apply wp_ret|].
  destruct (String.eqb path ""); [by apply wp_ret|]. apply wp_look; [done|]. intros [kind|e]; [|destruct (IsNotExist e); by apply wp_ret].
  eapply wp_call_spec; [apply wp_IsMounted_answer|]. intros [[|]|e] t Hm; [|by apply wp_ret..].
  apply wp_look; [done|]. intros [st|e]; apply wp_ret; [|done]. intros usages [= <-]. exists kind, st. auto 6 with csi.
Qed.

(** C30: statistics stay within their type. In every execution of [NodeGetVolumeStats] outside
    test mode, the call returns and only looks at the node. The usages that it reports are those
    of the mounted path, the bytes and, for a directory, the inodes. Whatever the
    kernel counts, every number is between 0 and the largest int64, although the products wrap
    in 64 bits; for a consistent file system nothing wraps: the total is
    blocks times block size and the use is what is not free, saturated, so neither the
    used nor the available bytes or inodes exceed the total. *)
Theorem NodeGetVolumeStats_bounds s volumeID path tr out :
  exec (NodeGetVolumeStats s volumeID path) tr out -> sane_host tr -> testMode s = false ->
  (forall o r, nev o r ∈ tr -> quiet_op o = true) /\
  exists r, out = Done r /\ forall usages, r = Ok usages ->
  exists kind st, nev (Stat path) (Ok kind) ∈ tr /\ mounted_at tr path /\ nev (Statfs path) (Ok st) ∈ tr /\
    usages = byte_usage st :: (if IsDir kind then [inode_usage st] else []) /\
    (statfs_typed st -> Forall bounded_usage usages) /\
    (statfs_typed st -> statfs_consistent st ->
     Forall ordered_usage usages /\ u_Total (byte_usage st) = Z.min maxInt64 (Blocks st * Bsize st) /\
     u_Used (byte_usage st) = Z.min maxInt64 ((Blocks st - Bfree st) * Bsize st)).
Proof.
  intros He Hc Et. pose proof (wp_NodeGetVolumeStats s volumeID path Et) as Hw.
  pose proof (sane_host_trace looking_policy tr eq_refl Hc) as Hs. split.
  - intros o r Hin. apply list_elem_of_split in Hin as (t1 & t2 & E). exact (wp_sound_allow _ _ _ _ _ _ Hw He Hs _ _ _ _ E).
  - pose proof (wp_sound_post _ _ _ _ _ _ Hw He Hs) as H. destruct out as [r|]; [|done]. exists r. split; [done|].
    intros usages Hu. destruct (H usages Hu) as (kind & st & ? & ? & ? & ->). exists kind, st.
    split_and!; [done..| |].
    + intros Ht. apply Forall_cons_2; [apply byte_usage_bounded|]. destruct (IsDir kind); [|by apply Forall_nil].
      by apply Forall_singleton, inode_usage_bounded.
    + intros Ht Hk. destruct (usages_ordered st Ht Hk) as [Ho Hi]. rewrite byte_usage_exact by done. split; [|done].
      rewrite <- byte_usage_exact by done. apply Forall_cons_2; [done|]. destruct (IsDir kind); [|by apply Forall_nil]. by apply Forall_singleton.
Qed.

(** ** A file system of 4 GiB, half of it free *)

Definition demo_statfs : Statfs_t := mkStatfs 4096 1048576 524288 500000 65536 65000.
Definition demo_service : NodeService := NewNodeService "node1" true false true false 0.

Definition stats_answers (o : nop) : option (nans o) :=
  match o return option (nans o) with
  | Stat _ => Some (Ok Directory)
  | OpenRead _ => Some (Ok (demo_file demo_table))
  | Statfs _ => Some (Ok demo_statfs)
  | _ => None
  end.

Definition demo_run : outcome (res (list VolumeUsage)) * Z * nhistory :=
  run_host (fake_host stats_answers) (NodeGetVolumeStats demo_service "v1" "/pods/b").

Lemma NodeGetVolumeStats_bounds_witness :
  (exists r, demo_run.1.1 = Done r /\ forall usages, r = Ok usages -> exists kind st,
     mounted_at demo_run.2 "/pods/b" /\ nev (Statfs "/pods/b") (Ok st) ∈ demo_run.2 /\
     usages = byte_usage st :: (if IsDir kind then [inode_usage st] else [])) /\
  demo_run.1.1 = Done (Ok [mkUsage BYTES 4294967296 2147483648 2048000000; mkUsage INODES 65536 536 65000]).
Proof.
  destruct (NodeGetVolumeStats_bounds demo_service "v1" "/pods/b" demo_run.2 demo_run.1.1) as (_ & r & Hr & Hu).
  - apply run_host_exec.
  - vm_compute. repeat split; discriminate.
  - reflexivity.
  - split; [|vm_compute; reflexivity]. exists r. split; [exact Hr|]. intros usages E.
    destruct (Hu usages E) as (kind & st & _ & Hm & Hs & He & _). exists kind, st. split; [exact Hm|split; [exact Hs|exact He]].
Defined.
