(* ===== verification/MountWorld.v ===== *)
(** * A host whose mount table changes

    What the kernel and mount(8) and umount(8) document about the mount table,
    as a relation between the table before and after an operation of the node:
    the hypothesis under which NodeLifecycle composes the calls of the node.
    Other processes may mount and unmount in between, except at the paths that
    belong to the volume ([mine]). *)

From S2P Require Import Prelude GoStrings Prog Errors Api Names Retry NodeHost MountInfo MountTheorems.

(** ** Tables *)

Abbreviation table := (list kernel_mount).

(** What is mounted: the numbers of the device, and the root within it. *)
Definition object : Type := (Z * Z * string)%type.
Definition object_of (m : kernel_mount) : object := (km_major m, km_minor m, km_root m).

(** The objects mounted at a path, the visible one last. *)
Definition at_path (p : string) (T : table) : list object :=
  map object_of (List.filter (fun m => String.eqb (Clean (km_point m)) p) T).

Definition good_table (T : table) : Prop := Forall well_formed T /\ T <> [].

(** The same objects at every path; options and order across paths may differ. *)
Definition same_mounts (T T' : table) : Prop := forall p, at_path p T' = at_path p T.

(** [q] lies strictly below [p]. *)
Definition below (p q : string) : bool := HasPrefix q (p +:+ "/").

(** ** mount(8) *)

(** The argument of -o, as the driver writes its commands. *)
Definition mount_options (args : list string) : option string :=
  match args with
  | flag :: opts :: rest =>
      if String.eqb flag "-o" then Some opts
      else match rest with
           | flag' :: opts' :: _ => if String.eqb flag "-t" && String.eqb flag' "-o" then Some opts' else None
           | _ => None
           end
  | _ => None
  end.

Definition has_option (name : string) (args : list string) : bool :=
  match mount_options args with Some opts => existsb (String.eqb name) (Split opts ",") | None => false end.

Definition mount_target (args : list string) : option string := last args.
Definition mount_source (args : list string) : option string := last (removelast args).

(** A mount puts one object on top of its target.  A bind mount puts the object
    there that is visible at its source, if something is mounted there. *)
Definition mounted_by (args : list string) (T T' : table) : Prop :=
  if has_option "remount" args then same_mounts T T'
  else
    exists target o, mount_target args = Some target /\
      at_path (Clean target) T' = at_path (Clean target) T ++ [o] /\
      (forall q, q <> Clean target -> at_path q T' = at_path q T) /\
      (has_option "bind" args = true -> forall source top, mount_source args = Some source ->
         last (at_path (Clean source) T) = Some top -> o = top).

(** ** umount(8) *)

(** An unmount removes the top object of its target, which is mounted; a lazy
    one also what is mounted below. *)
Definition unmounted_by (args : list string) (T T' : table) : Prop :=
  exists target o, last args = Some target /\
    at_path (Clean target) T = at_path (Clean target) T' ++ [o] /\
    (forall q, q <> Clean target ->
       at_path q T' = if String.eqb (hd "" args) "-l" && below (Clean target) q then [] else at_path q T).

(** ** Operations *)

(** A command that fails may have had its effect all the same. *)
Definition effect (failed : bool) (E : table -> table -> Prop) (T T' : table) : Prop :=
  if failed then same_mounts T T' \/ E T T' else E T T'.

Definition is_some {A : Type} (o : option A) : bool := match o with Some _ => true | None => false end.

(** The table of the own mount namespace is read whole, unless the file says otherwise. *)
Definition read_of (path : string) (r : res_of error opened) (T : table) : Prop :=
  match r with
  | Ok file => path = "/proc/self/mountinfo" -> o_readErr file = None -> o_content file = kernel_table T
  | Err _ => True
  end.

(** A comma in the name of a temporary file would end the option that names it. *)
Definition comma_free (path : string) : Prop := Split path "," = [path].

Definition table_step (e : event nsig) (T T' : table) : Prop :=
  match e with
  | existT o r =>
      match o return nans o -> Prop with
      | Command name args => fun r =>
          if String.eqb name "mount" then effect (is_some r.2) (mounted_by args) T T'
          else if String.eqb name "umount" then effect (is_some r.2) (unmounted_by args) T T'
          else same_mounts T T'
      | OpenRead path => fun r => same_mounts T T' /\ read_of path r T
      | CreateTemp _ => fun r => same_mounts T T' /\ match r with Ok path => comma_free path | Err _ => True end
      | _ => fun _ => same_mounts T T'
      end r
  end.

(** The target of an operation that changes the table. *)
Definition changed_target (o : nop) : option string :=
  match o with
  | Command name args =>
      if String.eqb name "mount" && negb (has_option "remount" args) || String.eqb name "umount" then Clean <$> last args else None
  | _ => None
  end.

Definition is_mount (o : nop) : bool := match o with Command name _ => String.eqb name "mount" | _ => false end.

(** ** Executions *)

Section World.
Context (mine : string -> Prop).

(** What others do. *)
Definition elsewhere (T T' : table) : Prop := good_table T' /\ forall p, mine p -> at_path p T' = at_path p T.

(** The table before and after the operations of a trace, others in between. *)
Fixpoint world (tr : nhistory) (T T' : table) : Prop :=
  match tr with
  | [] => elsewhere T T'
  | e :: tr' => exists T1 T2, elsewhere T T1 /\ table_step e T1 T2 /\ good_table T2 /\ world tr' T2 T'
  end.
End World.

(** ** Facts *)

Lemma same_mounts_refl T : same_mounts T T.
Proof. done. Qed.
#[export] Hint Resolve same_mounts_refl : csi.

(** A path is left by an operation with another target that it does not lie below. *)
Lemma unchanged_step e T T' q :
  (forall t, changed_target (projT1 e) = Some t -> q <> t /\ below t q = false) -> table_step e T T' -> at_path q T' = at_path q T.
Proof.
  destruct e as [o r]. intros Hc. cbn [projT1] in Hc. destruct o; cbn [table_step]; try (intros H; exact (H q)); try (by intros [H _]).
  cbn [changed_target] in Hc.
  destruct (String.eqb_spec name "mount") as [->|Hm]; [|destruct (String.eqb_spec name "umount") as [->|Hu]; [|intros H; exact (H q)]].
  - assert (mounted_by args T T' -> at_path q T' = at_path q T) as H.
    { unfold mounted_by. destruct (has_option "remount" args); [intros H; apply H|].
      intros (target & ob & Ht & _ & Hq & _). apply Hq. unfold mount_target in Ht. rewrite Ht in Hc. by destruct (Hc _ eq_refl). }
    unfold effect. destruct (is_some _); [intros [Hs|He]; [apply Hs|by apply H]|exact H].
  - assert (unmounted_by args T T' -> at_path q T' = at_path q T) as H.
    { intros (target & ob & Ht & _ & Hq). rewrite Ht in Hc. destruct (Hc _ eq_refl) as [Hne Hb]. rewrite Hq by done. by rewrite Hb, andb_false_r. }
    unfold effect. destruct (is_some _); [intros [Hs|He]; [apply Hs|by apply H]|exact H].
Qed.

Lemma harmless_step e T T' : changed_target (projT1 e) = None -> table_step e T T' -> same_mounts T T'.
Proof. intros Hc Hs q. apply (unchanged_step e); [|done]. by rewrite Hc. Qed.

Lemma other_step e T T' p q :
  changed_target (projT1 e) = Some p -> q <> p -> below p q = false -> table_step e T T' -> at_path q T' = at_path q T.
Proof. intros Hc Hne Hb Hs. apply (unchanged_step e); [|done]. rewrite Hc. by intros t [= <-]. Qed.

(** What a mount does to its target. *)
Lemma mount_step_at q args output err T T' :
  changed_target (Command "mount" args) = Some q -> table_step (nev (Command "mount" args) (output, err)) T T' ->
  err <> None /\ at_path q T' = at_path q T \/
  exists o, at_path q T' = at_path q T ++ [o] /\
    (has_option "bind" args = true -> forall source top, mount_source args = Some source ->
       last (at_path (Clean source) T) = Some top -> o = top).
Proof.
  cbn [changed_target]. rewrite (String.eqb_refl "mount"). destruct (has_option "remount" args) eqn:Hr; [done|]. cbn [andb negb orb].
  intros (target & Ht & ->)%fmap_Some. cbn [table_step nev ev]. rewrite (String.eqb_refl "mount"). unfold effect. cbn [snd].
  assert (mounted_by args T T' -> exists o, at_path (Clean target) T' = at_path (Clean target) T ++ [o] /\
    (has_option "bind" args = true -> forall source top, mount_source args = Some source ->
       last (at_path (Clean source) T) = Some top -> o = top)) as H.
  { unfold mounted_by, mount_target. rewrite Hr. intros (target' & o & Ht' & Ha & _ & Hb). rewrite Ht in Ht'. injection Ht' as <-. by exists o. }
  destruct err; cbn [is_some]; [intros [Hs|He]; [by left|]|intros He]; auto.
Qed.

(** What an unmount does to its target. *)
Lemma umount_step_at q args output err T T' :
  changed_target (Command "umount" args) = Some q -> (length (at_path q T) <= 1)%nat ->
  table_step (nev (Command "umount" args) (output, err)) T T' ->
  err <> None /\ at_path q T' = at_path q T \/ at_path q T' = [].
Proof.
  cbn [changed_target]. intros (target & Ht & ->)%fmap_Some Hone. cbn [table_step nev ev].
  change (String.eqb "umount" "mount") with false. rewrite (String.eqb_refl "umount"). unfold effect. cbn [snd].
  assert (unmounted_by args T T' -> at_path (Clean target) T' = []) as H.
  { intros (target' & o & Ht' & Hp & _). rewrite Ht in Ht'. injection Ht' as <-.
    rewrite Hp, length_app in Hone. cbn in Hone. destruct (at_path (Clean target) T'); [done|cbn in Hone; lia]. }
  destruct err; cbn [is_some]; [intros [Hs|He]; [by left|]|intros He]; auto.
Qed.

(** What a lazy unmount does below its target. *)
Lemma lazy_below target (r : nans (Command "umount" ["-l"; target])) T T' q :
  q <> Clean target -> below (Clean target) q = true -> table_step (nev (Command "umount" ["-l"; target]) r) T T' ->
  at_path q T' = at_path q T \/ at_path q T' = [].
Proof.
  intros Hne Hb. cbn [table_step nev ev]. change (String.eqb "umount" "mount") with false. rewrite (String.eqb_refl "umount").
  assert (unmounted_by ["-l"; target] T T' -> at_path q T' = []) as H.
  { intros (t & o & [= <-] & _ & Hq). rewrite Hq by done. cbn [hd]. by rewrite Hb. }
  unfold effect. destruct (is_some _); [intros [Hs|He]; [left; apply Hs|right; by apply H]|right; by apply H].
Qed.

(** A path is mounted in the table exactly when an object is mounted there. *)
Lemma existsb_at_path p T : existsb (fun m => String.eqb (Clean (km_point m)) p) T = negb (bool_decide (at_path p T = [])).
Proof.
  unfold at_path. induction T as [|m T IH]; [done|]. cbn [existsb List.filter]. destruct (String.eqb _ p); [done|]. exact IH.
Qed.

Lemma read_table p file T T' :
  good_table T -> table_step (nev (OpenRead "/proc/self/mountinfo") (Ok file)) T T' ->
  same_mounts T T' /\ forall b, path_in_table p file = Ok b -> b = negb (bool_decide (at_path p T = [])).
Proof.
  intros [Hw Hne] [Hs Hread]. split; [done|]. intros b Hb. cbn [read_of] in Hread.
  destruct file as [content readErr closeErr]. cbn [o_readErr o_content] in Hread.
  destruct readErr as [e|].
  - exfalso. unfold path_in_table, scan_lines in Hb. cbn [o_content o_readErr] in Hb.
    destruct (fitting_lines _) as [ls fits]. destruct (mounted_in_lines p ls false); [|done]. by destruct fits.
  - rewrite (Hread eq_refl eq_refl) in Hb.
    change (path_in_table p (mkOpened (kernel_table T) None closeErr)) with (path_in_table p (kernel_file T)) in Hb.
    rewrite path_in_kernel_table in Hb by done. injection Hb as <-. apply existsb_at_path.
Qed.
