(* ===== verification/MountTracking.v ===== *)
(** * Tracking a mount point through a call

    A call of the node changes the mount table at one path only, and mounts there
    only what it knows to be unmounted: the policy [track_policy], proved of the
    handlers in NodeLifecycle, and what follows from it on a host whose table
    behaves as documented ([MountWorld.world]). *)

From S2P Require Import Prelude GoStrings Prog Errors Api Retry NodeHost MountInfo MountTheorems MountWorld NodeRecovery NodeFiles NodeQuiet.

#[local] Set Default Proof Using "Type*".

Definition self_table : string := "/proc/self/mountinfo".

(** ** What a call knows of a path *)

Definition targets (p : string) (o : nop) : bool := bool_decide (changed_target o = Some p).

(** Learnt from the first table that is read, and from the own commands. *)
Definition known_step (p : string) (k : option bool) (e : event nsig) : option bool :=
  match e with
  | existT o r =>
      match o return nans o -> option bool with
      | Command name args => fun r =>
          if targets p (Command name args) then
            match r.2 with None => Some (is_mount (Command name args)) | Some _ => None end
          else k
      | OpenRead path => fun r =>
          match k, r with
          | None, Ok file => if String.eqb path self_table then match path_in_table p file with Ok b => Some b | Err _ => None end else k
          | _, _ => k
          end
      | _ => fun _ => k
      end r
  end.
Definition known (p : string) (h : nhistory) : option bool := foldl (known_step p) None h.

Lemma known_snoc p h e : known p (h ++ [e]) = known_step p (known p h) e.
Proof. apply foldl_snoc. Qed.

(** What is known stays known while the table is not changed. *)
Lemma known_step_stays p b e : changed_target (projT1 e) = None -> known_step p (Some b) e = Some b.
Proof.
  destruct e as [o r]. cbn [projT1]. destruct o; try done. intros Hc. cbn [known_step]. unfold targets. by rewrite Hc.
Qed.

Definition harmless (t : nhistory) : Prop := Forall (fun e => changed_target (projT1 e) = None) t.

Lemma known_stays p b h t : known p h = Some b -> harmless t -> known p (h ++ t) = Some b.
Proof.
  unfold known. rewrite foldl_app. intros ->. induction 1 as [|e t He _ IH]; [done|]. cbn [foldl]. by rewrite known_step_stays.
Qed.

(** ** The policy *)

Section Track.
Context (p : string) (W : nop -> Prop).

(** Changes are made at [p] only, by operations of [W], mounts where [p] is known
    not to be mounted. *)
Definition track_allow (h : nhistory) (o : nop) : Prop :=
  forall t, changed_target o = Some t -> t = p /\ W o /\ (is_mount o = true -> known p h = Some false).

(** The tables that are read agree with what is known. *)
Definition consistent (h : nhistory) (o : nop) : nans o -> Prop :=
  match o return nans o -> Prop with
  | OpenRead path => fun r => path = self_table -> forall file b b', r = Ok file -> path_in_table p file = Ok b -> known p h = Some b' -> b = b'
  | CreateTemp _ => fun r => forall path, r = Ok path -> comma_free path
  | _ => fun _ => True
  end.

Definition track_policy : policy nsig :=
  {| allow := track_allow; env h o r := host_env h o r /\ consistent h o r; crash := False |}.

Lemma quiet_harmless (o : nop) : quiet_op o = true -> changed_target o = None.
Proof.
  destruct o; try done. cbn [quiet_op changed_target]. unfold quiet_command. intros H.
  destruct (String.eqb_spec name "mount") as [->|]; [done|]. by destruct (String.eqb_spec name "umount") as [->|].
Qed.

#[export] Instance track_quiet_policy : QuietPolicy track_policy.
Proof. split; [intros h o Ho t Ht; by rewrite quiet_harmless in Ht|by intros h o r [? _]]. Qed.

Lemma track_harmless h (o : nop) : changed_target o = None -> track_allow h o.
Proof. intros Ho t Ht. by rewrite Ho in Ht. Qed.

(** ** Soundness on a host whose table behaves as documented *)

Section Sound.
Context (mine : string -> Prop) (Hmine : mine p) (Hbelow : forall q, mine q -> below p q = false).

(** At most one object is mounted at [p], and what is known is true. *)
Definition tracked (h : nhistory) (T : table) : Prop :=
  (length (at_path p T) <= 1)%nat /\ forall b, known p h = Some b -> b = negb (bool_decide (at_path p T = [])).

Lemma tracked_same h T T' : at_path p T' = at_path p T -> tracked h T -> tracked h T'.
Proof using Type. unfold tracked. by intros ->. Qed.

(** An operation that leaves the table tells nothing wrong. *)
Lemma tracked_look h o r T1 T2 :
  changed_target o = None -> good_table T1 -> tracked h T1 -> table_step (nev o r) T1 T2 ->
  consistent h o r /\ tracked (h ++ [nev o r]) T2.
Proof using Type.
  intros Hc Hg [Hone Hk] Hs.
  pose proof (harmless_step (nev o r) T1 T2 Hc Hs p) as Ep.
  assert (forall (k : option bool), known_step p (known p h) (nev o r) = k -> (forall b, k = Some b -> b = negb (bool_decide (at_path p T1 = []))) ->
    tracked (h ++ [nev o r]) T2) as Hgo.
  { intros k Ek Hb. apply (tracked_same _ T1); [done|]. split; [done|]. by rewrite known_snoc, Ek. }
  destruct o; try (split; [done|by eapply Hgo; [reflexivity|]]).
  - cbn [consistent]. destruct (String.eqb_spec path self_table) as [->|Hne]; [|split; [done|]].
    + destruct r as [file|e]; [|split; [by intros ? ? ? ?|]; eapply Hgo; [reflexivity|]; cbn; by destruct (known p h)].
      destruct (read_table p file T1 T2 Hg Hs) as [_ Hread]. split.
      * intros _ f b b' [= <-] Hb Hb'. rewrite (Hread _ Hb). symmetry. by apply Hk.
      * eapply Hgo; [reflexivity|]. cbn. destruct (known p h) as [k|]; [by intros b [= <-]; apply Hk|].
        destruct (path_in_table p file) as [b|]; [|done]. intros b' [= <-]. by apply Hread.
    + eapply Hgo; [reflexivity|]. cbn. apply String.eqb_neq in Hne. rewrite Hne. destruct (known p h), r; by auto.
  - destruct Hs as [_ Hs]. split; [by intros path ->|by eapply Hgo].
  - split; [done|]. apply (Hgo (known p h)); [|exact Hk]. cbn [known_step nev ev]. unfold targets. by rewrite Hc.
Qed.

(** A mount or unmount keeps the path at one object at most. *)
Lemma tracked_change h o r T1 T2 :
  changed_target o = Some p -> (is_mount o = true -> known p h = Some false) -> tracked h T1 -> table_step (nev o r) T1 T2 ->
  consistent h o r /\ tracked (h ++ [nev o r]) T2 /\ (is_mount o = true -> at_path p T1 = []).
Proof using Type.
  intros Hc Hm [Hone Hk] Hs. destruct o; try done. cbn [nans] in r. destruct r as [output err].
  assert (is_mount (Command name args) = true -> at_path p T1 = []) as Hempty.
  { intros E. specialize (Hk _ (Hm E)). by case_bool_decide. }
  split; [done|]. split; [|exact Hempty]. unfold tracked. rewrite known_snoc. cbn [known_step nev ev]. unfold targets.
  rewrite bool_decide_true by done. cbn [snd is_mount] in *.
  assert (name = "mount" \/ name = "umount") as [-> | ->].
  { cbn [changed_target] in Hc. destruct (String.eqb_spec name "mount"); [by left|]. destruct (String.eqb_spec name "umount"); [by right|done]. }
  - destruct (mount_step_at p args output err T1 T2 Hc Hs) as [[He E]|(o & E & _)]; rewrite E, (Hempty eq_refl); split; cbn; try lia.
    + by destruct err.
    + destruct err; [done|]. by intros b [= <-].
  - destruct (umount_step_at p args output err T1 T2 Hc Hone Hs) as [[He E]|E]; rewrite E; split; cbn; try lia; [by destruct err|].
    destruct err; [done|]. by intros b [= <-].
Qed.

(** ** Executions *)

(** An invariant of the table that the changes of the call keep. *)
Context (Inv : table -> Prop).
Context (Inv_same : forall T T', (forall q, mine q -> at_path q T' = at_path q T) -> Inv T -> Inv T').
Context (Inv_change : forall (o : nop) (r : nans o) T1 T2, W o -> changed_target o = Some p -> (is_mount o = true -> at_path p T1 = []) ->
  (length (at_path p T1) <= 1)%nat -> (forall q, mine q -> q <> p -> at_path q T2 = at_path q T1) ->
  table_step (nev o r) T1 T2 -> Inv T1 -> Inv T2).

Lemma track_step h o r T1 T2 :
  track_allow h o -> good_table T1 -> tracked h T1 -> Inv T1 -> table_step (nev o r) T1 T2 ->
  consistent h o r /\ tracked (h ++ [nev o r]) T2 /\ Inv T2.
Proof.
  intros Ha Hg Ht HI Hs. destruct (changed_target o) as [t|] eqn:Hc; swap 1 2.
  - destruct (tracked_look h o r T1 T2 Hc Hg Ht Hs) as [? ?]. split_and!; [done..|].
    apply (Inv_same T1); [|done]. intros q _. exact (harmless_step (nev o r) T1 T2 Hc Hs q).
  - destruct (Ha t Hc) as (-> & HW & Hm). destruct (tracked_change h o r T1 T2 Hc Hm Ht Hs) as (? & ? & He). split_and!; [done..|].
    apply (Inv_change o r T1); [done..|by destruct Ht| |done|done]. intros q Hq Hne.
    exact (other_step (nev o r) T1 T2 p q Hc Hne (Hbelow q Hq) Hs).
Qed.

Lemma track_run {A : Type} (c : Host A) post h tr out T T' :
  wp track_policy h c post -> exec c tr out -> env_trace host_policy h tr -> world mine tr T T' -> good_table T ->
  tracked h T -> Inv T ->
  (exists a, out = Done a /\ post a (h ++ tr)) /\ tracked (h ++ tr) T' /\ Inv T'.
Proof.
  intros Hwp He. revert h T Hwp. induction He as [a| |o k r tr out He IH]; intros h T Hwp Hsane Hw Hg Ht HI.
  - rewrite app_nil_r. destruct Hw as [_ Hw]. split; [by exists a|]. split; [by apply (tracked_same _ T); [apply Hw|]|by apply (Inv_same T)].
  - done.
  - destruct Hwp as [Ha Hk], Hsane as [Hr Hsane], Hw as (T1 & T2 & [Hg1 Hsame] & Hs & Hg2 & Hw).
    assert (tracked h T1) as Ht1 by (apply (tracked_same _ T); [by apply Hsame|done]).
    assert (Inv T1) as HI1 by by apply (Inv_same T).
    destruct (track_step h o r T1 T2 Ha Hg1 Ht1 HI1 Hs) as (Hc & Ht2 & HI2).
    rewrite app_assoc_reverse_cons. by apply (IH _ T2); [apply Hk; split|..].
Qed.
End Sound.
End Track.
