(* ===== verification/NodeCalm.v ===== *)
(** * Programs of the node that mount nothing

    Every step of the calls but the mounts and unmounts themselves: they leave the
    table of the host as it is ([calm]), and so what a call knows of a path. *)

From S2P Require Import Prelude GoStrings Prog Errors Api Retry NodeHost MountInfo MountTheorems MountWorld MountTracking NodeRecovery NodeSysfs NodeFiles NodeDevice NodeNvme NodeIscsi NodeHealth NodeService NodeQuiet NodeEvidence.

#[local] Set Default Proof Using "Type*".

(** ** Calm programs *)

Definition nothing (_ : nop) : Prop := False.

Definition calm {A : Type} (c : Host A) : Prop := forall p h, wp (track_policy p nothing) h c (fun _ _ => True).

Lemma wp_nothing {A : Type} p W h (c : Host A) Q :
  wp (track_policy p nothing) h c Q -> wp (track_policy p W) h c (fun a h' => Q a h' /\ exists t, h' = h ++ t /\ harmless t).
Proof.
  revert h. induction c as [a| |o k IH]; intros h; [|done|].
  - intros H. apply wp_ret. split; [done|]. exists []. by rewrite app_nil_r; split; [|constructor].
  - intros [Ha Hk]. assert (changed_target o = None) as Ho by (destruct (changed_target o) as [t|] eqn:E; [by destruct (Ha t E) as (_ & [] & _)|done]).
    split; [by apply track_harmless|]. intros r Hr. eapply wp_mono; [|exact (IH r _ (Hk r Hr))].
    intros a h' (HQ & t & -> & Ht). split; [done|]. exists (ev o r :: t). rewrite <- app_assoc. split; [done|]. by constructor.
Qed.

Lemma calm_quiet {A : Type} (c : Host A) : quiet c -> calm c.
Proof. intros Hq p h. apply Hq, _. Qed.

Lemma calm_ret {A : Type} (a : A) : calm (Ret a).
Proof. intros p h. by apply wp_ret. Qed.

Lemma calm_host (o : nop) : changed_target o = None -> calm (host o).
Proof. intros Ho p h. apply wp_host; [by apply track_harmless|done]. Qed.

Lemma calm_bind {A B : Type} (c : Host A) (f : A -> Host B) : calm c -> (forall a, calm (f a)) -> calm (bind c f).
Proof. intros Hc Hf p h. apply wp_bind. eapply wp_mono; [|apply Hc]. intros a h' _. apply Hf. Qed.

Lemma calm_for_range {A R : Type} (l : list A) (body : A -> Host (option R)) :
  (forall x, calm (body x)) -> calm (for_range l body).
Proof.
  intros H. induction l as [|x l IH]; [apply calm_ret|]. apply calm_bind; [apply H|]. intros [r|]; [apply calm_ret|apply IH].
Qed.

Create HintDb calm discriminated.
#[export] Hint Resolve calm_ret : calm.
#[export] Hint Extern 2 (calm _) => (apply calm_quiet; solve [auto with quiet nocore]) : calm.

Ltac calm_step :=
  match goal with
  | |- calm (bind _ _) => apply calm_bind; [|intros ?]
  | |- calm (Ret _) => apply calm_ret
  | |- calm (host _) => apply calm_host; reflexivity
  | |- calm (for_range _ _) => apply calm_for_range; intros ?
  | |- calm (match ?x with _ => _ end) => destruct x
  | |- calm _ => solve [eauto with calm nocore]
  end; cbv beta iota zeta.
Ltac calm_auto := cbv zeta; repeat calm_step.

(** ** Sequencing *)

Section Rules.
Context {p : string} {W : nop -> Prop}.
Abbreviation twp := (wp (track_policy p W)).

Lemma wp_calm {A B : Type} h (c : Host A) (f : A -> Host B) Q :
  calm c -> (forall a t, harmless t -> twp (h ++ t) (f a) Q) -> twp h (bind c f) Q.
Proof.
  intros Hc Hf. apply wp_bind. eapply wp_mono; [|apply wp_nothing, Hc]. intros a h' (_ & t & -> & Ht). by apply Hf.
Qed.

Lemma wp_calm_post {A : Type} h (c : Host A) (Q : A -> nhistory -> Prop) :
  calm c -> (forall a t, harmless t -> Q a (h ++ t)) -> twp h c Q.
Proof. intros Hc HQ. eapply wp_mono; [|apply wp_nothing, Hc]. intros a h' (_ & t & -> & Ht). by apply HQ. Qed.

(** A path after [IsMounted]. *)
Lemma wp_IsMounted_known h target :
  IsAbs target = true -> Clean target = p -> twp h (IsMounted target) (fun r h' => forall b, r = Ok b -> known p h' = Some b).
Proof.
  intros Habs Hp. unfold IsMounted. apply wp_look; [done|]. intros [e|]; [by apply wp_ret|].
  apply wp_bind, wp_host; [by apply track_harmless|]. intros [file|e] [_ Henv]; [|by apply wp_ret].
  set (h1 := h ++ _) in *. unfold isPathInMountInfo, Abs. rewrite Habs.
  destruct (String.eqb_spec target "") as [->|_]; [done|]. rewrite Hp.
  apply wp_bind, wp_bind, wp_ret, wp_ret. destruct (path_in_table p file) as [b|e] eqn:Eb; [|by apply wp_ret].
  destruct (o_closeErr file); [by apply wp_ret|]. apply wp_bind, wp_host; [by apply track_harmless|]. intros [e|] _; [by apply wp_ret|].
  apply wp_ret. intros b' [= <-]. rewrite known_snoc. unfold h1 in *. rewrite known_snoc. cbn [consistent] in Henv. cbn [known_step nev ev].
  destruct (known p _) as [k|] eqn:Ek; [f_equal; symmetry; by apply (Henv eq_refl file)|]. by rewrite Eb.
Qed.
End Rules.

(** ** The steps of staging *)

Lemma calm_iscsiadm args : calm (iscsiadm args).
Proof. unfold iscsiadm. calm_auto. Qed.
#[export] Hint Resolve calm_iscsiadm : calm.

Lemma calm_create_missing what path : calm (create_missing what path).
Proof. apply calm_quiet. unfold create_missing. quiet_auto. Qed.

Lemma calm_writeSMBCredentialsFile secrets : calm (writeSMBCredentialsFile secrets).
Proof. unfold writeSMBCredentialsFile. calm_auto. Qed.
#[export] Hint Resolve calm_create_missing calm_writeSMBCredentialsFile : calm.

Lemma calm_refuseTeardown staging : calm (refuseTeardownWhileStaged staging).
Proof. unfold refuseTeardownWhileStaged. calm_auto. Qed.

Lemma calm_stageBlockDevice device staging : calm (stageBlockDevice device staging).
Proof. unfold stageBlockDevice, link_device. calm_auto. Qed.

Lemma calm_disconnectNVMeOF nqn : calm (disconnectNVMeOF nqn).
Proof. unfold disconnectNVMeOF. calm_auto. Qed.

Lemma calm_pause more delay : calm (pause_before_retry more delay).
Proof. unfold pause_before_retry. calm_auto. Qed.

Lemma calm_logoutISCSITarget iqn : calm (logoutISCSITarget iqn).
Proof. unfold logoutISCSITarget. calm_auto. Qed.
#[export] Hint Resolve calm_refuseTeardown calm_stageBlockDevice calm_disconnectNVMeOF calm_pause calm_logoutISCSITarget : calm.

Lemma calm_forceKill iqn : calm (forceKillISCSISession iqn).
Proof. unfold forceKillISCSISession. calm_auto. Qed.
#[export] Hint Resolve calm_forceKill : calm.

Lemma calm_forceKillByIQN iqn : calm (forceKillISCSISessionByIQN iqn).
Proof. unfold forceKillISCSISessionByIQN. calm_auto. Qed.

Lemma calm_prune_portals p portals : calm (prune_portals p portals).
Proof. induction portals as [|dp rest IH]; cbn [prune_portals]; calm_auto; apply IH. Qed.
#[export] Hint Resolve calm_forceKillByIQN calm_prune_portals : calm.

Lemma calm_loginISCSITarget p : calm (loginISCSITarget p).
Proof. unfold loginISCSITarget, create_portal_entry. calm_auto. Qed.

Lemma calm_drop_stale_connection nqn staging wait : calm (drop_stale_connection nqn staging wait).
Proof. unfold drop_stale_connection. calm_auto. Qed.

Lemma calm_findNVMeDeviceByNQN nqn : calm (findNVMeDeviceByNQN nqn).
Proof. intros p h. eapply wp_mono; [|apply wp_findNVMeDeviceByNQN]. done. Qed.

Lemma calm_waitForNVMeDevice nqn : calm (waitForNVMeDevice nqn).
Proof. intros p h. eapply wp_mono; [|apply wp_waitForNVMeDevice]. done. Qed.

Lemma calm_findISCSIDevice iqn : calm (findISCSIDevice iqn).
Proof. intros p h. eapply wp_mono; [|apply wp_findISCSIDevice]. done. Qed.

Lemma calm_waitForISCSIDevice iqn : calm (waitForISCSIDevice iqn).
Proof. intros p h. eapply wp_mono; [|apply wp_waitForISCSIDevice]. done. Qed.
#[export] Hint Resolve calm_loginISCSITarget calm_drop_stale_connection calm_findNVMeDeviceByNQN calm_waitForNVMeDevice
  calm_findISCSIDevice calm_waitForISCSIDevice : calm.

Lemma calm_retry_loop {T : Type} cfg (fn : Host (res T)) n attempt backoff lastErr :
  calm fn -> calm (retry_loop cfg fn n attempt backoff lastErr).
Proof.
  intros Hf. revert attempt backoff lastErr. induction n as [|n IH]; intros attempt backoff lastErr; cbn [retry_loop]; calm_auto;
    first [apply IH|exact Hf|by apply calm_host].
Qed.

Lemma calm_connectNVMeOFTarget s p : calm (connectNVMeOFTarget s p).
Proof.
  unfold connectNVMeOFTarget, WithRetry. cbv zeta. apply calm_bind; [calm_auto|]. intros _. apply calm_bind; [|intros ?; calm_auto].
  apply calm_retry_loop. unfold attemptNVMeConnect. calm_auto.
Qed.
#[export] Hint Resolve calm_connectNVMeOFTarget : calm.

Lemma calm_verifyDeviceSize s device ctx : calm (verifyDeviceSize s device ctx).
Proof. unfold verifyDeviceSize, getBlockDeviceSize, getExpectedCapacity. calm_auto. Qed.

Lemma calm_probe_loop n attempt device fsType failure noSignature : calm (probe_loop n attempt device fsType failure noSignature).
Proof. revert attempt failure noSignature. induction n as [|n IH]; intros; cbn [probe_loop]; calm_auto; apply IH. Qed.
#[export] Hint Resolve calm_verifyDeviceSize calm_probe_loop : calm.

Lemma calm_prepareFilesystemForMount device fsType : calm (prepareFilesystemForMount device fsType).
Proof. unfold prepareFilesystemForMount, check_not_mounted, repairFilesystem. calm_auto. Qed.
#[export] Hint Resolve calm_prepareFilesystemForMount : calm.
