(* ===== verification/NodeLifecycle.v ===== *)
(** * The calls of the node on a mount table

    What each call may change, under the policy of MountTracking: staging and
    publishing mount their path only where it is known to be unmounted, and
    succeed only with the path mounted; unstaging and unpublishing only unmount. *)

From S2P Require Import Prelude GoStrings Prog Errors Api Metadata Names Comment Common Retry NodeHost MountInfo MountTheorems MountWorld MountTracking NodeRecovery NodeSysfs NodeFiles NodeDevice NodeNvme NodeIscsi NodeHealth NodeService NodeQuiet NodeEvidence NodeCalm.

#[local] Set Default Proof Using "Type*".

(** ** Options that do not remount *)

Definition plain_option (opt : string) : bool := negb (existsb (String.eqb "remount") (Split opt ",")).

Lemma Split_app a b c sep :
  existsb (String.eqb c) (Split (a +:+ String sep b) sep) = existsb (String.eqb c) (Split a sep) || existsb (String.eqb c) (Split b sep).
Proof. by rewrite Split_append, existsb_app. Qed.

Lemma Split_prefix w s sep :
  str_forall (fun c => negb (Ascii.eqb c sep)) w = true -> Split s sep = [s] -> Split (w +:+ s) sep = [w +:+ s].
Proof.
  intros Hw Hs. induction w as [|c w IH]; [by rewrite str_nil_app|]. cbn [str_forall] in Hw. apply andb_true_iff in Hw as [Hc Hw].
  apply negb_true_iff in Hc. rewrite str_cons_app. cbn [Split]. by rewrite Hc, (IH Hw).
Qed.

Lemma plain_option_join a b : plain_option (a +:+ "," +:+ b) = plain_option a && plain_option b.
Proof. unfold plain_option. change ("," +:+ b) with (String "," b). by rewrite Split_app, negb_orb. Qed.

Lemma plain_JoinMountOptions l : forallb plain_option l = true -> plain_option (JoinMountOptions l) = true.
Proof.
  destruct l as [|first rest]; [done|]. cbn [forallb JoinMountOptions]. intros [Hf Hr]%andb_true_iff.
  revert first Hf. induction rest as [|x rest IH]; intros first Hf; [done|]. cbn [forallb foldl] in *.
  apply andb_true_iff in Hr as [Hx Hr]. apply (IH Hr). by rewrite plain_option_join, Hf, Hx.
Qed.

Lemma plain_merge defaults opts :
  forallb plain_option defaults = true -> forallb plain_option opts = true -> forallb plain_option (merge_mount_options defaults opts) = true.
Proof.
  intros Hd Ho. unfold merge_mount_options. destruct opts as [|x opts]; [done|]. rewrite forallb_app, Ho. cbn [andb].
  rewrite forallb_forall in *. intros y [Hy _]%filter_In. by apply Hd.
Qed.

(** A request whose mount flags do not ask for a remount. *)
Definition plain_flags (c : option NodeCapability) : Prop := forallb plain_option (user_flags c) = true.

Lemma not_remount args opts : mount_options args = Some opts -> plain_option opts = true -> has_option "remount" args = false.
Proof. unfold has_option, plain_option. intros ->. apply negb_true_iff. Qed.

(** ** Mounts of a call *)

Section Calls.
Context {p : string} {W : nop -> Prop}.
Abbreviation twp := (wp (track_policy p W)).
Abbreviation any := (fun _ _ => True).

(** Success leaves the path mounted. *)
Definition mounted_ok (r : node_result) (h : nhistory) : Prop := r = Ok tt -> known p h = Some true.

Lemma mounted_ok_harmless r h t : harmless t -> mounted_ok r h -> mounted_ok r (h ++ t).
Proof. intros Ht Hr E. apply known_stays; [by apply Hr|done]. Qed.

Lemma wp_mount_command h args target failure :
  last args = Some target -> Clean target = p -> has_option "remount" args = false -> W (Command "mount" args) ->
  known p h = Some false -> twp h (mount_command args failure) mounted_ok.
Proof.
  intros Hl Hp Hr HW Hk. assert (changed_target (Command "mount" args) = Some p) as Hc.
  { cbn [changed_target]. by rewrite (String.eqb_refl "mount"), Hr, Hl, <- Hp. }
  unfold mount_command. apply wp_bind, wp_host.
  - intros t Ht. rewrite Hc in Ht. by injection Ht as <-.
  - intros [output [e|]] _; apply wp_ret; [done|]. intros _. rewrite known_snoc. cbn [known_step nev ev]. unfold targets.
    by rewrite bool_decide_true.
Qed.

Lemma wp_unless_mounted h target failure k :
  IsAbs target = true -> Clean target = p -> (forall h', known p h' = Some false -> twp h' k mounted_ok) ->
  twp h (unless_mounted target failure k) mounted_ok.
Proof.
  intros Ha Hp Hk. unfold unless_mounted. eapply wp_call_spec; [by apply wp_IsMounted_known|]. intros [[|]|e] t Ht.
  - apply wp_ret. intros _. by apply Ht.
  - apply Hk. by apply Ht.
  - by apply wp_ret.
Qed.

Lemma wp_bind_mount h source target readonly failure :
  Clean target = p -> W (Command "mount" ["-o"; JoinMountOptions (bind_options readonly); source; target]) ->
  known p h = Some false -> twp h (bind_mount source target readonly failure) mounted_ok.
Proof. intros Hp HW Hk. eapply wp_mount_command; [done..| |done|done]. by destruct readonly. Qed.

(** ** Unmounts *)

Lemma wp_umount_host h args target (f : string * option error -> Host (option error)) Q :
  last args = Some target -> Clean target = p -> W (Command "umount" args) ->
  (forall r, (r.2 = None -> known p (h ++ [nev (Command "umount" args) r]) = Some false) -> twp (h ++ [nev (Command "umount" args) r]) (f r) Q) ->
  twp h (bind (host (Command "umount" args)) f) Q.
Proof.
  intros Hl Hp HW Hf. assert (changed_target (Command "umount" args) = Some p) as Hc by (cbn; by rewrite Hl, <- Hp).
  apply wp_bind, wp_host.
  - intros t Ht. rewrite Hc in Ht. by injection Ht as <-.
  - intros [output err] _. apply Hf. cbn [snd]. intros ->. rewrite known_snoc. cbn [known_step nev ev]. unfold targets. by rewrite bool_decide_true.
Qed.

(** The lazy unmount of the path failed. *)
Definition lazy_failed (target : string) (h : nhistory) : Prop := exists output e, nev (Command "umount" ["-l"; target]) (output, Some e) ∈ h.

Lemma wp_Unmount h target :
  Clean target = p -> W (Command "umount" [target]) -> W (Command "umount" ["-l"; target]) ->
  twp h (Unmount target) (fun r h' => (r = None -> known p h' = Some false) /\ (r <> None -> lazy_failed target h')).
Proof.
  intros Hp HW HWl. unfold Unmount. eapply wp_umount_host; [done..|]. intros [output [e|]] Hr; [|apply wp_ret; split; [auto|done]].
  eapply wp_umount_host; [done..|]. intros [lazy [e'|]] Hl; apply wp_ret; [split; [done|]|split; [auto|done]].
  intros _. exists lazy, e'. auto with csi.
Qed.
End Calls.
Arguments mounted_ok p r h : clear implicits.

(** ** Staging *)

Section Stage.
Context {p : string} {W : nop -> Prop} (s : NodeService) (req : NodeStageVolumeRequest).
Abbreviation staging := (st_StagingTargetPath req).
Abbreviation cap := (st_VolumeCapability req).
Abbreviation volumeContext := (st_VolumeContext req).
Abbreviation twp := (wp (track_policy p W)).
Context (Htest : testMode s = false) (Habs : IsAbs staging = true) (Hp : Clean staging = p) (Hplain : plain_flags cap).

Section Shares.
Context (HW : forall args, W (Command "mount" args)).

Lemma twp_stageNFSVolume h : twp h (stageNFSVolume s req volumeContext) (mounted_ok p).
Proof.
  unfold stageNFSVolume. cbv zeta. destruct (_ || _); [by apply wp_ret|].
  apply wp_calm; [auto with calm|]. intros [e|] t _; [by apply wp_ret|]. rewrite Htest.
  apply wp_unless_mounted; [done..|]. intros h' Hk. eapply wp_mount_command; [done|done| |apply HW|done].
  eapply not_remount; [done|]. by apply plain_JoinMountOptions, plain_merge.
Qed.

Lemma twp_smb_credentials h secrets options :
  forallb plain_option options = true ->
  twp h (smb_credentials secrets options) (fun r _ => forall opts file, r = Ok (opts, file) -> forallb plain_option opts = true).
Proof.
  intros Ho. unfold smb_credentials. destruct (negb _ && negb _); swap 1 2.
  { destruct (negb _); apply wp_ret; intros opts file [= <- _]; [by rewrite forallb_app, Ho|done]. }
  eapply wp_call_spec with (Q := fun r _ => forall path, r = Ok path -> comma_free path).
  - unfold writeSMBCredentialsFile. destruct (String.eqb _ ""); [by apply wp_ret|].
    apply wp_bind, wp_host; [by apply track_harmless|]. intros [path|e] [_ Hc]; [|by apply wp_ret].
    cbn [consistent] in Hc. specialize (Hc path eq_refl). apply wp_calm; [calm_auto|]. intros [e|] t _.
    { do 2 (apply wp_calm; [calm_auto|]; intros _ ? _). by apply wp_ret. }
    apply wp_calm; [calm_auto|]. intros [e|] t' _; [do 2 (apply wp_calm; [calm_auto|]; intros _ ? _); by apply wp_ret|].
    apply wp_calm; [calm_auto|]. intros [e|] t2 _; [do 2 (apply wp_calm; [calm_auto|]; intros _ ? _); by apply wp_ret|].
    apply wp_ret. by intros q [= <-].
  - intros [path|e] t Hc; apply wp_ret; [|done]. intros opts file [= <- _]. rewrite forallb_app, Ho. cbn [andb forallb].
    unfold plain_option. rewrite andb_true_r. specialize (Hc path eq_refl). unfold comma_free in Hc.
    by rewrite (Split_prefix "credentials=" path "," eq_refl Hc).
Qed.

Lemma twp_stageSMBVolume h : twp h (stageSMBVolume s req volumeContext) (mounted_ok p).
Proof.
  unfold stageSMBVolume. cbv zeta. destruct (_ || _); [by apply wp_ret|].
  apply wp_calm; [auto with calm|]. intros [e|] t _; [by apply wp_ret|]. rewrite Htest.
  apply wp_unless_mounted; [done..|]. intros h' Hk.
  apply wp_bind. eapply wp_mono; [|apply wp_and; [apply twp_smb_credentials; by apply plain_merge|]].
  2: { apply (wp_calm_post _ _ (fun _ h => known p h = Some false)); [unfold smb_credentials; calm_auto|].
       intros _ t' Ht'. by apply known_stays. }
  intros [[opts file]|e] h2 [Ho Hk2]; [|by apply wp_ret].
  eapply wp_call_spec; [eapply wp_mount_command; [done|done| |apply HW|done]|].
  { eapply not_remount; [done|]. by eapply plain_JoinMountOptions, Ho. }
  intros r t' Hr. destruct file as [file|]; [|by apply wp_ret].
  apply wp_calm; [calm_auto|]. intros _ t2 Ht2. apply wp_ret. by apply mounted_ok_harmless.
Qed.
End Shares.

(** Devices: a raw block volume is not mounted. *)
Section Devices.
Context (HW : is_block cap = false -> forall args, W (Command "mount" args)).

Definition staged_ok (r : node_result) (h : nhistory) : Prop := is_block cap = false -> mounted_ok p r h.

Lemma staged_ok_err e h : staged_ok (Err e) h.
Proof using Type. by intros _. Qed.
#[local] Hint Resolve staged_ok_err : calm.

Lemma staged_ok_harmless r h t : harmless t -> staged_ok r h -> staged_ok r (h ++ t).
Proof using Type. intros Ht Hr Hb. by apply mounted_ok_harmless, Hr. Qed.

(** The defaults of both block protocols. *)
Lemma twp_verify_and_mount h mismatch device :
  is_block cap = false -> twp h (verify_and_mount s getNVMeOFMountOptions mismatch device staging cap volumeContext) (mounted_ok p).
Proof.
  intros Hb. unfold verify_and_mount. apply wp_calm; [auto with calm|]. intros _ t _.
  apply wp_calm; [auto with calm|]. intros [e|] t1 _; [by apply wp_ret|].
  apply wp_look; [done|]. intros [e|]; [by apply wp_ret|].
  apply wp_unless_mounted; [done..|]. intros h' Hk. apply wp_calm; [auto with calm|]. intros [e|] t2 Ht2; [by apply wp_ret|].
  cbv zeta. change (getNVMeOFMountOptions (user_flags cap)) with (merge_mount_options defaultNVMeOFMountOptions (user_flags cap)).
  assert (forallb plain_option (merge_mount_options defaultNVMeOFMountOptions (user_flags cap)) = true) as Ho by by apply plain_merge.
  assert (merge_mount_options defaultNVMeOFMountOptions (user_flags cap) <> []) as Hne by (by unfold merge_mount_options; destruct (user_flags cap)).
  destruct (merge_mount_options _ _) as [|opt opts]; [done|].
  eapply wp_mount_command; [done|done| |by apply HW|by apply known_stays].
  eapply not_remount; [done|]. by apply plain_JoinMountOptions.
Qed.

Lemma twp_stageBlock h device : is_block cap = true -> twp h (stageBlockDevice device staging) staged_ok.
Proof. intros Hb. apply wp_calm_post; [auto with calm|]. intros r t _ Hf. by rewrite Hb in Hf. Qed.

Lemma twp_stageNVMeDevice h device : twp h (stageNVMeDevice s device staging cap volumeContext) staged_ok.
Proof.
  unfold stageNVMeDevice. destruct (is_block cap) eqn:Eb in |- *; [by apply twp_stageBlock|].
  apply wp_calm; [auto with calm|]. intros [e|] t _; [by apply wp_ret|].
  apply wp_calm; [auto with calm|]. intros _ t1 _. apply wp_look; [done|]. intros ?.
  unfold formatAndMountNVMeDevice. apply wp_calm; [auto with calm|]. intros [e|] t2 _; [by apply wp_ret|].
  eapply wp_mono; [|by apply twp_verify_and_mount]. by intros ? h' Hr _.
Qed.

Lemma twp_tryReuse h params :
  twp h (tryReuseExistingConnection s params staging cap volumeContext)
    (fun r h' => forall u, r = Ok (Some u) -> staged_ok (Ok tt) h').
Proof.
  assert (forall h wait, twp h (drop_stale_connection (np_nqn params) staging wait)
    (fun r h' => forall u, r = Ok (Some u) -> staged_ok (Ok tt) h')) as Hdrop.
  { intros h' wait. unfold drop_stale_connection. apply wp_calm; [auto with calm|]. intros [e|] t _; [by apply wp_ret|].
    apply wp_calm; [auto with calm|]. intros _ t1 _. apply wp_calm; [calm_auto|]. intros _ t2 _. by apply wp_ret. }
  unfold tryReuseExistingConnection. apply wp_calm; [auto with calm|]. intros [device findErr] t _. cbv zeta.
  destruct (match findErr with Some e => errors_Is e errNVMeAmbiguousNamespace | None => false end); [by apply wp_ret|].
  destruct (match findErr with Some e => errors_Is e ErrNVMeDeviceUnhealthy | None => false end); [apply Hdrop|].
  destruct (match findErr with Some _ => true | None => _ end); [by apply wp_ret|].
  apply wp_calm; [auto with calm|]. intros state t1 _. destruct (match state with Ok _ => _ | Err _ => _ end); [apply Hdrop|].
  apply wp_calm; [auto with calm|]. intros _ t2 _. apply wp_calm; [auto with calm|]. intros [|] t3 _; [|apply Hdrop].
  eapply wp_call_spec; [apply twp_stageNVMeDevice|]. intros [[]|e] t4 Hr; apply wp_ret; [|done]. by intros u _.
Qed.

Lemma twp_connect_loop n attempt lastErr params h :
  twp h (connect_loop s n attempt lastErr params staging cap volumeContext) staged_ok.
Proof.
  revert attempt lastErr h. induction n as [|n IH]; intros attempt lastErr h; cbn [connect_loop]; [by apply wp_ret|]. cbv zeta.
  assert (forall h' e, twp h' (pause_before_retry (attempt <? 3) (3 * second_ns) ;;;
    connect_loop s n (attempt + 1) (Some e) params staging cap volumeContext) staged_ok) as Hagain.
  { intros h' e. apply wp_calm; [auto with calm|]. intros _ t _. apply IH. }
  assert (forall h' e, twp h' (disconnectNVMeOF (np_nqn params) ;;; pause_before_retry (attempt <? 3) (3 * second_ns) ;;;
    connect_loop s n (attempt + 1) (Some e) params staging cap volumeContext) staged_ok) as Hdrop.
  { intros h' e. apply wp_calm; [auto with calm|]. intros _ t _. apply Hagain. }
  apply wp_look; [done|]. intros [e|]; [by apply wp_ret|].
  apply wp_calm; [auto with calm|]. intros [e|] t _; [apply Hagain|].
  apply wp_calm; [auto with calm|]. intros [e|] t1 _; [apply Hdrop|].
  apply wp_calm; [auto with calm|]. intros [device|e] t2 _; [|apply Hdrop].
  eapply wp_call_spec; [apply twp_stageNVMeDevice|]. intros [[]|e] t3 Hr; [by apply wp_ret|].
  destruct (bool_decide _); [apply Hdrop|by apply wp_ret].
Qed.

Lemma twp_stageNVMeOFVolume h : twp h (stageNVMeOFVolume s req volumeContext) staged_ok.
Proof.
  unfold stageNVMeOFVolume. cbv zeta. destruct (validateNVMeOFParams _) as [params|e]; [|by apply wp_ret].
  eapply wp_call_spec; [apply twp_tryReuse|]. intros [[u|]|e] t Hr; [by apply wp_ret, (Hr u)| |by apply wp_ret].
  apply wp_calm; [auto with calm|]. intros [e|] t1 _; [by apply wp_ret|].
  apply wp_look; [done|]. intros ?. apply wp_look; [done|]. intros acquired. apply wp_look; [done|]. intros ?.
  destruct acquired as [e|]; [by apply wp_ret|]. apply wp_look; [done|]. intros ?.
  eapply wp_call_spec; [apply twp_connect_loop|]. intros res t2 Hc.
  do 2 (apply wp_calm; [calm_auto|]; intros _ ? ?). by apply wp_ret, staged_ok_harmless, staged_ok_harmless.
Qed.

Lemma twp_stageISCSIDevice h device : twp h (stageISCSIDevice s device staging cap volumeContext) staged_ok.
Proof.
  unfold stageISCSIDevice. apply wp_calm; [auto with calm|]. intros [e|] t _; [by apply wp_ret|].
  destruct (is_block cap) eqn:Eb in |- *; [by apply twp_stageBlock|].
  apply wp_calm; [auto with calm|]. intros [e|] t1 _.
  { apply wp_calm; [auto with calm|]. intros [e'|] t2 _; by apply wp_ret. }
  apply wp_look; [done|]. intros ?. apply wp_calm; [auto with calm|]. intros [e|] t2 _; [by apply wp_ret|].
  eapply wp_mono; [|by apply twp_verify_and_mount]. by intros ? h' Hr _.
Qed.

Lemma twp_login_loop n attempt lastErr params h :
  twp h (login_loop s n attempt lastErr params staging cap volumeContext) staged_ok.
Proof.
  revert attempt lastErr h. induction n as [|n IH]; intros attempt lastErr h; cbn [login_loop]; [by apply wp_ret|]. cbv zeta.
  assert (forall h' e, twp h' (pause_before_retry (attempt <? 2) (5 * second_ns) ;;;
    login_loop s n (attempt + 1) (Some e) params staging cap volumeContext) staged_ok) as Hagain.
  { intros h' e. apply wp_calm; [auto with calm|]. intros _ t _. apply IH. }
  assert (forall h' e, twp h' (logoutISCSITarget (ip_iqn params) ;;; pause_before_retry (attempt <? 2) (5 * second_ns) ;;;
    login_loop s n (attempt + 1) (Some e) params staging cap volumeContext) staged_ok) as Hdrop.
  { intros h' e. apply wp_calm; [auto with calm|]. intros _ t _. apply Hagain. }
  apply wp_calm; [auto with calm|]. intros [e|] t _; [apply Hagain|].
  apply wp_calm; [auto with calm|]. intros [device|e] t1 _; [|apply Hdrop].
  eapply wp_call_spec; [apply twp_stageISCSIDevice|]. intros [[]|e] t2 Hr; [by apply wp_ret|].
  destruct (bool_decide _); [apply Hdrop|by apply wp_ret].
Qed.

Lemma twp_fresh_login h params : twp h (fresh_login s params staging cap volumeContext) staged_ok.
Proof.
  unfold fresh_login. apply wp_calm; [auto with calm|]. intros [e|] t _; [by apply wp_ret|]. apply twp_login_loop.
Qed.

Lemma twp_stageISCSIVolume h : twp h (stageISCSIVolume s req volumeContext) staged_ok.
Proof.
  assert (forall h kill params, calm kill -> twp h (teardown_then staging kill (fresh_login s params staging cap volumeContext)) staged_ok) as Htear.
  { intros h' kill params Hkill. unfold teardown_then. apply wp_calm; [auto with calm|]. intros [e|] t _; [by apply wp_ret|].
    apply wp_calm; [done|]. intros _ t1 _. apply twp_fresh_login. }
  unfold stageISCSIVolume. cbv zeta. destruct (validateISCSIParams _) as [params|e]; [|by apply wp_ret].
  apply wp_calm; [auto with calm|]. intros [device|e] t _; [|apply Htear; auto with calm].
  apply wp_calm; [auto with calm|]. intros state t1 _.
  destruct (match state with Ok _ => _ | Err _ => _ end); [apply twp_stageISCSIDevice|apply Htear; auto with calm].
Qed.
End Devices.
End Stage.

(** ** The calls *)

(** The volume is staged as a link to its device. *)
Definition raw_block (req : NodeStageVolumeRequest) : bool :=
  let protocol := getProtocolFromVolumeContext (st_VolumeContext req) in
  (String.eqb protocol ProtocolNVMeOF || String.eqb protocol ProtocolISCSI) && is_block (st_VolumeCapability req).

Section Wrappers.
Context {p : string} {W : nop -> Prop}.
Abbreviation twp := (wp (track_policy p W)).
Context {A : Type} (Q : res A -> nhistory -> Prop).
Context (Q_err : forall e h, Q (Err e) h) (Q_harmless : forall r h t, harmless t -> Q r h -> Q r (h ++ t)).

Lemma twp_observe_error h operation e : twp h (observe_error operation e) Q.
Proof. unfold observe_error. apply wp_calm; [calm_auto|]. intros _ t _. by apply wp_ret. Qed.

Lemma twp_observed h operation body : twp h body Q -> twp h (observed operation body) Q.
Proof.
  intros Hb. unfold observed. eapply wp_call_spec; [exact Hb|]. intros r t Hr.
  apply wp_calm; [calm_auto|]. intros _ t' Ht. by apply wp_ret, Q_harmless.
Qed.

Lemma twp_with_volume_lock h operation volumeID body :
  (forall h', twp h' body Q) -> twp h (with_volume_lock operation volumeID body) Q.
Proof.
  intros Hb. unfold with_volume_lock. apply wp_calm; [calm_auto|]. intros [e|] t _; [apply twp_observe_error|].
  eapply wp_call_spec; [apply Hb|]. intros r t' Hr. apply wp_calm; [calm_auto|]. intros _ t2 Ht. by apply wp_ret, Q_harmless.
Qed.
End Wrappers.

Section Staging.
Context (s : NodeService) (req : NodeStageVolumeRequest).
Abbreviation staging := (st_StagingTargetPath req).

Definition stage_change (o : nop) : Prop := is_mount o = true /\ raw_block req = false.

Lemma twp_NodeStageVolume h :
  testMode s = false -> IsAbs staging = true -> plain_flags (st_VolumeCapability req) ->
  wp (track_policy (Clean staging) stage_change) h (NodeStageVolume s req)
    (fun r h' => raw_block req = false -> mounted_ok (Clean staging) r h').
Proof.
  intros Htest Habs Hplain. set (Q := fun (r : node_result) h' => raw_block req = false -> mounted_ok (Clean staging) r h').
  assert (forall e h, Q (Err e) h) as Qe by by intros e h' _.
  assert (forall r h t, harmless t -> Q r h -> Q r (h ++ t)) as Qh by (intros r h' t Ht Hr Hb; apply mounted_ok_harmless; auto).
  unfold NodeStageVolume. destruct (String.eqb _ ""); [by apply twp_observe_error|].
  destruct (String.eqb staging ""); [by apply twp_observe_error|].
  destruct (match st_VolumeCapability req with None => true | Some _ => false end); [by apply twp_observe_error|].
  apply twp_with_volume_lock; [done..|]. intros h'. apply twp_observed; [done..|].
  assert (forall args, raw_block req = false -> stage_change (Command "mount" args)) as Hm by done.
  unfold stage_by_protocol. cbv zeta. unfold Q, raw_block in *.
  destruct (String.eqb_spec (getProtocolFromVolumeContext (st_VolumeContext req)) ProtocolNFS) as [E|_].
  { rewrite E in *. eapply wp_mono; [|apply twp_stageNFSVolume; auto]. by intros r h2 Hr _. }
  destruct (String.eqb_spec (getProtocolFromVolumeContext (st_VolumeContext req)) ProtocolNVMeOF) as [E|_].
  { eapply wp_mono; [|apply twp_stageNVMeOFVolume; auto]. by intros r h2 Hr. }
  destruct (String.eqb_spec (getProtocolFromVolumeContext (st_VolumeContext req)) ProtocolISCSI) as [E|_].
  { eapply wp_mono; [|apply twp_stageISCSIVolume; auto]. by intros r h2 Hr. }
  destruct (String.eqb_spec (getProtocolFromVolumeContext (st_VolumeContext req)) ProtocolSMB) as [E|_].
  { eapply wp_mono; [|apply twp_stageSMBVolume; auto]. by intros r h2 Hr _. }
  apply wp_ret. by intros _.
Qed.
End Staging.

Section Publishing.
Context (s : NodeService) (req : NodePublishVolumeRequest).
Abbreviation staging := (pb_StagingTargetPath req).
Abbreviation target := (pb_TargetPath req).

Definition publish_change (o : nop) : Prop :=
  o = Command "mount" ["-o"; JoinMountOptions (bind_options (pb_Readonly req)); staging; target].

Lemma calm_checkSingleWriter : calm (checkSingleWriterPublication s req).
Proof. unfold checkSingleWriterPublication, published_targets. calm_auto. Qed.

Lemma twp_NodePublishVolume h :
  testMode s = false -> IsAbs target = true ->
  wp (track_policy (Clean target) publish_change) h (NodePublishVolume s req) (mounted_ok (Clean target)).
Proof.
  intros Htest Habs. set (Q := mounted_ok (Clean target)).
  assert (forall e h, Q (Err e) h) as Qe by done.
  assert (forall r h t, harmless t -> Q r h -> Q r (h ++ t)) as Qh by (intros; by apply mounted_ok_harmless).
  unfold NodePublishVolume. destruct (String.eqb _ ""); [by apply twp_observe_error|].
  destruct (String.eqb target ""); [by apply twp_observe_error|].
  destruct (match pb_VolumeCapability req with None => true | Some _ => false end); [by apply twp_observe_error|].
  apply twp_with_volume_lock; [done..|]. intros h'. apply wp_calm; [apply calm_checkSingleWriter|]. intros [e|] t _; [by apply twp_observe_error|].
  eapply wp_call_spec with (Q := Q).
  2: { intros r t' Hr. apply wp_calm; [unfold record_publication; calm_auto|]. intros _ t2 Ht. by apply wp_ret, Qh. }
  apply twp_observed; [done..|]. unfold publish_by_protocol. cbv zeta.
  assert (forall h name, wp (track_policy (Clean target) publish_change) h (publish_share s name req) Q) as Hshare.
  { intros h2 name. unfold publish_share. apply wp_calm; [auto with calm|]. intros [e|] t' _; [by apply wp_ret|]. rewrite Htest.
    apply wp_unless_mounted; [done..|]. intros h3 Hk. by apply wp_bind_mount. }
  destruct (String.eqb _ ProtocolNFS); [apply Hshare|]. destruct (String.eqb _ ProtocolSMB); [apply Hshare|].
  destruct (_ || _); [|by apply wp_ret]. destruct (String.eqb staging ""); [by apply wp_ret|].
  destruct (is_block (pb_VolumeCapability req)).
  - unfold publishBlockVolume. apply wp_calm; [calm_auto|]. intros [k|e] t1 _; [|by apply wp_ret].
    destruct k; [by apply wp_ret|..]; (apply wp_calm; [calm_auto|]; intros [e|] t2 _; [by apply wp_ret|];
      apply wp_calm; [calm_auto|]; intros fileErr t3 _; destruct (match fileErr with Some _ => _ | None => _ end); [by apply wp_ret|];
      apply wp_unless_mounted; [done..|]; intros h4 Hk; eapply wp_call_spec; [by apply wp_bind_mount|]; intros [[]|e] t5 Hr;
      [by apply wp_ret|]; apply wp_calm; [calm_auto|]; intros _ t6 _; by apply wp_ret).
  - unfold publishFilesystemVolume. apply wp_calm; [calm_auto|]. intros [k|e] t1 _; [|by apply wp_ret].
    destruct (negb _); [by apply wp_ret|]. apply wp_calm; [calm_auto|]. intros [e|] t2 _; [by apply wp_ret|].
    apply wp_unless_mounted; [done..|]. intros h4 Hk. by apply wp_bind_mount.
Qed.
End Publishing.

Section Unstaging.
Context (s : NodeService) (req : NodeUnstageVolumeRequest).
Abbreviation staging := (us_StagingTargetPath req).

Definition unmount_change (o : nop) : Prop := is_mount o = false.
Abbreviation twp := (wp (track_policy (Clean staging) unmount_change)).

(** Success leaves the path unmounted, or its lazy unmount failed. *)
Definition released_ok (r : node_result) (h : nhistory) : Prop :=
  r = Ok tt -> known (Clean staging) h = Some false \/ lazy_failed staging h.

Lemma released_ok_harmless r h t : harmless t -> released_ok r h -> released_ok r (h ++ t).
Proof.
  intros Ht Hr E. destruct (Hr E) as [Hk|(output & e & Hin)]; [left; by apply known_stays|right; exists output, e; auto with csi].
Qed.

Lemma twp_unstage_share h protocol :
  testMode s = false -> IsAbs staging = true -> twp h (unstage_share s protocol staging) released_ok.
Proof.
  intros Htest Habs. unfold unstage_share. rewrite Htest. eapply wp_call_spec; [by apply wp_IsMounted_known|].
  intros [mounted|e] t Hm; [|by apply wp_ret].
  eapply wp_call_spec with (Q := fun r h' => r = None -> known (Clean staging) h' = Some false).
  { destruct mounted; [eapply wp_mono; [|by apply wp_Unmount]; by intros r h' [? _]|]. apply wp_ret. intros _. by apply Hm. }
  intros [e|] t' Hr; [by apply wp_ret|]. apply wp_calm; [calm_auto|].
  assert (forall t2, harmless t2 -> released_ok (Ok tt) (((h ++ t) ++ t') ++ t2)) as Hdone.
  { intros t2 Ht2 _. left. by apply known_stays; [apply Hr|]. }
  intros [e|] t2 Ht2; [destruct (IsNotExist e); apply wp_ret; [by apply Hdone|done]|by apply wp_ret, Hdone].
Qed.

(** The end of an unstaging of a device. *)
Lemma twp_unstage_device h (k : Host (option error)) :
  calm k -> IsAbs staging = true ->
  twp h (mounted <- IsMounted staging;;
         match mounted with
         | Err e => Ret (Err (Status Internal ("Failed to check if staging path is mounted: " +:+ err_text e)))
         | Ok mounted => (if (mounted : bool) then Unmount staging else Ret None) ;;; k ;;; Ret (Ok tt)
         end) released_ok.
Proof.
  intros Hk Habs. eapply wp_call_spec; [by apply wp_IsMounted_known|]. intros [mounted|e] t Hm; [|by apply wp_ret].
  eapply wp_call_spec with (Q := fun _ h' => known (Clean staging) h' = Some false \/ lazy_failed staging h').
  { destruct mounted; [eapply wp_mono; [|by apply wp_Unmount]; intros [e|] h' [Hr Hl]; [right; by apply Hl|left; by apply Hr]|].
    apply wp_ret. left. by apply Hm. }
  intros _ t' Hr. apply wp_calm; [done|]. intros _ t2 Ht2. apply wp_ret.
  apply (released_ok_harmless (Ok tt)); [done|]. by intros _.
Qed.

Lemma calm_deriveNQN : calm (deriveNQNFromStagingPath staging).
Proof. unfold deriveNQNFromStagingPath, getStagedNVMeDevicePath, mounted_source, nvmeNQNForDevice. calm_auto. Qed.

Lemma twp_NodeUnstageVolume h :
  testMode s = false -> IsAbs staging = true -> twp h (NodeUnstageVolume s req) released_ok.
Proof.
  intros Htest Habs. assert (forall e h, released_ok (Err e) h) as Qe by done. pose proof released_ok_harmless as Qh.
  unfold NodeUnstageVolume. destruct (String.eqb _ ""); [by apply twp_observe_error|].
  destruct (String.eqb staging ""); [by apply twp_observe_error|].
  apply twp_with_volume_lock; [done..|]. intros h'. apply twp_observed; [done..|]. unfold unstage_by_protocol.
  apply wp_calm; [auto with calm|]. intros protocol t _.
  destruct (String.eqb protocol ProtocolNVMeOF).
  { unfold unstageNVMeOFVolume. cbv zeta. apply wp_calm; [pose proof calm_deriveNQN; calm_auto|]. intros nqn t' _.
    apply twp_unstage_device; [destruct (String.eqb nqn ""); auto with calm|done]. }
  destruct (String.eqb protocol ProtocolISCSI).
  { unfold unstageISCSIVolume. cbv zeta. apply wp_calm; [unfold getStagedISCSIDevicePath, mounted_source; calm_auto|]. intros device t' _.
    apply wp_calm; [calm_auto|]. intros iqn t2 _. apply twp_unstage_device; [destruct (String.eqb iqn ""); auto with calm|done]. }
  destruct (String.eqb protocol ProtocolSMB); by apply twp_unstage_share.
Qed.
End Unstaging.

Lemma twp_NodeUnpublishVolume s volumeID target h :
  testMode s = false -> IsAbs target = true ->
  wp (track_policy (Clean target) unmount_change) h (NodeUnpublishVolume s volumeID target)
    (fun r h' => r = Ok tt -> known (Clean target) h' = Some false).
Proof.
  intros Htest Habs. set (Q := fun (r : node_result) h' => r = Ok tt -> known (Clean target) h' = Some false).
  assert (forall e h, Q (Err e) h) as Qe by done.
  assert (forall r h t, harmless t -> Q r h -> Q r (h ++ t)) as Qh by (intros r h' t Ht Hr E; by apply known_stays; [apply Hr|]).
  unfold NodeUnpublishVolume. destruct (String.eqb _ ""); [by apply twp_observe_error|].
  destruct (String.eqb target ""); [by apply twp_observe_error|].
  apply twp_with_volume_lock; [done..|]. intros h'. eapply wp_call_spec with (Q := Q).
  2: { intros r t Hr. apply wp_calm; [calm_auto|]. intros _ t' Ht. by apply wp_ret, Qh. }
  apply twp_observed; [done..|]. unfold unpublish_target. rewrite Htest.
  eapply wp_call_spec; [by apply wp_IsMounted_known|]. intros [mounted|e] t Hm; [|by apply wp_ret].
  eapply wp_call_spec with (Q := fun r h' => r = None -> known (Clean target) h' = Some false).
  { destruct mounted; [eapply wp_mono; [|by apply wp_Unmount]; by intros r h2 [? _]|]. apply wp_ret. intros _. by apply Hm. }
  intros [e|] t' Hr; [by apply wp_ret|]. apply wp_calm; [calm_auto|]. intros _ t2 Ht2. apply wp_ret.
  intros _. by apply known_stays; [apply Hr|].
Qed.
