(* ===== verification/NodeRefinement.v ===== *)
(** * The calls of the node refine a map of mounts

    An orchestrator calls the node, in any order, with any requests and
    retries, while others mount elsewhere.  Seen at the paths of its volumes, the
    mount table behaves as a finite map from paths to what is mounted there:
    staging and publishing add one entry where there is none, unstaging and
    unpublishing remove one, and a call that fails does all or nothing of it. *)

From S2P Require Import Prelude GoStrings Prog Errors Api Metadata Common Retry NodeHost MountInfo MountTheorems MountWorld MountTracking NodeRecovery NodeFiles NodeDevice NodeNvme NodeIscsi NodeService NodeCalm NodeLifecycle NodeQuiet NodeSessions RecoveryTheorems.

#[local] Set Default Proof Using "Type*".

(** ** The calls of an orchestrator *)

Inductive node_call : Type :=
| StageVolume (req : NodeStageVolumeRequest)
| UnstageVolume (req : NodeUnstageVolumeRequest)
| PublishVolume (req : NodePublishVolumeRequest)
| UnpublishVolume (volumeID targetPath : string).

Definition call_program (s : NodeService) (c : node_call) : Host node_result :=
  match c with
  | StageVolume req => NodeStageVolume s req
  | UnstageVolume req => NodeUnstageVolume s req
  | PublishVolume req => NodePublishVolume s req
  | UnpublishVolume volumeID targetPath => NodeUnpublishVolume s volumeID targetPath
  end.

(** The path that a call is about. *)
Definition call_path (c : node_call) : string :=
  match c with
  | StageVolume req => st_StagingTargetPath req
  | UnstageVolume req => us_StagingTargetPath req
  | PublishVolume req => pb_TargetPath req
  | UnpublishVolume _ targetPath => targetPath
  end.

(** Absolute paths of the volumes, and no remount among the mount flags. *)
Definition well_posed (mine : gset string) (c : node_call) : Prop :=
  IsAbs (call_path c) = true /\ Clean (call_path c) ∈ mine /\
  match c with
  | StageVolume req => plain_flags (st_VolumeCapability req)
  | PublishVolume req => Clean (pb_StagingTargetPath req) ∈ mine /\ Clean (pb_StagingTargetPath req) <> Clean (pb_TargetPath req)
  | _ => True
  end.

(** No path of a volume lies below another. *)
Definition separate_paths (mine : gset string) : Prop := forall p q, p ∈ mine -> q ∈ mine -> below p q = false.

(** ** The specification *)

Abbreviation mount_map := (gmap string object).

Definition stage_spec (path : string) (raw : bool) (r : node_result) (M M' : mount_map) : Prop :=
  if raw then M' = M
  else
    match M !! path with
    | Some _ => M' = M
    | None => (exists o, M' = <[path := o]> M) \/ M' = M /\ r <> Ok tt
    end.

(** The target shows what is mounted at the staging path. *)
Definition publish_spec (staging target : string) (r : node_result) (M M' : mount_map) : Prop :=
  match M !! target with
  | Some _ => M' = M
  | None => (exists o, M' = <[target := o]> M /\ forall top, M !! staging = Some top -> o = top) \/ M' = M /\ r <> Ok tt
  end.

(** [stuck]: the lazy unmount failed, which the unstaging of a device only logs. *)
Definition unmount_spec (path : string) (stuck : Prop) (r : node_result) (M M' : mount_map) : Prop :=
  M' = delete path M \/ M' = M /\ (r <> Ok tt \/ stuck).

Definition call_spec (c : node_call) (tr : nhistory) (out : outcome node_result) (M M' : mount_map) : Prop :=
  exists r, out = Done r /\
    match c with
    | StageVolume req => stage_spec (Clean (st_StagingTargetPath req)) (raw_block req) r M M'
    | UnstageVolume req => unmount_spec (Clean (us_StagingTargetPath req)) (lazy_failed (us_StagingTargetPath req) tr) r M M'
    | PublishVolume req => publish_spec (Clean (pb_StagingTargetPath req)) (Clean (pb_TargetPath req)) r M M'
    | UnpublishVolume _ targetPath => unmount_spec (Clean targetPath) False r M M'
    end.

(** A pass of the health monitor removes entries only, and only by the lazy
    unmount of a path that was seen broken. *)
Definition pass_spec (recent : gmap string Z) (tr : nhistory) (M M' : mount_map) : Prop :=
  forall p, M' !! p = M !! p \/
    M' !! p = None /\ exists t1 target r t2, tr = t1 ++ nev (Command "umount" ["-l"; target]) r :: t2 /\
      broken_mount recent t1 target /\ (Clean target = p \/ below (Clean target) p = true).

(** The table as a map: one object at most at every path of a volume. *)
Definition represents (mine : gset string) (M : mount_map) (T : table) : Prop :=
  dom M ⊆ mine /\ forall p, p ∈ mine -> at_path p T = option_list (M !! p).

(** ** Changes of one path *)

Section Represent.
Context (mine : gset string).

(** The table differs from [T0] at one path at most, where it is as [R] says. *)
Definition only_at (T0 : table) (p : string) (R : list object -> Prop) (T : table) : Prop :=
  (forall q, q ∈ mine -> q <> p -> at_path q T = at_path q T0) /\ R (at_path p T).

Lemma mounts_insert M T T' p o :
  p ∈ mine -> represents mine M T -> only_at T p (fun l => l = [o]) T' -> represents mine (<[p := o]> M) T'.
Proof.
  intros Hp [Hd HM] [Hq Hl]. split; [rewrite dom_insert; set_solver|].
  intros q Hin. destruct (decide (q = p)) as [->|Hne]; [by rewrite lookup_insert_eq, Hl|].
  rewrite lookup_insert_ne by done. rewrite Hq by done. by apply HM.
Qed.

Lemma mounts_delete M T T' p :
  p ∈ mine -> represents mine M T -> only_at T p (fun l => l = []) T' -> represents mine (delete p M) T'.
Proof.
  intros Hp [Hd HM] [Hq Hl]. split; [rewrite dom_delete; set_solver|].
  intros q Hin. destruct (decide (q = p)) as [->|Hne]; [by rewrite lookup_delete_eq, Hl|].
  rewrite lookup_delete_ne by done. rewrite Hq by done. by apply HM.
Qed.

Lemma represents_same M T T' p :
  p ∈ mine -> represents mine M T -> only_at T p (fun l => l = at_path p T) T' -> represents mine M T'.
Proof.
  intros Hp [Hd HM] [Hq Hl]. split; [done|].
  intros q Hin. destruct (decide (q = p)) as [->|Hne]; [rewrite Hl; by apply HM|]. rewrite Hq by done. by apply HM.
Qed.
End Represent.

(** ** One call *)

Section Call.
Context (s : NodeService) (mine : gset string) (Hsep : separate_paths mine) (Htest : testMode s = false).
Abbreviation ours := (fun p => p ∈ mine).

(** A call that changes one path only, by changes that keep [R]. *)
Lemma call_effect p W (c : Host node_result) post tr out T T' (R : list object -> Prop) :
  wp (track_policy p W) [] c post -> exec c tr out -> sane_host tr -> world ours tr T T' -> good_table T ->
  p ∈ mine -> (length (at_path p T) <= 1)%nat -> R (at_path p T) ->
  (forall (o : nop) (r : nans o) T1 T2, W o -> changed_target o = Some p -> (is_mount o = true -> at_path p T1 = []) ->
     (length (at_path p T1) <= 1)%nat -> table_step (nev o r) T1 T2 -> only_at mine T p R T1 -> R (at_path p T2)) ->
  (exists r, out = Done r /\ post r tr) /\ only_at mine T p R T' /\ (length (at_path p T') <= 1)%nat /\
  (forall b, known p tr = Some b -> b = negb (bool_decide (at_path p T' = []))).
Proof.
  intros Hwp He Hc Hw Hg Hp Hone HR Hstep.
  destruct (track_run p W ours Hp (fun q Hq => Hsep p q Hp Hq) (only_at mine T p R)) with (c := c) (post := post) (h := [] : nhistory)
    (tr := tr) (out := out) (T := T) (T' := T') as (Ho & [Hl Hk] & HI); try done.
  intros T1 T2 Hs [Hq HR1]. split; [intros q Hin Hne; rewrite Hs by done; by apply Hq|by rewrite Hs].
  intros o r T1 T2 HW Hch Hm Hone1 Hother Hts HI. split; [|by eapply (Hstep o r T1)].
  intros q Hin Hne. rewrite Hother by done. by apply HI.
Qed.

(** A command that mounts at a path where nothing is mounted. *)
Lemma mount_change_at p (o : nop) (r : nans o) T1 T2 :
  is_mount o = true -> changed_target o = Some p -> at_path p T1 = [] -> table_step (nev o r) T1 T2 ->
  at_path p T2 = [] \/ exists ob, at_path p T2 = [ob] /\
    forall args, o = Command "mount" args -> has_option "bind" args = true -> forall source top, mount_source args = Some source ->
      last (at_path (Clean source) T1) = Some top -> ob = top.
Proof using Type.
  intros Hm Hc He Hs. destruct o; try done. cbn [is_mount] in Hm. apply String.eqb_eq in Hm as ->. cbn [nans] in r. destruct r as [output err].
  destruct (mount_step_at p args output err T1 T2 Hc Hs) as [[_ E]|(ob & E & Hb)]; rewrite E, He; [by left|right].
  exists ob. split; [done|]. by intros args' [= <-].
Qed.

Lemma umount_change_at p (o : nop) (r : nans o) T1 T2 :
  is_mount o = false -> changed_target o = Some p -> (length (at_path p T1) <= 1)%nat -> table_step (nev o r) T1 T2 ->
  at_path p T2 = at_path p T1 \/ at_path p T2 = [].
Proof using Type.
  intros Hm Hc Hone Hs. destruct o; try done. cbn [is_mount] in Hm. cbn [nans] in r. destruct r as [output err].
  assert (name = "umount") as ->.
  { cbn [changed_target] in Hc. rewrite Hm in Hc. by destruct (String.eqb_spec name "umount"). }
  destruct (umount_step_at p args output err T1 T2 Hc Hone Hs) as [[_ E]|E]; auto.
Qed.

(** The map before and after, by what is at the path. *)
Lemma lookup_at_path M T p : p ∈ mine -> represents mine M T -> (at_path p T = [] <-> M !! p = None) /\ (length (at_path p T) <= 1)%nat.
Proof using Type. intros Hp [_ HM]. rewrite (HM p Hp). destruct (M !! p); cbn; split; try lia; by split. Qed.

Lemma stage_refines req tr out T T' M :
  well_posed mine (StageVolume req) -> exec (NodeStageVolume s req) tr out -> sane_host tr -> world ours tr T T' -> good_table T ->
  represents mine M T -> exists M', call_spec (StageVolume req) tr out M M' /\ represents mine M' T'.
Proof.
  intros (Habs & Hp & Hplain) He Hc Hw Hg HM. cbn [call_path] in *. set (p := Clean (st_StagingTargetPath req)) in *.
  destruct (lookup_at_path M T p Hp HM) as [Hat Hone].
  destruct (call_effect p (stage_change req) _ _ tr out T T'
    (fun l => l = at_path p T \/ raw_block req = false /\ at_path p T = [] /\ exists ob, l = [ob])
    (twp_NodeStageVolume s req [] Htest Habs Hplain) He Hc Hw Hg Hp Hone) as ((r & -> & Hr) & [Hq HR] & _ & Hk); [by left| |].
  { intros o r T1 T2 [Hm Hraw] Hch Hempty _ Hs [_ HR1]. specialize (Hempty Hm). rewrite Hempty in HR1.
    assert (at_path p T = []) as E by (destruct HR1 as [?|(_ & ? & _)]; done).
    destruct (mount_change_at p o r T1 T2 Hm Hch Hempty Hs) as [E2|(ob & E2 & _)]; rewrite E2, E; [by left|right; eauto]. }
  assert (only_at mine T p (fun l => l = at_path p T) T' -> represents mine M T') as Hsame by by apply represents_same.
  destruct HR as [HR|(Hraw & HT & ob & HR)].
  - exists M. split; [|by apply Hsame]. exists r. split; [done|]. unfold stage_spec. fold p. destruct (raw_block req); [done|].
    destruct (M !! p) eqn:EM; [done|]. right. split; [done|]. intros ->. pose proof (proj2 Hat eq_refl) as ET.
    specialize (Hk true (Hr eq_refl eq_refl)). by rewrite HR, ET in Hk.
  - exists (<[p := ob]> M). split; [|by apply (mounts_insert mine M T)]. exists r. split; [done|]. unfold stage_spec. fold p. rewrite Hraw.
    apply Hat in HT. rewrite HT. left. by exists ob.
Qed.

Lemma node_publish_refines req tr out T T' M :
  well_posed mine (PublishVolume req) -> exec (NodePublishVolume s req) tr out -> sane_host tr -> world ours tr T T' -> good_table T ->
  represents mine M T -> exists M', call_spec (PublishVolume req) tr out M M' /\ represents mine M' T'.
Proof.
  intros (Habs & Hp & Hsrc & Hdiff) He Hc Hw Hg HM. cbn [call_path] in *.
  set (p := Clean (pb_TargetPath req)) in *. set (src := Clean (pb_StagingTargetPath req)) in *.
  destruct (lookup_at_path M T p Hp HM) as [Hat Hone].
  destruct (call_effect p (publish_change req) _ _ tr out T T'
    (fun l => l = at_path p T \/ at_path p T = [] /\ exists ob, l = [ob] /\ forall top, last (at_path src T) = Some top -> ob = top)
    (twp_NodePublishVolume s req [] Htest Habs) He Hc Hw Hg Hp Hone) as ((r & -> & Hr) & [Hq HR] & _ & Hk); [by left| |].
  { intros o r T1 T2 -> Hch Hempty _ Hs [Hother HR1]. specialize (Hempty eq_refl). rewrite Hempty in HR1.
    assert (at_path p T = []) as E by (destruct HR1 as [?|(? & _)]; done).
    destruct (mount_change_at p _ r T1 T2 eq_refl Hch Hempty Hs) as [E2|(ob & E2 & Hb)]; rewrite E2, E; [by left|right].
    split; [done|]. exists ob. split; [done|]. intros top Htop.
    eapply (Hb _ eq_refl); [by destruct (pb_Readonly req)|done|]. fold src. by rewrite Hother. }
  destruct HR as [HR|(HT & ob & HR & Hob)].
  - exists M. split; [|by apply (represents_same mine M T T' p)]. exists r. split; [done|]. unfold publish_spec. fold p.
    destruct (M !! p) eqn:EM; [done|]. right. split; [done|]. intros ->. pose proof (proj2 Hat eq_refl) as ET.
    specialize (Hk true (Hr eq_refl)). by rewrite HR, ET in Hk.
  - exists (<[p := ob]> M). split; [|by apply (mounts_insert mine M T)]. exists r. split; [done|]. unfold publish_spec. fold p src.
    apply Hat in HT. rewrite HT. left. exists ob. split; [done|]. intros top Htop. apply Hob. by rewrite (proj2 HM src Hsrc), Htop.
Qed.

Lemma unmount_refines path (c : Host node_result) post tr out T T' M stuck :
  Clean path ∈ mine -> wp (track_policy (Clean path) unmount_change) [] c post ->
  (forall h, post (Ok tt) h -> known (Clean path) h = Some false \/ stuck h) ->
  exec c tr out -> sane_host tr -> world ours tr T T' -> good_table T -> represents mine M T ->
  exists r M', out = Done r /\ unmount_spec (Clean path) (stuck tr) r M M' /\ represents mine M' T'.
Proof.
  intros Hp Hwp Hpost He Hc Hw Hg HM. set (p := Clean path) in *. destruct (lookup_at_path M T p Hp HM) as [Hat Hone].
  destruct (call_effect p unmount_change _ _ tr out T T' (fun l => l = at_path p T \/ l = []) Hwp He Hc Hw Hg Hp Hone)
    as ((r & -> & Hr) & [Hq HR] & _ & Hk); [by left| |].
  { intros o r T1 T2 Hm Hch _ Hone1 Hs [_ HR1]. destruct (umount_change_at p o r T1 T2 Hm Hch Hone1 Hs) as [E|E]; rewrite E; auto. }
  exists r. destruct (decide (at_path p T' = [])) as [E|Hne].
  - exists (delete p M). split; [done|]. split; [by left|]. by apply (mounts_delete mine M T).
  - destruct HR as [HR|HR]; [|done]. exists M. split; [done|]. split; [|by apply (represents_same mine M T T' p)]. right. split; [done|].
    destruct r as [[]|e]; [|by left]. right. destruct (Hpost tr Hr) as [Hf|]; [|done].
    specialize (Hk false Hf). by case_bool_decide.
Qed.

Lemma call_refines c tr out T T' M :
  well_posed mine c -> exec (call_program s c) tr out -> sane_host tr -> world ours tr T T' -> good_table T ->
  represents mine M T -> exists M', call_spec c tr out M M' /\ represents mine M' T'.
Proof.
  destruct c as [req|req|req|volumeID path]; [apply stage_refines| |apply node_publish_refines|]; intros (Habs & Hp & _) He Hc Hw Hg HM.
  - destruct (unmount_refines (us_StagingTargetPath req) _ _ tr out T T' M (lazy_failed (us_StagingTargetPath req)) Hp
      (twp_NodeUnstageVolume s req [] Htest Habs) (fun h H => H eq_refl) He Hc Hw Hg HM) as (r & M' & -> & ? & ?). exists M'. split; [by exists r|done].
  - destruct (unmount_refines path _ _ tr out T T' M (fun _ => False) Hp
      (twp_NodeUnpublishVolume s volumeID path [] Htest Habs) (fun h H => or_introl (H eq_refl)) He Hc Hw Hg HM) as (r & M' & -> & ? & ?).
    exists M'. split; [by exists r|done].
Qed.
End Call.

(** ** A pass of the health monitor *)

(** The pass changes the table by lazy unmounts of broken paths only. *)
Lemma pass_change recent h (o : nop) t :
  health_allow recent h o -> changed_target o = Some t ->
  exists target, o = Command "umount" ["-l"; target] /\ t = Clean target /\ broken_mount recent h target.
Proof.
  intros [o' Hr|target Hb] Hc; [|exists target; by injection Hc as <-]. exfalso.
  destruct Hr as [o' Ho%looks_quiet%quiet_harmless|name args i portal Ha _|name args i portal Ha _ _|name args i portal Ha _ _|? ?|? ?|target ?]; try done.
  2-4: cbn [iscsiadm_args] in Ha; destruct (String.eqb_spec name "iscsiadm") as [->|]; [done|]; by destruct (String.eqb_spec name "nsenter") as [->|].
  congruence.
Qed.

(** What the unmounts of a trace may do to one path. *)
Lemma pass_path recent (mine : gset string) p h tr T T' :
  p ∈ mine -> (forall t1 o r t2, tr = t1 ++ nev o r :: t2 -> health_allow recent (h ++ t1) o) ->
  world (fun q => q ∈ mine) tr T T' -> (length (at_path p T) <= 1)%nat ->
  at_path p T' = at_path p T \/
  at_path p T' = [] /\ exists t1 target r t2, tr = t1 ++ nev (Command "umount" ["-l"; target]) r :: t2 /\
    broken_mount recent (h ++ t1) target /\ (Clean target = p \/ below (Clean target) p = true).
Proof.
  intros Hp. revert h T. induction tr as [|[o r] tr IH]; intros h T Hall Hw Hone; [left; by apply Hw|].
  destruct Hw as (T1 & T2 & [Hg1 Hsame] & Hs & Hg2 & Hw). rewrite <- (Hsame p Hp) in *.
  assert (forall t1 o' r' t2, tr = t1 ++ nev o' r' :: t2 -> health_allow recent ((h ++ [nev o r]) ++ t1) o') as Hall'.
  { intros t1 o' r' t2 ->. rewrite <- app_assoc. by apply (Hall (nev o r :: t1) o' r' t2). }
  assert (at_path p T2 = at_path p T1 \/ at_path p T2 = [] /\ exists target, o = Command "umount" ["-l"; target] /\
    broken_mount recent h target /\ (Clean target = p \/ below (Clean target) p = true)) as Hstep.
  { pose proof (Hall [] o r tr eq_refl) as Ha. rewrite app_nil_r in Ha.
    destruct (changed_target o) as [t|] eqn:Hc; [|left; exact (harmless_step (nev o r) T1 T2 Hc Hs p)].
    destruct (pass_change recent h o t Ha Hc) as (target & -> & -> & Hb).
    destruct (decide (p = Clean target)) as [->|Hne].
    - destruct (umount_change_at (Clean target) _ r T1 T2 eq_refl Hc Hone Hs) as [E|E]; [by left|right; eauto 6].
    - destruct (below (Clean target) p) eqn:Eb; [|left; exact (other_step (nev _ r) T1 T2 (Clean target) p Hc Hne Eb Hs)].
      destruct (lazy_below target r T1 T2 p Hne Eb Hs) as [E|E]; [by left|right; eauto 6]. }
  assert (length (at_path p T2) <= 1)%nat as Hone2 by (destruct Hstep as [->|[-> _]]; [done|cbn; lia]).
  destruct (IH _ T2 Hall' Hw Hone2) as [E|(E & t1 & target & r' & t2 & -> & Hb & Ht)].
  - destruct Hstep as [E2|(E2 & target & -> & Hb & Ht)]; rewrite E, E2; [by left|right]. split; [done|].
    exists [], target, r, tr. by rewrite app_nil_r.
  - right. split; [done|]. exists (nev o r :: t1), target, r', t2. rewrite app_assoc_reverse_cons. by rewrite <- app_assoc in Hb |- *.
Qed.

Lemma pass_refines recent mine tr out T T' M :
  exec (runHealthCheck recent) tr out -> sane_host tr -> world (fun p => p ∈ mine) tr T T' -> represents mine M T ->
  exists M', pass_spec recent tr M M' /\ represents mine M' T'.
Proof.
  intros He Hc Hw HM. pose proof (sane_host_trace (health_policy recent) tr eq_refl Hc) as Ht.
  pose proof (wp_sound_allow _ _ _ _ _ _ (wp_runHealthCheck recent) He Ht) as Hall. cbn [app] in Hall.
  pose proof (fun p Hp => pass_path recent mine p [] tr T T' Hp Hall Hw (proj2 (lookup_at_path mine M T p Hp HM))) as Hpath.
  destruct HM as [Hdom HM]. set (M' := filter (fun kv => at_path kv.1 T' <> []) M).
  assert (forall p, p ∈ mine -> at_path p T' = [] -> M' !! p = None) as Hnone.
  { intros p Hp E. apply map_lookup_filter_None. right. intros x _ Hx. by apply Hx. }
  assert (forall p, p ∈ mine -> at_path p T' = at_path p T -> M' !! p = M !! p) as Hkept.
  { intros p Hp E. destruct (M !! p) as [ob|] eqn:EM; [|by apply map_lookup_filter_None; left].
    apply map_lookup_filter_Some. split; [done|]. cbn. by rewrite E, (HM p Hp), EM. }
  exists M'. split; [|split; [etransitivity; [apply dom_filter_subseteq|done]|]]; intros p.
  - destruct (decide (p ∈ mine)) as [Hp|Hp]; [|left; assert (M !! p = None) as EM by (apply not_elem_of_dom; set_solver)].
    + destruct (Hpath p Hp) as [E|(E & Hex)]; [left; by apply Hkept|right; by split; [apply Hnone|]].
    + rewrite EM. apply map_lookup_filter_None. by left.
  - intros Hp. destruct (Hpath p Hp) as [E|(E & _)]; [rewrite (Hkept p Hp E), E; by apply HM|by rewrite (Hnone p Hp E), E].
Qed.
