(* ===== verification/NodeOrchestration.v ===== *)
(** * The life of volumes on a node

    An orchestrator that stages, publishes, unpublishes and unstages volumes in
    any order, with repetitions and failures, and the passes of the health
    monitor between its calls: the composition of the node's calls over one
    mount table, and an executable host on which a volume lives. *)

From S2P Require Import Prelude GoStrings Prog Errors Api Metadata Common Retry NodeHost MountInfo MountTheorems MountWorld MountTracking NodeRecovery NodeFiles NodeDevice NodeNvme NodeIscsi NodeService NodeCalm NodeLifecycle NodeQuiet NodeSessions RecoveryTheorems NodeRefinement.

#[local] Set Default Proof Using "Type*".

(** ** Activities *)

(** A finished call or pass: what was called, what it did, how it ended. *)
Inductive activity : Type :=
| Called (c : node_call) (tr : nhistory) (out : outcome node_result)
| Passed (recent : gmap string Z) (tr : nhistory) (out : outcome (gmap string Z)).

Definition performed (s : NodeService) (mine : gset string) (a : activity) : Prop :=
  match a with
  | Called c tr out => well_posed mine c /\ exec (call_program s c) tr out
  | Passed recent tr out => exec (runHealthCheck recent) tr out
  end.

Definition activity_trace (a : activity) : nhistory := match a with Called _ tr _ | Passed _ tr _ => tr end.

(** One after the other, on a host whose mount table behaves as documented. *)
Inductive orchestrated (s : NodeService) (mine : gset string) : table -> list activity -> table -> Prop :=
| no_activity T : orchestrated s mine T [] T
| next_activity a rest T T1 T2 :
    performed s mine a -> sane_host (activity_trace a) -> world (fun p => p ∈ mine) (activity_trace a) T T1 ->
    orchestrated s mine T1 rest T2 -> orchestrated s mine T (a :: rest) T2.

(** The specification of an activity, and of a sequence. *)
Definition activity_spec (a : activity) : mount_map -> mount_map -> Prop :=
  match a with Called c tr out => call_spec c tr out | Passed recent tr _ => pass_spec recent tr end.

Inductive spec_run : mount_map -> list activity -> mount_map -> Prop :=
| spec_done M : spec_run M [] M
| spec_next a rest M M1 M2 : activity_spec a M M1 -> spec_run M1 rest M2 -> spec_run M (a :: rest) M2.

Lemma world_good mine tr T T' : world mine tr T T' -> good_table T'.
Proof. revert T. induction tr as [|e tr IH]; intros T; [by intros []|]. intros (T1 & T2 & _ & _ & _ & Hw). by apply (IH T2). Qed.

Lemma activity_refines s mine a T T' M :
  testMode s = false -> separate_paths mine -> performed s mine a -> sane_host (activity_trace a) ->
  world (fun p => p ∈ mine) (activity_trace a) T T' -> good_table T -> represents mine M T ->
  exists M', activity_spec a M M' /\ represents mine M' T'.
Proof.
  intros Htest Hsep. destruct a as [c tr out|recent tr out]; cbn [performed activity_trace activity_spec].
  - intros [Hc He] Hs Hw Hg HM. by apply (call_refines s mine Hsep Htest c tr out T T').
  - intros He Hs Hw Hg HM. by apply (pass_refines recent mine tr out T T').
Qed.

(** C9: the node's calls compose to a map of mounts. Take any sequence of stage, unstage,
    publish and unpublish calls and passes of the health monitor, with any outcomes, on
    a host whose mount table behaves as mount(8) and umount(8) document and where nobody
    else touches the paths of the volumes. Then every path of a volume carries at most one
    mount at all times, and the table seen at these paths is a finite map that evolves as
    specified: a staging or publishing that succeeds leaves its path mounted, a
    publication shows what is mounted at the staging path, a call never replaces what is
    mounted and never touches another path, an unstaging or unpublishing that succeeds
    leaves its path unmounted (or its lazy unmount failed, for a device), a failed call does
    all or nothing, and a pass only removes what it saw broken. *)
Theorem node_calls_refine s mine T activities T' M :
  testMode s = false -> separate_paths mine -> good_table T -> represents mine M T ->
  orchestrated s mine T activities T' ->
  exists M', spec_run M activities M' /\ represents mine M' T'.
Proof.
  intros Htest Hsep Hg HM Hrun. revert M Hg HM.
  induction Hrun as [T|a rest T T1 T2 Hp Hs Hw Hrun IH]; intros M Hg HM; [exists M; split; [constructor|done]|].
  destruct (activity_refines s mine a T T1 M Htest Hsep Hp Hs Hw Hg HM) as (M1 & H1 & HM1).
  destruct (IH M1 (world_good _ _ _ _ Hw) HM1) as (M2 & H2 & HM2). exists M2. split; [by econstructor|done].
Qed.

(** ** A volume on a host *)

(** A host with an NFS server: mounts at two paths, plain unmounts. *)
Definition share_object : object := (0, 50, "/").
Definition share_mount (point : string) : kernel_mount :=
  mkKernelMount ("40", "29") 0 50 "/" point "rw,relatime" [] "nfs4" "nas:/tank/v1" ["rw"].

Definition demo_mount (args : list string) (T : table) : option table :=
  if bool_decide (last args = Some "/stage") && negb (has_option "bind" args) then Some (T ++ [share_mount "/stage"])
  else if bool_decide (last args = Some "/pod") && bool_decide (mount_source args = Some "/stage") &&
          bool_decide (last (at_path "/stage" T) = Some share_object) then Some (T ++ [share_mount "/pod"])
  else None.

Definition demo_umount (args : list string) (T : table) : option table :=
  match args with
  | [target] =>
      let p := Clean target in
      if bool_decide (length (at_path p T) = 1)%nat && negb (String.eqb p "/") && IsAbs target
      then Some (List.filter (fun m => negb (String.eqb (Clean (km_point m)) p)) T) else None
  | _ => None
  end.

Definition demo_answer (o : nop) : nans o :=
  match o return nans o with
  | Stat _ => Ok Directory
  | MkdirAll _ | Remove _ => None
  | EvalSymlinks path => Ok path
  | Command name _ => if String.eqb name "findmnt" then ("nfs4", None) else ("", Some (err_new os_ErrNotExist))
  | o => absent o
  end.

Definition demo_command (args : list string) (T : table) (run : list string -> table -> option table) : (string * option error) * table :=
  match run args T with Some T' => (("", None), T') | None => (("", Some (err_new os_ErrNotExist)), T) end.

Definition demo_host (o : nop) (T : table) : nans o * table :=
  match o return nans o * table with
  | OpenRead path => (Ok (kernel_file T), T)
  | Command name args =>
      if has_option "remount" args then (("", Some (err_new os_ErrNotExist)), T)
      else if String.eqb name "mount" then demo_command args T demo_mount
      else if String.eqb name "umount" then demo_command args T demo_umount
      else (demo_answer (Command name args), T)
  | o => (demo_answer o, T)
  end.

Definition rooted (T : table) : Prop := Forall well_formed T /\ exists rest, T = root_mount :: rest.

Lemma at_path_snoc p T m : at_path p (T ++ [m]) = at_path p T ++ if String.eqb (Clean (km_point m)) p then [object_of m] else [].
Proof. unfold at_path. rewrite List.filter_app, map_app. cbn [List.filter]. by destruct (String.eqb _ p). Qed.

Lemma at_path_without p q T :
  at_path q (List.filter (fun m => negb (String.eqb (Clean (km_point m)) p)) T) = if String.eqb q p then [] else at_path q T.
Proof.
  unfold at_path. induction T as [|m T IH]; [by destruct (String.eqb q p)|]. cbn [List.filter].
  destruct (String.eqb_spec (Clean (km_point m)) p) as [Ep|Np]; cbn [negb List.filter]; destruct (String.eqb_spec (Clean (km_point m)) q) as [Eq|Nq];
    cbn [map]; rewrite ?IH; destruct (String.eqb_spec q p); congruence.
Qed.

Lemma share_mount_well_formed point : point ∈ ["/stage"; "/pod"] -> well_formed (share_mount point).
Proof. intros [->|[->|Hn%elem_of_nil]%elem_of_cons]%elem_of_cons; [well_formed_mount..|done]. Qed.

Lemma demo_mount_step args T T' :
  has_option "remount" args = false -> rooted T -> demo_mount args T = Some T' -> mounted_by args T T' /\ rooted T'.
Proof.
  intros Hr [Hw Hroot] Hm. unfold mounted_by. rewrite Hr. unfold demo_mount in Hm.
  assert (forall point, point ∈ ["/stage"; "/pod"] -> rooted (T ++ [share_mount point])) as Hgood.
  { intros point Hp. split; [apply Forall_app; split; [done|]; by apply Forall_singleton, share_mount_well_formed|].
    destruct Hroot as [rest ->]. by exists (rest ++ [share_mount point]). }
  destruct (bool_decide _ && negb _) eqn:E1; [|destruct (_ && _ && _) eqn:E2; [|done]]; injection Hm as <-; bool_to_prop.
  - split; [|apply Hgood; by left]. exists "/stage", share_object. split; [done|]. split_and!; [by rewrite at_path_snoc| |congruence].
    intros q Hq. rewrite at_path_snoc. destruct (String.eqb_spec (Clean (km_point (share_mount "/stage"))) q) as [<-|]; [done|]. by rewrite app_nil_r.
  - split; [|apply Hgood; by right; left]. exists "/pod", share_object. split; [done|]. split_and!; [by rewrite at_path_snoc| |].
    + intros q Hq. rewrite at_path_snoc. destruct (String.eqb_spec (Clean (km_point (share_mount "/pod"))) q) as [<-|]; [done|]. by rewrite app_nil_r.
    + intros _ source top Hs Htop. assert (source = "/stage") as -> by congruence. change (Clean "/stage") with "/stage" in Htop. congruence.
Qed.

Lemma demo_umount_step args T T' : rooted T -> demo_umount args T = Some T' -> unmounted_by args T T' /\ rooted T'.
Proof.
  intros [Hw Hroot] Hm. unfold demo_umount in Hm. destruct args as [|target [|? ?]]; [done| |done]. cbv zeta in Hm.
  destruct (bool_decide _ && _ && _) eqn:E1; [|done]. injection Hm as <-. bool_to_prop. split.
  - destruct (at_path (Clean target) T) as [|o [|? ?]] eqn:Ea; [done| |done].
    exists target, o. split; [done|]. rewrite Ea, at_path_without, String.eqb_refl. split; [done|].
    intros q Hq. rewrite at_path_without. apply String.eqb_neq in Hq as ->. cbn [hd]. by destruct (String.eqb_spec target "-l") as [->|].
  - destruct Hroot as [rest ->]. split; [apply Forall_forall; intros m [Hm _]%list_elem_of_In%filter_In; rewrite Forall_forall in Hw; by apply Hw, list_elem_of_In|].
    cbn [List.filter]. change (Clean (km_point root_mount)) with "/".
    destruct (String.eqb_spec "/" (Clean target)) as [E|]; [by destruct (Clean target)|]. by eexists.
Qed.

Lemma demo_host_step (o : nop) T : rooted T -> table_step (nev o (demo_host o T).1) T (demo_host o T).2 /\ rooted (demo_host o T).2.
Proof.
  intros HT. destruct o; try (split; [|exact HT]); try done. cbn [demo_host table_step nev ev].
  assert (forall run (E : table -> table -> Prop), (forall T', run args T = Some T' -> E T T' /\ rooted T') ->
    effect (is_some (demo_command args T run).1.2) E T (demo_command args T run).2 /\ rooted (demo_command args T run).2) as Hrun.
  { intros run E Hr. unfold demo_command. destruct (run args T) as [T'|]; [by apply Hr|]. split; [by left|done]. }
  destruct (has_option "remount" args) eqn:Er.
  { cbn [fst snd is_some]. split; [|done]. destruct (String.eqb name "mount"); [by left|]. destruct (String.eqb name "umount"); by try left. }
  destruct (String.eqb name "mount"); [apply Hrun; intros T' H; by apply demo_mount_step|].
  destruct (String.eqb name "umount"); [apply Hrun; intros T' H; by apply demo_umount_step|]. by split.
Qed.

Lemma demo_host_world mine {A : Type} (c : Host A) T :
  rooted T -> let e := run (Sg := nsig) demo_host c T in world mine e.2 T e.1.2 /\ rooted e.1.2.
Proof.
  revert T. induction c as [a| |o k IH]; intros T HT; cbn [run].
  1, 2: split; [|done]; split; [|done]; split; [apply HT|by destruct HT as [_ [rest ->]]].
  destruct (demo_host_step o T HT) as [Hs HT1]. destruct (demo_host o T) as [r T1]. cbn [fst snd] in *.
  specialize (IH r T1 HT1). destruct (run (Sg := nsig) demo_host (k r) T1) as [[out T2] tr]. destruct IH as [Hw HT2]. split; [|done].
  assert (forall T, rooted T -> good_table T) as Hgood by (intros T' [Hw' [rest ->]]; by split).
  exists T, T1. split_and!; [split; [by apply Hgood|done]|exact Hs|by apply Hgood|exact Hw].
Qed.

(** Stage, stage again, publish, a pass, unpublish, unstage. *)
Definition demo_context : gomap := Some (list_to_map [("protocol", "nfs"); ("server", "nas"); ("share", "/tank/v1")]).
Definition demo_capability : option NodeCapability :=
  Some (mkNodeCapability (mkVolumeCapability (Mount "") MULTI_NODE_MULTI_WRITER) []).
Definition demo_stage : node_call := StageVolume (mkNodeStage "v1" "/stage" demo_capability demo_context None).
Definition demo_publish : node_call := PublishVolume (mkNodePublish "v1" "/pod" "/stage" demo_capability demo_context false).
Definition demo_unpublish : node_call := UnpublishVolume "v1" "/pod".
Definition demo_unstage : node_call := UnstageVolume (mkNodeUnstage "v1" "/stage").
Definition demo_node : NodeService := NewNodeService "node1" true false true false 0.
Definition demo_paths : gset string := {["/stage"; "/pod"]}.

(** [None]: a pass. *)
Fixpoint demo_run (calls : list (option node_call)) (T : table) : list activity * table :=
  match calls with
  | [] => ([], T)
  | Some c :: rest =>
      let e := run (Sg := nsig) demo_host (call_program demo_node c) T in
      let '(done_, T') := demo_run rest e.1.2 in (Called c e.2 e.1.1 :: done_, T')
  | None :: rest =>
      let e := run (Sg := nsig) demo_host (runHealthCheck ∅) T in
      let '(done_, T') := demo_run rest e.1.2 in (Passed ∅ e.2 e.1.1 :: done_, T')
  end.

Definition posed (c : option node_call) : Prop := match c with Some c => well_posed demo_paths c | None => True end.

Lemma demo_next a rest T T1 :
  performed demo_node demo_paths a -> world (fun p => p ∈ demo_paths) (activity_trace a) T T1 ->
  (Forall (fun a => sane_host (activity_trace a)) (demo_run rest T1).1 ->
     orchestrated demo_node demo_paths T1 (demo_run rest T1).1 (demo_run rest T1).2) ->
  let '(done_, T') := demo_run rest T1 in
  Forall (fun a => sane_host (activity_trace a)) (a :: done_) -> orchestrated demo_node demo_paths T (a :: done_) T'.
Proof.
  intros Hp Hw Hrest. destruct (demo_run rest T1) as [done_ T']. intros [Hs Hd]%Forall_cons.
  by apply (next_activity _ _ a done_ T T1 T'); [..|apply Hrest].
Qed.

Lemma demo_run_orchestrated calls T :
  rooted T -> Forall posed calls -> Forall (fun a => sane_host (activity_trace a)) (demo_run calls T).1 ->
  orchestrated demo_node demo_paths T (demo_run calls T).1 (demo_run calls T).2.
Proof.
  intros HT Hc. revert T HT. induction Hc as [|c calls Hc _ IH]; intros T HT; [constructor|].
  destruct c as [c|]; cbn [demo_run].
  - destruct (demo_host_world (fun p => p ∈ demo_paths) (call_program demo_node c) T HT) as [Hw HT1].
    pose proof (run_exec (Sg := nsig) demo_host (call_program demo_node c) T) as He. cbv zeta. revert Hw HT1 He.
    generalize (run (Sg := nsig) demo_host (call_program demo_node c) T). intros [[out T1] tr] Hw HT1 He. cbn [fst snd] in *.
    pose proof (demo_next (Called c tr out) calls T T1 (conj Hc He) Hw (IH T1 HT1)) as H. by destruct (demo_run calls T1).
  - destruct (demo_host_world (fun p => p ∈ demo_paths) (runHealthCheck ∅) T HT) as [Hw HT1].
    pose proof (run_exec (Sg := nsig) demo_host (runHealthCheck ∅) T) as He. cbv zeta. revert Hw HT1 He.
    generalize (run (Sg := nsig) demo_host (runHealthCheck ∅) T). intros [[out T1] tr] Hw HT1 He. cbn [fst snd] in *.
    pose proof (demo_next (Passed ∅ tr out) calls T T1 He Hw (IH T1 HT1)) as H. by destruct (demo_run calls T1).
Qed.

Lemma demo_paths_separate : separate_paths demo_paths.
Proof. intros p q [->%elem_of_singleton| ->%elem_of_singleton]%elem_of_union [->%elem_of_singleton| ->%elem_of_singleton]%elem_of_union; done. Qed.

Lemma root_table : rooted [root_mount] /\ good_table [root_mount].
Proof.
  assert (Forall well_formed [root_mount]) as Hw by (apply Forall_singleton; well_formed_mount). split; (split; [done|]); [by exists []|done].
Qed.

Lemma demo_posed : Forall posed [Some demo_stage; Some demo_stage; Some demo_publish; None; Some demo_unpublish; Some demo_unstage].
Proof.
  assert ("/stage" ∈ demo_paths /\ "/pod" ∈ demo_paths) as [Hs Hp] by set_solver.
  repeat (apply Forall_cons_2; [try done; split_and!; try done|]). by apply Forall_nil.
Qed.

Definition demo_life : list activity * table :=
  demo_run [Some demo_stage; Some demo_stage; Some demo_publish; None; Some demo_unpublish; Some demo_unstage] [root_mount].

Lemma node_calls_refine_witness :
  Forall (fun a => match a with Called _ _ out => out = Done (Ok tt) | Passed _ _ out => out = Done ∅ end) demo_life.1 /\
  (exists M, spec_run ∅ demo_life.1 M /\ represents demo_paths M demo_life.2) /\
  at_path "/pod" (demo_run [Some demo_stage; Some demo_publish] [root_mount]).2 = [share_object] /\
  demo_life.2 = [root_mount].
Proof.
  split; [repeat (apply Forall_cons_2; [vm_compute; reflexivity|]); apply Forall_nil; exact I|]. split; [|split; vm_compute; reflexivity].
  apply (node_calls_refine demo_node demo_paths [root_mount] demo_life.1 demo_life.2 ∅).
  - reflexivity.
  - exact demo_paths_separate.
  - exact (proj2 root_table).
  - split; [set_solver|]. intros p [->%elem_of_singleton| ->%elem_of_singleton]%elem_of_union; reflexivity.
  - apply demo_run_orchestrated; [exact (proj1 root_table)|exact demo_posed|].
    repeat (apply Forall_cons_2; [vm_compute; repeat split; discriminate|]). apply Forall_nil; exact I.
Defined.
