(* ===== verification/SingleWriter.v ===== *)
(** * One writer, over the life of a volume

    A volume that may have a single writer, on a host whose mount table behaves
    as documented and whose own mount namespace shows the mounts of the host: the
    check that [NodePublishVolume] makes of the table of /proc/1 is composed
    with the mounts that the calls make. *)

From S2P Require Import Prelude GoStrings Prog Errors Api Metadata Common Retry NodeHost MountInfo MountTheorems MountWorld MountTracking NodeRecovery NodeFiles NodeDevice NodeNvme NodeIscsi NodeService NodeCalm NodeLifecycle NodeQuiet NodeRpc NodeSessions RecoveryTheorems PublishingTheorems NodeRefinement NodeOrchestration.

#[local] Set Default Proof Using "Type*".

(** ** The table of the host namespace *)

Definition host_file : string := "/proc/1/mountinfo".

(** The kernel's paths are clean. *)
Definition clean_mount (m : kernel_mount) : Prop :=
  Clean (km_point m) = km_point m /\ (IsAbs (km_root m) = true -> Clean (km_root m) = km_root m).

Lemma clean_components_dot rooted l stack :
  clean_components rooted (l ++ ["."]) stack = clean_components rooted l stack.
Proof.
  revert stack. induction l as [|c l IH]; intros stack; [done|]. cbn [app clean_components].
  destruct (_ || _); [apply IH|]. destruct (String.eqb c ".."); [|apply IH]. destruct stack as [|top stack]; [apply IH|]. destruct (String.eqb top ".."); apply IH.
Qed.

Lemma JoinPath_dot root : IsAbs root = true -> JoinPath root "." = Clean root.
Proof.
  intros H. destruct (HasPrefix_split root "/") as [Hs _]. destruct (Hs H) as [t ->].
  change (JoinPath ("/" +:+ t) ".") with (Clean (("/" +:+ t) +:+ String "/" ".")). unfold Clean. rewrite Split_append.
  change (Split "." "/") with ["."]. rewrite clean_components_dot, str_app_assoc, !str_cons_app, !str_nil_app. by destruct t.
Qed.

Lemma drop_common_same l : drop_common l l = ([], []).
Proof. induction l as [|c l IH]; [done|]. cbn [drop_common]. by rewrite String.eqb_refl. Qed.

Lemma Rel_same path : Rel path path = ".".
Proof. unfold Rel. by rewrite drop_common_same. Qed.

Lemma TrimSuffix_length point : (str_len (TrimSuffix point "/") < str_len point)%nat -> TrimSuffix point "/" +:+ "/" = point.
Proof.
  unfold TrimSuffix. destruct (HasSuffix point "/") eqn:E; [|lia]. intros _.
  destruct (HasSuffix_split point "/" E) as [t ->]. rewrite str_app_length.
  replace (str_len t + str_len "/" - str_len "/")%nat with (str_len t) by lia. by rewrite str_take_app.
Qed.

Lemma TrimSuffix_le point : (str_len point <= S (str_len (TrimSuffix point "/")))%nat.
Proof.
  unfold TrimSuffix. destruct (HasSuffix point "/") eqn:E; [|lia]. destruct (HasSuffix_split point "/" E) as [t ->].
  rewrite str_app_length. replace (str_len t + str_len "/" - str_len "/")%nat with (str_len t) by lia. rewrite str_take_app.
  change (str_len "/") with 1%nat. lia.
Qed.

(** A mount above a path is shorter than the path. *)
Lemma covers_shorter source m : covers source m -> km_point m <> source -> (str_len (km_point m) < str_len source)%nat.
Proof.
  intros [->|[rest E]] Hne; [done|]. pose proof (TrimSuffix_le (km_point m)) as Hle.
  apply (f_equal str_len) in E as El. rewrite !str_app_length in El. change (str_len "/") with 1%nat in El.
  destruct (decide (str_len (km_point m) < str_len source)%nat); [done|]. exfalso. apply Hne.
  rewrite E. destruct rest as [|c rest]; [|cbn in El; unfold str_len in *; simpl in El; lia].
  rewrite str_app_nil_r. symmetry. apply TrimSuffix_length. unfold str_len in *. simpl in El. lia.
Qed.

(** The only mount at a path holds it. *)
Lemma sole_mount_holds path T top :
  Forall clean_mount T -> at_path path T = [top] -> exists c, holds path T c /\ km_point c = path /\ object_of c = top.
Proof.
  intros Hc Ha. unfold at_path in Ha. set (f := fun m => String.eqb (Clean (km_point m)) path) in Ha.
  destruct (List.filter f T) as [|c [|? ?]] eqn:Ef; [done| |done]. injection Ha as Htop.
  assert (forall m, m ∈ T -> f m = true <-> km_point m = path) as Hf.
  { intros m Hm. rewrite Forall_forall in Hc. destruct (Hc m Hm) as [Hp _]. subst f. cbn. rewrite Hp. apply String.eqb_eq. }
  assert (c ∈ T /\ f c = true) as [Hin Hfc] by (rewrite list_elem_of_In; apply filter_In; rewrite Ef; by left).
  exists c. split; [|split; [by apply Hf|done]].
  apply list_elem_of_split in Hin as (before & after & ->). exists before, after. split; [done|].
  assert (km_point c = path) as Ep by (apply Hf; [set_solver|done]). split; [by left|].
  assert (forall m, m ∈ before ++ after -> km_point m <> path) as Hother.
  { intros m Hm E. rewrite List.filter_app in Ef. cbn [List.filter] in Ef. rewrite Hfc in Ef.
    apply (f_equal length) in Ef. rewrite length_app in Ef. cbn in Ef.
    assert (m ∈ List.filter f before \/ m ∈ List.filter f after) as [Hl|Hl].
    { rewrite !list_elem_of_In, !filter_In, <- !list_elem_of_In. assert (f m = true) by (apply Hf; [set_solver|done]). set_solver. }
    all: apply list_elem_of_split in Hl as (? & ? & Hl); rewrite Hl, length_app in Ef; cbn in Ef; lia. }
  rewrite Ep. split; intros m Hm Hcov; [apply Nat.lt_le_incl|]; apply covers_shorter; try done; apply Hother; set_solver.
Qed.

Lemma bindMountRefs_read path file refs : bindMountRefs path file = Ok refs -> o_readErr file = None.
Proof.
  unfold bindMountRefs, scan_lines. destruct (fitting_lines _) as [ls fits]. destruct (parse_entries ls); [|done]. by destruct fits, (o_readErr file).
Qed.

(** The check finds every other path where the staged object is mounted. *)
Lemma refs_complete path top q T file refs :
  Forall well_formed T -> Forall clean_mount T -> at_path path T = [top] ->
  o_content file = kernel_table T -> bindMountRefs path file = Ok refs -> top ∈ at_path q T -> q <> path -> q ∈ refs /\ Clean q = q.
Proof.
  intros Hw Hc Ha Hf Hr Hq Hqp. destruct (sole_mount_holds path T top Hc Ha) as (c & Hh & Ep & <-).
  assert (bindMountRefs path (kernel_file T) = Ok refs) as Hk.
  { destruct file as [content readErr closeErr]. cbn in Hf. subst content. unfold bindMountRefs, scan_lines, kernel_file in *.
    cbn [o_content o_readErr] in *. destruct (fitting_lines _) as [ls fits]. destruct (parse_entries ls); [|done]. by destruct fits, readErr. }
  assert (IsAbs (km_root c) = true) as Habs.
  { unfold bindMountRefs in Hk. rewrite scan_kernel_table, parse_kernel_entries, (containing_holds _ _ _ Hh) in Hk by done.
    change (e_root (entry_of c)) with (km_root c) in Hk. by destruct (IsAbs (km_root c)). }
  rewrite (bindMountRefs_kernel T path c Hw Hh Habs) in Hk. injection Hk as <-.
  unfold at_path in Hq. apply list_elem_of_In, in_map_iff in Hq as (m & Eo & [Hm Eq]%filter_In).
  apply String.eqb_eq in Eq. rewrite Forall_forall in Hc. destruct (Hc m) as [Em _]; [by apply list_elem_of_In|].
  assert (km_point m = q) as Epm by congruence. split; [|congruence]. rewrite list_elem_of_In. apply in_map_iff. exists m. split; [done|].
  apply filter_In. split; [done|]. unfold same_object. injection Eo as -> -> ->.
  assert (c ∈ T) as Hcin by (destruct Hh as (? & ? & -> & _); set_solver).
  rewrite Ep, Rel_same, JoinPath_dot, (proj2 (Hc c Hcin)), !Z.eqb_refl, String.eqb_refl, Epm by done.
  by apply String.eqb_neq in Hqp as ->.
Qed.

(** ** Executions on a host that is seen whole *)

Section Watched.
Context (mine : gset string) (stg : string).
Abbreviation ours := (fun p => p ∈ mine).

(** The table of the host shows the mounts at the paths of the volume, and the
    staging path leads through no symbolic link. *)
Definition host_table (T TH : table) : Prop :=
  good_table TH /\ Forall clean_mount TH /\ forall p, p ∈ mine -> at_path p TH = at_path p T.

Definition host_sees (e : event nsig) (T : table) : Prop :=
  match e with
  | existT o r =>
      match o return nans o -> Prop with
      | OpenRead path => fun r => match r with
          | Ok file => path = host_file -> o_readErr file = None -> exists TH, o_content file = kernel_table TH /\ host_table T TH
          | Err _ => True
          end
      | EvalSymlinks path => fun r => match r with Ok source => Clean path = stg -> Clean source = stg | Err _ => True end
      | _ => fun _ => True
      end r
  end.

(** [MountWorld.world], with what the host shows. *)
Fixpoint watched (tr : nhistory) (T T' : table) : Prop :=
  match tr with
  | [] => elsewhere ours T T'
  | e :: tr' => exists T1 T2, elsewhere ours T T1 /\ host_sees e T1 /\ table_step e T1 T2 /\ good_table T2 /\ watched tr' T2 T'
  end.

Lemma watched_world tr T T' : watched tr T T' -> world ours tr T T'.
Proof.
  revert T. induction tr as [|e tr IH]; intros T; [done|]. intros (T1 & T2 & ? & _ & ? & ? & Hw). exists T1, T2. auto.
Qed.

(** What an operation saw, when the operations before it changed one path only. *)
Lemma watched_at p tr T T' t1 e t2 :
  separate_paths mine -> p ∈ mine -> watched tr T T' -> tr = t1 ++ e :: t2 ->
  (forall e' t, e' ∈ t1 -> changed_target (projT1 e') = Some t -> t = p) ->
  exists T1, host_sees e T1 /\ forall q, q ∈ mine -> q <> p -> at_path q T1 = at_path q T.
Proof.
  intros Hsep Hp Hw -> Hch. revert T Hw. induction t1 as [|e' t1 IH]; intros T (T1 & T2 & [_ Hsame] & He & Hs & _ & Hw).
  - exists T1. split; [done|]. intros q Hq _. by apply Hsame.
  - destruct (IH (fun e t He' => Hch e t (list_elem_of_further _ _ _ He')) T2 Hw) as (T3 & ? & H3).
    exists T3. split; [done|]. intros q Hq Hne. rewrite H3 by done. rewrite <- (Hsame q Hq).
    apply (unchanged_step e'); [|done]. intros t Ht. rewrite (Hch e' t (list_elem_of_here _ _) Ht). split; [done|by apply Hsep].
Qed.

(** An operation changes the table, or the table stays. *)
Lemma harmless_or_change (tr : nhistory) :
  harmless tr \/ exists t1 e t2 t, tr = t1 ++ e :: t2 /\ changed_target (projT1 e) = Some t.
Proof using Type.
  induction tr as [|e tr [IH|(t1 & e' & t2 & t & -> & Ht)]]; [by left; constructor| |].
  - destruct (changed_target (projT1 e)) as [t|] eqn:E; [|left; by constructor]. right. by exists [], e, tr, t.
  - right. by exists (e :: t1), e', t2, t.
Qed.

Lemma harmless_world tr T T' p : harmless tr -> world ours tr T T' -> p ∈ mine -> at_path p T' = at_path p T.
Proof using Type.
  intros Hh. revert T. induction Hh as [|e tr He _ IH]; intros T; [intros [_ H]; apply H|].
  intros (T1 & T2 & [_ Hsame] & Hs & _ & Hw) Hp. rewrite (IH T2 Hw Hp), (harmless_step e T1 T2 He Hs p). by apply Hsame.
Qed.
End Watched.

(** ** A publication by a single writer *)

(** A publication that succeeds has made the check. *)
Lemma published_sole s req tr :
  exec (NodePublishVolume s req) tr (Done (Ok tt)) -> sane_host tr -> sole_publication s req tr.
Proof.
  set (P := {| allow (_ : nhistory) (_ : op nsig) := True; env := host_env; crash := True |} : policy nsig).
  assert (forall A h (p : Host A), wp P h p (fun _ _ => True)) as Hany.
  { intros A h p. revert h. induction p as [a| |o k IH]; intros h; [done..|]. split; [done|]. intros r _. apply IH. }
  assert (wp P [] (NodePublishVolume s req) (fun r h => r = Ok tt -> sole_publication s req h)) as Hwp.
  { unfold NodePublishVolume, observe_error. destruct (String.eqb _ ""); [by split|]. destruct (String.eqb _ ""); [by split|].
    destruct (match pb_VolumeCapability req with None => true | Some _ => false end); [by split|].
    unfold with_volume_lock. apply wp_bind, wp_host; [done|]. intros [e|] _; [by split|].
    apply wp_bind. eapply wp_mono with (Q := fun r h => r = Ok tt -> sole_publication s req h).
    { intros r h Hr. apply wp_bind, wp_host; [done|]. intros ? _. apply wp_ret. intros E. by apply sole_publication_app, Hr. }
    eapply wp_call_spec.
    { eapply (wp_weaken (publish_policy s req) P); [done..|]. apply pwp_checkSingleWriter. }
    intros [e|] t Hs; [by split|]. eapply wp_call_spec; [apply Hany|]. intros r t' _.
    eapply wp_call_spec; [apply Hany|]. intros ? t2 _. apply wp_ret. intros _. by do 2 apply sole_publication_app; apply Hs. }
  intros He Hc. exact (wp_sound_post _ _ _ _ _ _ Hwp He (sane_host_trace P tr eq_refl Hc) eq_refl).
Qed.

Section Call.
Context (s : NodeService) (mine : gset string) (stg : string) (Hsep : separate_paths mine) (Htest : testMode s = false) (Hstg : stg ∈ mine).
Context (req : NodePublishVolumeRequest) (Hposed : well_posed mine (PublishVolume req)).
Context (Hwriter : single_writer (pb_VolumeCapability req) = true) (Hstaging : Clean (pb_StagingTargetPath req) = stg).
Abbreviation target := (Clean (pb_TargetPath req)).

(** All that a publication does to the table is its mount, after the check. *)
Lemma publish_changes tr out t1 e t2 t :
  exec (NodePublishVolume s req) tr out -> sane_host tr -> tr = t1 ++ e :: t2 -> changed_target (projT1 e) = Some t ->
  t = target /\ sole_publication s req t1.
Proof using Type.
  destruct e as [o r]. cbn [projT1]. intros He Hc E Ht.
  pose proof (rpc_allow_work _ _ _ _ (rpc_operations (wp_NodePublishVolume s req) eq_refl He Hc E)) as Hw.
  assert (publish_allow s req t1 o) as Ha by (destruct o; try done; apply Hw). clear E Hw. revert Ht.
  destruct Ha as [o Hq%quiet_harmless|Hs _ _ _|? ?|? ? ?|? ?]; intros Ht; [congruence| |done..]. split; [|done]. unfold publish_args in Ht. destruct (pb_Readonly req); by injection Ht as <-.
Qed.

(** Where the check was made, the staged object is mounted at the target only. *)
Lemma sole_publication_seen tr T T' t1 t2 top q :
  watched mine stg tr T T' -> tr = t1 ++ t2 -> (forall e t, e ∈ t1 -> changed_target (projT1 e) = Some t -> t = target) ->
  sole_publication s req t1 -> at_path stg T = [top] -> q ∈ mine -> q <> stg -> top ∈ at_path q T -> q = target.
Proof.
  intros Hw E Hch Hsole Hat Hq Hne Htop. destruct Hposed as (_ & Htgt & _ & Hdiff). cbn [call_path] in Htgt. rewrite Hstaging in Hdiff.
  destruct (Hsole Hwriter) as (targets & Hk & Hall). unfold known_targets in Hk. rewrite Htest in Hk.
  destruct Hk as (source & file & Hl & Hr & Hrefs).
  assert (forall e, e ∈ t1 -> exists T1, host_sees mine stg e T1 /\ forall q, q ∈ mine -> q <> target -> at_path q T1 = at_path q T) as Hsee.
  { intros e (a & b & ->)%list_elem_of_split. rewrite <- app_assoc in E. apply (watched_at mine stg target tr T T' a e (b ++ t2)); try done.
    intros e' t He'. apply Hch. set_solver. }
  destruct (Hsee _ Hl) as (T1 & Hlink & _). specialize (Hlink Hstaging). cbn in Hlink. rewrite Hlink in Hrefs.
  destruct (Hsee _ Hr) as (T2 & Hread & H2).
  destruct (Hread eq_refl (bindMountRefs_read _ _ _ Hrefs)) as (TH & Hf & [Hwf _] & Hclean & HTH).
  destruct (decide (q = target)) as [|Hqt]; [done|].
  destruct (refs_complete stg top q TH file targets) as [Hin Hcq]; try done; [by rewrite HTH, H2| |].
  - by rewrite HTH, H2.
  - rewrite <- Hcq. by apply Hall.
Qed.
End Call.

(** ** The life of the volume *)

(** What the orchestrator keeps to: the volume is staged at its path only, and
    published from there, as a volume with a single writer, while it is staged. *)
Definition contract (stg : string) (a : activity) (T : table) : Prop :=
  match a with
  | Called (StageVolume req) _ _ => Clean (st_StagingTargetPath req) = stg
  | Called (PublishVolume req) _ _ =>
      single_writer (pb_VolumeCapability req) = true /\ Clean (pb_StagingTargetPath req) = stg /\ at_path stg T <> []
  | _ => True
  end.

Inductive single_writer_life (s : NodeService) (mine : gset string) (stg : string) : table -> list activity -> table -> Prop :=
| life_ends T : single_writer_life s mine stg T [] T
| life_goes_on a rest T T1 T2 :
    performed s mine a -> sane_host (activity_trace a) -> watched mine stg (activity_trace a) T T1 -> contract stg a T ->
    single_writer_life s mine stg T1 rest T2 -> single_writer_life s mine stg T (a :: rest) T2.

(** No object is published at two paths. *)
Definition published_once (stg : string) (M : mount_map) : Prop :=
  forall q1 q2 o, q1 <> stg -> q2 <> stg -> M !! q1 = Some o -> M !! q2 = Some o -> q1 = q2.

(** A publication that succeeds is the only one of what is staged. *)
Definition succeeds_alone (stg : string) (a : activity) (M : mount_map) : Prop :=
  match a with
  | Called (PublishVolume req) _ (Done (Ok tt)) =>
      M !! Clean (pb_TargetPath req) <> None /\
      forall q top, q <> stg -> M !! stg = Some top -> M !! q = Some top -> q = Clean (pb_TargetPath req)
  | _ => True
  end.

(** The maps of mounts that an activity may leave. *)
Definition single_writer_spec (stg : string) (a : activity) (M M' : mount_map) : Prop :=
  activity_spec a M M' /\ published_once stg M' /\ succeeds_alone stg a M'.

Inductive single_writer_run (stg : string) : mount_map -> list activity -> mount_map -> Prop :=
| run_ends M : single_writer_run stg M [] M
| run_goes_on a rest M M1 M2 : single_writer_spec stg a M M1 -> single_writer_run stg M1 rest M2 -> single_writer_run stg M (a :: rest) M2.

Lemma published_once_sub stg M M' : (forall p, p <> stg -> M' !! p = M !! p \/ M' !! p = None) -> published_once stg M -> published_once stg M'.
Proof.
  intros Hsub HM q1 q2 o Hq1 Hq2 H1 H2. destruct (Hsub q1 Hq1) as [E1|E1], (Hsub q2 Hq2) as [E2|E2]; [|congruence..].
  apply (HM q1 q2 o); congruence.
Qed.

Lemma published_once_insert stg M t o :
  (forall q, q <> stg -> M !! q = Some o -> q = t) -> published_once stg M -> published_once stg (<[t := o]> M).
Proof.
  intros Ho HM q1 q2 o' Hq1 Hq2. destruct (decide (q1 = t)) as [->|H1], (decide (q2 = t)) as [->|H2];
    rewrite ?lookup_insert_eq, ?lookup_insert_ne by done; [done| | |by apply HM].
  - intros [= <-] H. by apply Ho in H.
  - intros H [= <-]. by apply Ho in H.
Qed.

Lemma unmounted_once stg p stuck r M M' : unmount_spec p stuck r M M' -> published_once stg M -> published_once stg M'.
Proof.
  intros [->|[-> _]] HM; [|done]. apply (published_once_sub stg M); [|done]. intros q _.
  destruct (decide (q = p)) as [->|]; [right; by rewrite lookup_delete_eq|left; by rewrite lookup_delete_ne].
Qed.

Section Life.
Context (s : NodeService) (mine : gset string) (stg : string) (Hsep : separate_paths mine) (Htest : testMode s = false) (Hstg : stg ∈ mine).

Lemma represents_lookup M T q o : represents mine M T -> M !! q = Some o -> q ∈ mine /\ at_path q T = [o].
Proof using Type.
  intros [Hdom HM] E. assert (q ∈ mine) as Hq by (apply Hdom, elem_of_dom; eauto). split; [done|]. by rewrite (HM q Hq), E.
Qed.

Lemma publish_alone req tr out T T1 M M1 :
  performed s mine (Called (PublishVolume req) tr out) -> sane_host tr -> watched mine stg tr T T1 ->
  contract stg (Called (PublishVolume req) tr out) T ->
  represents mine M T -> represents mine M1 T1 -> call_spec (PublishVolume req) tr out M M1 -> published_once stg M ->
  published_once stg M1 /\ succeeds_alone stg (Called (PublishVolume req) tr out) M1.
Proof.
  intros [Hposed He] Hc Hw (Hwriter & Hstaging & Hstaged) HM HM1 (r & -> & Hspec) Honce.
  set (t := Clean (pb_TargetPath req)) in *. pose proof Hposed as (Habs & Ht & Hsrc & Hdiff). rewrite Hstaging in Hspec, Hdiff.
  assert (exists top, M !! stg = Some top) as [top Htop].
  { rewrite (proj2 HM stg Hstg) in Hstaged. by destruct (M !! stg) as [top|]; [exists top|]. }
  assert (forall t1 t2 q, tr = t1 ++ t2 -> sole_publication s req t1 -> q <> stg -> M !! q = Some top -> q = t) as Hsole.
  { intros t1 t2 q E Hs Hne Hq. destruct (represents_lookup M T q top HM Hq) as [Hqm Hqt].
    apply (sole_publication_seen s mine stg Hsep Htest Hstg req Hposed Hwriter Hstaging tr T T1 t1 t2 top); try done.
    - intros e t' (a & b & ->)%list_elem_of_split Hch. rewrite <- app_assoc in E. by apply (publish_changes s req tr _ a e (b ++ t2) t' He Hc E).
    - by apply (represents_lookup M T stg top HM).
    - rewrite Hqt. by left. }
  assert (forall q, q <> t -> M1 !! q = M !! q) as Hother.
  { intros q Hq. unfold publish_spec in Hspec. destruct (M !! t); [by rewrite Hspec|].
    destruct Hspec as [(o & -> & _)|[-> _]]; [by rewrite lookup_insert_ne|done]. }
  split.
  - unfold publish_spec in Hspec. destruct (M !! t) eqn:Et; [by rewrite Hspec|]. destruct Hspec as [(o & -> & Ho)|[-> _]]; [|done].
    rewrite (Ho top Htop) in *. apply published_once_insert; [|done].
    destruct (harmless_or_change tr) as [Hh|(t1 & e & t2 & t' & E & Hch)].
    { exfalso. pose proof (harmless_world mine tr T T1 t Hh (watched_world _ _ _ _ _ Hw) Ht) as Es.
      rewrite (proj2 HM1 t Ht), (proj2 HM t Ht), lookup_insert_eq, Et in Es. done. }
    intros q. apply (Hsole t1 (e :: t2) q E). by apply (publish_changes s req tr _ t1 e t2 t' He Hc E).
  - destruct r as [[]|]; [|done]. cbn [succeeds_alone]. fold t. split.
    + unfold publish_spec in Hspec. destruct (M !! t) eqn:Et; [by rewrite Hspec, Et|].
      destruct Hspec as [(o & -> & _)|[_ []]]; [by rewrite lookup_insert_eq|done].
    + intros q top' Hq Hs. rewrite Hother in Hs by done. assert (top' = top) as -> by congruence.
      destruct (decide (q = t)) as [|Hqt]; [done|]. rewrite Hother by done.
      apply (Hsole tr [] q); [by rewrite app_nil_r|by apply published_sole|done].
Qed.

Lemma life_step a T T1 M :
  performed s mine a -> sane_host (activity_trace a) -> watched mine stg (activity_trace a) T T1 -> contract stg a T -> good_table T ->
  represents mine M T -> published_once stg M -> exists M1, single_writer_spec stg a M M1 /\ represents mine M1 T1.
Proof.
  intros Hp Hc Hw Hcon Hg HM Honce.
  destruct (activity_refines s mine a T T1 M Htest Hsep Hp Hc (watched_world _ _ _ _ _ Hw) Hg HM) as (M1 & Hspec & HM1).
  exists M1. split; [|done]. split; [done|]. destruct a as [[req|req|req|volumeID path] tr out|recent tr out]; cbn [activity_spec] in Hspec.
  - split; [|done]. destruct Hspec as (r & _ & Hspec). cbn [contract] in Hcon. rewrite Hcon in Hspec. unfold stage_spec in Hspec.
    destruct (raw_block req); [by subst|]. destruct (M !! stg); [by subst|]. destruct Hspec as [[o ->]|[-> _]]; [|done].
    apply (published_once_sub stg M); [|done]. intros q Hq. left. by rewrite lookup_insert_ne.
  - split; [|done]. destruct Hspec as (r & _ & Hspec). by eapply unmounted_once.
  - by apply (publish_alone req tr out T T1 M).
  - split; [|done]. destruct Hspec as (r & _ & Hspec). by eapply unmounted_once.
  - split; [|done]. apply (published_once_sub stg M); [|done]. intros q _. destruct (Hspec q) as [?|[? _]]; auto.
Qed.
End Life.

(** C15: a volume with a single writer is never published twice. Take any sequence of
    stage, unstage, publish and unpublish calls of one volume and passes of the health
    monitor, with any outcomes, on a host whose mount table behaves as mount(8) and
    umount(8) document, whose own namespace shows the mounts of the volume, and where nobody
    else touches the paths of the volume (others may mount and unmount elsewhere, also what
    is staged). Where every publication is of the staged path with a single-writer
    capability, then after every call no two target paths show the same object, and a
    publication that succeeded left its target as the only one that shows what is staged:
    one to a second target is refused. The table at the paths of the volume evolves as the
    calls specify. *)
Theorem single_writer_enforced s mine stg T activities T' M :
  testMode s = false -> separate_paths mine -> stg ∈ mine -> good_table T -> represents mine M T -> published_once stg M ->
  single_writer_life s mine stg T activities T' ->
  exists M', single_writer_run stg M activities M' /\ represents mine M' T'.
Proof.
  intros Htest Hsep Hstg Hg HM Honce Hlife. revert M Hg HM Honce.
  induction Hlife as [T|a rest T T1 T2 Hp Hs Hw Hc _ IH]; intros M Hg HM Honce; [exists M; split; [constructor|done]|].
  destruct (life_step s mine stg Hsep Htest Hstg a T T1 M Hp Hs Hw Hc Hg HM Honce) as (M1 & H1 & HM1).
  destruct (IH M1 (world_good _ _ _ _ (watched_world _ _ _ _ _ Hw)) HM1 (proj1 (proj2 H1))) as (M2 & H2 & HM2).
  exists M2. split; [by econstructor|done].
Qed.

(** ** A volume with one writer on a host *)

Definition one_writer : option NodeCapability := Some (mkNodeCapability (mkVolumeCapability (Mount "") SINGLE_NODE_SINGLE_WRITER) []).
Definition stage_once : node_call := StageVolume (mkNodeStage "v1" "/stage" one_writer demo_context None).
Definition publish_at (pod : string) : node_call := PublishVolume (mkNodePublish "v1" pod "/stage" one_writer demo_context false).
Definition three_paths : gset string := {["/stage"; "/pod"; "/pod2"]}.

Definition called (c : node_call) (T : table) : outcome node_result * table * nhistory := run (Sg := nsig) demo_host (call_program demo_node c) T.

Lemma demo_clean (o : nop) T : Forall clean_mount T -> Forall clean_mount (demo_host o T).2.
Proof.
  intros HT. destruct o; try done. cbn [demo_host].
  assert (forall run, (forall T', run args T = Some T' -> Forall clean_mount T') -> Forall clean_mount (demo_command args T run).2) as Hrun.
  { intros run H. unfold demo_command. destruct (run args T); [by apply H|done]. }
  destruct (has_option "remount" args); [done|]. destruct (String.eqb name "mount"); [|destruct (String.eqb name "umount"); [|done]]; apply Hrun; intros T'.
  - unfold demo_mount. destruct (_ && _); [|destruct (_ && _); [|done]]; intros [= <-]; apply Forall_app; (split; [done|]);
      apply Forall_singleton; by split.
  - unfold demo_umount. destruct args as [|a [|? ?]]; [done| |done]. cbv zeta. destruct (_ && _); [|done]. intros [= <-].
    apply Forall_forall. intros m [Hm _]%list_elem_of_In%filter_In. rewrite Forall_forall in HT. by apply HT, list_elem_of_In.
Qed.

Lemma demo_host_watched mine stg {A : Type} (c : Host A) T :
  rooted T -> Forall clean_mount T ->
  let e := run (Sg := nsig) demo_host c T in watched mine stg e.2 T e.1.2 /\ rooted e.1.2 /\ Forall clean_mount e.1.2.
Proof.
  assert (forall T, rooted T -> good_table T) as Hgood by (intros T' [Hw' [rest ->]]; by split).
  revert T. induction c as [a| |o k IH]; intros T HT HC; cbn [run].
  1, 2: split; [|done]; split; [by apply Hgood|done].
  destruct (demo_host_step o T HT) as [Hs HT1]. pose proof (demo_clean o T HC) as HC1.
  assert (host_sees mine stg (nev o (demo_host o T).1) T) as Hsee.
  { destruct o; try done; cbn [host_sees nev ev demo_host fst demo_answer absent]; [done|]. intros _ _. exists T. split; [done|]. split; [by apply Hgood|done]. }
  destruct (demo_host o T) as [r T1]. cbn [fst snd] in *.
  specialize (IH r T1 HT1 HC1). destruct (run (Sg := nsig) demo_host (k r) T1) as [[out T2] tr]. destruct IH as (Hw & HT2 & HC2). split; [|done].
  exists T, T1. split_and!; [split; [by apply Hgood|done]|exact Hsee|exact Hs|by apply Hgood|exact Hw].
Qed.

Lemma life_called c rest T T2 :
  rooted T -> Forall clean_mount T -> well_posed three_paths c -> sane_host (called c T).2 ->
  contract "/stage" (Called c (called c T).2 (called c T).1.1) T ->
  (rooted (called c T).1.2 -> Forall clean_mount (called c T).1.2 -> single_writer_life demo_node three_paths "/stage" (called c T).1.2 rest T2) ->
  single_writer_life demo_node three_paths "/stage" T (Called c (called c T).2 (called c T).1.1 :: rest) T2.
Proof.
  intros HT HC Hp Hs Hcon Hrest. destruct (demo_host_watched three_paths "/stage" (call_program demo_node c) T HT HC) as (Hw & HT1 & HC1).
  eapply life_goes_on; [|exact Hs|exact Hw|exact Hcon|by apply Hrest].
  split; [done|]. apply (run_exec (Sg := nsig) demo_host (call_program demo_node c) T).
Qed.

Fixpoint life_of (calls : list node_call) (T : table) : list activity * table :=
  match calls with
  | [] => ([], T)
  | c :: rest => let l := life_of rest (called c T).1.2 in (Called c (called c T).2 (called c T).1.1 :: l.1, l.2)
  end.

Fixpoint kept (calls : list node_call) (T : table) : Prop :=
  match calls with
  | [] => True
  | c :: rest =>
      sane_host (called c T).2 /\ contract "/stage" (Called c (called c T).2 (called c T).1.1) T /\ kept rest (called c T).1.2
  end.

Lemma life_of_lives calls T :
  rooted T -> Forall clean_mount T -> Forall (well_posed three_paths) calls -> kept calls T ->
  single_writer_life demo_node three_paths "/stage" T (life_of calls T).1 (life_of calls T).2.
Proof.
  intros HT HC Hp. revert T HT HC. induction Hp as [|c calls Hp _ IH]; intros T HT HC; [constructor|].
  intros (Hs & Hcon & Hk). cbn [life_of fst snd]. by apply life_called; [..|intros; apply IH].
Qed.

(** The second publication is refused until the first is gone. *)
Definition writer_calls : list node_call :=
  [stage_once; publish_at "/pod"; publish_at "/pod2"; publish_at "/pod"; UnpublishVolume "v1" "/pod"; publish_at "/pod"].

Lemma three_paths_cases p : p ∈ three_paths -> p = "/stage" \/ p = "/pod" \/ p = "/pod2".
Proof. unfold three_paths. set_solver. Qed.

Lemma writer_calls_posed : Forall (well_posed three_paths) writer_calls.
Proof.
  assert ("/stage" ∈ three_paths /\ "/pod" ∈ three_paths /\ "/pod2" ∈ three_paths) as (Hs & Hp & Hp2) by (unfold three_paths; set_solver).
  repeat (apply Forall_cons_2; [split_and!; done|]). by apply Forall_nil.
Qed.

Definition outcome_ok (a : activity) : bool := match a with Called _ _ (Done (Ok _)) => true | _ => false end.

Lemma single_writer_enforced_witness :
  map outcome_ok (life_of writer_calls [root_mount]).1 = [true; true; false; true; true; true] /\
  exists M, single_writer_run "/stage" ∅ (life_of writer_calls [root_mount]).1 M /\
    represents three_paths M (life_of writer_calls [root_mount]).2.
Proof.
  split; [vm_compute; reflexivity|].
  apply (single_writer_enforced demo_node three_paths "/stage" [root_mount] _ (life_of writer_calls [root_mount]).2 ∅).
  - reflexivity.
  - intros p q [->|[->| ->]]%three_paths_cases [->|[->| ->]]%three_paths_cases; reflexivity.
  - unfold three_paths. set_solver.
  - exact (proj2 root_table).
  - split; [set_solver|]. intros p [->|[->| ->]]%three_paths_cases; reflexivity.
  - intros q1 q2 o _ _ H. rewrite lookup_empty in H. discriminate H.
  - apply life_of_lives; [exact (proj1 root_table)|by apply Forall_singleton|exact writer_calls_posed|].
    vm_compute. repeat split; discriminate.
Defined.
