(* ===== verification/Answers.v ===== *)
(** * What a program can answer

    [answers E p Q]: whatever the interactions answer, within [E], a value that
    [p] returns satisfies [Q].  It is the history-free part of [wp], used for
    the type of the errors that reach the caller of an RPC: a gRPC status with a
    code of its own, neither OK nor Unknown. *)

From S2P Require Import Prelude GoStrings Prog Errors.

#[local] Set Default Proof Using "Type*".

(** ** The rules *)

Section Answers.
Context {Sg : signature} (E : forall o : op Sg, ans Sg o -> Prop).

Fixpoint answers {A : Type} (p : prog Sg A) (Q : A -> Prop) : Prop :=
  match p with
  | Ret a => Q a
  | Panic => True
  | Vis o k => forall r, E o r -> answers (k r) Q
  end.

Lemma answers_mono {A : Type} (p : prog Sg A) (Q R : A -> Prop) :
  answers p Q -> (forall a, Q a -> R a) -> answers p R.
Proof. induction p; simpl; eauto. Qed.

Lemma answers_any {A : Type} (p : prog Sg A) : answers p (fun _ => True).
Proof. induction p; simpl; eauto. Qed.

Lemma answers_bind {A B : Type} (p : prog Sg A) (f : A -> prog Sg B) Q R :
  answers p Q -> (forall a, Q a -> answers (f a) R) -> answers (bind p f) R.
Proof. induction p; simpl; eauto. Qed.

Lemma answers_call {A : Type} (o : op Sg) (f : ans Sg o -> prog Sg A) R :
  (forall r, E o r -> answers (f r) R) -> answers (bind (call o) f) R.
Proof. done. Qed.

Lemma answers_range {T B : Type} (l : list T) (f : T -> prog Sg (option B)) Q :
  Q None -> (forall x, answers (f x) Q) -> answers (for_range l f) Q.
Proof.
  intros HN Hf. induction l as [|x l IH]; cbn [for_range]; [done|]. eapply answers_bind; [apply Hf|].
  intros [b|] Hb; [exact Hb|exact IH].
Qed.

(** Every interaction of a trace answered within [E]. *)
Definition answered (tr : list (event Sg)) : Prop := Forall (fun e => E (projT1 e) (projT2 e)) tr.

Lemma answers_sound {A : Type} (p : prog Sg A) Q tr a :
  answers p Q -> exec p tr (Done a) -> answered tr -> Q a.
Proof.
  revert tr. induction p as [b| |o k IH]; intros tr H He Ht.
  - by apply exec_inv in He as [_ [= ->]].
  - by apply exec_inv in He as [_ [=]].
  - apply exec_inv in He as (r & tr' & -> & He). apply Forall_cons in Ht as [Hr Ht]. exact (IH r tr' (H r Hr) He Ht).
Qed.
End Answers.

(** ** Errors that are statuses *)

Definition is_status (e : error) : Prop := err_code e <> OK /\ err_code e <> Unknown.

Definition status_res {A : Type} (r : res A) : Prop := match r with Ok _ => True | Err e => is_status e end.
Definition status_opt (r : option error) : Prop := match r with None => True | Some e => is_status e end.

(** The answer of a function that also returns its receiver. *)
Definition status_fst {A : Type} (r : option error * A) : Prop := status_opt r.1.

Lemma Status_is_status c msg : c <> OK -> c <> Unknown -> is_status (Status c msg).
Proof. done. Qed.

(** The error of a context that is done: package context gives it no other. *)
Definition from_context (e : error) : Prop := errors_Is e context_Canceled = true \/ errors_Is e context_DeadlineExceeded = true.

Lemma FromContextError_is_status e : from_context e -> is_status (FromContextError e).
Proof. unfold FromContextError. intros [->| ->]; [destruct (errors_Is e context_DeadlineExceeded)|]; done. Qed.

Lemma createVolumeError_is_status msg e : is_status (createVolumeError msg e).
Proof. unfold createVolumeError. repeat case_match; by apply Status_is_status. Qed.

Lemma status_of_err {A : Type} (r : res A) e : r = Err e -> status_res r -> is_status e.
Proof. by intros ->. Qed.

Lemma status_of_some (r : option error) e : r = Some e -> status_opt r -> is_status e.
Proof. by intros ->. Qed.

(** ** Automation

    [status_auto] walks through a program: a part known to answer statuses
    (database [status]) is used as such, of any other part nothing is kept. *)

Create HintDb status discriminated.
#[export] Hint Resolve createVolumeError_is_status FromContextError_is_status : status.
#[export] Hint Extern 1 (is_status (Status _ _)) => (apply Status_is_status; discriminate) : status.
#[export] Hint Extern 0 (status_res (Ok _)) => exact I : status.
#[export] Hint Extern 1 (status_res (Err _)) => (unfold status_res) : status.
#[export] Hint Extern 0 (status_opt None) => exact I : status.
#[export] Hint Extern 1 (status_opt (Some _)) => (unfold status_opt) : status.
#[export] Hint Extern 1 (status_fst (_, _)) => (unfold status_fst; cbn [fst]) : status.
#[export] Hint Extern 0 True => exact I : status.
#[export] Hint Constants Opaque : status.
#[export] Hint Variables Opaque : status.

Ltac status_known e :=
  match goal with
  | K : status_res (Err e) |- _ => exact K
  | K : status_opt (Some e) |- _ => exact K
  | K : status_fst (Some e, _) |- _ => exact K
  | H : ?r = Err e, K : status_res ?r |- _ => exact (status_of_err r e H K)
  | H : ?r = Some e, K : status_opt ?r |- _ => exact (status_of_some r e H K)
  end.
#[export] Hint Extern 0 (is_status ?e) => status_known e : status.

Ltac status_pure := solve [eauto 4 with status].

(** The scrutinee of a [match]: what is known of it is kept. *)
Ltac status_match := fail.
Ltac status_case x :=
  try lazymatch type of x with
      | res _ => assert (status_res x) by first [status_pure | status_match]
      | option error => assert (status_opt x) by first [status_pure | status_match]
      end;
  destruct x eqn:?; try discriminate; simplify_eq.

(** Combinators: what they answer is what their argument answers.  A file that
    has some redefines this tactic. *)
Ltac status_wrap := fail.

Ltac status_step :=
  let status_inner E p f :=
    first
      [ eapply (answers_bind E p f status_res); [solve [repeat status_step]|intros ? ?]
      | eapply (answers_bind E p f status_opt); [solve [repeat status_step]|intros ? ?] ] in
  lazymatch goal with
  | |- forall _, _ => intros ?
  | |- answers _ (Ret _) _ => cbn [answers]
  | |- answers _ Panic _ => exact I
  | |- answers _ (let _ := _ in _) _ => cbv zeta
  | |- answers _ (match ?x with _ => _ end) _ => status_case x
  | |- answers ?E (bind (Ret ?a) ?f) ?R => change (answers E (f a) R); cbv beta iota
  | |- answers ?E (bind (for_range ?l ?f) _) _ =>
      eapply (answers_bind E _ _ status_opt); [apply answers_range; [exact I|]|intros ? ?]
  | |- answers ?E (bind ?p ?f) ?R =>
      first
        [ eapply (answers_bind E p f); [status_pure|intros ? ?]
        | eapply (answers_bind E p f); [status_wrap; solve [repeat status_step]|intros ? ?]
        | lazymatch p with
          | match _ with _ => _ end => status_inner E p f
          | bind _ _ => status_inner E p f
          end
        | refine (answers_bind E p f (fun _ => True) R (answers_any E p) _); intros ? _ ]
  | |- status_res (match ?x with _ => _ end) => status_case x
  | |- status_opt (match ?x with _ => _ end) => status_case x
  | |- is_status (match ?x with _ => _ end) => status_case x
  | |- status_opt (Some (match _ with _ => _ end)) => unfold status_opt
  | |- status_res (Err (match _ with _ => _ end)) => unfold status_res
  | |- status_res (let _ := _ in _) => cbv zeta
  | |- _ => first [status_pure | status_wrap]
  end.

Ltac status_match ::=
  lazymatch goal with |- _ (match _ with _ => _ end) => solve [repeat status_step] end.

Ltac status_auto := repeat status_step.
