(* ===== verification/VolumeContexts.v ===== *)
(** * The context of a created volume

    The protocol and the server that CreateVolume writes into the context of a
    volume, for every protocol, source and backend behaviour: the server of the
    class, or the default one of NFS and SMB.  What else the context leads to
    is [Creation.routes]. *)

From S2P Require Import Prelude GoStrings Prog Errors Api Metadata Capacity Names Identity Capabilities SnapshotId Common Nfs Smb Block Iscsi Nvmeof Clone Controller Answers.

#[local] Set Default Proof Using "Type*".

(** ** The server in the context of a created volume *)

(** A success satisfies [P]. *)
Definition on_ok {A : Type} (P : A -> Prop) (r : res A) : Prop := match r with Ok a => P a | Err _ => True end.

Definition served (protocol server : string) (v : Volume) : Prop :=
  (Some (v_VolumeContext v)).[VolumeContextKeyProtocol] = protocol /\ (Some (v_VolumeContext v)).[VolumeContextKeyServer] = server.

Definition served_opt (protocol server : string) (o : option Volume) : Prop :=
  match o with Some v => served protocol server v | None => True end.

(** The server parameter of the class; only NFS and SMB have a default. *)
Definition server_of (params : gomap) (protocol : string) : string :=
  if String.eqb params.["server"] "" && (String.eqb protocol ProtocolNFS || String.eqb protocol ProtocolSMB)
  then defaultServerAddress else params.["server"].

Abbreviation vanswers := (answers (Sg := csig) (fun _ _ => True)).

Create HintDb served discriminated.
#[export] Hint Constants Opaque : served.
#[export] Hint Variables Opaque : served.
#[export] Hint Extern 0 (on_ok _ (Err _)) => exact I : served.
#[export] Hint Extern 0 (served_opt _ _ None) => exact I : served.
#[export] Hint Extern 1 (on_ok _ (Ok _)) => cbn [on_ok] : served.
#[export] Hint Extern 1 (served_opt _ _ (Some _)) => cbn [served_opt] : served.

Ltac served_step :=
  lazymatch goal with
  | |- forall _, _ => intros ?
  | |- answers _ (Ret _) _ => cbn [answers]; first [exact I | solve [eauto with served] | cbn [on_ok]]
  | |- answers _ Panic _ => exact I
  | |- answers _ (let _ := _ in _) _ => cbv zeta
  | |- answers _ (match ?x with _ => _ end) _ => destruct x eqn:?
  | |- answers ?E (bind (Ret ?a) ?f) ?R => change (answers E (f a) R); cbv beta iota
  | |- answers ?E (bind ?p ?f) ?R =>
      first
        [ eapply (answers_bind E p f); [solve [eauto 4 with served]|intros ? ?]
        | refine (answers_bind E p f (fun _ => True) R (answers_any E p) _); intros ? _ ]
  | |- answers _ _ _ => solve [eauto 4 with served]
  end.
Ltac served_auto := repeat served_step; cbn [on_ok] in *; try solve [eauto 4 with served].

Section Server.
Context {api : NastyAPI} {tt_ : TextTemplate} (s : service).

(** ** Shared steps *)

Lemma fail_never {A : Type} t e (P : A -> Prop) : vanswers (fail t e) (on_ok P).
Proof. unfold fail. served_auto. Qed.

Lemma rollback_never {A : Type} created sv e (P : A -> Prop) : vanswers (rollback_if created sv e) (on_ok P).
Proof. unfold rollback_if. served_auto. Qed.

Lemma abandon_never {A : Type} t created sv e (P : A -> Prop) : vanswers (abandon t created sv e) (on_ok P).
Proof. unfold abandon. served_step. apply rollback_never. Qed.

Lemma succeed_ok {A : Type} t (a : A) (P : A -> Prop) : P a -> vanswers (succeed t a) (on_ok P).
Proof. intros H. unfold succeed. served_auto. Qed.

Lemma observed_ok {A : Type} t (p : M (res A)) (P : A -> Prop) : vanswers p (on_ok P) -> vanswers (observed t p) (on_ok P).
Proof. intros H. unfold observed. eapply answers_bind; [exact H|]. intros [a|e] Ha; [exact Ha|apply fail_never]. Qed.

Lemma lift_ok {A : Type} (r : res A) (P : A -> Prop) : on_ok P r -> vanswers (lift r) (on_ok P).
Proof. done. Qed.

#[local] Hint Resolve fail_never rollback_never abandon_never succeed_ok observed_ok lift_ok : served.

(** The server of the parameters, whatever else is set in them. *)
Lemma validated_server req fs srv strategy : on_ok (fun p => server p = srv) (validateParams req fs srv strategy).
Proof. unfold validateParams. destruct (ResolveVolumeName _ _); [|done]. destruct (ResolveComment _ _); [|done]. by destruct (parseDataReplicas _). Qed.

Lemma file_server req fs protocol strategy :
  String.eqb protocol ProtocolNFS || String.eqb protocol ProtocolSMB = true ->
  on_ok (fun p => server p = server_of (req_Parameters req) protocol)
    (validateParams req fs (if String.eqb (req_Parameters req).["server"] "" then defaultServerAddress else (req_Parameters req).["server"]) strategy).
Proof. intros Hp. unfold server_of. rewrite Hp, andb_true_r. apply validated_server. Qed.

(** The annotation of the claim leaves the server. *)
Lemma annotated_server req params srv : server params = srv -> vanswers (apply_annotation s req params) (fun p => server p = srv).
Proof.
  intros H. unfold apply_annotation. destruct (markAdoptable params); [exact H|].
  eapply answers_bind; [apply answers_any|]. intros b _. by destruct b.
Qed.

(** The other entries of a context leave the protocol and the server. *)
Lemma served_share meta id capacity share source :
  served (m_Protocol meta) (m_Server meta) (mkVolume id capacity (<[VolumeContextKeyShare := share]> (buildVolumeContext meta)) source).
Proof. split; cbn [v_VolumeContext]; rewrite get_insert_ne by done; [apply built_protocol|apply built_server]. Qed.

Lemma served_queue protocol srv q z v : served protocol srv v -> served protocol srv (with_queue_params q z v).
Proof. intros [Hp Hs]. split; cbn [v_VolumeContext with_queue_params]; unfold injectQueueParams; by rewrite !get_put_ne. Qed.

(** ** NFS *)

Lemma NFS_built name srv sv share capacity :
  vanswers (buildNFSVolumeResponseFromSubvolume name srv sv share capacity) (served ProtocolNFS srv).
Proof. unfold buildNFSVolumeResponseFromSubvolume. cbv zeta. served_step. cbn [answers]. exact (served_share _ _ _ _ _). Qed.
#[local] Hint Resolve NFS_built : served.

Lemma NFS_committed params sv created d t :
  vanswers (nfs_commit_and_share s params sv created d t) (on_ok (served ProtocolNFS (server params))).
Proof. unfold nfs_commit_and_share. served_auto. Qed.

Lemma NFS_existing params sv d t :
  vanswers (handleExistingNFSSubvolume s params sv d t) (on_ok (served_opt ProtocolNFS (server params))).
Proof. unfold handleExistingNFSSubvolume. served_auto. Qed.
#[local] Hint Resolve NFS_committed NFS_existing : served.

Lemma NFS_validated req : on_ok (fun p : nfsVolumeParams => server p = server_of (req_Parameters req) ProtocolNFS) (validateNFSParams req).
Proof.
  unfold validateNFSParams. cbv zeta. destruct (String.eqb _.[paramFilesystem] _); [done|].
  pose proof (file_server req (req_Parameters req).[paramFilesystem] ProtocolNFS DeleteStrategyDelete eq_refl) as H.
  destruct (validateParams _ _ _ _); [|done]. exact H.
Qed.

Lemma NFS_created req : vanswers (createNFSVolume s req) (on_ok (served ProtocolNFS (server_of (req_Parameters req) ProtocolNFS))).
Proof.
  unfold createNFSVolume. cbv zeta. eapply answers_bind; [apply observed_ok, lift_ok, NFS_validated|].
  intros [params|e] Hp; [|exact I]. cbn [on_ok] in Hp. rewrite <- Hp.
  eapply answers_bind; [exact (annotated_server _ _ _ eq_refl)|]. intros common <-. served_auto; apply NFS_committed.
Qed.
#[local] Hint Resolve NFS_created : served.

Lemma NFS_adopted req sv params :
  vanswers (adoptNFSVolume s req sv params) (on_ok (served ProtocolNFS (server_of params ProtocolNFS))).
Proof.
  unfold adoptNFSVolume, server_of. cbv zeta. rewrite andb_true_r. served_auto.
  apply succeed_ok. exact (served_share _ _ _ _ _).
Qed.

(** ** SMB *)

Lemma SMB_built name srv sv share capacity :
  vanswers (buildSMBVolumeResponse name srv sv share capacity) (served ProtocolSMB srv).
Proof. unfold buildSMBVolumeResponse. cbv zeta. served_step. cbn [answers]. exact (served_share _ _ _ _ _). Qed.
#[local] Hint Resolve SMB_built : served.

Lemma SMB_committed params sv created d t :
  vanswers (smb_commit_and_share s params sv created d t) (on_ok (served ProtocolSMB (server params))).
Proof. unfold smb_commit_and_share. served_auto. Qed.

Lemma SMB_existing params sv d t :
  vanswers (handleExistingSMBSubvolume s params sv d t) (on_ok (served_opt ProtocolSMB (server params))).
Proof. unfold handleExistingSMBSubvolume. served_auto. Qed.
#[local] Hint Resolve SMB_committed SMB_existing : served.

Lemma SMB_validated req : on_ok (fun p : smbVolumeParams => server p = server_of (req_Parameters req) ProtocolSMB) (validateSMBParams req).
Proof.
  unfold validateSMBParams. cbv zeta. destruct (String.eqb _.[paramFilesystem] _); [done|].
  pose proof (file_server req (req_Parameters req).[paramFilesystem] ProtocolSMB DeleteStrategyDelete eq_refl) as H.
  destruct (validateParams _ _ _ _); [|done]. exact H.
Qed.

Lemma SMB_created req : vanswers (createSMBVolume s req) (on_ok (served ProtocolSMB (server_of (req_Parameters req) ProtocolSMB))).
Proof.
  unfold createSMBVolume. cbv zeta. eapply answers_bind; [apply observed_ok, lift_ok, SMB_validated|].
  intros [params|e] Hp; [|exact I]. cbn [on_ok] in Hp. rewrite <- Hp.
  eapply answers_bind; [exact (annotated_server _ _ _ eq_refl)|]. intros common <-. served_auto; apply SMB_committed.
Qed.

Lemma SMB_adopted req sv params :
  vanswers (adoptSMBVolume s req sv params) (on_ok (served ProtocolSMB (server_of params ProtocolSMB))).
Proof.
  unfold adoptSMBVolume, server_of. cbv zeta. rewrite andb_true_r. served_auto.
  apply succeed_ok. exact (served_share _ _ _ _ _).
Qed.
#[local] Hint Resolve NFS_adopted SMB_created SMB_adopted : served.

(** ** Block volumes *)

Lemma block_committed t created sv d properties expose P :
  (forall sv, vanswers (expose sv) (on_ok P)) -> vanswers (block_commit_and_expose t created sv d properties expose) (on_ok P).
Proof. intros H. unfold block_commit_and_expose. served_auto. Qed.

Lemma block_created req protocol t params blockfs existing found properties expose P :
  (forall device sv, vanswers (expose device sv) (on_ok P)) ->
  vanswers (create_block_volume req protocol t params blockfs existing found properties expose) (on_ok P).
Proof. intros H. unfold create_block_volume. cbv zeta. served_auto; by apply block_committed. Qed.

(** The server of a block class has no default. *)
Lemma block_server params protocol :
  String.eqb protocol ProtocolNFS || String.eqb protocol ProtocolSMB = false -> server_of params protocol = params.["server"].
Proof. intros H. unfold server_of. by rewrite H, andb_false_r. Qed.

(** ** iSCSI *)

Lemma ISCSI_built name srv sv tg capacity :
  vanswers (buildISCSIVolumeResponse name srv sv tg capacity) (served ProtocolISCSI srv).
Proof.
  unfold buildISCSIVolumeResponse. cbv zeta. served_step. cbn [answers].
  split; cbn [v_VolumeContext]; rewrite get_insert_ne by done; [apply built_protocol|apply built_server].
Qed.
#[local] Hint Resolve ISCSI_built : served.

Lemma ISCSI_exposed params t device sv : vanswers (iscsi_expose params t device sv) (on_ok (served ProtocolISCSI (server params))).
Proof. unfold iscsi_expose. served_auto. Qed.

Lemma ISCSI_existing params sv d t :
  vanswers (handleExistingISCSISubvolume s params sv d t) (on_ok (served_opt ProtocolISCSI (server params))).
Proof. unfold handleExistingISCSISubvolume. served_auto. Qed.
#[local] Hint Resolve ISCSI_exposed ISCSI_existing : served.

Lemma ISCSI_validated req : on_ok (fun p : iscsiVolumeParams => server p = server_of (req_Parameters req) ProtocolISCSI) (validateISCSIParams req).
Proof.
  rewrite block_server by done. unfold validateISCSIParams. cbv zeta. destruct (String.eqb _.[paramFilesystem] _); [done|].
  destruct (String.eqb _ _); [done|].
  pose proof (validated_server req (req_Parameters req).[paramFilesystem] (req_Parameters req).["server"] deleteStrategyDelete) as H.
  destruct (validateParams _ _ _ _); [|done]. destruct (requestedBlockFilesystem _); [|done]. exact H.
Qed.

Lemma ISCSI_created req : vanswers (createISCSIVolume s req) (on_ok (served ProtocolISCSI (server_of (req_Parameters req) ProtocolISCSI))).
Proof.
  unfold createISCSIVolume. cbv zeta. eapply answers_bind; [apply observed_ok, lift_ok, ISCSI_validated|].
  intros [params|e] Hp; [|exact I]. cbn [on_ok] in Hp. rewrite <- Hp.
  eapply answers_bind; [exact (annotated_server _ _ _ eq_refl)|]. intros common <-. served_step. served_step; [|served_auto].
  destruct a0 as [[existing name] found].
  assert (vanswers (create_block_volume req ProtocolISCSI (iscsi_timer "create") (iscsi_with_names name common params)
    (iscsi_blockFilesystem (iscsi_with_names name common params)) existing found (iscsiPropertiesV1 s (iscsi_with_names name common params))
    (iscsi_expose (iscsi_with_names name common params) (iscsi_timer "create"))) (on_ok (served ProtocolISCSI (server common)))) as Hc
    by (apply block_created; intros; apply ISCSI_exposed).
  served_auto.
Qed.

Lemma ISCSI_adopted req sv params :
  vanswers (adoptISCSIVolume s req sv params) (on_ok (served ProtocolISCSI (server_of params ProtocolISCSI))).
Proof. rewrite block_server by done. unfold adoptISCSIVolume. cbv zeta. served_auto. Qed.
#[local] Hint Resolve ISCSI_created ISCSI_adopted : served.

(** ** NVMe-oF *)

Lemma NVMeOF_built name srv sv ss capacity :
  vanswers (buildNVMeOFVolumeResponse name srv sv ss capacity) (served ProtocolNVMeOF srv).
Proof.
  unfold buildNVMeOFVolumeResponse. cbv zeta. served_step. cbn [answers].
  split; cbn [v_VolumeContext]; rewrite !get_insert_ne by done; [apply built_protocol|apply built_server].
Qed.
#[local] Hint Resolve NVMeOF_built served_queue : served.

Lemma NVMeOF_exposed params t device sv : vanswers (nvmeof_expose params t device sv) (on_ok (served ProtocolNVMeOF (server params))).
Proof. unfold nvmeof_expose. served_auto. Qed.

Lemma NVMeOF_existing params sv d t :
  vanswers (handleExistingNVMeOFSubvolume s params sv d t) (on_ok (served_opt ProtocolNVMeOF (server params))).
Proof. unfold handleExistingNVMeOFSubvolume. served_auto. Qed.
#[local] Hint Resolve NVMeOF_exposed NVMeOF_existing : served.

Lemma NVMeOF_validated req :
  on_ok (fun p : nvmeofVolumeParams => server p = server_of (req_Parameters req) ProtocolNVMeOF) (validateNVMeOFParams req).
Proof.
  rewrite block_server by done. unfold validateNVMeOFParams. cbv zeta. destruct (String.eqb _.[paramFilesystem] _); [done|].
  destruct (String.eqb _ _); [done|].
  pose proof (validated_server req (req_Parameters req).[paramFilesystem] (req_Parameters req).["server"] DeleteStrategyDelete) as H.
  destruct (validateParams _ _ _ _); [|done]. destruct (requestedBlockFilesystem _); [|done]. exact H.
Qed.

Lemma NVMeOF_created req : vanswers (createNVMeOFVolume s req) (on_ok (served ProtocolNVMeOF (server_of (req_Parameters req) ProtocolNVMeOF))).
Proof.
  unfold createNVMeOFVolume. cbv zeta. eapply answers_bind; [apply observed_ok, lift_ok, NVMeOF_validated|].
  intros [params|e] Hp; [|exact I]. cbn [on_ok] in Hp. rewrite <- Hp.
  eapply answers_bind; [exact (annotated_server _ _ _ eq_refl)|]. intros common <-. served_step. served_step; [|served_auto].
  destruct a0 as [[existing name] found]. set (params' := nvmeof_with_names name req common params).
  assert (vanswers (create_block_volume req ProtocolNVMeOF (nvmeof_timer "create") params' (nvmeof_blockFilesystem params') existing found
    (nvmeofPropertiesV1 s params') (nvmeof_expose params' (nvmeof_timer "create"))) (on_ok (served ProtocolNVMeOF (server common)))) as Hc
    by (apply block_created; intros; apply NVMeOF_exposed).
  pose proof (NVMeOF_existing params') as He. change (server params') with (server common) in He. served_auto.
Qed.

Lemma NVMeOF_adopted req sv params :
  vanswers (adoptNVMeOFVolume s req sv params) (on_ok (served ProtocolNVMeOF (server_of params ProtocolNVMeOF))).
Proof. rewrite block_server by done. unfold adoptNVMeOFVolume. cbv zeta. served_auto. Qed.
#[local] Hint Resolve NVMeOF_created NVMeOF_adopted : served.

(** ** CreateVolume *)

(** The context names the protocol and the server of the class. *)
Definition addressed (params : gomap) (v : Volume) : Prop :=
  (Some (v_VolumeContext v)).[VolumeContextKeyServer] = server_of params (Some (v_VolumeContext v)).[VolumeContextKeyProtocol].

Definition addressed_opt (params : gomap) (o : option Volume) : Prop := match o with Some v => addressed params v | None => True end.

Lemma served_addressed params protocol : forall v, served protocol (server_of params protocol) v -> addressed params v.
Proof. intros v [Hp Hs]. unfold addressed. by rewrite Hp, Hs. Qed.

Lemma ok_addressed params protocol (p : M (res Volume)) :
  vanswers p (on_ok (served protocol (server_of params protocol))) -> vanswers p (on_ok (addressed params)).
Proof. intros H. eapply answers_mono; [exact H|]. intros [v|e] Hv; [by apply (served_addressed _ protocol)|done]. Qed.

Lemma by_protocol_addressed req protocol : vanswers (createVolumeByProtocol s req protocol) (on_ok (addressed (req_Parameters req))).
Proof.
  unfold createVolumeByProtocol. repeat (destruct (String.eqb protocol _); [eapply ok_addressed; eauto with served|]). exact I.
Qed.

Lemma sized_parameters req fs name :
  vanswers (ensureClonedVolumeCapacity req fs name) (on_ok (fun sized => req_Parameters sized.2 = req_Parameters req)).
Proof. unfold ensureClonedVolumeCapacity. cbv zeta. served_auto; done. Qed.

Lemma finish_addressed req protocol fs source name props exists_ selection fresh created :
  vanswers (finish_clone s req protocol fs source name props exists_ selection fresh created) (on_ok (addressed (req_Parameters req))).
Proof.
  unfold finish_clone. cbv zeta. eapply answers_bind; [apply sized_parameters|]. intros [[capacity req']|e] Hr.
  - cbn [on_ok snd] in Hr. rewrite <- Hr. pose proof (by_protocol_addressed req' protocol) as Hp. served_auto.
  - served_auto.
Qed.
#[local] Hint Resolve finish_addressed : served.

Lemma clone_addressed req protocol fs source props exists_ clone what :
  vanswers (clone_into s req protocol fs source props exists_ clone what) (on_ok (addressed (req_Parameters req))).
Proof. unfold clone_into. served_auto. Qed.

Lemma with_source_addressed params source p : vanswers p (on_ok (addressed params)) -> vanswers (with_source source p) (on_ok (addressed params)).
Proof. intros H. unfold with_source. eapply answers_bind; [exact H|]. by intros [v|e]. Qed.
#[local] Hint Resolve clone_addressed with_source_addressed : served.

Lemma normalized_parameters req protocol req' : normalizeCreateCapacity req protocol = Ok req' -> req_Parameters req' = req_Parameters req.
Proof. intros H. destruct (normalizeCreateCapacity_ok _ _ _ H) as (a & t & _ & _ & _ & ->). done. Qed.

Lemma from_volume_addressed req id : vanswers (createVolumeFromVolume s req id) (on_ok (addressed (req_Parameters req))).
Proof.
  unfold createVolumeFromVolume. served_auto.
  all: match goal with E : normalizeCreateCapacity _ _ = Ok _ |- _ => rewrite <- (normalized_parameters _ _ _ E) end; eauto with served.
Qed.

Lemma from_snapshot_addressed req id : vanswers (createVolumeFromSnapshot s req id) (on_ok (addressed (req_Parameters req))).
Proof.
  unfold createVolumeFromSnapshot. served_auto.
  all: match goal with E : normalizeCreateCapacity _ _ = Ok _ |- _ => rewrite <- (normalized_parameters _ _ _ E) end; eauto with served.
Qed.

Lemma adopted_addressed req params protocol : vanswers (checkAndAdoptVolume s req params protocol) (on_ok (addressed_opt params)).
Proof.
  assert (forall sv, vanswers
    (if String.eqb protocol ProtocolNFS then adoptNFSVolume s req sv params
     else if String.eqb protocol ProtocolNVMeOF then adoptNVMeOFVolume s req sv params
     else if String.eqb protocol ProtocolISCSI then adoptISCSIVolume s req sv params
     else if String.eqb protocol ProtocolSMB then adoptSMBVolume s req sv params
     else Ret (Err (Status InvalidArgument ("Unsupported protocol for adoption: " +:+ protocol)))) (on_ok (addressed params))) as Ha.
  { intros sv. repeat (destruct (String.eqb protocol _); [eapply ok_addressed; eauto with served|]). exact I. }
  unfold checkAndAdoptVolume. served_auto.
Qed.
#[local] Hint Resolve adopted_addressed by_protocol_addressed from_volume_addressed from_snapshot_addressed : served.

Lemma fresh_addressed req protocol : vanswers (create_fresh s req protocol) (on_ok (addressed (req_Parameters req))).
Proof. unfold create_fresh. served_auto. Qed.
#[local] Hint Resolve fresh_addressed : served.

(** Every volume that CreateVolume answers. *)
Lemma CreateVolume_addressed req : vanswers (CreateVolume s req) (on_ok (addressed (req_Parameters req))).
Proof.
  unfold CreateVolume. destruct (validate_create req) as [[protocol req']|e] eqn:Ev; [|exact I].
  assert (req_Parameters req' = req_Parameters req) as <-.
  { revert Ev. unfold validate_create. destruct (validateCreateVolumeRequest req); [|done]. cbv zeta.
    destruct (normalizeCreateCapacity req _) as [r|] eqn:E; [|done].
    destruct (validateAccessModeForProtocol _ _); [|done]. destruct (is_block_protocol _);
      [destruct (requestedBlockFilesystem _); [|done]|]; intros [= _ <-]; by eapply normalized_parameters. }
  cbn [checkExistingVolume]. rewrite errors_Is_new. cbn [negb].
  unfold handleVolumeContentSource. destruct (req_ContentSource req') as [[id|id|]|]; cbv iota;
    [apply from_snapshot_addressed|apply from_volume_addressed|apply fresh_addressed..].
Qed.
End Server.
