(* ===== verification/Provisioning.v ===== *)
(** * From the creation of a volume to its staging

    The composition of the controller and the node over the context of a volume:
    what CreateVolume answers is handed to NodeStageVolume by Kubernetes. *)

From S2P Require Import Prelude GoStrings Prog Errors Api Metadata Names Identity Common Controller Backend Lifecycle Creation CreationTheorems Answers VolumeContexts NodeHost MountInfo NodeFiles NodeDevice NodeNvme NodeIscsi NodeService NodeQuiet NodeEvidence NodeRpc StagingTheorems MountWorld MountTracking NodeLifecycle NodeRefinement NodeOrchestration.

#[local] Set Default Proof Using "Type*".

(** ** What staging may do with what is exposed *)

Section Reached.
Context (req : NodeStageVolumeRequest) (protocol server endpoint : string).

(** The device is one of the subsystem or target [endpoint]. *)
Definition device_of (h : nhistory) (device : string) : Prop :=
  (protocol = ProtocolNVMeOF /\ namespace_of h endpoint device) \/ (protocol = ProtocolISCSI /\ disk_of h endpoint device).

(** A mount, at the staging path of the request, of what the server exposes. *)
Inductive mounts_volume (h : nhistory) : list string -> Prop :=
| mounts_nfs options :
    protocol = ProtocolNFS ->
    mounts_volume h ["-t"; ProtocolNFS; "-o"; options; server +:+ ":" +:+ endpoint; st_StagingTargetPath req]
| mounts_smb options :
    protocol = ProtocolSMB ->
    mounts_volume h ["-t"; fsTypeCIFS; "-o"; options; "//" +:+ server +:+ "/" +:+ endpoint; st_StagingTargetPath req]
| mounts_device device : device_of h device -> mounts_volume h (block_mount_args req device).

(** The operations that reach a server or take hold of its storage do so on
    the server and the endpoint of the volume. *)
Definition reaches (h : nhistory) (o : nop) : Prop :=
  match o with
  | Command name args =>
      (name = "mount" -> mounts_volume h args) /\
      (name = "nvme" -> head args = Some "connect" ->
         protocol = ProtocolNVMeOF /\ exists p, args = connect_args p /\ np_nqn p = endpoint /\ np_server p = server) /\
      (name = "nvme" -> head args = Some "disconnect" -> protocol = ProtocolNVMeOF /\ args = ["disconnect"; "-n"; endpoint]) /\
      (forall a, iscsiadm_args o = Some a -> quiet_iscsiadm a = false ->
         protocol = ProtocolISCSI /\ exists p, ip_iqn p = endpoint /\ ip_server p = server /\ (iscsi_setup p a \/ iscsi_teardown endpoint a))
  | Symlink device path => device_of h device /\ path = st_StagingTargetPath req
  | _ => True
  end.

(** The context of the request leads to the endpoint. *)
Definition leads : Prop :=
  getProtocolFromVolumeContext (st_VolumeContext req) = protocol /\ (st_VolumeContext req).[VolumeContextKeyServer] = server /\
  (st_VolumeContext req).[route_key protocol] = endpoint.
End Reached.

Section Staged.
Context {s : NodeService} {req : NodeStageVolumeRequest} {protocol server endpoint : string} (Hleads : leads req protocol server endpoint).
Abbreviation volumeContext := (st_VolumeContext req).

Lemma leads_protocol : getProtocolFromVolumeContext volumeContext = protocol.
Proof. apply Hleads. Qed.

Lemma leads_server : volumeContext.["server"] = server.
Proof. apply Hleads. Qed.

Lemma leads_endpoint key : route_key protocol = key -> volumeContext.[key] = endpoint.
Proof. intros <-. apply Hleads. Qed.

Lemma own_device_of h device : own_device req h device -> device_of protocol endpoint h device.
Proof.
  rewrite <- (leads_endpoint _ eq_refl). destruct 1 as [E H|E H]; rewrite leads_protocol in E; [left|right]; by subst.
Qed.

Lemma nvme_parameters p : validateNVMeOFParams volumeContext = Ok p -> protocol = ProtocolNVMeOF -> np_nqn p = endpoint /\ np_server p = server.
Proof.
  intros H E. unfold validateNVMeOFParams in H. destruct (_ || _); [done|]. injection H as <-.
  split; [apply leads_endpoint; by rewrite E|apply leads_server].
Qed.

Lemma iscsi_parameters p : validateISCSIParams volumeContext = Ok p -> protocol = ProtocolISCSI -> ip_iqn p = endpoint /\ ip_server p = server.
Proof.
  intros H E. unfold validateISCSIParams in H. destruct (_ || _); [done|]. injection H as <-.
  split; [apply leads_endpoint; by rewrite E|apply leads_server].
Qed.

Lemma reaches_mount h args : stage_allow s req h (Command "mount" args) -> mounts_volume req protocol server endpoint h args.
Proof.
  intros H. allowed_cases H.
  all: try match goal with E : getProtocolFromVolumeContext _ = _ |- _ => rewrite leads_protocol in E end.
  - rewrite leads_server, (leads_endpoint "share") by (by subst). by apply mounts_nfs.
  - rewrite leads_server, (leads_endpoint "share") by (by subst). by apply mounts_smb.
  - match goal with M : mountable _ _ _ _ |- _ => destruct M as [(Ho & _) _] end. by apply mounts_device, own_device_of.
Qed.

Lemma reaches_connect h args :
  stage_allow s req h (Command "nvme" args) -> head args = Some "connect" ->
  protocol = ProtocolNVMeOF /\ exists p, args = connect_args p /\ np_nqn p = endpoint /\ np_server p = server.
Proof.
  intros H Hd. allowed_cases H.
  - destruct args as [|c args]; [done|]. injection Hd as ->. done.
  - match goal with E : getProtocolFromVolumeContext _ = _ |- _ => rewrite leads_protocol in E; split; [exact E|] end.
    eexists. split; [reflexivity|]. by apply nvme_parameters.
Qed.

Lemma reaches_disconnect h args :
  stage_allow s req h (Command "nvme" args) -> head args = Some "disconnect" ->
  protocol = ProtocolNVMeOF /\ args = ["disconnect"; "-n"; endpoint].
Proof.
  intros H Hd. allowed_cases H.
  - destruct args as [|c args]; [done|]. injection Hd as ->. done.
  - match goal with E : getProtocolFromVolumeContext _ = _ |- _ => rewrite leads_protocol in E; split; [exact E|] end.
    match goal with V : validateNVMeOFParams _ = Ok ?p |- _ => by destruct (nvme_parameters p V) as [-> _] end.
Qed.

Lemma reaches_target h name args a :
  stage_allow s req h (Command name args) -> iscsiadm_args (Command name args) = Some a -> quiet_iscsiadm a = false ->
  protocol = ProtocolISCSI /\ exists p, ip_iqn p = endpoint /\ ip_server p = server /\ (iscsi_setup p a \/ iscsi_teardown endpoint a).
Proof.
  intros H Ha Hq. allowed_cases H.
  - exfalso. match goal with Q : quiet_op _ = true |- _ => cbn [quiet_op] in Q; unfold quiet_command in Q; rewrite Ha, Hq in Q end.
    apply iscsiadm_tool in Ha as [-> | ->]; done.
  - match goal with A : iscsiadm_args _ = Some ?x |- _ => rewrite Ha in A; injection A as <- end.
    match goal with E : getProtocolFromVolumeContext _ = _ |- _ => rewrite leads_protocol in E; split; [exact E|] end.
    match goal with V : validateISCSIParams _ = Ok ?p, S : iscsi_setup _ _ \/ _ |- _ =>
      destruct (iscsi_parameters p V) as [E1 E2]; [done|]; exists p; rewrite E1 in S end. done.
Qed.

Lemma allowed_reaches h o : stage_allow s req h o -> reaches req protocol server endpoint h o.
Proof.
  intros H. destruct o; try exact I; cbn [reaches].
  - destruct (allowed_link _ _ _ _ _ H) as (Ho & Hp & _). split; [by apply own_device_of|exact Hp].
  - split_and!; [intros ->; by apply (reaches_mount h)|intros ->; by apply (reaches_connect h)|intros ->; by apply (reaches_disconnect h)|].
    intros a. by apply (reaches_target h name args a).
Qed.

(** Every operation of a staging. *)
Lemma staging_reaches tr out t1 o r t2 :
  exec (NodeStageVolume s req) tr out -> sane_host tr -> tr = t1 ++ nev o r :: t2 -> reaches req protocol server endpoint t1 o.
Proof.
  intros He Hc E. pose proof (rpc_allow_work _ _ _ _ (rpc_operations (wp_NodeStageVolume s req) eq_refl He Hc E)) as Hw.
  destruct o; try exact I; apply (allowed_reaches _ _ (proj2 Hw)).
Qed.
End Staged.

(** ** The volume that was created *)

Section Created.
Context {api : NastyAPI} {laws : NastyAPILaws} {tt_ : TextTemplate} (s : service).

Lemma exposed_protocol h sv protocol endpoint : exposed h sv protocol endpoint -> protocol <> "".
Proof using Type. by destruct 1. Qed.

(** The context of a created volume leads to what the backend exposes. *)
Lemma created_leads req h rn capacity v nreq :
  created_volume h rn capacity v -> addressed (req_Parameters req) v -> st_VolumeContext nreq = Some (v_VolumeContext v) ->
  exists sv protocol endpoint, shown h sv /\ durable h (sv_Filesystem sv) (sv_Name sv) rn protocol /\
    exposed h sv protocol endpoint /\ v_VolumeId v = sv_Filesystem sv +:+ "/" +:+ sv_Name sv /\
    leads nreq protocol (server_of (req_Parameters req) protocol) endpoint.
Proof using Type.
  intros (sv & protocol & endpoint & Hs & Hd & He & [Hp Hr] & Hid & _) Ha Hctx.
  exists sv, protocol, endpoint. split_and!; try done. unfold leads. rewrite Hctx. split_and!; [|by rewrite <- Hp at 1; rewrite Ha, Hp|done].
  unfold getProtocolFromVolumeContext. rewrite Hp. apply exposed_protocol, String.eqb_neq in He. by rewrite He.
Qed.

End Created.

(** ** An NVMe-oF volume, created and staged *)

#[local] Existing Instance doc_api.
#[local] Existing Instance field_templates.

Definition provisioned : outcome (res Volume) :=
  answer_of (CreateVolume Lifecycle.demo_service (Lifecycle.demo_request "nvmeof" "pvc-1")) empty_world.

Definition provisioned_trace : history :=
  trace_of (CreateVolume Lifecycle.demo_service (Lifecycle.demo_request "nvmeof" "pvc-1")) empty_world.

Definition provisioned_context : gomap :=
  match provisioned with Done (Ok v) => Some (v_VolumeContext v) | _ => None end.

Definition provisioned_stage : NodeStageVolumeRequest :=
  mkNodeStage "tank/pvc-1" "/stage/v1" (Some (mkNodeCapability (mkVolumeCapability (Mount "ext4") SINGLE_NODE_WRITER) ["discard"]))
    provisioned_context None.

(** The node of [StagingTheorems.demo_answers], on which the connected subsystem
    is the one of the volume. *)
Definition provisioned_answers (o : nop) : option (nans o) :=
  match o return option (nans o) with
  | ReadFile path => if HasSuffix path "subsysnqn" then Some (Ok provisioned_context.["nqn"]) else None
  | o => demo_answers "1073741824" o
  end.

Definition provisioned_run : outcome node_result * Z * nhistory :=
  run_host (fake_host provisioned_answers) (NodeStageVolume StagingTheorems.demo_service provisioned_stage).

