(* ===== verification/Statuses.v ===== *)
(** * The errors of the controller RPCs

    For every function of the controller whose error reaches the caller of an
    RPC: the error is a gRPC status.  Errors of the backend, of
    [splitSubvolumeID], of [representableCapacity] and the like are wrapped on
    the way. *)

From S2P Require Import Prelude GoStrings Prog Errors Api Metadata Capacity Names Retry Identity Capabilities Ownership Common Nfs Smb Iscsi Nvmeof Block Clone Controller SnapshotId Snapshots Answers.

#[local] Set Default Proof Using "Type".

#[export] Hint Transparent expansion : status.

(** Nothing is assumed of the backend, the clock and the context. *)
Definition anything (o : op csig) (r : ans csig o) : Prop := True.
Abbreviation canswers := (answers anything).

(** ** Validation *)

Lemma validateCreateVolumeRequest_status (req : CreateVolumeRequest) :
  status_res (validateCreateVolumeRequest req).
Proof. unfold validateCreateVolumeRequest. status_auto. Qed.
#[export] Hint Resolve validateCreateVolumeRequest_status : status.

Lemma validateAccessModeForProtocol_status (caps : list VolumeCapability) (protocol : string) :
  status_res (validateAccessModeForProtocol caps protocol).
Proof. induction caps; cbn [validateAccessModeForProtocol]; status_auto. Qed.
#[export] Hint Resolve validateAccessModeForProtocol_status : status.

Lemma block_filesystem_loop_status (caps : list VolumeCapability) (mode filesystem : string) :
  status_res (block_filesystem_loop caps mode filesystem).
Proof.
  revert mode filesystem. induction caps as [|cap caps IH]; intros mode filesystem; cbn [block_filesystem_loop]; cbv
  zeta; status_auto.
Qed.
#[export] Hint Resolve block_filesystem_loop_status : status.

Lemma requestedBlockFilesystem_status (caps : list VolumeCapability) :
  status_res (requestedBlockFilesystem caps).
Proof. unfold requestedBlockFilesystem. status_auto. Qed.
#[export] Hint Resolve requestedBlockFilesystem_status : status.

Lemma validateInitializedBlockFilesystem_status (subvolume : Subvolume) (expected : string) :
  status_res (validateInitializedBlockFilesystem subvolume expected).
Proof. unfold validateInitializedBlockFilesystem. status_auto. Qed.
#[export] Hint Resolve validateInitializedBlockFilesystem_status : status.

Lemma validateKnownBlockFilesystem_status (subvolume : Subvolume) (expected : string) :
  status_res (validateKnownBlockFilesystem subvolume expected).
Proof. unfold validateKnownBlockFilesystem. status_auto. Qed.
#[export] Hint Resolve validateKnownBlockFilesystem_status : status.

Lemma validateExpansionRange_status (requiredBytes limitBytes : Z) :
  status_res (validateExpansionRange requiredBytes limitBytes).
Proof. unfold validateExpansionRange. status_auto. Qed.
#[export] Hint Resolve validateExpansionRange_status : status.

Lemma planAllocation_status (meta : VolumeMetadata) (requiredBytes limitBytes : Z) :
  status_res (planAllocation meta requiredBytes limitBytes).
Proof. unfold planAllocation. status_auto. Qed.
#[export] Hint Resolve planAllocation_status : status.

Lemma planExpansion_status (meta : VolumeMetadata) (requiredBytes limitBytes : Z) :
  status_res (planExpansion meta requiredBytes limitBytes).
Proof. unfold planExpansion. status_auto. Qed.
#[export] Hint Resolve planExpansion_status : status.

Lemma normalizeCreateCapacity_status (req : CreateVolumeRequest) (protocol : string) :
  status_res (normalizeCreateCapacity req protocol).
Proof. unfold normalizeCreateCapacity. status_auto. Qed.
#[export] Hint Resolve normalizeCreateCapacity_status : status.

Lemma parseDataReplicas_status (val : string) :
  status_res (parseDataReplicas val).
Proof. unfold parseDataReplicas. status_auto. Qed.
#[export] Hint Resolve parseDataReplicas_status : status.

Section Identity.
Context {api : NastyAPI} {tt_ : TextTemplate} (s : service).

Lemma with_identityMu_answers {A : Type} (body : M A) Q : canswers body Q -> canswers (with_identityMu body) Q.
Proof.
  intros H. unfold with_identityMu. eapply answers_bind; [apply answers_any|]. intros u _.
  eapply answers_bind; [exact H|]. intros a Ha. by eapply answers_bind; [apply answers_any|].
Qed.

Lemma ensureClonedVolumeCapacity_status (req : CreateVolumeRequest) (filesystem name : string) :
  canswers (ensureClonedVolumeCapacity req filesystem name) status_res.
Proof. unfold ensureClonedVolumeCapacity. status_auto. Qed.
#[local] Hint Resolve ensureClonedVolumeCapacity_status : status.

Lemma decideExistingVolumeIdentity_status (req : CreateVolumeRequest) (protocol backendName : string) (subvol :
  Subvolume) :
  canswers (decideExistingVolumeIdentity req protocol backendName subvol) status_res.
Proof. unfold decideExistingVolumeIdentity. status_auto. Qed.
#[local] Hint Resolve decideExistingVolumeIdentity_status : status.

Lemma newVolumeIdentityDecision_status (req : CreateVolumeRequest) (backendName protocol : string) :
  canswers (newVolumeIdentityDecision req backendName protocol) status_res.
Proof. unfold newVolumeIdentityDecision. status_auto. Qed.
#[local] Hint Resolve newVolumeIdentityDecision_status : status.

Lemma selectExistingCreateSubvolume_status (req : CreateVolumeRequest) (filesystem backendName protocol : string) :
  canswers (selectExistingCreateSubvolume req filesystem backendName protocol) status_res.
Proof. unfold selectExistingCreateSubvolume. status_auto. Qed.
#[local] Hint Resolve selectExistingCreateSubvolume_status : status.

Lemma persistVolumeIdentity_status (subvol : Subvolume) (base : gomap) (decision : volumeIdentityDecision) :
  canswers (persistVolumeIdentity subvol base decision) status_fst.
Proof. unfold persistVolumeIdentity. apply with_identityMu_answers. status_auto. Qed.
#[local] Hint Resolve persistVolumeIdentity_status : status.

Lemma rollbackCreatedSubvolume_status (subvol : Subvolume) (operationErr : error) :
  is_status operationErr -> canswers (rollbackCreatedSubvolume subvol operationErr) is_status.
Proof. intros He. unfold rollbackCreatedSubvolume. case_bool_decide; [done|]. apply with_identityMu_answers.
  status_auto. Qed.
#[local] Hint Resolve rollbackCreatedSubvolume_status : status.

Lemma selectCloneDestination_status (req : CreateVolumeRequest) (filesystem backendName protocol : string) :
  canswers (selectCloneDestination req filesystem backendName protocol) status_res.
Proof. unfold selectCloneDestination. status_auto. Qed.
#[local] Hint Resolve selectCloneDestination_status : status.

Lemma classifyCloneIdentity_status (req : CreateVolumeRequest) (protocol sourceBackendName backendName : string)
  (destination : option Subvolume) (sourceProperties : gomap) (sourceExists backendCreated destinationExisted legacy :
  bool) (freshIdentity : volumeIdentityDecision) :
  canswers (classifyCloneIdentity req protocol sourceBackendName backendName destination sourceProperties sourceExists
  backendCreated destinationExisted legacy freshIdentity) status_res.
Proof. unfold classifyCloneIdentity. status_auto. Qed.
#[local] Hint Resolve classifyCloneIdentity_status : status.

End Identity.

#[export] Hint Resolve ensureClonedVolumeCapacity_status decideExistingVolumeIdentity_status
  newVolumeIdentityDecision_status selectExistingCreateSubvolume_status persistVolumeIdentity_status
  rollbackCreatedSubvolume_status selectCloneDestination_status classifyCloneIdentity_status : status.

Section Common.
Context {api : NastyAPI} {tt_ : TextTemplate} (s : service).

Lemma fail_status {A : Type} t e : is_status e -> canswers (fail (A := A) t e) status_res.
Proof. intros. unfold fail. status_auto. Qed.
#[local] Hint Resolve fail_status : status.

Lemma observed_status {A : Type} t (p : M (res A)) : canswers p status_res -> canswers (observed t p) status_res.
Proof. intros. unfold observed. status_auto. Qed.
#[local] Hint Resolve observed_status : status.

Lemma lift_status {A : Type} (r : res A) : status_res r -> canswers (lift r) status_res.
Proof. done. Qed.
#[local] Hint Resolve lift_status : status.

Lemma succeed_status {A : Type} t (a : A) : canswers (succeed t a) status_res.
Proof. unfold succeed. status_auto. Qed.
#[local] Hint Resolve succeed_status : status.

Lemma rollback_if_status {A : Type} created sv e : is_status e -> canswers (rollback_if (A := A) created sv e) status_res.
Proof. intros. unfold rollback_if. status_auto. Qed.
#[local] Hint Resolve rollback_if_status : status.

Lemma validateParams_status (req : CreateVolumeRequest) (fs server defaultStrategy : string) :
  status_res (validateParams req fs server defaultStrategy).
Proof. unfold validateParams. status_auto. Qed.
#[local] Hint Resolve validateParams_status : status.

Lemma create_failed_status (filesystem name : string) (capacity : Z) (e : error) :
  is_status (create_failed filesystem name capacity e).
Proof. unfold create_failed. status_auto. Qed.
#[local] Hint Resolve create_failed_status : status.

Lemma getOrCreateSubvolume_status (subvolumeType blockFilesystem : string) (p : volumeParams) (t : timer) :
  canswers (getOrCreateSubvolume subvolumeType blockFilesystem p t) status_res.
Proof. unfold getOrCreateSubvolume. status_auto. Qed.
#[local] Hint Resolve getOrCreateSubvolume_status : status.

Lemma delete_subvolume_with_retry_status (t : timer) (fs name operation : string) (failed : error -> error) :
  (forall e, is_status (failed e)) ->
  canswers (delete_subvolume_with_retry t fs name operation failed) status_res.
Proof. intros Hf. unfold delete_subvolume_with_retry. status_auto. Qed.
#[local] Hint Resolve delete_subvolume_with_retry_status : status.

Lemma expand_volume_status (t : timer) (protocol : string) (meta : VolumeMetadata) (requiredBytes : Z) (node : bool)
  (bad_id : error -> string) (prop_failed : string -> string -> error -> string) :
  canswers (expand_volume t protocol meta requiredBytes node bad_id prop_failed) status_res.
Proof. unfold expand_volume. status_auto. Qed.
#[local] Hint Resolve expand_volume_status : status.

Lemma validateDeletionOwnership_status (subvol : option Subvolume) (meta : VolumeMetadata) (protocol : string) :
  status_res (validateDeletionOwnership subvol meta protocol).
Proof. unfold validateDeletionOwnership. status_auto. Qed.
#[local] Hint Resolve validateDeletionOwnership_status : status.

Lemma verify_lookup_status (volumeID : string) (answer : ptr_err Subvolume) :
  status_res (verify_lookup volumeID answer).
Proof. unfold verify_lookup. status_auto. Qed.
#[local] Hint Resolve verify_lookup_status : status.

Lemma lookupDeletionVolume_status (volumeID : string) :
  canswers (lookupDeletionVolume volumeID) status_res.
Proof. unfold lookupDeletionVolume. status_auto. Qed.
#[local] Hint Resolve lookupDeletionVolume_status : status.

Lemma deleteShareByPath_status {T : Type} (protocol path : string) (list_ : M (list_err T)) (identity : T -> string *
  string) (remove : string -> M (option error)) :
  canswers (deleteShareByPath protocol path list_ identity remove) status_res.
Proof. unfold deleteShareByPath. status_auto. Qed.
#[local] Hint Resolve deleteShareByPath_status : status.

End Common.

#[export] Hint Resolve fail_status observed_status lift_status succeed_status rollback_if_status validateParams_status
  create_failed_status getOrCreateSubvolume_status delete_subvolume_with_retry_status expand_volume_status
  validateDeletionOwnership_status verify_lookup_status lookupDeletionVolume_status deleteShareByPath_status : status.

Section Nfs.
Context {api : NastyAPI} {tt_ : TextTemplate} (s : service).

Lemma validateNFSParams_status (req : CreateVolumeRequest) :
  status_res (validateNFSParams req).
Proof. unfold validateNFSParams. status_auto. Qed.
#[local] Hint Resolve validateNFSParams_status : status.

Lemma handleExistingNFSSubvolume_status (params : nfsVolumeParams) (existingSubvol : Subvolume) (identity :
  volumeIdentityDecision) (t : timer) :
  canswers (handleExistingNFSSubvolume s params existingSubvol identity t) status_res.
Proof. unfold handleExistingNFSSubvolume. status_auto. Qed.
#[local] Hint Resolve handleExistingNFSSubvolume_status : status.

Lemma createNFSShareForSubvolume_status (subvol : Subvolume) (params : nfsVolumeParams) (t : timer) :
  canswers (createNFSShareForSubvolume subvol params t) status_res.
Proof. unfold createNFSShareForSubvolume. status_auto. Qed.
#[local] Hint Resolve createNFSShareForSubvolume_status : status.

Lemma nfs_commit_and_share_status (params : nfsVolumeParams) (subvol : Subvolume) (createdByRequest : bool) (identity
  : volumeIdentityDecision) (t : timer) :
  canswers (nfs_commit_and_share s params subvol createdByRequest identity t) status_res.
Proof. unfold nfs_commit_and_share. status_auto. Qed.
#[local] Hint Resolve nfs_commit_and_share_status : status.

Lemma createNFSVolume_status (req : CreateVolumeRequest) :
  canswers (createNFSVolume s req) status_res.
Proof. unfold createNFSVolume. status_auto. Qed.
#[local] Hint Resolve createNFSVolume_status : status.

Lemma nfs_delete_shares_status (t : timer) (shareUUID fs name : string) :
  canswers (nfs_delete_shares t shareUUID fs name) status_res.
Proof. unfold nfs_delete_shares. status_auto. Qed.
#[local] Hint Resolve nfs_delete_shares_status : status.

Lemma nfs_delete_all_status (t : timer) (meta : VolumeMetadata) (fs name : string) :
  canswers (nfs_delete_all t meta fs name) status_res.
Proof. unfold nfs_delete_all. status_auto. Qed.
#[local] Hint Resolve nfs_delete_all_status : status.

Lemma nfs_delete_unless_retained_status (t : timer) (meta : VolumeMetadata) (fs name strategy : string) :
  canswers (nfs_delete_unless_retained t meta fs name strategy) status_res.
Proof. unfold nfs_delete_unless_retained. status_auto. Qed.
#[local] Hint Resolve nfs_delete_unless_retained_status : status.

Lemma deleteNFSVolume_status (meta : VolumeMetadata) :
  canswers (deleteNFSVolume meta) status_res.
Proof. unfold deleteNFSVolume. status_auto. Qed.
#[local] Hint Resolve deleteNFSVolume_status : status.

Lemma adoptNFSVolume_status (req : CreateVolumeRequest) (subvol : Subvolume) (params : gomap) :
  canswers (adoptNFSVolume s req subvol params) status_res.
Proof. unfold adoptNFSVolume. status_auto. Qed.
#[local] Hint Resolve adoptNFSVolume_status : status.

Lemma expandNFSVolume_status (meta : VolumeMetadata) (requiredBytes : Z) :
  canswers (expandNFSVolume meta requiredBytes) status_res.
Proof. unfold expandNFSVolume. status_auto. Qed.
#[local] Hint Resolve expandNFSVolume_status : status.

Lemma getNFSVolumeInfo_status (meta : VolumeMetadata) :
  canswers (getNFSVolumeInfo meta) status_res.
Proof. unfold getNFSVolumeInfo. status_auto. Qed.
#[local] Hint Resolve getNFSVolumeInfo_status : status.

End Nfs.

#[export] Hint Resolve validateNFSParams_status handleExistingNFSSubvolume_status createNFSShareForSubvolume_status
  nfs_commit_and_share_status createNFSVolume_status nfs_delete_shares_status nfs_delete_all_status
  nfs_delete_unless_retained_status deleteNFSVolume_status adoptNFSVolume_status expandNFSVolume_status
  getNFSVolumeInfo_status : status.

Section Smb.
Context {api : NastyAPI} {tt_ : TextTemplate} (s : service).

Lemma validateSMBParams_status (req : CreateVolumeRequest) :
  status_res (validateSMBParams req).
Proof. unfold validateSMBParams. status_auto. Qed.
#[local] Hint Resolve validateSMBParams_status : status.

Lemma handleExistingSMBSubvolume_status (params : smbVolumeParams) (existingSubvol : Subvolume) (decision :
  volumeIdentityDecision) (t : timer) :
  canswers (handleExistingSMBSubvolume s params existingSubvol decision t) status_res.
Proof. unfold handleExistingSMBSubvolume. status_auto. Qed.
#[local] Hint Resolve handleExistingSMBSubvolume_status : status.

Lemma createSMBShareForSubvolume_status (subvol : Subvolume) (params : smbVolumeParams) (t : timer) :
  canswers (createSMBShareForSubvolume subvol params t) status_res.
Proof. unfold createSMBShareForSubvolume. status_auto. Qed.
#[local] Hint Resolve createSMBShareForSubvolume_status : status.

Lemma smb_commit_and_share_status (params : smbVolumeParams) (subvol : Subvolume) (createdByRequest : bool) (decision
  : volumeIdentityDecision) (t : timer) :
  canswers (smb_commit_and_share s params subvol createdByRequest decision t) status_res.
Proof. unfold smb_commit_and_share. status_auto. Qed.
#[local] Hint Resolve smb_commit_and_share_status : status.

Lemma createSMBVolume_status (req : CreateVolumeRequest) :
  canswers (createSMBVolume s req) status_res.
Proof. unfold createSMBVolume. status_auto. Qed.
#[local] Hint Resolve createSMBVolume_status : status.

Lemma smb_delete_shares_status (t : timer) (shareUUID : string) (target : option (string * string)) :
  canswers (smb_delete_shares t shareUUID target) status_res.
Proof. unfold smb_delete_shares. status_auto. Qed.
#[local] Hint Resolve smb_delete_shares_status : status.

Lemma smb_delete_all_status (t : timer) (meta : VolumeMetadata) (target : option (string * string)) :
  canswers (smb_delete_all t meta target) status_res.
Proof. unfold smb_delete_all. status_auto. Qed.
#[local] Hint Resolve smb_delete_all_status : status.

Lemma deleteSMBVolume_status (meta : VolumeMetadata) :
  canswers (deleteSMBVolume meta) status_res.
Proof. unfold deleteSMBVolume. status_auto. Qed.
#[local] Hint Resolve deleteSMBVolume_status : status.

Lemma adoptSMBVolume_status (req : CreateVolumeRequest) (subvol : Subvolume) (params : gomap) :
  canswers (adoptSMBVolume s req subvol params) status_res.
Proof. unfold adoptSMBVolume. status_auto. Qed.
#[local] Hint Resolve adoptSMBVolume_status : status.

Lemma expandSMBVolume_status (meta : VolumeMetadata) (requiredBytes : Z) :
  canswers (expandSMBVolume meta requiredBytes) status_res.
Proof. unfold expandSMBVolume. status_auto. Qed.
#[local] Hint Resolve expandSMBVolume_status : status.

Lemma getSMBVolumeInfo_status (meta : VolumeMetadata) :
  canswers (getSMBVolumeInfo meta) status_res.
Proof. unfold getSMBVolumeInfo. status_auto. Qed.
#[local] Hint Resolve getSMBVolumeInfo_status : status.

End Smb.

#[export] Hint Resolve validateSMBParams_status handleExistingSMBSubvolume_status createSMBShareForSubvolume_status
  smb_commit_and_share_status createSMBVolume_status smb_delete_shares_status smb_delete_all_status
  deleteSMBVolume_status adoptSMBVolume_status expandSMBVolume_status getSMBVolumeInfo_status : status.

Section Block.
Context {api : NastyAPI} {tt_ : TextTemplate} (s : service).

Lemma abandon_status {A : Type} (t : timer) (created : bool) (subvol : Subvolume) (e : error) :
  is_status e -> canswers (abandon (A := A) t created subvol e) status_res.
Proof. intros. unfold abandon. status_auto. Qed.
#[local] Hint Resolve abandon_status : status.

Lemma block_commit_and_expose_status (t : timer) (created : bool) (subvol : Subvolume) (decision :
  volumeIdentityDecision) (properties : M gomap) (expose : Subvolume -> M (res Volume)) :
  (forall sv, canswers (expose sv) status_res) ->
  canswers (block_commit_and_expose t created subvol decision properties expose) status_res.
Proof. intros. unfold block_commit_and_expose. status_auto. Qed.
#[local] Hint Resolve block_commit_and_expose_status : status.

Lemma block_identity_status (req : CreateVolumeRequest) (protocol name : string) (existed created : bool) (decision :
  volumeIdentityDecision) (subvol : Subvolume) :
  canswers (block_identity req protocol name existed created decision subvol) status_res.
Proof. unfold block_identity. status_auto. Qed.
#[local] Hint Resolve block_identity_status : status.

Lemma create_block_volume_status (req : CreateVolumeRequest) (protocol : string) (t : timer) (params : volumeParams)
  (blockFilesystem : string) (existing : option Subvolume) (found : volumeIdentityDecision) (properties : M gomap)
  (expose : string -> Subvolume -> M (res Volume)) :
  (forall device sv, canswers (expose device sv) status_res) ->
  canswers (create_block_volume req protocol t params blockFilesystem existing found properties expose) status_res.
Proof. intros. unfold create_block_volume. status_auto. Qed.
#[local] Hint Resolve create_block_volume_status : status.

Lemma adopt_block_checks_status (t : timer) (req : CreateVolumeRequest) (subvol : Subvolume) (params : gomap) (what :
  string) :
  canswers (adopt_block_checks t req subvol params what) status_res.
Proof. unfold adopt_block_checks. status_auto. Qed.
#[local] Hint Resolve adopt_block_checks_status : status.

End Block.

#[export] Hint Resolve abandon_status block_commit_and_expose_status block_identity_status create_block_volume_status
  adopt_block_checks_status : status.

Section Iscsi.
Context {api : NastyAPI} {tt_ : TextTemplate} (s : service).

Lemma validateISCSIParams_status (req : CreateVolumeRequest) :
  status_res (validateISCSIParams req).
Proof. unfold validateISCSIParams. status_auto. Qed.
#[local] Hint Resolve validateISCSIParams_status : status.

Lemma handleExistingISCSISubvolume_status (params : iscsiVolumeParams) (existingSubvol : Subvolume) (decision :
  volumeIdentityDecision) (t : timer) :
  canswers (handleExistingISCSISubvolume s params existingSubvol decision t) status_res.
Proof. unfold handleExistingISCSISubvolume. status_auto. Qed.
#[local] Hint Resolve handleExistingISCSISubvolume_status : status.

Lemma iscsi_expose_status (params : iscsiVolumeParams) (t : timer) (blockDevice : string) (subvol : Subvolume) :
  canswers (iscsi_expose params t blockDevice subvol) status_res.
Proof. unfold iscsi_expose. status_auto. Qed.
#[local] Hint Resolve iscsi_expose_status : status.

Lemma createISCSIVolume_status (req : CreateVolumeRequest) :
  canswers (createISCSIVolume s req) status_res.
Proof. unfold createISCSIVolume. status_auto. Qed.
#[local] Hint Resolve createISCSIVolume_status : status.

Lemma verifyISCSIOwnership_status (meta : VolumeMetadata) :
  canswers (verifyISCSIOwnership meta) status_res.
Proof. unfold verifyISCSIOwnership. status_auto. Qed.
#[local] Hint Resolve verifyISCSIOwnership_status : status.

Lemma iscsi_delete_target_status (t : timer) (iqn : string) :
  canswers (iscsi_delete_target t iqn) status_res.
Proof. unfold iscsi_delete_target. status_auto. Qed.
#[local] Hint Resolve iscsi_delete_target_status : status.

Lemma deleteISCSIVolume_status (meta : VolumeMetadata) :
  canswers (deleteISCSIVolume meta) status_res.
Proof. unfold deleteISCSIVolume. status_auto. Qed.
#[local] Hint Resolve deleteISCSIVolume_status : status.

Lemma expandISCSIVolume_status (meta : VolumeMetadata) (requiredBytes : Z) :
  canswers (expandISCSIVolume meta requiredBytes) status_res.
Proof. unfold expandISCSIVolume. status_auto. Qed.
#[local] Hint Resolve expandISCSIVolume_status : status.

Lemma getISCSIVolumeInfo_status (meta : VolumeMetadata) :
  canswers (getISCSIVolumeInfo meta) status_res.
Proof. unfold getISCSIVolumeInfo. status_auto. Qed.
#[local] Hint Resolve getISCSIVolumeInfo_status : status.

Lemma adoptISCSIVolume_status (req : CreateVolumeRequest) (subvol : Subvolume) (params : gomap) :
  canswers (adoptISCSIVolume s req subvol params) status_res.
Proof. unfold adoptISCSIVolume. status_auto. Qed.
#[local] Hint Resolve adoptISCSIVolume_status : status.

End Iscsi.

#[export] Hint Resolve validateISCSIParams_status handleExistingISCSISubvolume_status iscsi_expose_status
  createISCSIVolume_status verifyISCSIOwnership_status iscsi_delete_target_status deleteISCSIVolume_status
  expandISCSIVolume_status getISCSIVolumeInfo_status adoptISCSIVolume_status : status.

Section Nvmeof.
Context {api : NastyAPI} {tt_ : TextTemplate} (s : service).

Lemma selectNVMeSubsystem_status (subsystems : list NVMeOFSubsystem) (expectedNQN volumeName devicePath : string) :
  status_res (selectNVMeSubsystem subsystems expectedNQN volumeName devicePath).
Proof. unfold selectNVMeSubsystem. status_auto. Qed.
#[local] Hint Resolve selectNVMeSubsystem_status : status.

Lemma validateNVMeOFParams_status (req : CreateVolumeRequest) :
  status_res (validateNVMeOFParams req).
Proof. unfold validateNVMeOFParams. status_auto. Qed.
#[local] Hint Resolve validateNVMeOFParams_status : status.

Lemma handleExistingNVMeOFSubvolume_status (params : nvmeofVolumeParams) (existingSubvol : Subvolume) (decision :
  volumeIdentityDecision) (t : timer) :
  canswers (handleExistingNVMeOFSubvolume s params existingSubvol decision t) status_res.
Proof. unfold handleExistingNVMeOFSubvolume. status_auto. Qed.
#[local] Hint Resolve handleExistingNVMeOFSubvolume_status : status.

Lemma nvmeof_expose_status (params : nvmeofVolumeParams) (t : timer) (blockDevice : string) (subvol : Subvolume) :
  canswers (nvmeof_expose params t blockDevice subvol) status_res.
Proof. unfold nvmeof_expose. status_auto. Qed.
#[local] Hint Resolve nvmeof_expose_status : status.

Lemma createNVMeOFVolume_status (req : CreateVolumeRequest) :
  canswers (createNVMeOFVolume s req) status_res.
Proof. unfold createNVMeOFVolume. status_auto. Qed.
#[local] Hint Resolve createNVMeOFVolume_status : status.

Lemma nvmeof_delete_subsystem_status (t : timer) (nqn : string) :
  canswers (nvmeof_delete_subsystem t nqn) status_res.
Proof. unfold nvmeof_delete_subsystem. status_auto. Qed.
#[local] Hint Resolve nvmeof_delete_subsystem_status : status.

Lemma deleteNVMeOFVolume_status (meta : VolumeMetadata) :
  canswers (deleteNVMeOFVolume meta) status_res.
Proof. unfold deleteNVMeOFVolume. status_auto. Qed.
#[local] Hint Resolve deleteNVMeOFVolume_status : status.

Lemma expandNVMeOFVolume_status (meta : VolumeMetadata) (requiredBytes : Z) (nodeExpansionRequired : bool) :
  canswers (expandNVMeOFVolume meta requiredBytes nodeExpansionRequired) status_res.
Proof. unfold expandNVMeOFVolume. status_auto. Qed.
#[local] Hint Resolve expandNVMeOFVolume_status : status.

Lemma adoptNVMeOFVolume_status (req : CreateVolumeRequest) (subvol : Subvolume) (params : gomap) :
  canswers (adoptNVMeOFVolume s req subvol params) status_res.
Proof. unfold adoptNVMeOFVolume. status_auto. Qed.
#[local] Hint Resolve adoptNVMeOFVolume_status : status.

Lemma getNVMeOFVolumeInfo_status (meta : VolumeMetadata) :
  canswers (getNVMeOFVolumeInfo meta) status_res.
Proof. unfold getNVMeOFVolumeInfo. status_auto. Qed.
#[local] Hint Resolve getNVMeOFVolumeInfo_status : status.

End Nvmeof.

#[export] Hint Resolve selectNVMeSubsystem_status validateNVMeOFParams_status handleExistingNVMeOFSubvolume_status
  nvmeof_expose_status createNVMeOFVolume_status nvmeof_delete_subsystem_status deleteNVMeOFVolume_status
  expandNVMeOFVolume_status adoptNVMeOFVolume_status getNVMeOFVolumeInfo_status : status.

Section Clone.
Context {api : NastyAPI} {tt_ : TextTemplate} (s : service).

Lemma createVolumeByProtocol_status (req : CreateVolumeRequest) (protocol : string) :
  canswers (createVolumeByProtocol s req protocol) status_res.
Proof. unfold createVolumeByProtocol. status_auto. Qed.
#[local] Hint Resolve createVolumeByProtocol_status : status.

Lemma persist_clone_status (clone : option Subvolume) (base : smap) (decision : volumeIdentityDecision) :
  canswers (persist_clone clone base decision) status_fst.
Proof. unfold persist_clone. status_auto. Qed.
#[local] Hint Resolve persist_clone_status : status.

Lemma finish_clone_status (req : CreateVolumeRequest) (protocol filesystem sourceName selectedName : string)
  (sourceProperties : M gomap) (sourceExists : bool) (selection : cloneDestinationSelection) (freshIdentity :
  volumeIdentityDecision) (createdClone : option Subvolume) :
  canswers (finish_clone s req protocol filesystem sourceName selectedName sourceProperties sourceExists selection
  freshIdentity createdClone) status_res.
Proof. unfold finish_clone. status_auto. Qed.
#[local] Hint Resolve finish_clone_status : status.

Lemma clone_into_status (req : CreateVolumeRequest) (protocol filesystem sourceName : string) (sourceProperties : M
  gomap) (sourceExists : bool) (clone : string -> M (ptr_err Subvolume)) (what : string) :
  canswers (clone_into s req protocol filesystem sourceName sourceProperties sourceExists clone what) status_res.
Proof. unfold clone_into. status_auto. Qed.
#[local] Hint Resolve clone_into_status : status.

Lemma check_clone_params_status (params : gomap) (filesystem protocol what : string) :
  status_res (check_clone_params params filesystem protocol what).
Proof. unfold check_clone_params. status_auto. Qed.
#[local] Hint Resolve check_clone_params_status : status.

Lemma with_source_status (source : content_source) (p : M (res Volume)) :
  canswers p status_res -> canswers (with_source source p) status_res.
Proof. intros. unfold with_source. status_auto. Qed.
#[local] Hint Resolve with_source_status : status.

Lemma createVolumeFromVolume_status (req : CreateVolumeRequest) (sourceVolumeID : string) :
  canswers (createVolumeFromVolume s req sourceVolumeID) status_res.
Proof. unfold createVolumeFromVolume. status_auto. Qed.
#[local] Hint Resolve createVolumeFromVolume_status : status.

Lemma snapshotSourceProperties_status (filesystem subvolume : string) :
  canswers (snapshotSourceProperties filesystem subvolume) status_res.
Proof. unfold snapshotSourceProperties. status_auto. Qed.
#[local] Hint Resolve snapshotSourceProperties_status : status.

Lemma createVolumeFromSnapshot_status (req : CreateVolumeRequest) (snapshotID : string) :
  canswers (createVolumeFromSnapshot s req snapshotID) status_res.
Proof. unfold createVolumeFromSnapshot. status_auto. Qed.
#[local] Hint Resolve createVolumeFromSnapshot_status : status.

Lemma handleVolumeContentSource_status req p : handleVolumeContentSource s req = Some p -> canswers p status_res.
Proof. unfold handleVolumeContentSource. repeat case_match; intros [= <-]; status_auto. Qed.
#[local] Hint Resolve handleVolumeContentSource_status : status.

End Clone.

#[export] Hint Resolve createVolumeByProtocol_status persist_clone_status finish_clone_status clone_into_status
  check_clone_params_status with_source_status createVolumeFromVolume_status snapshotSourceProperties_status
  createVolumeFromSnapshot_status handleVolumeContentSource_status : status.

Section Controller.
Context {api : NastyAPI} {tt_ : TextTemplate} (s : service).

Lemma unique_pvc_match_status (pvcName pvcNamespace filesystem : string) (candidates : list Subvolume) (match_ :
  option Subvolume) :
  status_res (unique_pvc_match pvcName pvcNamespace filesystem candidates match_).
Proof. revert match_. induction candidates; intros found; cbn [unique_pvc_match]; status_auto. Qed.
#[local] Hint Resolve unique_pvc_match_status : status.

Lemma findSubvolumeByPVCIdentity_status (params : gomap) (filesystem : string) :
  canswers (findSubvolumeByPVCIdentity params filesystem) status_res.
Proof. unfold findSubvolumeByPVCIdentity. status_auto. Qed.
#[local] Hint Resolve findSubvolumeByPVCIdentity_status : status.

Lemma paginate_volumes_status (entries : list Volume) (req : list_request) :
  status_res (paginate_volumes entries req).
Proof. unfold paginate_volumes. status_auto. Qed.
#[local] Hint Resolve paginate_volumes_status : status.

Lemma checkAndAdoptVolume_status (req : CreateVolumeRequest) (params : gomap) (protocol : string) :
  canswers (checkAndAdoptVolume s req params protocol) status_res.
Proof. unfold checkAndAdoptVolume. status_auto. Qed.
#[local] Hint Resolve checkAndAdoptVolume_status : status.

Lemma check_encryption_status (params : gomap) :
  canswers (check_encryption params) status_res.
Proof. unfold check_encryption. status_auto. Qed.
#[local] Hint Resolve check_encryption_status : status.

Lemma validate_create_status (req : CreateVolumeRequest) :
  status_res (validate_create req).
Proof. unfold validate_create. status_auto. Qed.
#[local] Hint Resolve validate_create_status : status.

Lemma create_fresh_status (req : CreateVolumeRequest) (protocol : string) :
  canswers (create_fresh s req protocol) status_res.
Proof. unfold create_fresh. status_auto. Qed.
#[local] Hint Resolve create_fresh_status : status.

Lemma CreateVolume_status (req : CreateVolumeRequest) :
  canswers (CreateVolume s req) status_res.
Proof.
  unfold CreateVolume, checkExistingVolume. pose proof (validate_create_status req) as Hv.
  destruct (validate_create req) as [[protocol req']|e]; [|exact Hv].
  rewrite errors_Is_new, bool_decide_true by done. cbn [negb]. status_auto.
Qed.
#[local] Hint Resolve CreateVolume_status : status.

Lemma DeleteVolume_status (volumeID : string) :
  canswers (DeleteVolume volumeID) status_res.
Proof. unfold DeleteVolume. status_auto. Qed.
#[local] Hint Resolve DeleteVolume_status : status.

Lemma ValidateVolumeCapabilities_status (volumeID : string) (caps : list VolumeCapability) :
  canswers (ValidateVolumeCapabilities volumeID caps) status_res.
Proof. unfold ValidateVolumeCapabilities. status_auto. Qed.
#[local] Hint Resolve ValidateVolumeCapabilities_status : status.

Lemma ListVolumes_status (req : list_request) :
  canswers (ListVolumes req) status_res.
Proof. unfold ListVolumes. status_auto. Qed.
#[local] Hint Resolve ListVolumes_status : status.

Lemma GetCapacity_status (params : gomap) :
  canswers (GetCapacity params) status_res.
Proof. unfold GetCapacity. status_auto. Qed.
#[local] Hint Resolve GetCapacity_status : status.

Lemma ControllerExpandVolume_status (req : ExpandVolumeRequest) :
  canswers (ControllerExpandVolume req) status_res.
Proof. unfold ControllerExpandVolume. status_auto. Qed.
#[local] Hint Resolve ControllerExpandVolume_status : status.

Lemma getControllerVolumeInfo_status (volumeID : string) :
  canswers (getControllerVolumeInfo volumeID) status_res.
Proof. unfold getControllerVolumeInfo. status_auto. Qed.
#[local] Hint Resolve getControllerVolumeInfo_status : status.

Lemma ControllerGetVolume_status (volumeID : string) :
  canswers (ControllerGetVolume volumeID) status_res.
Proof. unfold ControllerGetVolume. status_auto. Qed.
#[local] Hint Resolve ControllerGetVolume_status : status.

Lemma ControllerGetVolumeHealth_status (volumeID : string) :
  canswers (ControllerGetVolumeHealth volumeID) status_res.
Proof. unfold ControllerGetVolumeHealth. status_auto. Qed.
#[local] Hint Resolve ControllerGetVolumeHealth_status : status.

Lemma ControllerModifyVolume_status (volumeID : string) :
  status_res (ControllerModifyVolume volumeID).
Proof. unfold ControllerModifyVolume. status_auto. Qed.
#[local] Hint Resolve ControllerModifyVolume_status : status.

End Controller.

#[export] Hint Resolve unique_pvc_match_status findSubvolumeByPVCIdentity_status paginate_volumes_status
  checkAndAdoptVolume_status check_encryption_status validate_create_status create_fresh_status CreateVolume_status
  DeleteVolume_status ValidateVolumeCapabilities_status ListVolumes_status GetCapacity_status
  ControllerExpandVolume_status getControllerVolumeInfo_status ControllerGetVolume_status
  ControllerGetVolumeHealth_status ControllerModifyVolume_status : status.

Section Snapshots.
Context {api : NastyAPI} {tt_ : TextTemplate} (s : service) {tpb : Timestamppb}.

Lemma csiSnapshotCreationTime_status `{Timestamppb} (createdAt : option Z) :
  status_res (csiSnapshotCreationTime createdAt).
Proof. unfold csiSnapshotCreationTime. status_auto. Qed.
#[local] Hint Resolve csiSnapshotCreationTime_status : status.

Lemma CreateSnapshot_status (snapshotName sourceVolumeID : string) :
  canswers (CreateSnapshot snapshotName sourceVolumeID) status_res.
Proof. unfold CreateSnapshot. status_auto. Qed.
#[local] Hint Resolve CreateSnapshot_status : status.

Lemma DeleteSnapshot_status (snapshotID : string) :
  canswers (DeleteSnapshot snapshotID) status_res.
Proof. unfold DeleteSnapshot. status_auto. Qed.
#[local] Hint Resolve DeleteSnapshot_status : status.

Lemma listSnapshotByID_status (req : ListSnapshotsRequest) :
  canswers (listSnapshotByID req) status_res.
Proof. unfold listSnapshotByID. status_auto. Qed.
#[local] Hint Resolve listSnapshotByID_status : status.

Lemma snapshot_entries_status (sourceVolumeID subvolumeName protocol : string) (sizeBytes : Z) (times : gmap string
  (option Z)) (names : list string) :
  status_res (snapshot_entries sourceVolumeID subvolumeName protocol sizeBytes times names).
Proof. induction names; cbn [snapshot_entries]; status_auto. Qed.
#[local] Hint Resolve snapshot_entries_status : status.

Lemma start_index_status (token what : string) :
  status_res (start_index token what).
Proof. unfold start_index. status_auto. Qed.
#[local] Hint Resolve start_index_status : status.

Lemma listSnapshotsBySourceVolume_status (req : ListSnapshotsRequest) :
  canswers (listSnapshotsBySourceVolume req) status_res.
Proof. unfold listSnapshotsBySourceVolume. status_auto. Qed.
#[local] Hint Resolve listSnapshotsBySourceVolume_status : status.

Lemma all_entries_status (subvols : list Subvolume) (cache : gmap string (gmap string (option Z))) (acc : list
  CSISnapshot) :
  canswers (all_entries subvols cache acc) status_res.
Proof. revert cache acc. induction subvols; intros cache acc; cbn [all_entries]; status_auto. Qed.
#[local] Hint Resolve all_entries_status : status.

Lemma listAllSnapshots_status (req : ListSnapshotsRequest) :
  canswers (listAllSnapshots req) status_res.
Proof. unfold listAllSnapshots. status_auto. Qed.
#[local] Hint Resolve listAllSnapshots_status : status.

Lemma ListSnapshots_status (req : ListSnapshotsRequest) :
  canswers (Snapshots.ListSnapshots req) status_res.
Proof. unfold ListSnapshots. status_auto. Qed.
#[local] Hint Resolve ListSnapshots_status : status.

Lemma ControllerGetSnapshot_status (snapshotID : string) :
  canswers (ControllerGetSnapshot snapshotID) status_res.
Proof. unfold ControllerGetSnapshot. status_auto. Qed.
#[local] Hint Resolve ControllerGetSnapshot_status : status.

End Snapshots.

#[export] Hint Resolve csiSnapshotCreationTime_status CreateSnapshot_status DeleteSnapshot_status
  listSnapshotByID_status snapshot_entries_status start_index_status listSnapshotsBySourceVolume_status
  all_entries_status listAllSnapshots_status ListSnapshots_status ControllerGetSnapshot_status : status.
