(* ===== verification/NodeStatuses.v ===== *)
(** * The errors of the node RPCs

    For every function of the node service whose error reaches the caller of an
    RPC: the error is a gRPC status.  Errors of other functions (sentinels,
    [fmt.Errorf]) are wrapped on the way. *)

From S2P Require Import Prelude GoStrings Prog Errors Api NodeHost MountInfo NodeRecovery NodeSysfs NodeFiles NodeDevice NodeNvme NodeIscsi NodeHealth NodeService Answers.

#[local] Set Default Proof Using "Type".

(** [ctx.Err()] and what the locks answer of it is context.Canceled or
    context.DeadlineExceeded; nothing is assumed of the rest of the host. *)
Definition context_answers (o : op nsig) : ans nsig o -> Prop :=
  match o return ans nsig o -> Prop with
  | LockVolume _ | CtxDone | SleepOrDone _ => context_error
  | _ => fun _ => True
  end.
Abbreviation hanswers := (answers context_answers).

Lemma context_error_from e : context_error (Some e) -> from_context e.
Proof. intros [->| ->]; [left|right]; reflexivity. Qed.

Lemma LockVolume_context v : hanswers (host (LockVolume v)) context_error.
Proof. intros r Hr. exact Hr. Qed.
Lemma CtxDone_context : hanswers (host CtxDone) context_error.
Proof. intros r Hr. exact Hr. Qed.
Lemma SleepOrDone_context d : hanswers (host (SleepOrDone d)) context_error.
Proof. intros r Hr. exact Hr. Qed.
#[export] Hint Resolve LockVolume_context CtxDone_context SleepOrDone_context context_error_from : status.

Lemma res_map_status {A B : Type} (f : A -> B) (r : res A) : status_res r -> status_res (res_map f r).
Proof. by destruct r. Qed.
#[export] Hint Resolve res_map_status : status.

Section Files.
Context (s : NodeService).

Lemma create_missing_status (what path : string) :
  hanswers (create_missing what path) status_opt.
Proof. unfold create_missing. status_auto. Qed.
#[local] Hint Resolve create_missing_status : status.

Lemma mount_command_status (args : list string) (failure : string) :
  hanswers (mount_command args failure) status_res.
Proof. unfold mount_command. status_auto. Qed.
#[local] Hint Resolve mount_command_status : status.

Lemma unless_mounted_status (path failure : string) (k : Host node_result) :
  hanswers k status_res -> hanswers (unless_mounted path failure k) status_res.
Proof. intros. unfold unless_mounted. status_auto. Qed.
#[local] Hint Resolve unless_mounted_status : status.
#[local] Ltac status_wrap ::= apply unless_mounted_status.

Lemma bind_mount_status (staging target : string) (readonly : bool) (failure : string) :
  hanswers (bind_mount staging target readonly failure) status_res.
Proof. unfold bind_mount. status_auto. Qed.
#[local] Hint Resolve bind_mount_status : status.

Lemma unstage_share_status (protocol path : string) :
  hanswers (unstage_share s protocol path) status_res.
Proof. unfold unstage_share. status_auto. Qed.
#[local] Hint Resolve unstage_share_status : status.

Lemma publish_share_status (protocol : string) (req : NodePublishVolumeRequest) :
  hanswers (publish_share s protocol req) status_res.
Proof. unfold publish_share. status_auto. Qed.
#[local] Hint Resolve publish_share_status : status.

Lemma stageNFSVolume_status (req : NodeStageVolumeRequest) (volumeContext : gomap) :
  hanswers (stageNFSVolume s req volumeContext) status_res.
Proof. unfold stageNFSVolume. status_auto. Qed.
#[local] Hint Resolve stageNFSVolume_status : status.

Lemma unstageNFSVolume_status (req : NodeUnstageVolumeRequest) :
  hanswers (unstageNFSVolume s req) status_res.
Proof. unfold unstageNFSVolume. status_auto. Qed.
#[local] Hint Resolve unstageNFSVolume_status : status.

Lemma publishNFSVolume_status (req : NodePublishVolumeRequest) :
  hanswers (publishNFSVolume s req) status_res.
Proof. unfold publishNFSVolume. status_auto. Qed.
#[local] Hint Resolve publishNFSVolume_status : status.

Lemma smb_credentials_status (secrets : gomap) (mountOptions : list string) :
  hanswers (smb_credentials secrets mountOptions) status_res.
Proof. unfold smb_credentials. status_auto. Qed.
#[local] Hint Resolve smb_credentials_status : status.

Lemma stageSMBVolume_status (req : NodeStageVolumeRequest) (volumeContext : gomap) :
  hanswers (stageSMBVolume s req volumeContext) status_res.
Proof. unfold stageSMBVolume. status_auto. Qed.
#[local] Hint Resolve stageSMBVolume_status : status.

Lemma unstageSMBVolume_status (req : NodeUnstageVolumeRequest) :
  hanswers (unstageSMBVolume s req) status_res.
Proof. unfold unstageSMBVolume. status_auto. Qed.
#[local] Hint Resolve unstageSMBVolume_status : status.

Lemma publishSMBVolume_status (req : NodePublishVolumeRequest) :
  hanswers (publishSMBVolume s req) status_res.
Proof. unfold publishSMBVolume. status_auto. Qed.
#[local] Hint Resolve publishSMBVolume_status : status.

End Files.

#[export] Hint Resolve create_missing_status mount_command_status unless_mounted_status bind_mount_status
  unstage_share_status publish_share_status stageNFSVolume_status unstageNFSVolume_status publishNFSVolume_status
  smb_credentials_status stageSMBVolume_status unstageSMBVolume_status publishSMBVolume_status : status.

Ltac status_wrap ::= apply unless_mounted_status.

Section Device.
Context (s : NodeService).

Lemma published_targets_status (req : NodePublishVolumeRequest) :
  hanswers (published_targets s req) status_res.
Proof. unfold published_targets. status_auto. Qed.
#[local] Hint Resolve published_targets_status : status.

Lemma checkSingleWriterPublication_status (req : NodePublishVolumeRequest) :
  hanswers (checkSingleWriterPublication s req) status_opt.
Proof. unfold checkSingleWriterPublication. status_auto. Qed.
#[local] Hint Resolve checkSingleWriterPublication_status : status.

Lemma publishBlockVolume_status (stagingTargetPath targetPath : string) (readonly : bool) :
  hanswers (publishBlockVolume stagingTargetPath targetPath readonly) status_res.
Proof. unfold publishBlockVolume. status_auto. Qed.
#[local] Hint Resolve publishBlockVolume_status : status.

Lemma publishFilesystemVolume_status (stagingTargetPath targetPath : string) (readonly : bool) :
  hanswers (publishFilesystemVolume stagingTargetPath targetPath readonly) status_res.
Proof. unfold publishFilesystemVolume. status_auto. Qed.
#[local] Hint Resolve publishFilesystemVolume_status : status.

Lemma refuseTeardownWhileStaged_status (stagingTargetPath : string) :
  hanswers (refuseTeardownWhileStaged stagingTargetPath) status_opt.
Proof. unfold refuseTeardownWhileStaged. status_auto. Qed.
#[local] Hint Resolve refuseTeardownWhileStaged_status : status.

Lemma link_device_status (devicePath stagingTargetPath : string) :
  hanswers (link_device devicePath stagingTargetPath) status_res.
Proof. unfold link_device. status_auto. Qed.
#[local] Hint Resolve link_device_status : status.

Lemma stageBlockDevice_status (devicePath stagingTargetPath : string) :
  hanswers (stageBlockDevice devicePath stagingTargetPath) status_res.
Proof. unfold stageBlockDevice. status_auto. Qed.
#[local] Hint Resolve stageBlockDevice_status : status.

Lemma probe_loop_status (n : nat) (attempt : Z) (devicePath fsType lastFailure : string) (lastNoSignature : bool) :
  hanswers (probe_loop n attempt devicePath fsType lastFailure lastNoSignature) status_res.
Proof.
  revert attempt lastFailure lastNoSignature. induction n as [|n IH]; intros attempt lastFailure lastNoSignature; cbn
  [probe_loop]; status_auto.
Qed.
#[local] Hint Resolve probe_loop_status : status.

Lemma check_not_mounted_status (devicePath fsType : string) :
  hanswers (check_not_mounted devicePath fsType) status_opt.
Proof. unfold check_not_mounted. status_auto. Qed.
#[local] Hint Resolve check_not_mounted_status : status.

Lemma prepareFilesystemForMount_status (devicePath fsType : string) :
  hanswers (prepareFilesystemForMount devicePath fsType) status_opt.
Proof. unfold prepareFilesystemForMount. status_auto. Qed.
#[local] Hint Resolve prepareFilesystemForMount_status : status.

Lemma verify_and_mount_status getMountOptions (mismatch devicePath stagingTargetPath : string) (cap : option NodeCapability)
  (volumeContext : gomap) :
  hanswers (verify_and_mount s getMountOptions mismatch devicePath stagingTargetPath cap volumeContext) status_res.
Proof. unfold verify_and_mount. status_auto. Qed.
#[local] Hint Resolve verify_and_mount_status : status.

End Device.

#[export] Hint Resolve published_targets_status checkSingleWriterPublication_status publishBlockVolume_status
  publishFilesystemVolume_status refuseTeardownWhileStaged_status link_device_status stageBlockDevice_status
  probe_loop_status check_not_mounted_status prepareFilesystemForMount_status verify_and_mount_status : status.

Section Nvme.
Context (s : NodeService).

Lemma stage_validateNVMeOFParams_status (volumeContext : gomap) :
  status_res (validateNVMeOFParams volumeContext).
Proof. unfold validateNVMeOFParams. status_auto. Qed.
#[local] Hint Resolve stage_validateNVMeOFParams_status : status.

Lemma formatAndMountNVMeDevice_status (devicePath staging : string) (cap : option NodeCapability) (volumeContext :
  gomap) :
  hanswers (formatAndMountNVMeDevice s devicePath staging cap volumeContext) status_res.
Proof. unfold formatAndMountNVMeDevice. status_auto. Qed.
#[local] Hint Resolve formatAndMountNVMeDevice_status : status.

Lemma stageNVMeDevice_status (devicePath staging : string) (cap : option NodeCapability) (volumeContext : gomap) :
  hanswers (stageNVMeDevice s devicePath staging cap volumeContext) status_res.
Proof. unfold stageNVMeDevice. status_auto. Qed.
#[local] Hint Resolve stageNVMeDevice_status : status.

Lemma drop_stale_connection_status (nqn staging : string) (wait : bool) :
  hanswers (drop_stale_connection nqn staging wait) status_res.
Proof. unfold drop_stale_connection. status_auto. Qed.
#[local] Hint Resolve drop_stale_connection_status : status.

Lemma tryReuseExistingConnection_status (p : nvmeOFConnectionParams) (staging : string) (cap : option NodeCapability)
  (volumeContext : gomap) :
  hanswers (tryReuseExistingConnection s p staging cap volumeContext) status_res.
Proof. unfold tryReuseExistingConnection. status_auto. Qed.
#[local] Hint Resolve tryReuseExistingConnection_status : status.

Lemma connect_loop_status (n : nat) (attempt : Z) (lastErr : option error) (p : nvmeOFConnectionParams) (staging :
  string) (cap : option NodeCapability) (volumeContext : gomap) :
  hanswers (connect_loop s n attempt lastErr p staging cap volumeContext) status_res.
Proof. revert attempt lastErr. induction n as [|n IH]; intros attempt lastErr; cbn [connect_loop]; status_auto. Qed.
#[local] Hint Resolve connect_loop_status : status.

Lemma connectAndStageDevice_status (p : nvmeOFConnectionParams) (staging : string) (cap : option NodeCapability)
  (volumeContext : gomap) :
  hanswers (connectAndStageDevice s p staging cap volumeContext) status_res.
Proof. unfold connectAndStageDevice. status_auto. Qed.
#[local] Hint Resolve connectAndStageDevice_status : status.

Lemma stageNVMeOFVolume_status (req : NodeStageVolumeRequest) (volumeContext : gomap) :
  hanswers (stageNVMeOFVolume s req volumeContext) status_res.
Proof. unfold stageNVMeOFVolume. status_auto. Qed.
#[local] Hint Resolve stageNVMeOFVolume_status : status.

Lemma unstageNVMeOFVolume_status (req : NodeUnstageVolumeRequest) (volumeContext : gomap) :
  hanswers (unstageNVMeOFVolume req volumeContext) status_res.
Proof. unfold unstageNVMeOFVolume. status_auto. Qed.
#[local] Hint Resolve unstageNVMeOFVolume_status : status.

End Nvme.

#[export] Hint Resolve stage_validateNVMeOFParams_status formatAndMountNVMeDevice_status stageNVMeDevice_status
  drop_stale_connection_status tryReuseExistingConnection_status connect_loop_status connectAndStageDevice_status
  stageNVMeOFVolume_status unstageNVMeOFVolume_status : status.

Section Iscsi.
Context (s : NodeService).

Lemma stage_validateISCSIParams_status (volumeContext : gomap) :
  status_res (validateISCSIParams volumeContext).
Proof. unfold validateISCSIParams. status_auto. Qed.
#[local] Hint Resolve stage_validateISCSIParams_status : status.

Lemma formatAndMountISCSIDevice_status (devicePath staging : string) (cap : option NodeCapability) (volumeContext :
  gomap) :
  hanswers (formatAndMountISCSIDevice s devicePath staging cap volumeContext) status_res.
Proof. unfold formatAndMountISCSIDevice. status_auto. Qed.
#[local] Hint Resolve formatAndMountISCSIDevice_status : status.

Lemma device_unavailable_status (devicePath what detail : string) :
  is_status (device_unavailable devicePath what detail).
Proof. unfold device_unavailable. status_auto. Qed.
#[local] Hint Resolve device_unavailable_status : status.

Lemma stageISCSIDevice_status (devicePath staging : string) (cap : option NodeCapability) (volumeContext : gomap) :
  hanswers (stageISCSIDevice s devicePath staging cap volumeContext) status_res.
Proof. unfold stageISCSIDevice. status_auto. Qed.
#[local] Hint Resolve stageISCSIDevice_status : status.

Lemma login_loop_status (n : nat) (attempt : Z) (lastErr : option error) (p : iscsiConnectionParams) (staging :
  string) (cap : option NodeCapability) (volumeContext : gomap) :
  hanswers (login_loop s n attempt lastErr p staging cap volumeContext) status_res.
Proof. revert attempt lastErr. induction n as [|n IH]; intros attempt lastErr; cbn [login_loop]; status_auto. Qed.
#[local] Hint Resolve login_loop_status : status.

Lemma fresh_login_status (p : iscsiConnectionParams) (staging : string) (cap : option NodeCapability) (volumeContext :
  gomap) :
  hanswers (fresh_login s p staging cap volumeContext) status_res.
Proof. unfold fresh_login. status_auto. Qed.
#[local] Hint Resolve fresh_login_status : status.

Lemma teardown_then_status (staging : string) (kill : Host unit) (k : Host node_result) :
  hanswers k status_res -> hanswers (teardown_then staging kill k) status_res.
Proof. intros. unfold teardown_then. status_auto. Qed.
#[local] Hint Resolve teardown_then_status : status.
#[local] Ltac status_wrap ::= first [apply unless_mounted_status | apply teardown_then_status].

Lemma stageISCSIVolume_status (req : NodeStageVolumeRequest) (volumeContext : gomap) :
  hanswers (stageISCSIVolume s req volumeContext) status_res.
Proof. unfold stageISCSIVolume. status_auto. Qed.
#[local] Hint Resolve stageISCSIVolume_status : status.

Lemma unstageISCSIVolume_status (req : NodeUnstageVolumeRequest) :
  hanswers (unstageISCSIVolume req) status_res.
Proof. unfold unstageISCSIVolume. status_auto. Qed.
#[local] Hint Resolve unstageISCSIVolume_status : status.

End Iscsi.

#[export] Hint Resolve stage_validateISCSIParams_status formatAndMountISCSIDevice_status device_unavailable_status
  stageISCSIDevice_status login_loop_status fresh_login_status teardown_then_status stageISCSIVolume_status
  unstageISCSIVolume_status : status.

Ltac status_wrap ::= first [apply unless_mounted_status | apply teardown_then_status].

Section Service.
Context (s : NodeService).

Lemma observe_error_status {A : Type} (operation : string) (e : error) :
  is_status e -> hanswers (observe_error (A := A) operation e) status_res.
Proof. intros. unfold observe_error. status_auto. Qed.
#[local] Hint Resolve observe_error_status : status.

Lemma host_observed_status {A : Type} (operation : string) (body : Host (res A)) :
  hanswers body status_res -> hanswers (observed operation body) status_res.
Proof. intros. unfold observed. status_auto. Qed.
#[local] Hint Resolve host_observed_status : status.

Lemma with_volume_lock_status {A : Type} (operation volumeID : string) (body : Host (res A)) :
  hanswers body status_res -> hanswers (with_volume_lock operation volumeID body) status_res.
Proof. intros. unfold with_volume_lock. status_auto. Qed.
#[local] Hint Resolve with_volume_lock_status : status.
#[local] Ltac status_wrap ::= first [apply with_volume_lock_status | apply host_observed_status].

Lemma stage_by_protocol_status (req : NodeStageVolumeRequest) :
  hanswers (stage_by_protocol s req) status_res.
Proof. unfold stage_by_protocol. status_auto. Qed.
#[local] Hint Resolve stage_by_protocol_status : status.

Lemma NodeStageVolume_status (req : NodeStageVolumeRequest) :
  hanswers (NodeStageVolume s req) status_res.
Proof. unfold NodeStageVolume. status_auto. Qed.
#[local] Hint Resolve NodeStageVolume_status : status.

Lemma unstage_by_protocol_status (req : NodeUnstageVolumeRequest) :
  hanswers (unstage_by_protocol s req) status_res.
Proof. unfold unstage_by_protocol. status_auto. Qed.
#[local] Hint Resolve unstage_by_protocol_status : status.

Lemma NodeUnstageVolume_status (req : NodeUnstageVolumeRequest) :
  hanswers (NodeUnstageVolume s req) status_res.
Proof. unfold NodeUnstageVolume. status_auto. Qed.
#[local] Hint Resolve NodeUnstageVolume_status : status.

Lemma publish_by_protocol_status (req : NodePublishVolumeRequest) :
  hanswers (publish_by_protocol s req) status_res.
Proof. unfold publish_by_protocol. status_auto. Qed.
#[local] Hint Resolve publish_by_protocol_status : status.

Lemma NodePublishVolume_status (req : NodePublishVolumeRequest) :
  hanswers (NodePublishVolume s req) status_res.
Proof. unfold NodePublishVolume. status_auto. Qed.
#[local] Hint Resolve NodePublishVolume_status : status.

Lemma unpublish_target_status (targetPath : string) :
  hanswers (unpublish_target s targetPath) status_res.
Proof. unfold unpublish_target. status_auto. Qed.
#[local] Hint Resolve unpublish_target_status : status.

Lemma NodeUnpublishVolume_status (volumeID targetPath : string) :
  hanswers (NodeUnpublishVolume s volumeID targetPath) status_res.
Proof. unfold NodeUnpublishVolume. status_auto. Qed.
#[local] Hint Resolve NodeUnpublishVolume_status : status.

Lemma NodeGetVolumeStats_status (volumeID volumePath : string) :
  hanswers (NodeGetVolumeStats s volumeID volumePath) status_res.
Proof. unfold NodeGetVolumeStats. status_auto. Qed.
#[local] Hint Resolve NodeGetVolumeStats_status : status.

Lemma NodeGetVolumeHealth_status (volumeID publishPath stagingPath : string) :
  hanswers (NodeGetVolumeHealth s volumeID publishPath stagingPath) status_res.
Proof. unfold NodeGetVolumeHealth. status_auto. Qed.
#[local] Hint Resolve NodeGetVolumeHealth_status : status.

Lemma resizeFilesystem_status (mountPath fsType : string) :
  hanswers (resizeFilesystem mountPath fsType) status_opt.
Proof. unfold resizeFilesystem. status_auto. Qed.
#[local] Hint Resolve resizeFilesystem_status : status.

Lemma expand_mounted_status (volumePath : string) (cap : option NodeCapability) :
  hanswers (expand_mounted volumePath cap) status_opt.
Proof. unfold expand_mounted. status_auto. Qed.
#[local] Hint Resolve expand_mounted_status : status.

Lemma NodeExpandVolume_status (volumeID volumePath : string) (range : option CapacityRange) (cap : option
  NodeCapability) :
  hanswers (NodeExpandVolume s volumeID volumePath range cap) status_res.
Proof. unfold NodeExpandVolume. status_auto. Qed.
#[local] Hint Resolve NodeExpandVolume_status : status.

End Service.

#[export] Hint Resolve observe_error_status host_observed_status with_volume_lock_status stage_by_protocol_status
  NodeStageVolume_status unstage_by_protocol_status NodeUnstageVolume_status publish_by_protocol_status
  NodePublishVolume_status unpublish_target_status NodeUnpublishVolume_status NodeGetVolumeStats_status
  NodeGetVolumeHealth_status resizeFilesystem_status expand_mounted_status NodeExpandVolume_status : status.
