(* ===== verification/RpcErrors.v ===== *)
(** * The type of the errors of the RPCs

    A CSI call answers with a message or with a gRPC status: an error that is
    not a status reaches kubelet and the external provisioner as [Unknown],
    which they cannot tell from a crash.  This file lists the calls of the
    three services and states that none of them lets such an error out. *)

From S2P Require Import Prelude GoStrings Prog Errors Api Metadata Names Common Publish Controller SnapshotId Snapshots Backend NodeHost NodeFiles NodeService Metrics Server Answers Statuses NodeStatuses.

(** ** The calls, by the message they answer *)

Section Calls.
Context {api : NastyAPI} {tt_ : TextTemplate} {tpb : Timestamppb}.

Inductive controller_call : Type -> Type :=
| CallCreateVolume (req : CreateVolumeRequest) : controller_call Volume
| CallDeleteVolume (volumeID : string) : controller_call unit
| CallControllerPublish (registry : option NodeRegistry.t) (req : PublishRequest) (m : published) : controller_call unit
| CallControllerUnpublish (volumeID nodeID : string) (m : published) : controller_call unit
| CallValidateVolumeCapabilities (volumeID : string) (caps : list VolumeCapability) : controller_call validation
| CallListVolumes (req : list_request) : controller_call (list_response Volume)
| CallGetCapacity (params : gomap) : controller_call Z
| CallCreateSnapshot (name sourceVolumeID : string) : controller_call CSISnapshot
| CallDeleteSnapshot (snapshotID : string) : controller_call unit
| CallListSnapshots (req : ListSnapshotsRequest) : controller_call (list_response CSISnapshot)
| CallGetSnapshot (snapshotID : string) : controller_call CSISnapshot
| CallControllerExpand (req : ExpandVolumeRequest) : controller_call expansion
| CallGetVolume (volumeID : string) : controller_call Volume
| CallGetVolumeHealth (volumeID : string) : controller_call (string * list string)
| CallModifyVolume (volumeID : string) : controller_call unit
| CallGetPluginInfo (identity : IdentityService) : controller_call (string * string).

Definition serve_controller (s : service) {A : Type} (c : controller_call A) : M (res A) :=
  match c in controller_call A return M (res A) with
  | CallCreateVolume req => CreateVolume s req
  | CallDeleteVolume volumeID => DeleteVolume volumeID
  | CallControllerPublish registry req m => Ret (ControllerPublishVolume registry req m).1
  | CallControllerUnpublish volumeID nodeID m => Ret (ControllerUnpublishVolume volumeID nodeID m).1
  | CallValidateVolumeCapabilities volumeID caps => ValidateVolumeCapabilities volumeID caps
  | CallListVolumes req => ListVolumes req
  | CallGetCapacity params => GetCapacity params
  | CallCreateSnapshot name sourceVolumeID => CreateSnapshot name sourceVolumeID
  | CallDeleteSnapshot snapshotID => DeleteSnapshot snapshotID
  | CallListSnapshots req => ListSnapshots req
  | CallGetSnapshot snapshotID => ControllerGetSnapshot snapshotID
  | CallControllerExpand req => ControllerExpandVolume req
  | CallGetVolume volumeID => ControllerGetVolume volumeID
  | CallGetVolumeHealth volumeID => ControllerGetVolumeHealth volumeID
  | CallModifyVolume volumeID => Ret (ControllerModifyVolume volumeID)
  | CallGetPluginInfo identity => Ret (GetPluginInfo identity)
  end.

Inductive host_call : Type -> Type :=
| CallNodeStage (req : NodeStageVolumeRequest) : host_call unit
| CallNodeUnstage (req : NodeUnstageVolumeRequest) : host_call unit
| CallNodePublish (req : NodePublishVolumeRequest) : host_call unit
| CallNodeUnpublish (volumeID targetPath : string) : host_call unit
| CallNodeGetVolumeStats (volumeID volumePath : string) : host_call (list VolumeUsage)
| CallNodeGetVolumeHealth (volumeID publishPath stagingPath : string) : host_call health_report
| CallNodeExpand (volumeID volumePath : string) (range : option CapacityRange) (cap : option NodeCapability) : host_call Z.

Definition serve_node (s : NodeService) {A : Type} (c : host_call A) : Host (res A) :=
  match c in host_call A return Host (res A) with
  | CallNodeStage req => NodeStageVolume s req
  | CallNodeUnstage req => NodeUnstageVolume s req
  | CallNodePublish req => NodePublishVolume s req
  | CallNodeUnpublish volumeID targetPath => NodeUnpublishVolume s volumeID targetPath
  | CallNodeGetVolumeStats volumeID volumePath => NodeGetVolumeStats s volumeID volumePath
  | CallNodeGetVolumeHealth volumeID publishPath stagingPath => NodeGetVolumeHealth s volumeID publishPath stagingPath
  | CallNodeExpand volumeID volumePath range cap => NodeExpandVolume s volumeID volumePath range cap
  end.

(** ** Their errors *)

Lemma serve_controller_status s {A : Type} (c : controller_call A) : canswers (serve_controller s c) status_res.
Proof.
  destruct c; cbn [serve_controller answers]; try solve [eauto 2 with status].
  - unfold ControllerPublishVolume. repeat case_match; exact I || by apply Status_is_status.
  - unfold ControllerUnpublishVolume. repeat case_match; exact I || by apply Status_is_status.
  - unfold GetPluginInfo. status_auto.
Qed.

Lemma serve_node_status s {A : Type} (c : host_call A) : hanswers (serve_node s c) status_res.
Proof. destruct c; cbn [serve_node]; eauto 2 with status. Qed.

(** The interceptor answers what the handler answers. *)
Lemma interceptor_status {Sg : signature} E {A : Type} now record method (handler : prog Sg (res A)) :
  answers E handler status_res -> answers E (metricsInterceptor now record method handler) status_res.
Proof.
  intros H. unfold metricsInterceptor. eapply answers_bind; [apply answers_any|]. intros t0 _.
  eapply answers_bind; [exact H|]. intros r Hr. eapply answers_bind; [apply answers_any|]. intros t1 _.
  eapply answers_bind; [apply answers_any|]. intros _ _. exact Hr.
Qed.

(** C19: every error that leaves the driver has the type that gRPC expects. Whatever
    the backend, the host and the clock answer, provided that a context that is done
    gives context.Canceled or context.DeadlineExceeded: a CSI call that the server
    passes through the interceptor to the controller, the identity service or the node
    service fails only with a gRPC status whose code is neither OK nor Unknown. *)
Theorem rpc_errors_are_statuses :
  (forall (s : service) (A : Type) (c : controller_call A) now record method tr e,
     exec (metricsInterceptor now record method (serve_controller s c)) tr (Done (Err e)) -> is_status e) /\
  (forall (s : NodeService) (A : Type) (c : host_call A) now record method tr e,
     exec (metricsInterceptor now record method (serve_node s c)) tr (Done (Err e)) ->
     answered context_answers tr -> is_status e).
Proof.
  split.
  - intros s A c now record method tr e He.
    refine (answers_sound anything _ _ _ _ (interceptor_status _ now record method _ (serve_controller_status s c)) He _).
    apply Forall_forall. by intros.
  - intros s A c now record method tr e He Ht.
    exact (answers_sound _ _ _ _ _ (interceptor_status _ now record method _ (serve_node_status s c)) He Ht).
Qed.
End Calls.

(** ** A concrete input: a backend that fails, a context that is cancelled *)

#[local] Existing Instance doc_api.
#[local] Existing Instance field_templates.
#[local] Existing Instance proto_timestamps.

Definition capacity_call : controller_call Z := CallGetCapacity (Some {[ paramFilesystem := "tank" ]}).
Definition capacity_trace : list (event csig) := [cev (QueryFilesystem "tank") (None, Some (err_new io_EOF))].

Definition stage_call : host_call unit :=
  CallNodeStage (mkNodeStage "v1" "/stage" (Some (mkNodeCapability (mkVolumeCapability (Mount "") SINGLE_NODE_WRITER) [])) None None).
Definition stage_trace : nhistory :=
  [nev (LockVolume "v1") (Some (err_new context_Canceled)); nev (NodeMetric "ObserveError stage") tt].

Lemma rpc_errors_are_statuses_witness :
  is_status (Status Internal "Failed to query filesystem capacity: EOF") /\ is_status (FromContextError (err_new context_Canceled)).
Proof.
  destruct rpc_errors_are_statuses as [Hc Hn]. split.
  - apply (Hc (mkService "" false) Z capacity_call (Ret 0) (fun _ => Ret tt) "/csi.v1.Controller/GetCapacity" capacity_trace).
    repeat econstructor.
  - apply (Hn (mkNodeService "n" false false false false 5) unit stage_call (Ret 0) (fun _ => Ret tt) "/csi.v1.Node/NodeStageVolume" stage_trace).
    + repeat econstructor.
    + repeat constructor.
Defined.
