(* ===== verification/Platform.v ===== *)
(** * The macOS build (the files with [//go:build darwin])

    Stand-ins for development and for the sanity tests: the mount checks of
    mount_darwin.go, and the defaults that differ.  On this platform the checks
    that need the mount table of a Linux host fail. *)

From S2P Require Import Prelude GoStrings Prog Errors Api NodeHost NodeFiles.

Module Darwin.

(** ** mount/mount_darwin.go *)

(** [mount] without arguments prints the mounted file systems. *)
Definition IsMounted (targetPath : string) : Host (res bool) :=
  info <- host (Stat targetPath);;
  match info with
  | Err err =>
      if IsNotExist err then Ret (Ok false)
      else Ret (Err (Errorf ("failed to stat path: " +:+ err_text err) [err]))
  | Ok _ =>
      let! (output, err) := host (Command "mount" []) in
      Ret (match err with
           | Some _ => Ok false
           | None => Ok (Contains output targetPath)
           end)
  end.

Definition IsDeviceMounted (targetPath : string) : Host (res bool) := IsMounted targetPath.

Definition IsSourceMounted (source : string) : Host (res bool) := Ret (Err (err_new errSourceMountUnsupported)).

Definition GetBindMountRefs (path : string) : Host (res (list string)) := Ret (Err (err_new errSourceMountUnsupported)).

(** A failed check counts as not mounted; a failed unmount is only logged. *)
Definition Unmount (targetPath : string) : Host (option error) :=
  checked <- IsMounted targetPath;;
  let mounted := match checked with Ok mounted => mounted | Err _ => false end in
  if negb mounted then Ret None
  else let! (_, _) := host (Command "umount" [targetPath]) in Ret None.

(** ** driver/node_darwin.go, node_nfs_darwin.go, node_smb_darwin.go *)

(** [Bsize] is a [uint32] here. *)
Definition getBlockSize (bsize : Z) : Z := to_uint64 bsize.

Definition defaultNFSMountOptions : list string := ["vers=4"; mountOptNolock].

(** The same code as on Linux. *)
Definition extractOptionKey (option : string) : string :=
  match Index option "=" with Some i => str_take i option | None => option end.

Definition getNFSMountOptions (userOptions : list string) : list string :=
  match userOptions with
  | [] => defaultNFSMountOptions
  | _ =>
      let userOptionKeys := map extractOptionKey userOptions in
      userOptions ++
      List.filter (fun defaultOpt => negb (existsb (String.eqb (extractOptionKey defaultOpt)) userOptionKeys))
        defaultNFSMountOptions
  end.

Definition defaultSMBMountOptions : list string := [].

Definition getSMBMountOptions (userOptions : list string) : list string :=
  match userOptions with [] => defaultSMBMountOptions | _ => userOptions end.
End Darwin.

(** ** What the stand-ins never do *)

(** No answer of the host makes the checks of a source and of the bind mounts
    succeed, and an unmount never fails. *)
Lemma darwin_fails_closed path tr :
  (forall r, exec (Darwin.IsSourceMounted path) tr (Done r) -> r = Err (err_new errSourceMountUnsupported)) /\
  (forall r, exec (Darwin.GetBindMountRefs path) tr (Done r) -> r = Err (err_new errSourceMountUnsupported)) /\
  (forall r, exec (Darwin.Unmount path) tr (Done r) -> r = None).
Proof.
  split_and!; intros r H; [by apply exec_inv in H as [_ [= ->]]..|].
  apply exec_bind in H as [(checked & ? & ? & _ & H & ->)|[_ [=]]].
  destruct checked as [[|]|]; cbn [negb] in H; [|by apply exec_inv in H as [_ [= ->]]..].
  apply exec_bind in H as [([? ?] & ? & ? & _ & H & ->)|[_ [=]]]. by apply exec_inv in H as [_ [= ->]].
Qed.

(** The merge is that of the Linux build, with other defaults. *)
Lemma darwin_options userOptions :
  Darwin.getNFSMountOptions userOptions = merge_mount_options Darwin.defaultNFSMountOptions userOptions /\
  Darwin.getSMBMountOptions userOptions = merge_mount_options Darwin.defaultSMBMountOptions userOptions.
Proof. split; [done|]. destruct userOptions; [done|]. cbn. by rewrite app_nil_r. Qed.
