(* ===== verification/Entry.v ===== *)
(** * The entry point (cmd/nasty-csi-driver/main.go)

    The flags, [main], the goroutine that waits for a signal, and the seeding of
    the capacity metrics (driver.go), which runs in a goroutine of its own. *)

From S2P Require Import Prelude GoStrings Prog Errors Api Retry Common Controller Metrics Server.

(** ** Build-time variables and flags *)

Definition version : string := "0.0.1".
Definition gitCommit : string := "unknown".
Definition buildDate : string := "unknown".

(** The values of the flags after [flag.Parse]. *)
Record flags : Type := mkFlags {
  endpoint : string; nodeID : string; driverName : string; apiURL : string; apiKey : string; metricsAddr : string;
  skipTLSVerify : bool; showVersion : bool; debug : bool; enableNVMeDiscovery : bool; maxConcurrentNVMeConnects : Z;
  dashboardAddr : string; dashboardFilesystem : string; clusterID : string
}.

Definition default_flags : flags :=
  mkFlags "unix:///var/lib/kubelet/plugins/nasty.csi.io/csi.sock" "" "nasty.csi.io" "" "" ":8080" false false false false 5 "" "" "".

(** The configuration of the driver; [key] is the flag or the environment's. *)
Definition config_of (f : flags) (key : string) : Config := {|
  cf_DriverName := driverName f; cf_Version := version; cf_NodeID := nodeID f; cf_Endpoint := endpoint f;
  cf_APIURL := apiURL f; cf_APIKey := key; cf_MetricsAddr := metricsAddr f; cf_DashboardAddr := dashboardAddr f;
  cf_DashboardFilesystem := dashboardFilesystem f; cf_ClusterID := clusterID f; cf_TestMode := false;
  cf_SkipTLSVerify := skipTLSVerify f; cf_EnableNVMeDiscovery := enableNVMeDiscovery f;
  cf_MaxConcurrentNVMeConnects := maxConcurrentNVMeConnects f |}.

(** ** main *)

(** How the process ends: [main] returns, or [os.Exit] ends it at once, with all
    its goroutines; [klog.Fatal] exits with 255. *)
Inductive process_end : Type := Returned | Exited (status : Z).
Definition Fatal : process_end := Exited 255.

(** The verbosity is raised by the flag or the environment; a failure is only logged. *)
Definition set_verbosity (f : flags) : Proc unit :=
  wanted <- (if debug f then Ret true
             else
               v <- act (Getenv "DEBUG_CSI");;
               if String.eqb v "true" then Ret true
               else v <- act (Getenv "DEBUG_CSI");; Ret (String.eqb v "1"));;
  if (wanted : bool) then act (SetVerbosity "4") ;;; Ret tt else Ret tt.

(** [goVersion], [goos] and [goarch] are constants of package runtime. *)
Definition print_version (f : flags) (goVersion goos goarch : string) : Proc unit :=
  act (Printf (driverName f +:+ " version: " +:+ version)) ;;;
  act (Printf ("  Git commit: " +:+ gitCommit)) ;;;
  act (Printf ("  Build date: " +:+ buildDate)) ;;;
  act (Printf ("  Go version: " +:+ goVersion)) ;;;
  act (Printf ("  Platform:   " +:+ goos +:+ "/" +:+ goarch)).

(** The goroutine that [main] starts. *)
Definition signal_handler : Proc unit :=
  act ReceiveSignal ;;; Stop ;;; act CloseShutdownDone.

(** From the creation of the driver to its end. *)
Definition serve (cfg : Config) (connected : bool) : Proc process_end :=
  drv <- NewDriver cfg connected;;
  match drv with
  | Err _ => Ret Fatal
  | Ok _ =>
      act NotifySignals ;;;
      act GoSignalHandler ;;;
      err <- Run cfg;;
      match err with
      | Some _ => Ret Fatal
      | None => act WaitShutdownDone ;;; Ret Returned
      end
  end.

Definition main (f : flags) (goVersion goos goarch : string) (connected : bool) : Proc process_end :=
  set_verbosity f ;;;
  if showVersion f then print_version f goVersion goos goarch ;;; Ret (Exited 0)
  else if String.eqb (apiURL f) "" then Ret Fatal
  else
    key <- (if String.eqb (apiKey f) "" then act (Getenv "NASTY_API_KEY") else Ret (apiKey f));;
    if String.eqb key "" then Ret Fatal
    else
      act (PublishVersion version gitCommit buildDate) ;;;
      serve (config_of f key) connected.

(** ** The seeding of the metrics (driver.go) *)

Definition seed_config : Retry.Config :=
  Retry.mkConfig 10 (InitialBackoff DefaultConfig) (MaxBackoff DefaultConfig) (BackoffMultiplier DefaultConfig)
    (RetryableFunc DefaultConfig) "seed-volume-capacity-metrics".

(** A failure is only logged. *)
Definition seedVolumeCapacityMetrics {api : NastyAPI} (s : service) : M unit :=
  WithRetryNoResult seed_config
    (r <- Controller.seedVolumeCapacityMetrics s;; Ret (match r with Ok _ => None | Err e => Some e end)) ;;;
  Ret tt.

(** ** The process: two goroutines

    [main] and, once started, the handler; what each has done; and whether the
    channel [shutdownDone] is closed.  A wait for that channel ends when it is
    closed, a receive from the signal channel whenever a signal arrives.  When
    [main] has ended nothing runs. *)
Record process : Type := mkProcess {
  pr_main : Proc process_end; pr_main_log : list (event ssig);
  pr_handler : option (Proc unit); pr_handler_log : list (event ssig);
  pr_closed : bool
}.

Definition start_process (p : Proc process_end) : process := mkProcess p [] None [] false.

Definition main_may (o : sop) (closed : bool) : bool := match o with WaitShutdownDone => closed | _ => true end.
Definition after_main (o : sop) (h : option (Proc unit)) : option (Proc unit) :=
  match o with GoSignalHandler => Some signal_handler | _ => h end.
Definition after_handler (o : sop) (closed : bool) : bool := match o with CloseShutdownDone => true | _ => closed end.
Definition ended {A : Type} (p : Proc A) : bool := match p with Vis _ _ => false | _ => true end.

Inductive process_step : process -> process -> Prop :=
| step_main (o : sop) (r : sans o) k l h lh c :
    main_may o c = true ->
    process_step (mkProcess (Vis (Sg := ssig) o k) l h lh c)
      (mkProcess (k r) (l ++ [ev (Sg := ssig) o r]) (after_main o h) lh c)
| step_handler m l (o : sop) (r : sans o) k lh c :
    ended m = false ->
    process_step (mkProcess m l (Some (Vis (Sg := ssig) o k)) lh c)
      (mkProcess m l (Some (k r)) (lh ++ [ev (Sg := ssig) o r]) (after_handler o c)).
