(* ===== verification/EntryTheorems.v ===== *)
(** * The end of the process

    How [main] ends on each branch, and what has been done when it returns,
    whatever the interleaving with the goroutine that handles the signal. *)

From S2P Require Import Prelude GoStrings Prog Errors Api Metrics Server ServerTheorems Entry.

#[local] Set Default Proof Using "Type".

(** ** Partial executions *)

Lemma partial_refl {A : Type} (p : Proc A) : partial p [] p.
Proof. constructor. Qed.

Lemma partial_snoc {A : Type} (p : Proc A) tr (o : sop) (r : sans o) k :
  partial p tr (Vis (Sg := ssig) o k) -> partial p (tr ++ [sev o r]) (k r).
Proof.
  intros H. remember (Vis (Sg := ssig) o k) as q eqn:E. induction H as [p|o' r' k' tr q H IH].
  - subst. apply partial_step, partial_here.
  - cbn [app]. apply partial_step. by apply IH.
Qed.

Lemma partial_inv {A : Type} (p : Proc A) tr q :
  partial p tr q ->
  (tr = [] /\ q = p) \/
  match p with Vis o k => exists r tr', tr = sev o r :: tr' /\ partial (k r) tr' q | _ => False end.
Proof. intros []; [by left|right; eauto]. Qed.

(** Where a composition stands: in its first part, or past it. *)
Lemma partial_bind {A B : Type} (p : Proc A) (f : A -> Proc B) tr q :
  partial (bind p f) tr q ->
  (exists p', partial p tr p' /\ q = bind p' f) \/
  (exists a tr1 tr2, exec p tr1 (Done a) /\ partial (f a) tr2 q /\ tr = tr1 ++ tr2).
Proof.
  revert tr. induction p as [a| |o k IH]; intros tr H.
  - right. exists a, [], tr. split_and!; [constructor|done|done].
  - left. apply partial_inv in H as [[-> ->]|[]]. exists Panic. split; [constructor|done].
  - apply partial_inv in H as [[-> ->]|(r & tr' & -> & H)].
    + left. exists (Vis (Sg := ssig) o k). split; [constructor|done].
    + apply IH in H as [(p' & Hp & ->)|(a & tr1 & tr2 & H1 & H2 & ->)].
      * left. exists p'. split; [by constructor|done].
      * right. exists a, (sev o r :: tr1), tr2. split_and!; [by constructor|done|done].
Qed.

Lemma partial_exec {A : Type} (p : Proc A) tr a : partial p tr (Ret a) -> exec p tr (Done a).
Proof.
  intros H. remember (Ret a) as q eqn:E. revert E. induction H as [p|o r k tr q H IH]; intros ->; [constructor|].
  constructor. by apply IH.
Qed.

(** A program does, at every point, what its policy allows there. *)
Lemma partial_allow {A : Type} (P : policy ssig) h (p : Proc A) post tr (o : sop) k :
  (forall h o r, env P h o r) -> wp P h p post -> partial p tr (Vis (Sg := ssig) o k) -> allow P (h ++ tr) o.
Proof.
  intros HE Hp H. remember (Vis (Sg := ssig) o k) as q eqn:E. revert h Hp E.
  induction H as [p|o' r k' tr q H IH]; intros h Hp ->.
  - rewrite app_nil_r. apply Hp.
  - destruct Hp as [_ Hk]. specialize (IH _ (Hk r (HE _ _ _)) eq_refl). by rewrite <- app_assoc in IH.
Qed.

(** ** Programs that do none of the operations of [main] *)

Definition of_main (o : sop) : bool :=
  match o with GoSignalHandler | WaitShutdownDone | CloseShutdownDone => true | _ => false end.

Definition silent_policy : policy ssig :=
  {| allow (_ : shistory) (o : op ssig) := of_main o = false; env _ _ _ := True; crash := True |}.
Abbreviation silent p := (wp silent_policy [] p (fun _ _ => True)).

Ltac silent_auto :=
  repeat first
    [ by apply wp_ret
    | by apply wp_act
    | apply wp_act_then; [done|]; intros ?; cbv zeta
    | match goal with |- wp _ _ (match ?b with _ => _ end) _ => destruct b end
    | eapply wp_call_spec with (Q := fun _ _ => True); [|intros ? ? _] ].

Lemma Stop_silent : silent Stop.
Proof. unfold Stop, StopHealthMonitor, dashboard_Stop, stopGRPCServer. silent_auto. Qed.

Lemma Run_silent cfg : silent (Run cfg).
Proof. unfold Run, listen_address, start_metrics, start_dashboard, NewServer, StartHealthMonitor. silent_auto. Qed.

Lemma NewDriver_silent cfg connected : silent (NewDriver cfg connected).
Proof. unfold NewDriver. silent_auto. Qed.

Lemma set_verbosity_silent f : silent (set_verbosity f).
Proof. unfold set_verbosity. silent_auto. Qed.

Lemma print_version_silent f a b c : silent (print_version f a b c).
Proof. unfold print_version. silent_auto. Qed.

Definition free_of (tr : shistory) : bool := forallb (fun e : event ssig => negb (of_main (projT1 e))) tr.

Lemma silent_partial {A : Type} h (p : Proc A) tr q :
  wp silent_policy h p (fun _ _ => True) -> partial p tr q -> free_of tr = true.
Proof.
  intros Hp H. revert h Hp. induction H as [p|o r k tr q H IH]; intros h Hp; [done|].
  destruct Hp as [Ho Hk]. apply andb_true_iff. split; [by apply negb_true_iff|]. exact (IH _ (Hk r I)).
Qed.

(** ** The goroutine that handles the signal *)

Definition closed_done (tr : shistory) : bool :=
  existsb (fun e : event ssig => match projT1 e with CloseShutdownDone => true | _ => false end) tr.

Lemma free_not_closed tr : free_of tr = true -> closed_done tr = false.
Proof.
  induction tr as [|[o r] tr IH]; [done|]. intros H. apply andb_true_iff in H as [Ho Ht]. specialize (IH Ht).
  cbn in Ho |- *. unfold closed_done in IH. destruct o; done.
Qed.

Lemma exec_partial {A : Type} (p : Proc A) tr a : exec p tr (Done a) -> partial p tr (Ret a).
Proof.
  intros H. remember (Done a) as out eqn:E. induction H as [b| |o k r tr out H IH]; simplify_eq; [constructor|].
  constructor. by apply IH.
Qed.

(** Once the channel is closed, the handler has received a signal and run Stop to
    its end, and it is over. *)
Lemma handler_closed tr q :
  partial signal_handler tr q -> closed_done tr = true ->
  q = Ret tt /\ exists stop, exec Stop stop (Done tt) /\ tr = sev ReceiveSignal tt :: stop ++ [sev CloseShutdownDone tt].
Proof.
  unfold signal_handler. intros H Hc. apply partial_inv in H as [[-> ->]|([] & tr' & -> & H)]; [done|].
  change (closed_done tr' = true) in Hc. change (partial (Stop ;;; act CloseShutdownDone) tr' q) in H.
  apply partial_bind in H as [(p' & H & ->)|([] & stop & tr2 & H1 & H2 & ->)].
  - pose proof (free_not_closed _ (silent_partial _ _ _ _ Stop_silent H)). congruence.
  - apply partial_inv in H2 as [[-> ->]|([] & tr3 & -> & H2)].
    + pose proof (free_not_closed _ (silent_partial _ _ _ _ Stop_silent (exec_partial _ _ _ H1))) as Hf.
      rewrite app_nil_r in Hc. congruence.
    + apply partial_inv in H2 as [[-> ->]|[]]. split; [done|]. by exists stop.
Qed.

(** ** [main] starts the handler once *)

Definition no_handler (tr : shistory) : bool :=
  forallb (fun e : event ssig => match projT1 e with GoSignalHandler => false | _ => true end) tr.

Definition once_policy : policy ssig :=
  {| allow (h : shistory) (o : op ssig) := (o : sop) = GoSignalHandler -> no_handler h = true; env _ _ _ := True; crash := True |}.

Lemma once_silent {A : Type} h0 h (p : Proc A) :
  wp silent_policy h0 p (fun _ _ => True) -> no_handler h = true -> wp once_policy h p (fun _ h' => no_handler h' = true).
Proof.
  revert h0 h. induction p as [a| |o k IH]; intros h0 h Hp Hh; [by apply wp_ret|exact I|]. destruct Hp as [Ho Hk].
  split; [by intros ?|].
  intros r Hr. refine (IH r _ _ (Hk r I) _). unfold no_handler. rewrite forallb_app. apply andb_true_iff. split; [done|].
  cbn in *. by destruct o.
Qed.

Lemma once_any {A : Type} h0 h (p : Proc A) : wp silent_policy h0 p (fun _ _ => True) -> wp once_policy h p (fun _ _ => True).
Proof.
  revert h0 h. induction p as [a| |o k IH]; intros h0 h Hp; [by apply wp_ret|exact I|]. destruct Hp as [Ho Hk]. split.
  - cbn in Ho |- *. intros ->. discriminate Ho.
  - intros r Hr. exact (IH r _ _ (Hk r I)).
Qed.

Lemma serve_once h cfg connected : no_handler h = true -> wp once_policy h (serve cfg connected) (fun _ _ => True).
Proof.
  intros Hh. unfold serve. eapply wp_call_spec; [exact (once_silent _ _ _ (NewDriver_silent cfg connected) Hh)|].
  cbv beta. intros [d|e] t Ht; [|by apply wp_ret].
  assert (no_handler ((h ++ t) ++ [sev NotifySignals tt]) = true) as Hn.
  { unfold no_handler in *. rewrite forallb_app. by apply andb_true_iff. }
  apply wp_act_then; [intros [=]|]. intros []. apply wp_act_then; [by intros ?|]. intros ?.
  eapply wp_call_spec; [exact (once_any _ _ _ (Run_silent cfg))|]. intros [err|] t' _; [by apply wp_ret|].
  apply wp_act_then; [intros [=]|]. intros ?. by apply wp_ret.
Qed.

Lemma main_once f go os arch connected : wp once_policy [] (main f go os arch connected) (fun _ _ => True).
Proof.
  unfold main. eapply wp_call_spec; [exact (once_silent _ _ _ (set_verbosity_silent f) (eq_refl : no_handler [] = true))|]. cbv beta. intros _ t Ht.
  destruct (showVersion f).
  { eapply wp_call_spec; [exact (once_any _ _ _ (print_version_silent f go os arch))|]. intros _ t' _. by apply wp_ret. }
  destruct (String.eqb (apiURL f) ""); [by apply wp_ret|].
  eapply wp_call_spec with (Q := fun _ h' => no_handler h' = true).
  { destruct (String.eqb (apiKey f) ""); [|by apply wp_ret]. apply wp_act; [intros [=]|]. intros r.
    unfold no_handler in *. rewrite forallb_app. by apply andb_true_iff. }
  intros key t1 Ht1. destruct (String.eqb key ""); [by apply wp_ret|].
  apply wp_act_then; [intros [=]|]. intros r. apply serve_once.
  unfold no_handler in *. rewrite forallb_app. by apply andb_true_iff.
Qed.

(** ** The two goroutines together *)

Definition process_ok (main0 : Proc process_end) (p : process) : Prop :=
  partial main0 (pr_main_log p) (pr_main p) /\
  match pr_handler p with
  | None => pr_handler_log p = [] /\ no_handler (pr_main_log p) = true
  | Some h => partial signal_handler (pr_handler_log p) h /\ no_handler (pr_main_log p) = false
  end /\
  pr_closed p = closed_done (pr_handler_log p) /\
  (sev WaitShutdownDone tt ∈ pr_main_log p -> pr_closed p = true).

Lemma no_handler_snoc l (o : sop) (r : sans o) :
  no_handler (l ++ [sev o r]) = no_handler l && match o with GoSignalHandler => false | _ => true end.
Proof. unfold no_handler. rewrite forallb_app. cbn. by rewrite andb_true_r. Qed.

Lemma closed_done_snoc l (o : sop) (r : sans o) :
  closed_done (l ++ [sev o r]) = after_handler o (closed_done l).
Proof. unfold closed_done. rewrite existsb_app. cbn. destruct o; cbn; by rewrite ?orb_false_r, ?orb_true_r. Qed.

Lemma process_ok_step main0 p p' :
  wp once_policy [] main0 (fun _ _ => True) -> process_ok main0 p -> process_step p p' -> process_ok main0 p'.
Proof.
  intros Hw (Hm & Hh & Hc & Hwait) Hs. destruct Hs as [o r k l h lh c Hmay|m l o r k lh c _];
    unfold process_ok; cbn [pr_main pr_main_log pr_handler pr_handler_log pr_closed] in *.
  - change (ev (Sg := ssig) o r) with (sev o r). split; [by apply partial_snoc|]. split_and!; [|done|].
    + assert (o = GoSignalHandler -> no_handler l = true) as Ha
        by exact (partial_allow once_policy _ _ _ _ _ _ (fun _ _ _ => I) Hw Hm). rewrite no_handler_snoc.
      assert (o = GoSignalHandler \/ after_main o h = h /\ match o with GoSignalHandler => false | _ => true end = true) as [->|[-> ->]]
        by (destruct o; auto).
      * destruct h as [h|]; [|destruct Hh as [-> _]]; [destruct Hh as [_ Hh]; specialize (Ha eq_refl); congruence|].
        cbn [after_main pr_handler pr_handler_log]. split; [apply partial_refl|by rewrite andb_false_r].
      * by rewrite andb_true_r.
    + intros [H|H]%elem_of_app; [auto|]. apply list_elem_of_singleton in H. destruct o; try discriminate H. exact Hmay.
  - change (ev (Sg := ssig) o r) with (sev o r). destruct Hh as [Hh Hn]. split_and!; [done|by apply partial_snoc|done|by rewrite closed_done_snoc, Hc|].
    intros H. specialize (Hwait H). subst c. destruct o; cbn; auto.
Qed.

Lemma process_reach_ok main0 p :
  wp once_policy [] main0 (fun _ _ => True) -> rtc process_step (start_process main0) p -> process_ok main0 p.
Proof.
  intros Hw H. assert (process_ok main0 (start_process main0)) as H0.
  { split_and!; [apply partial_refl|done|done|]. intros Hin. by apply elem_of_nil in Hin. }
  remember (start_process main0) as p0 eqn:E. clear E. induction H as [p|p q r Hs _ IH]; [done|].
  apply IH. by eapply process_ok_step.
Qed.

Lemma Run_served cfg tr : exec (Run cfg) tr (Done None) -> exists t, tr = t ++ [sev Serve None].
Proof.
  unfold Run. intros H.
  apply exec_bind in H as [([[[scheme host] path]|e] & t1 & ta & _ & H & ->)|[_ [=]]]; [|by apply exec_inv in H as [_ [=]]].
  apply exec_bind in H as [([addr|e] & t2 & tb & _ & H & ->)|[_ [=]]]; [|by apply exec_inv in H as [_ [=]]].
  do 2 (apply exec_bind in H as [([] & ? & ? & _ & H & ->)|[_ [=]]]).
  apply exec_bind in H as [([e|] & ? & ? & _ & H & ->)|[_ [=]]]; [by apply exec_inv in H as [_ [=]]|].
  do 6 (apply exec_bind in H as [([] & ? & ? & _ & H & ->)|[_ [=]]]).
  apply exec_inv in H as (r & t & -> & H). apply exec_inv in H as [-> [= <-]].
  eexists. by rewrite !app_assoc.
Qed.

(** [main] returns only from the wait that follows a Run without an error. *)
Lemma main_returned f go os arch connected tr :
  exec (main f go os arch connected) tr (Done Returned) ->
  exists key pre run, exec (Run (config_of f key)) run (Done None) /\ tr = pre ++ run ++ [sev WaitShutdownDone tt].
Proof.
  unfold main. intros H. apply exec_bind in H as [([] & t0 & tr0 & _ & H & ->)|[_ [=]]].
  destruct (showVersion f).
  { apply exec_bind in H as [([] & ? & ? & _ & H & ->)|[_ [=]]]. by apply exec_inv in H as [_ [=]]. }
  destruct (String.eqb (apiURL f) ""); [by apply exec_inv in H as [_ [=]]|].
  apply exec_bind in H as [(key & t1 & tr1 & _ & H & ->)|[_ [=]]].
  destruct (String.eqb key ""); [by apply exec_inv in H as [_ [=]]|].
  apply exec_bind in H as [([] & t2 & tr2 & _ & H & ->)|[_ [=]]]. unfold serve in H.
  apply exec_bind in H as [([d|e] & t3 & tr3 & _ & H & ->)|[_ [=]]]; [|by apply exec_inv in H as [_ [=]]].
  do 2 (apply exec_bind in H as [([] & ? & ? & _ & H & ->)|[_ [=]]]).
  apply exec_bind in H as [([e|] & run & tr6 & Hrun & H & ->)|[_ [=]]]; [by apply exec_inv in H as [_ [=]]|].
  apply exec_bind in H as [([] & tw & ? & Hw & H & ->)|[_ [=]]]. apply exec_inv in H as [-> _].
  apply exec_inv in Hw as ([] & ? & -> & Hw). apply exec_inv in Hw as [-> _].
  exists key. eexists _, run. split; [done|]. rewrite app_nil_r. change (ev (Sg := ssig) WaitShutdownDone ()) with (sev WaitShutdownDone tt).
  by rewrite !app_assoc.
Qed.

(** The server [main] configured from the flags has served to its end without an
    error, and [main] then only waited. *)
Definition served_until (f : flags) (p : process) : Prop :=
  exists key pre run, exec (Run (config_of f key)) (run ++ [sev Serve None]) (Done None) /\
    pr_main_log p = pre ++ run ++ [sev Serve None; sev WaitShutdownDone tt].

(** The handler has received a signal and run [Stop] to its end, and did nothing
    after it closed the channel. *)
Definition stopped (p : process) : Prop :=
  pr_handler p = Some (Ret tt) /\
  exists stop, exec Stop stop (Done tt) /\
    pr_handler_log p = sev ReceiveSignal tt :: stop ++ [sev CloseShutdownDone tt].

(** C39: the process does not end while it still stops. In every interleaving of [main]
    with the goroutine that it starts for the signals: when [main] has returned, the
    server it configured from the flags has served to its end without an error, a
    signal was received, and Stop, which drains the server and closes the client, has run
    to its end; [main] and the handler did nothing after that. *)
Theorem main_waits_for_Stop f go os arch connected p :
  rtc process_step (start_process (main f go os arch connected)) p -> pr_main p = Ret Returned ->
  served_until f p /\ stopped p.
Proof.
  intros Hr E. destruct (process_reach_ok _ _ (main_once f go os arch connected) Hr) as (Hm & Hh & Hc & Hwait).
  rewrite E in Hm. apply partial_exec in Hm. destruct (main_returned _ _ _ _ _ _ Hm) as (key & pre & run & Hrun & El).
  rewrite El in Hwait. rewrite Hwait in Hc by (rewrite !elem_of_app, list_elem_of_singleton; auto).
  destruct (Run_served _ _ Hrun) as [t ->]. split.
  - exists key, pre, t. split; [done|]. by rewrite El, <- !app_assoc.
  - unfold stopped. destruct (pr_handler p) as [h|]; [|destruct Hh as [Hh _]; by rewrite Hh in Hc].
    destruct Hh as [Hh _]. destruct (handler_closed _ _ Hh (eq_sym Hc)) as [-> Hs]. by split.
Qed.

(** ** A concrete interleaving *)

(** What the process meets: everything works, there is a gRPC server, the drain
    ends in time and there is no cluster. *)
Definition calm_answer (o : sop) : sans o :=
  match o return sans o with
  | ParseEndpoint _ => Ok ("unix", "", "/csi.sock")
  | RemoveSocket _ | ParseTemplates | Listen _ _ | Serve | ShutdownMetrics _ | ShutdownDashboard _ | ListenAndServe _
  | NewClient _ _ _ | SetVerbosity _ => None
  | GetServer GrpcServer | GetServer MetricsServer | DrainedWithin _ => true
  | GetServer _ | PollStopCh | InClusterConfig | NewForConfig => false
  | Getenv key => if String.eqb key "NASTY_API_KEY" then "secret" else ""
  | SNow => 0
  | _ => tt
  end.

(** One step of [main] ([true]) or of the handler. *)
Definition turn (b : bool) (p : process) : option process :=
  if b then
    match pr_main p with
    | Vis o k =>
        if main_may o (pr_closed p) then
          Some (mkProcess (k (calm_answer o)) (pr_main_log p ++ [sev o (calm_answer o)]) (after_main o (pr_handler p))
                  (pr_handler_log p) (pr_closed p))
        else None
    | _ => None
    end
  else
    match pr_handler p with
    | Some (Vis o k) =>
        if ended (pr_main p) then None
        else Some (mkProcess (pr_main p) (pr_main_log p) (Some (k (calm_answer o))) (pr_handler_log p ++ [sev o (calm_answer o)])
                     (after_handler o (pr_closed p)))
    | _ => None
    end.

Lemma turn_sound b p p' : turn b p = Some p' -> process_step p p'.
Proof.
  unfold turn. destruct b, p as [m l h lh c]; cbn.
  - destruct m as [| |o k]; try done. destruct (main_may o c) eqn:E; [|done]. intros [= <-]. by apply step_main.
  - destruct h as [[| |o k]|]; try done. destruct (ended m) eqn:E; [done|]. intros [= <-]. by apply step_handler.
Qed.

Fixpoint turns (bs : list bool) (p : process) : option process :=
  match bs with [] => Some p | b :: rest => p' ← turn b p; turns rest p' end.

Lemma turns_sound bs p p' : turns bs p = Some p' -> rtc process_step p p'.
Proof.
  revert p. induction bs as [|b bs IH]; intros p; cbn; [by intros [= ->]|].
  destruct (turn b p) as [q|] eqn:E; cbn; [|done]. intros H. eapply rtc_l; [by apply (turn_sound b)|by apply IH].
Qed.

Definition demo_flags : flags :=
  mkFlags (endpoint default_flags) "node1" "nasty.csi.io" "ws://nas" "" ":8080" false false false false 5 "" "" "".
Definition demo_main : Proc process_end := main demo_flags "go1.25" "linux" "amd64" true.

(** The signal arrives while the server serves; [main] waits for the handler. *)
Definition demo_turns : list bool := repeat true 20 ++ repeat false 10 ++ [true] ++ repeat false 3 ++ [true].
Definition demo_end : process := default (start_process demo_main) (turns demo_turns (start_process demo_main)).

Lemma demo_turns_run : turns demo_turns (start_process demo_main) = Some demo_end.
Proof.
  unfold demo_end. assert (match turns demo_turns (start_process demo_main) with Some _ => true | None => false end = true) as H
    by (vm_compute; reflexivity).
  by destruct (turns demo_turns (start_process demo_main)).
Qed.

(** Without the close of the channel [main] cannot return. *)
Example demo_waits : turn true (default demo_end (turns (take 33 demo_turns) (start_process demo_main))) = None.
Proof. vm_compute. reflexivity. Qed.

Lemma main_waits_for_Stop_witness :
  pr_main demo_end = Ret Returned /\ pr_handler demo_end = Some (Ret tt) /\ length (pr_handler_log demo_end) = 13%nat.
Proof.
  assert (pr_main demo_end = Ret Returned) as E by (vm_compute; reflexivity). split; [exact E|]. split; [|vm_compute; reflexivity].
  exact (proj1 (proj2 (main_waits_for_Stop demo_flags "go1.25" "linux" "amd64" true demo_end
                         (turns_sound _ _ _ demo_turns_run) E))).
Defined.
